(* ===== verification/_CoqProject ===== *)
-Q . S2P
Prelude.v
Bytes.v
Text.v
Alignment.v
ArrayVec.v
Bump.v
Api.v
Malloc.v
Machine.v
Memory.v
VmArea.v
PageTable.v
VmSpace.v
SharedRef.v
X64Context.v
Thread.v
StartInfo.v
Server.v
ServerApi.v
Lx.v
Elf.v
Initfs.v
Loader.v
LxStack.v
LxProcess.v
Multiboot.v
Pvh.v
Devices.v
Print.v
MpTable.v
Descriptors.v
Interrupt.v
SpinLock.v
Heap.v
Boot.v
X64Boot.v
RustBoot.v
System.v
