(* ===== verification/Prelude.v ===== *)
(** * FTL: a verification development

    FTL is an x86-64 microkernel in Rust ([src/kernel]) with servers that run in
    the kernel's address space ([src/servers]) on libraries of their own
    ([src/libs/rust]).  This development translates the program into Rocq
    functions, one definition per function of the source and under its name
    where Rocq allows it, and proves what makes each part correct and what the
    parts promise each other.

    ** How code is modelled

    - A pure function is a Rocq function to [outcome]: [Ret] with the result,
      [Panic], [Undef] (undefined behaviour) or [Hang] (a loop that runs on).
      Code with state is a function of the state in the monad [M]; a Rust
      [Result] is [result] and the [?] operator the notations [let?] and [do?].
    - A machine integer is a [Z] in its range, and arithmetic goes through
      [checked_at]: overflow panics in the dev profile and wraps in the release
      profile ([Profile], below).  A theorem that does not name a profile holds
      for both.
    - Memory is a function from addresses to bytes.  Safe containers (Vec,
      VecDeque) are lists; where the code asks for memory with [try_reserve] or
      checks the allocator's answer, that answer is an argument of the
      definition, and the theorems hold for every answer.
    - Each component's state is a record, and a component that uses another one
      is written against an interface: page tables and memory areas against the
      class [Machine] (what the code needs of physical memory and of the page
      allocator; [MachineLaws] are the laws, proved for [Phys] in Memory.v), the
      reference counts against the class [Object], the scheduler against
      [KernelExt] (the state that it carries along), the heaps against
      [ChunkSource], and the drivers against [Bus].
    - Hardware that the sources do not give is a parameter.  [Bus] is an access
      to a port or register; [UartLaws], [IoApicLaws] and [IoApicApart] state
      the documented behaviour that three of the theorems use, and a concrete
      machine ([Pc]) shows that they can hold.
    - Assembly is a list of instructions of a small machine with the processor's
      registers, memory, and where it matters its segment and page checks
      (X64Context.v for the context switches, X64Boot.v for the boot).

    ** The files

    - Prelude.v: outcomes, monads, machine integers, tactics, hint databases.
      Bytes.v: byte buffers, little-endian integers, memory.  Text.v: what is
      used of [core::str] and [core::fmt].
    - Alignment.v (ftl_utils/alignment.rs, kernel/address.rs), ArrayVec.v
      (ftl_arrayvec), Bump.v (ftl_bump_allocator), Malloc.v (ftl_malloc), Api.v
      (the data types of ftl_api): the libraries.
    - Machine.v: the interface to physical memory.  Memory.v (kernel/memory.rs):
      the page allocator and its initialisation from the RAM map.
    - VmArea.v (kernel/vmarea.rs): lazily filled memory areas.
    - PageTable.v (kernel/arch/x64/vmspace.rs): page tables, against a model of
      the processor's page walk.  VmSpace.v (kernel/vmspace.rs): address spaces.
    - SharedRef.v (kernel/shared_ref.rs): reference counts and handles.
    - X64Context.v (kernel/arch/x64/thread.rs, idt.rs, syscall.rs): the assembly
      that saves and restores user contexts, run by a small machine.
    - Thread.v (kernel/thread.rs, scheduler.rs, syscall.rs): threads, the run
      queue and system calls.  Interrupt.v (kernel/arch/x64/idt.rs): the Rust
      half of the interrupt path.
    - Descriptors.v (kernel/arch/x64/gdt.rs, idt.rs): the descriptor tables,
      against a model of how the processor decodes them and delivers interrupts.
    - Devices.v (the drivers of kernel/arch/x64), MpTable.v (mp_table.rs), Print.v
      (kernel/print.rs, panic.rs, ftl_utils/formatter.rs): what drives them.
    - SpinLock.v (ftl_utils/spinlock.rs): the lock under every interleaving.
    - Heap.v (kernel/memory.rs, ftl_api/allocator.rs): the global allocators.
    - StartInfo.v and ServerApi.v (ftl_api): the servers' side of kernel calls
      and upcalls.  Server.v (kernel/server.rs): the kernel's side.
    - Elf.v (ftl_elf), Initfs.v (kernel/initfs.rs), Loader.v (kernel/loader.rs):
      from the boot module to the image of a server in memory.
    - LxStack.v (servers/lx/src/elf.rs): the initial stack of a Linux process.
      Lx.v (servers/lx/src/syscall.rs, errno.rs, the upcalls of process.rs): the
      system calls.  LxProcess.v (process.rs, lib.rs): creation and start.
    - Multiboot.v, Pvh.v (kernel/arch/x64/multiboot.rs, pvh.rs): the boot
      information.  Boot.v (kernel/boot.rs, server.rs): the boot sequence.
    - X64Boot.v (kernel/arch/x64/boot.rs, the boot GDT of gdt.rs): the entry
      assembly, from protected mode to long mode.  RustBoot.v (boot.rs,
      cpuvar.rs): [rust_boot] and the per-CPU structure, over one memory that
      the devices' tables, the descriptor tables and the kernel share.
    - System.v (idt.rs, syscall.rs, thread.rs): the running system.  A program's
      computations, stores, interrupts and system calls as events of the whole
      machine.

    ** What the theorems show

    - Memory: after [memory_init] the allocator owns exactly the free RAM below
      the direct map's end; what it hands out is fresh, aligned and zeroed when
      asked; heap blocks that are live are disjoint, first fit is complete.
    - Virtual memory: an area behaves as an array of bytes isolated from all
      other memory; mapping it makes its bytes, and nothing else, visible at
      the requested addresses, with the requested rights, in the one space; the
      kernel half of every space stays closed to user code.
    - Objects: counters equal the number of references, so nothing is used after
      it is freed and nothing leaks; handles are checked for type and rights.
    - Threads: saving and restoring a context is transparent; the scheduler
      invariant survives every system call; a blocked thread resumes once; a
      terminated thread is reported exactly once, whatever the interleaving.
    - Loading: the parsers return what a file was written with, end on every
      input, and the loader builds the relocated image.
    - Servers: any sequence of kernel calls with the handles a server was given
      returns and keeps the kernel's invariant.
    - Linux: the initial stack has the layout of the System V ABI; starting the
      server adds one runnable thread at the program's entry; a system call has
      its documented effect and the program continues with the result.
    - The kernel's image: the invariant of the kernel's memory ([ks_inv]) names
      statics that stay as they are ([KernelImage]: the page table of the direct
      map, the descriptor tables), and every kernel call, system call and boot
      step keeps it.
    - Hardware: the processor decodes the descriptor tables as the kernel means
      them and every vector reaches the handler; the console driver sends the
      given bytes; the timer's input is found in the MP table and routed.
    - Locks: critical sections behave as single steps, and every reachable state
      can finish.
    - Boot: both boot protocols give the same boot information for the same
      machine.  [x64_boot_enters_long_mode] runs the entry assembly: long mode,
      the arguments, the stack and page tables that map exactly the first 4 GiB
      twice.  [boot_reaches_program] composes the parts from the first
      instruction of the kernel to the first instruction of the program, with
      the descriptor tables, the timer and the per-CPU structure in place, or a
      panic because the loader or the server fails on the state that
      [memory_init] left.  The
      code of the loaded server is a parameter of [boot], instantiated there with
      the model of the Linux server ([lx_entry]); it is not derived from the bytes
      of the ELF file.
    - The running system: [program_step] follows each event of a program through
      the kernel and back to user mode; user code can only write to frames that
      hold neither page tables nor the kernel's statics (the part [ks_leaves] of
      [ks_inv]), so the descriptor tables stay intact.  [system_runs] puts the
      boot and any sequence of such events together; its witness boots a machine
      with 16 MiB of memory into its program, which is interrupted, stores a
      byte and calls [write].
    - Where the code does not do what it means to, the theorem says what it does:
      non-canonical addresses in [map], short reads in [read_bytes], large
      [e_phoff], negative [iovcnt], empty Multiboot tags, the last input of the
      I/O APIC, alignments above 16 bytes, server files off an 8-byte boundary, a
      boot with CR0.WP set.

    ** Fuel

    Loops that the source does not bound take fuel and return [Hang] without it.
    Most are called with a bound that the source's data gives and that the
    theorems show to be enough: a byte of data per turn for [write_loop] and
    [read_loop], 256 bytes per turn for [write_chunks], the length of the run
    queue for [pick_next], the nesting depth of ownership ([max_rank]) for
    [drop_ref], the number of headers for [malloc_loop], a header's size of the
    file per turn for [initfs_files] and [init_files], eight bytes per turn for
    [tags_loop], the range of the 16-bit entry count for [mp_for].  The waits for
    the serial port and for the end of the command line take their fuel as an
    argument, and the theorems ask for as much as the device or the string
    needs.  [multiboot_empty_tag_hangs] holds for every amount of fuel.

    ** Not modelled

    Locks inside the other files: a critical section is one step there, which
    SpinLock.v justifies for sequentially consistent accesses.  Messages of the
    kernel other than the banner of [rust_boot]; their printing is in Print.v.
    Processors other than the first.  User code that changes its FS or GS base
    with [wrfsbase] or [wrgsbase], that accesses addresses above the lower half,
    or that raises exceptions other than page faults.  The accessed and dirty bits that the
    processor sets in page tables, and TLBs.  From [rust_boot] on, the kernel's
    accesses go to the direct map without a walk: X64Boot.v shows that it maps
    as they assume as long as CR0.WP is clear, and PageTable.v that every address
    space keeps it.  The host stub of the architecture layer (arch/host), most
    of which is [todo!()], and the crate roots, which only list modules. *)

From stdpp Require Export base tactics numbers list gmap sorting.
From Stdlib Require Export ZArith Lia.

#[global] Open Scope Z_scope.

(** ** Outcomes

    The kernel is built with [panic = "abort"]: a panic ends the run and no
    state survives it.  [Undef] is Rust's undefined behaviour: reading a slot
    that was never initialised, following a dangling pointer, or touching an
    address outside the memory the code can reach.  [Hang] is a loop that does
    not end: definitions of loops that the code does not bound take fuel, and
    running out of it is [Hang]. *)

Inductive outcome (A : Type) : Type :=
| Ret (a : A)
| Panic
| Undef
| Hang.
Arguments Ret {A} a.
Arguments Panic {A}.
Arguments Undef {A}.
Arguments Hang {A}.

Definition obind {A B : Type} (m : outcome A) (k : A -> outcome B) : outcome B :=
  match m with
  | Ret a => k a
  | Panic => Panic
  | Undef => Undef
  | Hang => Hang
  end.

(** Rust's [Result<A, E>]. *)
Inductive result (E A : Type) : Type :=
| Ok (a : A)
| Err (e : E).
Arguments Ok {E A} a.
Arguments Err {E A} e.

(** A stateful computation over a state [S]. *)
Definition M (S A : Type) : Type := S -> outcome (A * S).

Definition ret {S A : Type} (a : A) : M S A := fun s => Ret (a, s).

Definition bind {S A B : Type} (m : M S A) (k : A -> M S B) : M S B :=
  fun s => match m s with
           | Ret (a, s') => k a s'
           | Panic => Panic
           | Undef => Undef
           | Hang => Hang
           end.

(** The [?] operator of Rust: an [Err] leaves the function, keeping the state
    the failing call left behind. *)
Definition bindr {S E A B : Type} (m : M S (result E A)) (k : A -> M S (result E B))
  : M S (result E B) :=
  bind m (fun r => match r with
                   | Ok a => k a
                   | Err e => ret (Err e)
                   end).

(** The same operator where no state is threaded. *)
Definition obindr {E A B : Type} (m : outcome (result E A)) (k : A -> outcome (result E B))
  : outcome (result E B) :=
  obind m (fun r => match r with
                    | Ok a => k a
                    | Err e => Ret (Err e)
                    end).

Definition lift {S A : Type} (m : outcome A) : M S A :=
  fun s => match m with
           | Ret a => Ret (a, s)
           | Panic => Panic
           | Undef => Undef
           | Hang => Hang
           end.

Definition get {S : Type} : M S S := fun s => Ret (s, s).
Definition put {S : Type} (s : S) : M S unit := fun _ => Ret (tt, s).

Declare Scope ftl_scope.
Delimit Scope ftl_scope with ftl.
#[global] Open Scope ftl_scope.

Notation "'let*' p ':=' m 'in' k" := (obind m (fun p => k))
  (at level 10, p pattern, m at level 100, k at level 200,
   format "'[v' 'let*'  p  ':='  m  'in' '/' k ']'") : ftl_scope.
Notation "'let?' p ':=' m 'in' k" := (obindr m (fun p => k))
  (at level 10, p pattern, m at level 100, k at level 200,
   format "'[v' 'let?'  p  ':='  m  'in' '/' k ']'") : ftl_scope.
Notation "'do*' p ':=' m 'in' k" := (bind m (fun p => k))
  (at level 10, p pattern, m at level 100, k at level 200,
   format "'[v' 'do*'  p  ':='  m  'in' '/' k ']'") : ftl_scope.
Notation "'do?' p ':=' m 'in' k" := (bindr m (fun p => k))
  (at level 10, p pattern, m at level 100, k at level 200,
   format "'[v' 'do?'  p  ':='  m  'in' '/' k ']'") : ftl_scope.

(** The result of a run, without the final state. *)
Definition observe {S A : Type} (m : M S A) (s : S) : outcome A :=
  let* (a, _) := m s in Ret a.

(** [Option::ok_or] and [Result::is_err]. *)
Definition ok_or {E A : Type} (o : option A) (e : E) : result E A :=
  match o with
  | Some a => Ok a
  | None => Err e
  end.

Definition is_err {E A : Type} (r : result E A) : bool :=
  match r with
  | Ok _ => false
  | Err _ => true
  end.

(** ** Build profiles

    [Cargo.toml] leaves [overflow-checks] and [debug-assertions] at cargo's
    defaults: both on in the dev profile (what [build.sh] builds unless
    [RELEASE] is set), both off in the release profile.  Definitions whose
    meaning depends on them take the profile as a class argument; theorems
    quantify over it unless they name one. *)

Class Profile : Set := {
  overflow_checks : bool;
  debug_assertions : bool
}.

Definition dev : Profile := {| overflow_checks := true; debug_assertions := true |}.
Definition release : Profile := {| overflow_checks := false; debug_assertions := false |}.

(** ** Machine integers

    A [w]-bit unsigned integer is a [Z] in [0, 2^w). *)

Definition USIZE_MAX : Z := 2 ^ 64 - 1.
Definition U32_MAX : Z := 2 ^ 32 - 1.
Definition is_usize (x : Z) : Prop := 0 <= x < 2 ^ 64.

(** [x as u64], [x as u32], ...: truncation. *)
Definition wrap (w x : Z) : Z := x mod 2 ^ w.

(** [x as i64] for the 64-bit pattern of [x]. *)
Definition to_signed (w x : Z) : Z :=
  let y := wrap w x in
  if y <? 2 ^ (w - 1) then y else y - 2 ^ w.

Section Arithmetic.
Context {P : Profile}.

(** The value of an arithmetic expression whose mathematical result is [r]. *)
Definition checked_at (w r : Z) : outcome Z :=
  if (0 <=? r) && (r <? 2 ^ w) then Ret r
  else if overflow_checks then Panic
  else Ret (wrap w r).

Definition usize_add (a b : Z) : outcome Z := checked_at 64 (a + b).
Definition usize_sub (a b : Z) : outcome Z := checked_at 64 (a - b).
Definition usize_mul (a b : Z) : outcome Z := checked_at 64 (a * b).

Definition debug_assert (b : bool) : outcome unit :=
  if debug_assertions then (if b then Ret tt else Panic) else Ret tt.

(** A precondition of an unsafe operation: the checks the dev profile inserts
    (misaligned dereference, [slice::from_raw_parts]) panic; without them a
    violation is undefined behaviour. *)
Definition ub_check (b : bool) : outcome unit :=
  if b then Ret tt else if debug_assertions then Panic else Undef.

End Arithmetic.

(** [assert!] and friends. *)
Definition rust_assert (b : bool) : outcome unit := if b then Ret tt else Panic.

Definition checked_add (w a b : Z) : option Z :=
  if a + b <? 2 ^ w then Some (a + b) else None.
Definition checked_sub (a b : Z) : option Z :=
  if b <=? a then Some (a - b) else None.
Definition saturating_sub (a b : Z) : Z := Z.max 0 (a - b).

(** [!x] on a [w]-bit unsigned integer. *)
Definition unot (w x : Z) : Z := Z.lxor x (Z.ones w).

(** [usize::is_power_of_two]: exactly one bit set. *)
Definition is_power_of_two (x : Z) : bool :=
  (0 <? x) && (Z.land x (x - 1) =? 0).

(** * Lemmas *)

Create HintDb ftl.
Create Rewrite HintDb ftl_arith.

Ltac simpl_bool :=
  repeat match goal with
  | H : _ && _ = true |- _ => apply andb_true_iff in H as [? ?]
  | H : _ || _ = false |- _ => apply orb_false_iff in H as [? ?]
  | H : negb _ = true |- _ => apply negb_true_iff in H
  | H : negb _ = false |- _ => apply negb_false_iff in H
  | H : (_ <? _) = true |- _ => apply Z.ltb_lt in H
  | H : (_ <? _) = false |- _ => apply Z.ltb_ge in H
  | H : (_ <=? _) = true |- _ => apply Z.leb_le in H
  | H : (_ <=? _) = false |- _ => apply Z.leb_gt in H
  | H : (_ =? _) = true |- _ => apply Z.eqb_eq in H
  | H : (_ =? _) = false |- _ => apply Z.eqb_neq in H
  end.

(** Case split on the first boolean comparison of integers in sight. *)
Ltac case_Z :=
  match goal with
  | |- context [?a <? ?b] => destruct (Z.ltb_spec a b)
  | |- context [?a <=? ?b] => destruct (Z.leb_spec a b)
  | |- context [?a =? ?b] => destruct (Z.eqb_spec a b)
  | H : context [?a <? ?b] |- _ => destruct (Z.ltb_spec a b)
  | H : context [?a <=? ?b] |- _ => destruct (Z.leb_spec a b)
  | H : context [?a =? ?b] |- _ => destruct (Z.eqb_spec a b)
  end.

Ltac dlia := Z.to_euclidean_division_equations; lia.

(** Discharge boolean side conditions of rewriting. *)
Ltac bool_lia :=
  repeat match goal with
  | |- _ && _ = true => apply andb_true_iff; split
  | |- (_ <? _) = true => apply Z.ltb_lt
  | |- (_ <? _) = false => apply Z.ltb_ge
  | |- (_ <=? _) = true => apply Z.leb_le
  | |- (_ <=? _) = false => apply Z.leb_gt
  | |- (_ =? _) = true => apply Z.eqb_eq
  | |- (_ =? _) = false => apply Z.eqb_neq
  end; try lia.

(** ** Running programs *)

Section RunRules.
Context {S : Type}.

Lemma observe_run {A} (m : M S A) s a : observe m s = Ret a -> exists s', m s = Ret (a, s').
Proof. unfold observe. destruct (m s) as [[b s']| | |]; simpl; naive_solver. Qed.

(** Running a prefix of a program whose outcome is known. *)
Lemma bind_assoc {A B C : Type} (m : M S A) (k : A -> M S B) (k' : B -> M S C) s :
  (do* b := (do* a := m in k a) in k' b) s = (do* a := m in do* b := k a in k' b) s.
Proof. unfold bind. by destruct (m s) as [[a s']| | |]. Qed.

Lemma bind_run {A B} (m : M S A) (k : A -> M S B) s a s' :
  m s = Ret (a, s') -> bind m k s = k a s'.
Proof. unfold bind. by intros ->. Qed.

Lemma bind_lift {A B} (m : outcome A) (k : A -> M S B) s a :
  m = Ret a -> bind (lift m) k s = k a s.
Proof. by intros ->. Qed.

Lemma bind_get {B} (k : S -> M S B) s : bind get k s = k s s.
Proof. done. Qed.

Lemma bind_ret {A B} (a : A) (k : A -> M S B) s : bind (ret a) k s = k a s.
Proof. done. Qed.

Lemma bindr_ok {E A B} (m : M S (result E A)) (k : A -> M S (result E B)) s a s' :
  m s = Ret (Ok a, s') -> bindr m k s = k a s'.
Proof. unfold bindr, bind. by intros ->. Qed.

Lemma bindr_err {E A B} (m : M S (result E A)) (k : A -> M S (result E B)) s e s' :
  m s = Ret (Err e, s') -> bindr m k s = Ret (Err e, s').
Proof. unfold bindr, bind. by intros ->. Qed.

End RunRules.

(** ** Arithmetic that does not overflow *)

Section ArithmeticRules.
Context {P : Profile}.

Lemma checked_at_ok w r : 0 <= r < 2 ^ w -> checked_at w r = Ret r.
Proof.
  intros [H1 H2]. unfold checked_at.
  apply Z.leb_le in H1. apply Z.ltb_lt in H2. by rewrite H1, H2.
Qed.

Lemma usize_add_ok a b : 0 <= a + b < 2 ^ 64 -> usize_add a b = Ret (a + b).
Proof. apply checked_at_ok. Qed.

Lemma usize_sub_ok a b : 0 <= a - b < 2 ^ 64 -> usize_sub a b = Ret (a - b).
Proof. apply checked_at_ok. Qed.

Lemma usize_mul_ok a b : 0 <= a * b < 2 ^ 64 -> usize_mul a b = Ret (a * b).
Proof. apply checked_at_ok. Qed.

Lemma debug_assert_ok : debug_assert true = Ret tt.
Proof. unfold debug_assert. by destruct debug_assertions. Qed.

End ArithmeticRules.

Lemma checked_add_spec w a b :
  checked_add w a b = Some (a + b) /\ a + b < 2 ^ w \/
  checked_add w a b = None /\ 2 ^ w <= a + b.
Proof. unfold checked_add. case_Z; [left|right]; done. Qed.

Lemma checked_sub_spec a b :
  checked_sub a b = Some (a - b) /\ b <= a \/
  checked_sub a b = None /\ a < b.
Proof. unfold checked_sub. case_Z; [left|right]; done. Qed.

(** ** Powers of two and masks *)

Lemma pow2_pos k : 0 <= k -> 0 < 2 ^ k.
Proof. intros. apply Z.pow_pos_nonneg; lia. Qed.

Lemma is_power_of_two_pow2 k : 0 <= k -> is_power_of_two (2 ^ k) = true.
Proof.
  intros Hk. unfold is_power_of_two. pose proof (pow2_pos k Hk).
  bool_lia. rewrite Z.sub_1_r, <- Z.ones_equiv, Z.land_ones by lia.
  by apply Z.mod_same; lia.
Qed.

(** Clearing the low [k] bits of a [w]-bit word rounds it down. *)
Lemma land_unot_ones w k x :
  0 <= k <= w -> 0 <= x < 2 ^ w -> Z.land x (unot w (Z.ones k)) = x - x mod 2 ^ k.
Proof.
  intros Hk Hx.
  assert (Z.land x (unot w (Z.ones k)) = Z.ldiff x (Z.ones k)) as ->.
  { apply Z.bits_inj'. intros i Hi. unfold unot.
    rewrite Z.land_spec, Z.ldiff_spec, Z.lxor_spec.
    destruct (Z.ltb_spec i w).
    - rewrite (Z.ones_spec_low w) by lia. by destruct (Z.testbit (Z.ones k) i).
    - replace x with (x mod 2 ^ w) by (apply Z.mod_small; lia).
      by rewrite Z.mod_pow2_bits_high by lia. }
  rewrite Z.ldiff_ones_r, Z.shiftl_mul_pow2, Z.shiftr_div_pow2 by lia.
  rewrite (Z.mod_eq x (2 ^ k)); [lia|]. pose proof (pow2_pos k). lia.
Qed.

Lemma land_ones_mask k x : 0 <= k -> Z.land x (2 ^ k - 1) = x mod 2 ^ k.
Proof. intros. by rewrite Z.sub_1_r, <- Z.ones_equiv, Z.land_ones by lia. Qed.

(** A disjoint [or] is a sum. *)
Lemma lor_add_low k a b :
  0 <= k -> a mod 2 ^ k = 0 -> 0 <= b < 2 ^ k -> Z.lor a b = a + b.
Proof.
  intros Hk Ha Hb. symmetry.
  rewrite Z.add_nocarry_lxor, Z.lxor_lor; [done|..];
    apply Z.bits_inj'; intros i Hi; rewrite Z.land_spec, Z.bits_0;
    (destruct (Z.ltb_spec i k);
     [ rewrite <- (Z.mod_pow2_bits_low a k) by lia; by rewrite Ha, Z.bits_0
     | rewrite <- (Z.mod_small b (2 ^ k)) by lia;
       rewrite (Z.mod_pow2_bits_high b) by lia; apply andb_false_r ]).
Qed.

Lemma land_pow2 x k : 0 <= k -> Z.land x (2 ^ k) = if Z.testbit x k then 2 ^ k else 0.
Proof.
  intros Hk. apply Z.bits_inj'. intros i Hi. rewrite Z.land_spec, Z.pow2_bits_eqb by lia.
  destruct (Z.eqb_spec k i) as [->|Hne].
  - destruct (Z.testbit x i); [by rewrite Z.pow2_bits_true by lia|by rewrite Z.bits_0].
  - rewrite andb_false_r. destruct (Z.testbit x k); [by rewrite Z.pow2_bits_false by lia|by rewrite Z.bits_0].
Qed.

(** A test of a single bit, as Rust code writes it. *)
Lemma bit_test x k : 0 <= k -> negb (Z.land x (Z.shiftl 1 k) =? 0) = Z.testbit x k.
Proof.
  intros Hk. rewrite Z.shiftl_1_l, land_pow2 by done. pose proof (pow2_pos k Hk).
  destruct (Z.testbit x k); [|done]. by rewrite (proj2 (Z.eqb_neq _ _)) by lia.
Qed.

(** The low bits of a multiple of [2 ^ k]. *)
Lemma multiple_low_bits k x i : x mod 2 ^ k = 0 -> 0 <= i < k -> Z.testbit x i = false.
Proof. intros Hx Hi. rewrite <- (Z.mod_pow2_bits_low x k) by lia. by rewrite Hx, Z.bits_0. Qed.

Lemma small_high_bits k x i : 0 <= x < 2 ^ k -> 0 <= k <= i -> Z.testbit x i = false.
Proof. intros Hx Hi. rewrite <- (Z.mod_small x (2 ^ k)) by lia. by apply Z.mod_pow2_bits_high. Qed.

#[export] Hint Rewrite @usize_add_ok @usize_sub_ok @usize_mul_ok @debug_assert_ok
  using lia : ftl_arith.
#[export] Hint Resolve pow2_pos : ftl.
