(* ===== verification/Bytes.v ===== *)
(** * Bytes, slices and memory

    What the source uses of Rust's byte slices ([&buf[a..b]], [slice::get],
    [to_le_bytes], little-endian [repr(C)] reads) and the byte-addressed
    physical memory that the unsafe code of the kernel reads and writes. *)

From S2P Require Import Prelude.

(** A byte buffer is a list of integers in [0, 256). *)
Definition is_byte (b : Z) : Prop := 0 <= b < 256.
Abbreviation bytes_ok := (Forall is_byte).

Abbreviation len l := (Z.of_nat (length l)).

(** ** Little-endian integers *)

Fixpoint le_val (bs : list Z) : Z :=
  match bs with
  | [] => 0
  | b :: r => b + 256 * le_val r
  end.

Fixpoint le_bytes (n : nat) (v : Z) : list Z :=
  match n with
  | O => []
  | S n => v mod 256 :: le_bytes n (v / 256)
  end.

(** ** Slices *)

(** [l.get(a..b)]. *)
Definition slice_get {A} (l : list A) (a b : Z) : option (list A) :=
  if (0 <=? a) && (a <=? b) && (b <=? len l)
  then Some (take (Z.to_nat (b - a)) (drop (Z.to_nat a) l))
  else None.

(** [&l[a..b]]: the same, with a panic in place of [None]. *)
Definition slice_index {A} (l : list A) (a b : Z) : outcome (list A) :=
  match slice_get l a b with
  | Some x => Ret x
  | None => Panic
  end.

Definition ends_with (l suffix : list Z) : bool :=
  bool_decide (length suffix <= length l)%nat &&
  bool_decide (drop (length l - length suffix) l = suffix).

Definition starts_with (l prefix : list Z) : bool :=
  bool_decide (take (length prefix) l = prefix).

(** ** Structures in buffers *)

(** The [n]-byte little-endian field at offset [o]. *)
Definition field (b : list Z) (o n : nat) : Z := le_val (take n (drop o b)).

(** The elements of an array of [n] structures of [size] bytes. *)
Fixpoint read_array {A} (read : list Z -> A) (size n : nat) (b : list Z) : list A :=
  match n with
  | O => []
  | S n => read (take size b) :: read_array read size n (drop size b)
  end.

(** ** Memory *)

Definition mem := Z -> Z.

Definition mem_read (m : mem) (a : Z) (n : nat) : list Z := m <$> seqZ a (Z.of_nat n).

Definition mem_write (m : mem) (a : Z) (bs : list Z) : mem :=
  let end_ := a + len bs in
  fun x => if (a <=? x) && (x <? end_) then default (m x) (bs !! Z.to_nat (x - a)) else m x.

(** The memory holds [bs] at [a]. *)
Definition mem_holds (m : mem) (a : Z) (bs : list Z) : Prop := mem_read m a (length bs) = bs.

(** [ptr::write_bytes(a, b, n)]. *)
Definition mem_fill (m : mem) (a n b : Z) : mem :=
  fun x => if (a <=? x) && (x <? a + n) then b else m x.

(** * Lemmas *)

Lemma le_val_bound bs : bytes_ok bs -> 0 <= le_val bs < 256 ^ len bs.
Proof.
  induction 1 as [|b r Hb Hr IH]; cbn [le_val length]; [lia|].
  rewrite Nat2Z.inj_succ, Z.pow_succ_r by lia. unfold is_byte in Hb. lia.
Qed.

Lemma le_val_app l1 l2 : le_val (l1 ++ l2) = le_val l1 + 256 ^ len l1 * le_val l2.
Proof.
  induction l1 as [|b l1 IH]; cbn [le_val length app]; [lia|].
  rewrite IH, Nat2Z.inj_succ, Z.pow_succ_r by lia. lia.
Qed.

Lemma length_le_bytes n v : length (le_bytes n v) = n.
Proof. revert v. induction n; simpl; auto. Qed.

Lemma le_bytes_ok n v : bytes_ok (le_bytes n v).
Proof.
  revert v. induction n; simpl; constructor; [|done].
  unfold is_byte. apply Z.mod_pos_bound. lia.
Qed.

Lemma le_val_le_bytes n v : le_val (le_bytes n v) = v mod 256 ^ Z.of_nat n.
Proof.
  revert v. induction n as [|n IH]; intros v; cbn [le_val le_bytes].
  - by rewrite Z.mod_1_r.
  - rewrite IH, Nat2Z.inj_succ, Z.pow_succ_r by lia.
    rewrite Z.rem_mul_r by (try apply Z.pow_nonzero; lia). done.
Qed.

Lemma le_val_le_bytes_small n v :
  0 <= v < 256 ^ Z.of_nat n -> le_val (le_bytes n v) = v.
Proof. intros. rewrite le_val_le_bytes. by apply Z.mod_small. Qed.

Lemma le_bytes_le_val bs : bytes_ok bs -> le_bytes (length bs) (le_val bs) = bs.
Proof.
  induction 1 as [|b r Hb Hr IH]; cbn [le_val le_bytes length]; [done|].
  unfold is_byte in Hb. f_equal.
  - rewrite Z.mul_comm, Z.mod_add by lia. by apply Z.mod_small.
  - rewrite Z.mul_comm, Z.div_add by lia. by rewrite (Z.div_small b), Z.add_0_l, IH by lia.
Qed.

Lemma slice_get_Some {A} (l : list A) a b x :
  slice_get l a b = Some x ->
  0 <= a <= b /\ b <= len l /\ x = take (Z.to_nat (b - a)) (drop (Z.to_nat a) l).
Proof.
  unfold slice_get. destruct (_ && _) eqn:E; [|done]. simpl_bool. intros [= <-]. lia || auto.
Qed.

Lemma slice_get_ok {A} (l : list A) a b :
  0 <= a <= b -> b <= len l ->
  slice_get l a b = Some (take (Z.to_nat (b - a)) (drop (Z.to_nat a) l)).
Proof.
  intros. unfold slice_get.
  replace ((0 <=? a) && (a <=? b) && (b <=? len l)) with true; [done|].
  symmetry. bool_lia.
Qed.

Lemma slice_get_length {A} (l : list A) a b x :
  slice_get l a b = Some x -> len x = b - a.
Proof.
  intros (?&?&->)%slice_get_Some. rewrite length_take, length_drop. lia.
Qed.

(** The slice of a buffer in three parts that covers the middle one. *)
Lemma slice_get_middle {A} (l1 l2 l3 : list A) a b :
  a = len l1 -> b = len l1 + len l2 -> slice_get (l1 ++ l2 ++ l3) a b = Some l2.
Proof.
  intros -> ->. rewrite slice_get_ok by (rewrite ?length_app; lia).
  rewrite Nat2Z.id, drop_app_length. f_equal.
  replace (Z.to_nat _) with (length l2) by lia. by rewrite take_app_length.
Qed.

(** Memory. *)

Lemma length_mem_read m a n : length (mem_read m a n) = n.
Proof. unfold mem_read. rewrite length_fmap, length_seqZ. lia. Qed.

Lemma mem_read_lookup m a n (i : nat) :
  (i < n)%nat -> mem_read m a n !! i = Some (m (a + Z.of_nat i)).
Proof.
  intros. unfold mem_read. rewrite list_lookup_fmap, lookup_seqZ_lt by lia. done.
Qed.

Lemma mem_read_ext m m' a n :
  (forall x, a <= x < a + Z.of_nat n -> m x = m' x) -> mem_read m a n = mem_read m' a n.
Proof.
  intros H. apply list_eq_same_length with n; [apply length_mem_read..|].
  intros i x y Hi. rewrite !mem_read_lookup by done.
  rewrite H by lia. congruence.
Qed.

Lemma mem_read_app m a n1 n2 :
  mem_read m a (n1 + n2) = mem_read m a n1 ++ mem_read m (a + Z.of_nat n1) n2.
Proof.
  unfold mem_read. rewrite Nat2Z.inj_add, seqZ_app by lia. apply fmap_app.
Qed.

Lemma mem_write_eq m a bs x : mem_write m a bs x = if a <=? x then default (m x) (bs !! Z.to_nat (x - a)) else m x.
Proof.
  unfold mem_write. destruct (Z.leb_spec a x), (Z.ltb_spec x (a + len bs)); cbn [andb]; try done.
  by rewrite lookup_ge_None_2 by lia.
Qed.

Lemma mem_write_out m a bs x : x < a \/ a + len bs <= x -> mem_write m a bs x = m x.
Proof.
  intros H. rewrite !mem_write_eq. case_Z; [|done].
  rewrite lookup_ge_None_2; [done|lia].
Qed.

Lemma mem_write_in m a bs x b :
  a <= x -> bs !! Z.to_nat (x - a) = Some b -> mem_write m a bs x = b.
Proof. intros Hx Hb. rewrite !mem_write_eq. case_Z; [|lia]. by rewrite Hb. Qed.

Lemma mem_read_write_same m a bs n :
  n = length bs -> mem_read (mem_write m a bs) a n = bs.
Proof.
  intros ->. apply list_eq_same_length with (length bs); [done|apply length_mem_read|].
  intros i x y Hi. rewrite mem_read_lookup by done. intros [= <-] Hy.
  apply mem_write_in; [lia|]. by rewrite Z.add_simpl_l, Nat2Z.id.
Qed.

Lemma mem_read_write_disjoint m a bs b n :
  b + Z.of_nat n <= a \/ a + len bs <= b ->
  mem_read (mem_write m a bs) b n = mem_read m b n.
Proof. intros. apply mem_read_ext. intros. apply mem_write_out. lia. Qed.

Lemma mem_holds_app m a b1 b2 : mem_holds m a (b1 ++ b2) <-> mem_holds m a b1 /\ mem_holds m (a + len b1) b2.
Proof.
  unfold mem_holds. rewrite length_app, mem_read_app. split.
  - intros E. apply app_inj_1 in E; [done|apply length_mem_read].
  - by intros [-> ->].
Qed.

(** A read inside a block whose contents are known. *)
Lemma mem_holds_read m a bs (off n : nat) :
  mem_holds m a bs -> (off + n <= length bs)%nat -> mem_read m (a + Z.of_nat off) n = take n (drop off bs).
Proof.
  intros Hm Hn. rewrite <- (take_drop off bs) in Hm. apply mem_holds_app in Hm as [_ Hm].
  rewrite length_take, Nat.min_l in Hm by lia.
  rewrite <- (take_drop n (drop off bs)) in Hm. apply mem_holds_app in Hm as [Hm _]. unfold mem_holds in Hm.
  by rewrite length_take, length_drop, Nat.min_l in Hm by lia.
Qed.

Lemma mem_holds_write m a bs : mem_holds (mem_write m a bs) a bs.
Proof. by apply mem_read_write_same. Qed.

Lemma mem_holds_write_other m a bs b cs :
  b + len cs <= a \/ a + len bs <= b -> mem_holds (mem_write m a bs) b cs <-> mem_holds m b cs.
Proof. intros H. unfold mem_holds. by rewrite mem_read_write_disjoint. Qed.

Lemma mem_read_zero m a n :
  (forall x, a <= x < a + Z.of_nat n -> m x = 0) -> mem_read m a n = replicate n 0.
Proof.
  intros H. apply list_eq_same_length with n; [apply length_replicate|apply length_mem_read|].
  intros i x y Hi. rewrite mem_read_lookup, lookup_replicate_2 by done.
  rewrite H by lia. congruence.
Qed.

Lemma mem_write_app m a bs1 bs2 x :
  mem_write (mem_write m a bs1) (a + len bs1) bs2 x = mem_write m a (bs1 ++ bs2) x.
Proof.
  destruct (Z.ltb_spec x (a + len bs1)).
  - rewrite mem_write_out by lia. rewrite !mem_write_eq. case_Z; [|done].
    by rewrite lookup_app_l by lia.
  - rewrite !mem_write_eq. rewrite !(proj2 (Z.leb_le _ _)) by lia.
    rewrite (lookup_ge_None_2 bs1) by lia. simpl. rewrite (lookup_app_r bs1) by lia.
    do 2 f_equal. lia.
Qed.

Lemma mem_write_ext m m' a bs x : m x = m' x -> mem_write m a bs x = mem_write m' a bs x.
Proof. intros E. rewrite !mem_write_eq. by rewrite E. Qed.

Lemma mem_write_nil m a x : mem_write m a [] x = m x.
Proof. rewrite !mem_write_eq. by case_Z. Qed.

(** [&l[n..]] within bounds. *)
Lemma slice_index_from {A} (l : list A) n :
  0 <= n <= len l -> slice_index l n (len l) = Ret (drop (Z.to_nat n) l).
Proof.
  intros. unfold slice_index. rewrite slice_get_ok by lia. f_equal.
  apply take_ge. rewrite length_drop. lia.
Qed.

Lemma mem_fill_in m a n b x : a <= x < a + n -> mem_fill m a n b x = b.
Proof. intros. unfold mem_fill. by replace (_ && _) with true by (symmetry; bool_lia). Qed.

Lemma mem_fill_out m a n b x : x < a \/ a + n <= x -> mem_fill m a n b x = m x.
Proof.
  intros Hx. unfold mem_fill. destruct (_ && _) eqn:E; [|done]. simpl_bool. lia.
Qed.

(** ** Structures *)

Lemma field_skip l r o n : (length l <= o)%nat -> field (l ++ r) o n = field r (o - length l) n.
Proof. intros H. unfold field. by rewrite drop_app_ge. Qed.

Lemma field_take b o n k : (o + n <= k)%nat -> field (take k b) o n = field b o n.
Proof.
  intros H. unfold field. f_equal. rewrite skipn_firstn_comm, take_take. f_equal. lia.
Qed.

Lemma field_head n v r : 0 <= v < 256 ^ Z.of_nat n -> field (le_bytes n v ++ r) 0 n = v.
Proof.
  intros H. unfold field. rewrite drop_0, take_app_le, take_ge by (rewrite length_le_bytes; lia).
  by apply le_val_le_bytes_small.
Qed.

Lemma field_le n v : 0 <= v < 256 ^ Z.of_nat n -> field (le_bytes n v) 0 n = v.
Proof. intros H. rewrite <- (app_nil_r (le_bytes n v)). by apply field_head. Qed.

Ltac read_field :=
  repeat (rewrite field_skip by (rewrite ?length_le_bytes; lia));
  rewrite ?length_le_bytes; simpl Nat.sub;
  first [apply field_head | apply field_le]; lia.

(** The element number [i] of an array of structures of [size] bytes. *)
Lemma concat_element {A} (write : A -> list Z) size (l : list A) (i : nat) x :
  (forall y, length (write y) = size) -> l !! i = Some x ->
  take size (drop (size * i) (concat (write <$> l))) = write x.
Proof.
  intros Hs. revert i. induction l as [|y l IH]; intros [|i] Hl; try done.
  - injection Hl as ->. rewrite Nat.mul_0_r, fmap_cons. cbn [concat]. rewrite drop_0, take_app_le by (by rewrite Hs).
    by rewrite take_ge by (by rewrite Hs).
  - rewrite fmap_cons. cbn [concat]. rewrite <- (IH i Hl), drop_app_ge by (rewrite Hs; lia).
    rewrite Hs. do 2 f_equal. lia.
Qed.

Lemma length_concat_fixed {A} (write : A -> list Z) size (l : list A) :
  (forall y, length (write y) = size) -> length (concat (write <$> l)) = (size * length l)%nat.
Proof.
  intros Hs. induction l as [|y l IH]; [by rewrite Nat.mul_0_r|].
  rewrite fmap_cons. cbn [concat length]. rewrite length_app, IH, Hs. lia.
Qed.

Lemma read_array_concat {A} (read : list Z -> A) (write : A -> list Z) size (l : list A) rest :
  Forall (fun x => length (write x) = size /\ read (write x) = x) l ->
  read_array read size (length l) (concat (write <$> l) ++ rest) = l.
Proof.
  induction 1 as [|x l [Hs Hr] _ IH]; [done|].
  rewrite fmap_cons. cbn [concat length read_array]. rewrite <- app_assoc.
  by rewrite take_app_length', drop_app_length', Hr, IH.
Qed.

Lemma length_read_array {A} (read : list Z -> A) size n b : length (read_array read size n b) = n.
Proof. revert b. induction n; intros b; simpl; auto. Qed.

Lemma read_array_lookup {A} (read : list Z -> A) size n b i :
  (i < n)%nat -> read_array read size n b !! i = Some (read (take size (drop (i * size) b))).
Proof.
  revert b i. induction n as [|n IH]; intros b i Hi; [lia|]. destruct i as [|i]; simpl.
  - by rewrite drop_0.
  - rewrite IH by lia. rewrite drop_drop. done.
Qed.

Lemma field_bound b o n : bytes_ok b -> 0 <= field b o n < 256 ^ Z.of_nat n.
Proof.
  intros Hb. unfold field. assert (bytes_ok (take n (drop o b))) as Ht by (by apply Forall_take, Forall_drop).
  pose proof (le_val_bound _ Ht) as [H1 H2]. split; [done|]. eapply Z.lt_le_trans; [exact H2|].
  apply Z.pow_le_mono_r; [lia|]. rewrite length_take. lia.
Qed.

Lemma read_array_ok {A} (read : list Z -> A) (Q : A -> Prop) size n : forall b,
  (forall b, bytes_ok b -> Q (read b)) -> bytes_ok b -> Forall Q (read_array read size n b).
Proof.
  induction n as [|n IH]; intros b Hr Hb; [constructor|]. cbn [read_array].
  constructor; [by apply Hr, Forall_take|by apply IH, Forall_drop].
Qed.

(** Bytes of a closed list, by computation. *)
Lemma bytes_ok_check bs : forallb (fun x => (0 <=? x) && (x <? 256)) bs = true -> bytes_ok bs.
Proof.
  rewrite List.forallb_forall. intros E. apply List.Forall_forall. intros x Hx. specialize (E x Hx). unfold is_byte. lia.
Qed.
