(* ===== verification/Text.v ===== *)
(** * Text

    What the sources use of [core::str] and [core::fmt]: UTF-8 validity,
    [trim_ascii_end], decimal and hexadecimal numbers.  A string is its bytes. *)

From Stdlib Require Import String Ascii.
From S2P Require Import Prelude Bytes.

(** A literal. *)
Definition str (s : string) : list Z := (fun c => Z.of_N (N_of_ascii c)) <$> list_ascii_of_string s.

(** ** [core::str::from_utf8] *)

Definition between (lo hi b : Z) : bool := (lo <=? b) && (b <=? hi).
Definition is_cont (b : Z) : bool := between 0x80 0xbf b.

(** Whether bytes are UTF-8: the table of well-formed byte sequences. *)
Fixpoint utf8_valid (l : list Z) : bool :=
  match l with
  | [] => true
  | b :: r =>
      if b <? 0x80 then utf8_valid r
      else match r with
           | [] => false
           | b1 :: r1 =>
               if between 0xc2 0xdf b then is_cont b1 && utf8_valid r1
               else match r1 with
                    | [] => false
                    | b2 :: r2 =>
                        let ok1 := if b =? 0xe0 then between 0xa0 0xbf b1
                                   else if b =? 0xed then between 0x80 0x9f b1 else is_cont b1 in
                        if between 0xe0 0xef b then ok1 && is_cont b2 && utf8_valid r2
                        else match r2 with
                             | [] => false
                             | b3 :: r3 =>
                                 let ok1 := if b =? 0xf0 then between 0x90 0xbf b1
                                            else if b =? 0xf4 then between 0x80 0x8f b1 else is_cont b1 in
                                 between 0xf0 0xf4 b && ok1 && is_cont b2 && is_cont b3 && utf8_valid r3
                             end
                    end
           end
  end.

(** ** [Ord for str], which compares the bytes *)

Fixpoint str_cmp (x y : list Z) : comparison :=
  match x, y with
  | [], [] => Eq
  | [], _ => Lt
  | _, [] => Gt
  | a :: x, b :: y => match a ?= b with Eq => str_cmp x y | c => c end
  end.

(** ** [trim_ascii_end] *)

Definition is_ascii_whitespace (b : Z) : bool :=
  (b =? 0x20) || (b =? 0x09) || (b =? 0x0a) || (b =? 0x0c) || (b =? 0x0d).

Fixpoint drop_spaces (l : list Z) : list Z :=
  match l with
  | b :: r => if is_ascii_whitespace b then drop_spaces r else l
  | [] => []
  end.

Definition trim_ascii_end (l : list Z) : list Z := rev (drop_spaces (rev l)).

(** ** Numbers *)

Definition digit_char (d : Z) : Z := if d <? 10 then 48 + d else 87 + d.

(** The digits of [n < base ^ fuel], most significant first. *)
Fixpoint digits (base : Z) (fuel : nat) (n : Z) (acc : list Z) : list Z :=
  match fuel with
  | O => acc
  | S fuel =>
      let acc := digit_char (n mod base) :: acc in
      if n <? base then acc else digits base fuel (n / base) acc
  end.

(** [{}] of an [i32] and of a [usize], [{:x}] of a [u64] and [{:016x}] of a [usize]. *)
Definition fmt_i32 (n : Z) : list Z :=
  if n <? 0 then 45 :: digits 10 10 (- n) [] else digits 10 10 n [].
Definition fmt_usize (n : Z) : list Z := digits 10 20 n [].
Definition fmt_hex_u64 (n : Z) : list Z := digits 16 16 n [].
Definition fmt_hex16 (n : Z) : list Z :=
  let text := fmt_hex_u64 n in replicate (16 - length text) 48 ++ text.

(** * Lemmas *)

Lemma str_cmp_eq x y : str_cmp x y = Eq <-> x = y.
Proof.
  revert y. induction x as [|a x IH]; intros [|b y]; cbn; try done.
  destruct (Z.compare_spec a b) as [->|Hab|Hab]; [rewrite IH; naive_solver|..]; split; try done; intros [= -> ->]; lia.
Qed.

Lemma str_cmp_antisym x y : str_cmp y x = CompOpp (str_cmp x y).
Proof.
  revert y. induction x as [|a x IH]; intros [|b y]; cbn; try done.
  rewrite (Z.compare_antisym a b). destruct (a ?= b); cbn; auto.
Qed.

Lemma str_cmp_trans x y z : str_cmp x y = Lt -> str_cmp y z = Lt -> str_cmp x z = Lt.
Proof.
  revert y z. induction x as [|a x IH]; intros [|b y] [|c z]; cbn; try done.
  destruct (Z.compare_spec a b), (Z.compare_spec b c), (Z.compare_spec a c); subst; try done; try lia. apply IH.
Qed.

(** Concatenation of UTF-8 texts. *)
Lemma utf8_valid_app x y : utf8_valid x = true -> utf8_valid (x ++ y) = utf8_valid y.
Proof.
  remember (length x) as n eqn:Hn. revert x Hn. induction n as [n IH] using lt_wf_ind. intros x -> Hv.
  destruct x as [|b r]; [done|]. cbn [app utf8_valid] in *. destruct (b <? 0x80).
  { apply (IH (length r)); [cbn; lia|done|done]. }
  destruct r as [|b1 r1]; [done|]. cbn [app]. destruct (between 0xc2 0xdf b).
  { apply andb_prop in Hv as [-> Hv]. apply (IH (length r1)); [cbn; lia|done|done]. }
  destruct r1 as [|b2 r2]; [done|]. cbn [app]. destruct (between 0xe0 0xef b).
  { apply andb_prop in Hv as [-> Hv]. apply (IH (length r2)); [cbn; lia|done|done]. }
  destruct r2 as [|b3 r3]; [done|]. cbn [app].
  apply andb_prop in Hv as [-> Hv]. apply (IH (length r3)); [cbn; lia|done|done].
Qed.

Lemma utf8_ascii l : Forall (fun b => b < 128) l -> utf8_valid l = true.
Proof. induction 1 as [|b l Hb Hl IH]; [done|]. cbn. by rewrite (proj2 (Z.ltb_lt _ _)) by done. Qed.

Section NumberText.
Context (base : Z) (Hbase : 2 <= base).

(** The value of a number written with digits [digit_char]. *)
Definition digit_val (c : Z) : Z := if c <? 58 then c - 48 else c - 87.
Definition digits_val (l : list Z) : Z := fold_left (fun v c => v * base + digit_val c) l 0.

Lemma digit_val_char d : 0 <= d -> digit_val (digit_char d) = d.
Proof.
  intros Hd. unfold digit_val, digit_char. destruct (Z.ltb_spec d 10); case_match; lia.
Qed.

Lemma fold_digits l v : fold_left (fun v c => v * base + digit_val c) l v =
  v * base ^ len l + digits_val l.
Proof.
  unfold digits_val. revert v. induction l as [|c l IH]; intros v; simpl fold_left; [simpl; lia|].
  rewrite IH, (IH (0 * base + digit_val c)). cbn [length]. rewrite Nat2Z.inj_succ, Z.pow_succ_r by lia. lia.
Qed.

(** The digits denote the number, whatever was accumulated after them. *)
Lemma digits_val_digits fuel n acc : 0 <= n < base ^ Z.of_nat fuel ->
  digits_val (digits base fuel n acc) = n * base ^ len acc + digits_val acc.
Proof.
  revert n acc. induction fuel as [|fuel IH]; intros n acc Hn.
  - simpl in Hn. simpl. lia.
  - cbn [digits]. rewrite Nat2Z.inj_succ, Z.pow_succ_r in Hn by lia.
    assert (forall acc, digits_val (digit_char (n mod base) :: acc) = n mod base * base ^ len acc + digits_val acc) as Hd.
    { intros l. unfold digits_val. simpl fold_left. rewrite fold_digits. unfold digits_val.
      rewrite digit_val_char by (apply Z.mod_pos_bound; lia). lia. }
    destruct (Z.ltb_spec n base).
    + rewrite Hd. by rewrite Z.mod_small by lia.
    + rewrite IH by (split; [apply Z.div_pos; lia|apply Z.div_lt_upper_bound; lia]).
      rewrite Hd. cbn [length]. rewrite Nat2Z.inj_succ, Z.pow_succ_r by lia.
      rewrite (Z.div_mod n base) at 3 by lia. lia.
Qed.

End NumberText.

(** What is printed reads back as the number. *)
Lemma fmt_hex_val n : 0 <= n < 2 ^ 64 -> digits_val 16 (fmt_hex_u64 n) = n.
Proof.
  intros Hn. unfold fmt_hex_u64. rewrite digits_val_digits by (change (Z.of_nat 16) with 16; lia).
  change (n * 1 + 0 = n). lia.
Qed.

Lemma fmt_dec_val n : 0 <= n < 2 ^ 31 -> digits_val 10 (fmt_i32 n) = n.
Proof.
  intros Hn. unfold fmt_i32. rewrite (proj2 (Z.ltb_ge _ _)) by lia.
  rewrite digits_val_digits by (change (Z.of_nat 10) with 10; lia).
  change (n * 1 + 0 = n). lia.
Qed.
