(* ===== verification/Alignment.v ===== *)
(** * ftl_utils::alignment and the address newtypes

    [align_down], [align_up], [is_aligned] of libs/rust/ftl_utils, and the
    methods of [PAddr], [VAddr], [UAddr] of kernel/src/address.rs that compute
    (the newtypes themselves are transparent wrappers of [usize]). *)

From S2P Require Import Prelude Bytes.

Section Alignment.
Context {P : Profile}.

Definition align_down (value align : Z) : outcome Z :=
  let* _ := debug_assert (is_power_of_two align) in
  let* _ := debug_assert (negb (align =? 0)) in
  let* mask := usize_sub align 1 in
  Ret (Z.land value (unot 64 mask)).

Definition align_up (value align : Z) : outcome Z :=
  let* _ := debug_assert (is_power_of_two align) in
  let* sum := usize_add value align in
  let* v := usize_sub sum 1 in
  align_down v align.

Definition is_aligned (value align : Z) : outcome bool :=
  let* _ := debug_assert (is_power_of_two align) in
  let* mask := usize_sub align 1 in
  Ret (Z.land value mask =? 0).

(** [PAddr::is_aligned] and [UAddr::is_aligned_to] forward to [is_aligned];
    [UAddr::add] is a checked addition. *)
Definition PAddr_is_aligned (paddr alignment : Z) : outcome bool := is_aligned paddr alignment.
Definition UAddr_is_aligned_to (uaddr alignment : Z) : outcome bool := is_aligned uaddr alignment.
Definition UAddr_add (uaddr offset : Z) : option Z := checked_add 64 uaddr offset.

End Alignment.

(** * Lemmas *)

Section AlignmentLemmas.
Context {P : Profile}.

Lemma debug_assert_pow2 k : 0 <= k -> debug_assert (is_power_of_two (2 ^ k)) = Ret tt.
Proof. intros. by rewrite is_power_of_two_pow2, debug_assert_ok by lia. Qed.

Lemma pow2_lt_64 k : 0 <= k < 64 -> 0 < 2 ^ k < 2 ^ 64.
Proof. intros. split; [auto with ftl; lia|apply Z.pow_lt_mono_r; lia]. Qed.

Lemma align_down_pow2 v k :
  0 <= k < 64 -> is_usize v -> align_down v (2 ^ k) = Ret (v - v mod 2 ^ k).
Proof.
  intros Hk Hv. unfold align_down. pose proof (pow2_lt_64 k Hk).
  rewrite debug_assert_pow2 by lia. simpl.
  rewrite (proj2 (Z.eqb_neq _ _)) by lia. rewrite debug_assert_ok. simpl.
  rewrite usize_sub_ok by lia. simpl.
  rewrite Z.sub_1_r, <- Z.ones_equiv, land_unot_ones by (unfold is_usize in *; lia).
  done.
Qed.

Lemma is_aligned_pow2 v k :
  0 <= k < 64 -> is_aligned v (2 ^ k) = Ret (v mod 2 ^ k =? 0).
Proof.
  intros Hk. unfold is_aligned. pose proof (pow2_lt_64 k Hk).
  rewrite debug_assert_pow2 by lia. simpl. rewrite usize_sub_ok by lia. simpl.
  by rewrite land_ones_mask by lia.
Qed.

Lemma multiple_unique a v x y :
  0 < a -> v <= x < v + a -> v <= y < v + a -> x mod a = 0 -> y mod a = 0 -> x = y.
Proof.
  intros Ha Hx Hy [q Hq]%Z.mod_divide [r Hr]%Z.mod_divide; [|lia..].
  assert (q = r) by nia. lia.
Qed.

Lemma align_up_pow2 v k :
  0 <= k < 64 -> 0 <= v -> v + 2 ^ k < 2 ^ 64 ->
  align_up v (2 ^ k) = Ret (v + (- v) mod 2 ^ k).
Proof.
  intros Hk Hv Hs. unfold align_up. pose proof (pow2_lt_64 k Hk).
  rewrite debug_assert_pow2 by lia. simpl. rewrite usize_add_ok by lia. simpl.
  rewrite usize_sub_ok by lia. simpl.
  rewrite align_down_pow2 by (unfold is_usize; lia). f_equal.
  apply (multiple_unique (2 ^ k) v); [lia|..].
  - pose proof (Z.mod_pos_bound (v + 2 ^ k - 1) (2 ^ k)). lia.
  - pose proof (Z.mod_pos_bound (- v) (2 ^ k)). lia.
  - rewrite Zminus_mod_idemp_r, Z.sub_diag. apply Z.mod_0_l. lia.
  - rewrite Z.add_mod_idemp_r, Z.add_opp_diag_r by lia. apply Z.mod_0_l. lia.
Qed.

(** The two alignments the kernel uses. *)
Lemma is_aligned_page v : is_aligned v 4096 = Ret (v mod 4096 =? 0).
Proof. apply (is_aligned_pow2 v 12). lia. Qed.

Lemma is_aligned_16 v : is_aligned v 16 = Ret (v mod 16 =? 0).
Proof. apply (is_aligned_pow2 v 4). lia. Qed.

Lemma align_down_page v : is_usize v -> align_down v 4096 = Ret (v - v mod 4096).
Proof. apply (align_down_pow2 v 12). lia. Qed.

(** Rounding up gives the least multiple that is not below. *)
Lemma round_up_spec v a :
  0 < a -> let r := v + (- v) mod a in
  r mod a = 0 /\ v <= r < v + a /\ (forall m, m mod a = 0 -> v <= m -> r <= m).
Proof.
  intros Ha. cbn zeta. pose proof (Z.mod_pos_bound (- v) a Ha).
  assert ((v + (- v) mod a) mod a = 0) as Hr.
  { rewrite Z.add_mod_idemp_r, Z.add_opp_diag_r by lia. apply Z.mod_0_l. lia. }
  split_and!; [done|lia..|]. intros m Hm Hvm.
  apply Z.mod_divide in Hr as [q Hq]; [|lia]. apply Z.mod_divide in Hm as [q' Hq']; [|lia].
  assert (q < q' + 1) by (apply (Z.mul_lt_mono_pos_r a); lia). nia.
Qed.

Lemma align_up_ok v k :
  0 <= k < 64 -> 0 <= v -> v + 2 ^ k < 2 ^ 64 ->
  exists r, align_up v (2 ^ k) = Ret r /\ r mod 2 ^ k = 0 /\ v <= r < v + 2 ^ k.
Proof.
  intros Hk Hv Hs. eexists. split; [by apply align_up_pow2|].
  pose proof (pow2_lt_64 k Hk) as [? _]. destruct (round_up_spec v (2 ^ k)) as (?&?&?); auto.
Qed.

End AlignmentLemmas.

(** * Properties *)

Section AlignmentTheorems.
Context {P : Profile}.

(** [align_up] rounds up: for a power-of-two alignment and a value whose
    sum with it fits in [usize], it returns (in both profiles) the least
    multiple of the alignment that is not below the value. *)
Theorem align_up_least_multiple (v k : Z) :
  0 <= k < 64 -> 0 <= v -> v + 2 ^ k < 2 ^ 64 ->
  exists r, align_up v (2 ^ k) = Ret r /\
    r mod 2 ^ k = 0 /\ v <= r /\ forall m, m mod 2 ^ k = 0 -> v <= m -> r <= m.
Proof.
  intros Hk Hv Hs. eexists. split; [by apply align_up_pow2|].
  pose proof (pow2_lt_64 k Hk) as [? _]. destruct (round_up_spec v (2 ^ k)) as (?&[? _]&?); auto.
Qed.

End AlignmentTheorems.

Lemma align_up_least_multiple_witness :
  exists r, @align_up dev 0x1001 0x1000 = Ret r /\ r mod 0x1000 = 0.
Proof.
  destruct (@align_up_least_multiple dev 0x1001 12) as (r & Hr & Hm & _); [lia..|].
  exists r. split; [exact Hr|exact Hm].
Defined.
