(* ===== verification/ArrayVec.v ===== *)
(** * ftl_arrayvec

    [ArrayVec<T, N>] (libs/rust/ftl_arrayvec/src/array_vec.rs) and
    [ArrayString<N>] (array_string.rs).  A slot of the backing array is [None]
    while it is uninitialised or moved out; reading such a slot is [Undef]. *)

From S2P Require Import Prelude Bytes Text.

Record ArrayVec (T : Type) : Type := mkArrayVec {
  elems : list (option T);
  av_len : nat
}.
Arguments mkArrayVec {T} _ _.
Arguments elems {T} _.
Arguments av_len {T} _.

Inductive CapacityError : Set := CapacityErr.

Section ArrayVecOps.
Context {P : Profile} {T : Type}.
Implicit Types v : ArrayVec T.

(** The const generic [N] is the length of the array. *)
Definition av_cap v : nat := length (elems v).

Definition av_new (N : nat) : ArrayVec T := mkArrayVec (replicate N None) 0.

Definition av_is_empty v : bool := Nat.eqb (av_len v) 0.

(** [assume_init_ref] on a run of slots. *)
Fixpoint assume_init (l : list (option T)) : outcome (list T) :=
  match l with
  | [] => Ret []
  | None :: _ => Undef
  | Some x :: r => let* xs := assume_init r in Ret (x :: xs)
  end.

Definition av_get v (index : nat) : outcome (option T) :=
  if Nat.leb (av_len v) index then Ret None
  else match elems v !! index with
       | None => Panic
       | Some None => Undef
       | Some (Some x) => Ret (Some x)
       end.

Definition as_slice v : outcome (list T) :=
  if Nat.leb (av_len v) (av_cap v) then assume_init (take (av_len v) (elems v)) else Undef.

(** [as_slice_mut] lends the initialised prefix to [f], which may overwrite
    its elements (not change their number). *)
Definition as_slice_mut {A : Type} (f : M (list T) A) : M (ArrayVec T) A :=
  fun v =>
    let* l := as_slice v in
    let* (a, l') := f l in
    Ret (a, mkArrayVec ((Some <$> l') ++ drop (av_len v) (elems v)) (av_len v)).

Definition try_push (value : T) : M (ArrayVec T) (result T unit) :=
  fun v =>
    if Nat.eqb (av_len v) (av_cap v) then Ret (Err value, v)
    else if Nat.ltb (av_len v) (av_cap v)
         then Ret (Ok tt, mkArrayVec (<[av_len v := Some value]> (elems v)) (S (av_len v)))
         else Panic.

Definition av_pop : M (ArrayVec T) (option T) :=
  fun v =>
    match av_len v with
    | O => Ret (None, v)
    | S n => match elems v !! n with
             | None => Panic
             | Some None => Undef
             | Some (Some x) => Ret (Some x, mkArrayVec (<[n := None]> (elems v)) n)
             end
    end.

(** [clear] returns the elements it dropped, in order. *)
Definition av_clear : M (ArrayVec T) (list T) :=
  fun v =>
    let* dropped := as_slice v in
    Ret (dropped, mkArrayVec (replicate (av_len v) None ++ drop (av_len v) (elems v)) 0).

(** [Drop for ArrayVec]. *)
Definition av_drop : M (ArrayVec T) (list T) := av_clear.

(** The loop of [extend_from_slice_unchecked], with [i] counting from 0. *)
Fixpoint extend_loop (base i : nat) (values : list T) (slots : list (option T))
  : outcome (list (option T)) :=
  match values with
  | [] => Ret slots
  | x :: r => if Nat.ltb (base + i) (length slots)
              then extend_loop base (S i) r (<[(base + i)%nat := Some x]> slots)
              else Panic
  end.

Definition extend_from_slice_unchecked (values : list T) : M (ArrayVec T) unit :=
  fun v =>
    let* slots := extend_loop (av_len v) 0 values (elems v) in
    Ret (tt, mkArrayVec slots (av_len v + length values)).

Definition try_extend_from_slice (values : list T) : M (ArrayVec T) (result CapacityError unit) :=
  fun v =>
    let* total := usize_add (Z.of_nat (av_len v)) (len values) in
    if Z.of_nat (av_cap v) <? total then Ret (Err CapacityErr, v)
    else let* (_, v') := extend_from_slice_unchecked values v in
         Ret (Ok tt, v').

(** [Clone for ArrayVec<T: Copy>] copies the array bit by bit. *)
Definition av_clone v : ArrayVec T := mkArrayVec (elems v) (av_len v).

End ArrayVecOps.

(** ** ArrayString *)

Inductive FromAsciiError : Set :=
| NonAscii (byte : Z)
| AsciiCapacity.

Definition ArrayString := ArrayVec Z.

Section ArrayStringOps.
Context {P : Profile}.

Definition is_ascii (b : Z) : bool := b <? 128.

Definition as_new (N : nat) : ArrayString := av_new N.

Definition from_static (N : nat) (string : list Z) : outcome ArrayString :=
  if Z.of_nat N <? len string then Panic
  else let* (_, this) := extend_from_slice_unchecked string (as_new N) in
       Ret this.

Definition as_bytes (s : ArrayString) : outcome (list Z) := as_slice s.

Definition as_push (byte : Z) : M ArrayString (result CapacityError unit) :=
  do* r := try_push byte in
  match r with
  | Ok _ => ret (Ok tt)
  | Err _ => ret (Err CapacityErr)
  end.

Definition push_str (string : list Z) : M ArrayString (result CapacityError unit) :=
  do* r := try_extend_from_slice string in
  match r with
  | Ok _ => ret (Ok tt)
  | Err _ => ret (Err CapacityErr)
  end.

(** [TryFrom<&str>]. *)
Definition as_try_from (N : nat) (string : list Z) : outcome (result CapacityError ArrayString) :=
  let* (r, this) := push_str string (as_new N) in
  match r with
  | Ok _ => Ret (Ok this)
  | Err e => Ret (Err e)
  end.

(** [from_ascii_str]: the [for] loop stops at the first non-ASCII byte. *)
Definition from_ascii_str (N : nat) (bytes : list Z)
  : outcome (result FromAsciiError ArrayString) :=
  match list_find (fun b => is_ascii b = false) bytes with
  | Some (_, b) => Ret (Err (NonAscii b))
  | None =>
      let* r := as_try_from N bytes in
      match r with
      | Ok this => Ret (Ok this)
      | Err _ => Ret (Err AsciiCapacity)
      end
  end.

Definition as_is_empty (s : ArrayString) : bool := av_is_empty s.
Definition as_len (s : ArrayString) : Z := Z.of_nat (av_len s).
Definition as_clone (s : ArrayString) : ArrayString := av_clone s.

(** [from_utf8_unchecked] of bytes that are not UTF-8 is undefined behaviour. *)
Definition as_str (s : ArrayString) : outcome (list Z) :=
  let* bytes := as_slice s in
  if utf8_valid bytes then Ret bytes else Undef.

(** [PartialEq] and [Ord]: comparison of the strings, not of the spare slots. *)
Definition as_eq (a b : ArrayString) : outcome bool :=
  let* x := as_str a in
  let* y := as_str b in
  Ret (bool_decide (x = y)).

Definition as_cmp (a b : ArrayString) : outcome comparison :=
  let* x := as_str a in
  let* y := as_str b in
  Ret (str_cmp x y).

Definition as_partial_cmp (a b : ArrayString) : outcome (option comparison) :=
  let* x := as_str a in
  let* y := as_str b in
  Ret (Some (str_cmp x y)).

End ArrayStringOps.

(** ** Abstract specification: a list of at most [N] elements *)

Section Spec.
Context {T : Type}.

(** One call of the public interface and what the caller observes. *)
Inductive av_op : Type :=
| OpPush (x : T)
| OpPop
| OpClear
| OpExtend (xs : list T)
| OpGet (i : nat)
| OpSlice.

Inductive av_obs : Type :=
| ObsPush (r : result T unit)
| ObsPop (r : option T)
| ObsClear (dropped : list T)
| ObsExtend (r : result CapacityError unit)
| ObsGet (r : option T)
| ObsSlice (l : list T).

Definition spec_step (N : nat) (o : av_op) (l : list T) : av_obs * list T :=
  match o with
  | OpPush x => if Nat.ltb (length l) N then (ObsPush (Ok tt), l ++ [x]) else (ObsPush (Err x), l)
  | OpPop => (ObsPop (last l), take (length l - 1) l)
  | OpClear => (ObsClear l, [])
  | OpExtend xs => if Nat.leb (length l + length xs) N
                   then (ObsExtend (Ok tt), l ++ xs) else (ObsExtend (Err CapacityErr), l)
  | OpGet i => (ObsGet (l !! i), l)
  | OpSlice => (ObsSlice l, l)
  end.

Fixpoint spec_run (N : nat) (os : list av_op) (l : list T) : list av_obs * list T :=
  match os with
  | [] => ([], l)
  | o :: r => let (b, l') := spec_step N o l in
              let (bs, l'') := spec_run N r l' in
              (b :: bs, l'')
  end.

Context {P : Profile}.

Definition impl_step (o : av_op) : M (ArrayVec T) av_obs :=
  match o with
  | OpPush x => do* r := try_push x in ret (ObsPush r)
  | OpPop => do* r := av_pop in ret (ObsPop r)
  | OpClear => do* r := av_clear in ret (ObsClear r)
  | OpExtend xs => do* r := try_extend_from_slice xs in ret (ObsExtend r)
  | OpGet i => do* v := get in do* r := lift (av_get v i) in ret (ObsGet r)
  | OpSlice => do* v := get in do* r := lift (as_slice v) in ret (ObsSlice r)
  end.

Fixpoint impl_run (os : list av_op) : M (ArrayVec T) (list av_obs) :=
  match os with
  | [] => ret []
  | o :: r => do* b := impl_step o in
              do* bs := impl_run r in
              ret (b :: bs)
  end.

(** The representation invariant: the vector [v] holds exactly [l]. *)
Definition av_rep (v : ArrayVec T) (l : list T) : Prop :=
  av_len v = length l /\ (length l <= av_cap v)%nat /\
  take (length l) (elems v) = Some <$> l.

(** A slice whose length added to [N] fits in [usize]. *)
Definition op_fits (N : nat) (o : av_op) : Prop :=
  match o with
  | OpExtend xs => Z.of_nat N + len xs < 2 ^ 64
  | _ => True
  end.

End Spec.
Arguments av_op : clear implicits.
Arguments av_obs : clear implicits.

(** * Lemmas *)

Section ArrayVecLemmas.
Context {P : Profile} {T : Type}.
Implicit Types (v : ArrayVec T) (l : list T).

Lemma assume_init_Some l : assume_init (Some <$> l) = Ret l.
Proof. induction l as [|x l IH]; [done|]. cbn. by rewrite IH. Qed.

Lemma av_rep_new N : av_rep (T := T) (av_new N) [].
Proof. unfold av_rep, av_cap; simpl. split_and!; [done|lia|done]. Qed.

Lemma av_rep_slice v l : av_rep v l -> as_slice v = Ret l.
Proof.
  intros (Hl & Hc & Ht). unfold as_slice. rewrite (proj2 (Nat.leb_le _ _)) by lia.
  by rewrite Hl, Ht, assume_init_Some.
Qed.

Lemma av_rep_lookup v l i : av_rep v l -> (i < length l)%nat -> elems v !! i = Some <$> l !! i.
Proof.
  intros (Hl & Hc & Ht) Hi. rewrite <- (lookup_take_lt _ (length l)) by done.
  rewrite Ht. apply list_lookup_fmap.
Qed.

Lemma av_rep_get v l i : av_rep v l -> av_get v i = Ret (l !! i).
Proof.
  intros Hr. unfold av_get. rewrite (proj1 Hr). destruct (Nat.leb_spec (length l) i).
  - by rewrite lookup_ge_None_2.
  - rewrite (av_rep_lookup v l) by done.
    destruct (lookup_lt_is_Some_2 l i) as [x ->]; done.
Qed.

Lemma try_push_spec v l x :
  av_rep v l ->
  exists v', try_push x v = Ret (if Nat.ltb (length l) (av_cap v) then Ok tt else Err x, v') /\
    av_cap v' = av_cap v /\
    av_rep v' (if Nat.ltb (length l) (av_cap v) then l ++ [x] else l).
Proof.
  intros Hr. pose proof Hr as (Hl & Hc & Ht). unfold try_push. rewrite Hl.
  destruct (Nat.ltb_spec (length l) (av_cap v)) as [Hlt|Hge].
  - rewrite (proj2 (Nat.eqb_neq _ _)) by lia. eexists; split_and!; [done|..].
    + unfold av_cap; simpl. apply length_insert.
    + unfold av_rep, av_cap in *; simpl. rewrite length_app, length_insert. simpl.
      split_and!; [lia..|]. rewrite Nat.add_1_r.
      rewrite (take_S_r _ _ (Some x)) by (apply list_lookup_insert_eq; lia).
      rewrite take_insert_ge by lia. by rewrite Ht, fmap_app.
  - rewrite (proj2 (Nat.eqb_eq _ _)) by lia. by exists v.
Qed.

Lemma av_pop_spec v l :
  av_rep v l ->
  exists v', av_pop v = Ret (last l, v') /\ av_cap v' = av_cap v /\
    av_rep v' (take (length l - 1) l).
Proof.
  intros Hr. pose proof Hr as (Hl & Hc & Ht). unfold av_pop. rewrite Hl.
  destruct l as [|y l' _] using rev_ind; [by exists v|].
  rewrite length_app, last_snoc in *. simpl in *. rewrite Nat.add_1_r in *.
  pose proof (av_rep_lookup v _ (length l') Hr) as Hy.
  rewrite length_app in Hy; simpl in Hy. rewrite Hy, list_lookup_middle by lia. simpl.
  eexists; split_and!; [done|unfold av_cap; simpl; apply length_insert|].
  replace (take _ (l' ++ [y])) with l' by (by rewrite Nat.sub_0_r, take_app_length).
  unfold av_rep, av_cap in *; simpl. rewrite length_insert. split_and!; [lia..|].
  rewrite take_insert_ge by lia. apply (f_equal (take (length l'))) in Ht.
  rewrite take_take, Nat.min_l in Ht by lia. rewrite Ht, fmap_app.
  rewrite take_app_length'; [done|symmetry; apply length_fmap].
Qed.

Lemma av_clear_spec v l :
  av_rep v l ->
  exists v', av_clear v = Ret (l, v') /\ av_cap v' = av_cap v /\ av_rep v' [].
Proof.
  intros Hr. unfold av_clear. rewrite (av_rep_slice v l) by done. simpl.
  eexists; split_and!; [done|..]; unfold av_rep, av_cap in *; simpl;
    rewrite ?length_app, ?length_replicate, ?length_drop; destruct Hr as (?&?&?);
    split_and?; done || lia.
Qed.

Lemma extend_loop_spec (xs : list T) base i (slots : list (option T)) :
  (base + i + length xs <= length slots)%nat ->
  extend_loop base i xs slots =
  Ret (take (base + i) slots ++ (Some <$> xs) ++ drop (base + i + length xs) slots).
Proof.
  revert i slots. induction xs as [|x xs IH]; intros i slots Hb; simpl in *.
  - by rewrite Nat.add_0_r, take_drop.
  - rewrite (proj2 (Nat.ltb_lt _ _)) by lia.
    rewrite IH by (rewrite length_insert; lia). f_equal.
    replace (base + S i)%nat with (S (base + i)) by lia.
    rewrite (take_S_r _ _ (Some x)) by (apply list_lookup_insert_eq; lia).
    rewrite take_insert_ge, drop_insert_lt by lia. rewrite <- app_assoc. simpl.
    repeat f_equal; lia.
Qed.

Lemma extend_unchecked_spec v l xs :
  av_rep v l -> (length l + length xs <= av_cap v)%nat ->
  exists v', extend_from_slice_unchecked xs v = Ret (tt, v') /\
    av_cap v' = av_cap v /\ av_rep v' (l ++ xs).
Proof.
  intros Hr Hc. pose proof Hr as (Hl & _ & Ht). unfold extend_from_slice_unchecked.
  unfold av_cap in *. rewrite Hl.
  rewrite extend_loop_spec by (rewrite Nat.add_0_r; lia). simpl.
  rewrite !Nat.add_0_r, Ht. eexists; split_and!; [done|..];
    unfold av_rep, av_cap; simpl; rewrite ?length_app, ?length_fmap, ?length_drop; try lia.
  split_and!; [lia..|].
  rewrite app_assoc, <- fmap_app.
  apply take_app_length'. by rewrite length_fmap, length_app.
Qed.

Lemma try_extend_spec v l xs :
  av_rep v l -> Z.of_nat (av_cap v) + len xs < 2 ^ 64 ->
  exists v', try_extend_from_slice xs v =
      Ret (if Nat.leb (length l + length xs) (av_cap v) then Ok tt else Err CapacityErr, v') /\
    av_cap v' = av_cap v /\
    av_rep v' (if Nat.leb (length l + length xs) (av_cap v) then l ++ xs else l).
Proof.
  intros Hr Hf. pose proof Hr as (Hl & Hc & _). unfold try_extend_from_slice.
  rewrite Hl, usize_add_ok by lia. simpl.
  destruct (Nat.leb_spec (length l + length xs) (av_cap v)).
  - rewrite (proj2 (Z.ltb_ge _ _)) by lia.
    destruct (extend_unchecked_spec v l xs) as (v' & -> & ? & ?); [done|lia|]. simpl. eauto.
  - rewrite (proj2 (Z.ltb_lt _ _)) by lia. eauto.
Qed.

(** Every operation of the interface is simulated by the specification. *)
Lemma impl_step_spec v l (o : av_op T) :
  av_rep v l -> op_fits (av_cap v) o ->
  exists v', impl_step o v = Ret ((spec_step (av_cap v) o l).1, v') /\
    av_cap v' = av_cap v /\ av_rep v' (spec_step (av_cap v) o l).2.
Proof.
  intros Hr Hf. destruct o as [x| | |xs|i|]; simpl; unfold bind, lift, get, ret.
  - destruct (try_push_spec v l x Hr) as (v' & -> & Hc & Hr').
    exists v'. by destruct (Nat.ltb _ _).
  - destruct (av_pop_spec v l Hr) as (v' & -> & Hc & Hr'). by exists v'.
  - destruct (av_clear_spec v l Hr) as (v' & -> & Hc & Hr'). by exists v'.
  - destruct (try_extend_spec v l xs Hr Hf) as (v' & -> & Hc & Hr').
    exists v'. by destruct (Nat.leb _ _).
  - rewrite (av_rep_get v l) by done. by exists v.
  - rewrite (av_rep_slice v l) by done. by exists v.
Qed.

Lemma impl_run_spec v l (os : list (av_op T)) :
  av_rep v l -> Forall (op_fits (av_cap v)) os ->
  exists v', impl_run os v = Ret ((spec_run (av_cap v) os l).1, v') /\
    av_cap v' = av_cap v /\ av_rep v' (spec_run (av_cap v) os l).2.
Proof.
  intros Hr Hf. revert v l Hr Hf. induction os as [|o os IH]; intros v l Hr Hf.
  - by exists v.
  - apply Forall_cons in Hf as [Ho Hos]. cbn [impl_run spec_run].
    destruct (impl_step_spec v l o Hr Ho) as (v1 & E1 & Hc1 & Hr1).
    destruct (spec_step (av_cap v) o l) as [b l1] eqn:Es. simpl in *.
    destruct (IH v1 l1 Hr1) as (v2 & E2 & Hc2 & Hr2); [by rewrite Hc1|].
    rewrite Hc1 in *. destruct (spec_run (av_cap v) os l1) as [bs l2] eqn:Er. simpl in *.
    exists v2. unfold bind, ret. rewrite E1, E2. split_and!; [done|congruence|done].
Qed.

Lemma as_slice_mut_spec {A} v l (f : M (list T) A) a l' :
  av_rep v l -> f l = Ret (a, l') -> length l' = length l ->
  exists v', as_slice_mut f v = Ret (a, v') /\ av_cap v' = av_cap v /\ av_rep v' l'.
Proof.
  intros Hr Hf Hl'. pose proof Hr as (Hl & Hc & Ht). unfold as_slice_mut.
  rewrite (av_rep_slice v l) by done. simpl. rewrite Hf. simpl.
  eexists; split_and!; [done|..]; unfold av_rep, av_cap in *; simpl;
    rewrite ?length_app, ?length_fmap, ?length_drop; [lia|].
  split_and!; [lia..|]. apply take_app_length'. symmetry; apply length_fmap.
Qed.

End ArrayVecLemmas.
#[export] Hint Resolve av_rep_new : ftl.

(** * Properties *)

(** C15: [ArrayVec] refines a list of at most [N] elements.  Any sequence of
    calls on a new vector (pushes, pops, clears, extensions, reads) runs
    without panicking and without touching an uninitialised slot, every call
    answers as the bounded list does, and the vector ends up holding exactly
    the list's elements. *)
Theorem array_vec_refines_bounded_list `{P : Profile} {T : Type} (N : nat) (os : list (av_op T)) :
  Forall (op_fits N) os ->
  exists v, impl_run os (av_new N) = Ret ((spec_run N os []).1, v) /\
    av_cap v = N /\ as_slice v = Ret (spec_run N os []).2.
Proof.
  intros Hf. destruct (impl_run_spec (av_new N) [] os) as (v & E & Hc & Hr);
    [apply av_rep_new| |]; unfold av_cap in *; simpl in *; rewrite length_replicate in *; [done|].
  exists v. split_and!; [done..|]. by apply av_rep_slice.
Qed.

Lemma array_vec_refines_bounded_list_witness :
  exists v, impl_run (P := dev) [OpPush 1; OpPush 2; OpPush 3; OpPop; OpSlice] (av_new 2) =
    Ret ([ObsPush (Ok tt); ObsPush (Ok tt); ObsPush (Err 3); ObsPop (Some 2); ObsSlice [1]], v).
Proof.
  destruct (@array_vec_refines_bounded_list dev Z 2 [OpPush 1; OpPush 2; OpPush 3; OpPop; OpSlice])
    as (v & E & _); [repeat constructor|]. exists v. exact E.
Defined.

(** [ArrayString::from_ascii_str] accepts exactly the ASCII inputs that
    fit, and [as_bytes] gives back what was stored; the first non-ASCII byte is
    reported, and an ASCII input that does not fit reports the capacity. *)
Theorem from_ascii_str_roundtrip `{P : Profile} (N : nat) (bytes : list Z) :
  Z.of_nat N + len bytes < 2 ^ 64 ->
  match list_find (fun b => is_ascii b = false) bytes with
  | Some (_, b) => from_ascii_str N bytes = Ret (Err (NonAscii b))
  | None =>
      if Nat.leb (length bytes) N
      then exists s, from_ascii_str N bytes = Ret (Ok s) /\ as_bytes s = Ret bytes
      else from_ascii_str N bytes = Ret (Err AsciiCapacity)
  end.
Proof.
  intros Hf. unfold from_ascii_str. destruct (list_find _ bytes) as [[i b]|]; [done|].
  unfold as_try_from, push_str, bind, as_new.
  assert (av_cap (T := Z) (av_new N) = N) as HN by apply length_replicate.
  destruct (try_extend_spec (av_new N) [] bytes) as (v & E & _ & Hr);
    [apply av_rep_new|by rewrite HN|].
  rewrite HN in *. rewrite E. simpl in *. destruct (Nat.leb (length bytes) N); simpl; [|done].
  exists v. split; [done|]. by apply av_rep_slice.
Qed.

Lemma from_ascii_str_roundtrip_witness :
  exists s, @from_ascii_str dev 8 [102; 116; 108] = Ret (Ok s) /\ as_bytes s = Ret [102; 116; 108].
Proof. exact (@from_ascii_str_roundtrip dev 8 [102; 116; 108] eq_refl). Defined.

(** Text in, text out: [push_str] of a string keeps the contents UTF-8, whether
    it fits or not.  [push], which is safe too, does not: after any byte that
    is not ASCII, [as_str] and the comparisons are undefined behaviour. *)
Theorem array_string_push `{P : Profile} (s : ArrayString) (x y : list Z) (byte : Z) :
  av_rep s x -> utf8_valid x = true -> utf8_valid y = true -> Z.of_nat (av_cap s) + len y < 2 ^ 64 -> 128 <= byte ->
  (exists s', push_str y s = Ret (if Nat.leb (length x + length y) (av_cap s) then Ok tt else Err CapacityErr, s') /\
     as_str s' = Ret (if Nat.leb (length x + length y) (av_cap s) then x ++ y else x)) /\
  ((length x < av_cap s)%nat -> exists s', as_push byte s = Ret (Ok tt, s') /\ as_str s' = Undef).
Proof.
  intros Hs Hx Hy Hf Hb. split.
  - destruct (try_extend_spec s x y Hs Hf) as (v & E & _ & Hr). exists v. unfold push_str, as_str.
    rewrite (bind_run _ _ _ _ _ E), (av_rep_slice _ _ Hr). cbn [obind].
    destruct (Nat.leb _ _); split; try done; [by rewrite utf8_valid_app, Hy|by rewrite Hx].
  - intros Hlt. destruct (try_push_spec s x byte Hs) as (v & E & _ & Hr). rewrite (proj2 (Nat.ltb_lt _ _) Hlt) in *.
    exists v. unfold as_push, as_str. rewrite (bind_run _ _ _ _ _ E), (av_rep_slice _ _ Hr). split; [done|]. cbn [obind].
    rewrite utf8_valid_app by done. cbn. by rewrite (proj2 (Z.ltb_ge _ _)) by done.
Qed.

(** [Ord] is a total order that agrees with [PartialEq]. *)
Theorem array_string_order `{P : Profile} (a b : ArrayString) (x y : list Z) :
  as_str a = Ret x -> as_str b = Ret y ->
  as_eq a b = Ret (bool_decide (str_cmp x y = Eq)) /\ as_cmp a b = Ret (str_cmp x y) /\
  as_cmp b a = Ret (CompOpp (str_cmp x y)) /\ as_partial_cmp a b = Ret (Some (str_cmp x y)).
Proof.
  intros Ha Hb. unfold as_eq, as_cmp, as_partial_cmp. rewrite Ha, Hb. cbn [obind]. rewrite <- str_cmp_antisym.
  split; [|done]. f_equal. apply bool_decide_ext. by rewrite str_cmp_eq.
Qed.
