(* ===== verification/Bump.v ===== *)
(** * ftl_bump_allocator

    [BumpAllocator] of libs/rust/ftl_bump_allocator/src/lib.rs, which hands out
    a region from its end downwards. *)

From S2P Require Import Prelude Bytes Alignment.

Record BumpAllocator : Set := mkBump {
  start : Z;
  next : Z
}.

Section BumpOps.
Context {P : Profile}.

Definition bump_new (start end_ : Z) : BumpAllocator := mkBump start end_.

Definition bump_alloc (size align : Z) : M BumpAllocator (option Z) :=
  fun b =>
    match checked_sub (next b) size with
    | None => Ret (None, b)
    | Some addr =>
        let* aligned_addr := align_down addr align in
        if aligned_addr <? start b then Ret (None, b)
        else Ret (Some aligned_addr, mkBump (start b) aligned_addr)
    end.

(** A client: requests [(size, align)] served one after the other. *)
Fixpoint bump_alloc_all (reqs : list (Z * Z)) : M BumpAllocator (list (option Z)) :=
  match reqs with
  | [] => ret []
  | (size, align) :: r =>
      do* a := bump_alloc size align in
      do* l := bump_alloc_all r in
      ret (a :: l)
  end.

End BumpOps.

Definition bump_wf (b : BumpAllocator) : Prop := is_usize (start b) /\ is_usize (next b).

(** A request the allocator accepts: a size and a power-of-two alignment. *)
Definition bump_req (r : Z * Z) : Prop :=
  0 <= r.1 /\ exists k, 0 <= k < 64 /\ r.2 = 2 ^ k.

(** * Lemmas *)

Section BumpLemmas.
Context {P : Profile}.

Lemma bump_alloc_cases b size k :
  bump_wf b -> 0 <= size -> 0 <= k < 64 ->
  (exists a, bump_alloc size (2 ^ k) b = Ret (Some a, mkBump (start b) a) /\
     a mod 2 ^ k = 0 /\ start b <= a /\ a + size <= next b /\
     forall a', a' mod 2 ^ k = 0 -> a' + size <= next b -> a' <= a) \/
  (bump_alloc size (2 ^ k) b = Ret (None, b) /\
     forall a', a' mod 2 ^ k = 0 -> start b <= a' -> next b < a' + size).
Proof.
  intros [Hs Hn] Hz Hk. unfold bump_alloc, is_usize in *. pose proof (pow2_lt_64 k Hk).
  destruct (checked_sub_spec (next b) size) as [[-> ?]|[-> ?]]; [|right; split; [done|]; lia].
  rewrite align_down_pow2 by (unfold is_usize; lia). simpl.
  set (x := next b - size). pose proof (Z.mod_pos_bound x (2 ^ k)).
  assert ((x - x mod 2 ^ k) mod 2 ^ k = 0) as Hm.
  { rewrite Zminus_mod_idemp_r, Z.sub_diag. apply Z.mod_0_l. lia. }
  assert (forall a', a' mod 2 ^ k = 0 -> a' <= x -> a' <= x - x mod 2 ^ k) as Hmax.
  { intros a' [q Hq]%Z.mod_divide Ha'; [|lia]. apply Z.mod_divide in Hm as [r Hr]; [|lia].
    assert (q < r + 1) by (apply (Z.mul_lt_mono_pos_r (2 ^ k)); lia). nia. }
  case_Z.
  - right. split; [done|]. intros a' Ha' Hsa'. specialize (Hmax a' Ha'). lia.
  - left. eexists. split_and!; [done..|lia|]. intros a' Ha' ?. apply Hmax; [done|lia].
Qed.

Lemma bump_wf_lower b a : bump_wf b -> start b <= a <= next b -> bump_wf (mkBump (start b) a).
Proof. unfold bump_wf, is_usize; simpl. lia. Qed.

Lemma bump_alloc_all_spec reqs b :
  bump_wf b -> Forall bump_req reqs ->
  exists rs b', bump_alloc_all reqs b = Ret (rs, b') /\ length rs = length reqs /\
    start b' = start b /\ next b' <= next b /\ bump_wf b' /\
    (forall i size align a, reqs !! i = Some (size, align) -> rs !! i = Some (Some a) ->
       a mod align = 0 /\ start b <= a /\ a + size <= next b) /\
    (forall i j si ai a sj aj a', (i < j)%nat ->
       reqs !! i = Some (si, ai) -> rs !! i = Some (Some a) ->
       reqs !! j = Some (sj, aj) -> rs !! j = Some (Some a') -> a' + sj <= a).
Proof.
  intros Hwf Hr. revert b Hwf. induction Hr as [|[size align] reqs [Hz (k & Hk & Ha)] Hr IH];
    intros b Hwf; simpl in *.
  - exists [], b. split_and!; try done.
  - subst align. destruct (bump_alloc_cases b size k) as [(a & E & Hm & Hlo & Hhi & _)|[E _]];
      [done..| |].
    + destruct (IH (mkBump (start b) a)) as (rs & b' & E' & Hl & Hs & Hn & Hw & Hin & Hdis);
        [apply bump_wf_lower; [done|lia]|]. simpl in *.
      exists (Some a :: rs), b'. unfold bind, ret. rewrite E, E'.
      split_and!; [done|simpl; lia|done|lia|done|..].
      * intros [|i] sz al a0; simpl; [naive_solver|]. intros H1 H2.
        destruct (Hin i sz al a0 H1 H2) as (?&?&?). split_and!; [done..|lia].
      * intros [|i] [|j] si ai a0 sj aj a1 Hij; simpl; try lia.
        -- intros [= <- <-] [= <-] H1 H2. destruct (Hin j sj aj a1 H1 H2) as (?&?&?). lia.
        -- intros. eapply (Hdis i j); eauto; lia.
    + destruct (IH b Hwf) as (rs & b' & E' & Hl & Hs & Hn & Hw & Hin & Hdis).
      exists (None :: rs), b'. unfold bind, ret. rewrite E, E'.
      split_and!; [done|simpl; lia|done|lia|done|..].
      * intros [|i] sz al a0; simpl; [naive_solver|]. apply Hin.
      * intros [|i] [|j] si ai a0 sj aj a1 Hij; simpl; try lia; [naive_solver|].
        intros. eapply (Hdis i j); eauto; lia.
Qed.

End BumpLemmas.

(** * Properties *)

(** A request is served when and only when it fits.  [alloc] returns the
    highest aligned address whose block ends at or below the old [next] and
    makes it the new [next]; it returns [None], and changes nothing, exactly
    when no aligned block of that size lies between [start] and [next]. *)
Theorem bump_alloc_best_fit `{P : Profile} (b : BumpAllocator) (size k : Z) :
  bump_wf b -> 0 <= size -> 0 <= k < 64 ->
  (exists a, bump_alloc size (2 ^ k) b = Ret (Some a, mkBump (start b) a) /\
     a mod 2 ^ k = 0 /\ start b <= a /\ a + size <= next b /\
     forall a', a' mod 2 ^ k = 0 -> a' + size <= next b -> a' <= a) \/
  (bump_alloc size (2 ^ k) b = Ret (None, b) /\
     forall a', a' mod 2 ^ k = 0 -> start b <= a' -> next b < a' + size).
Proof. apply bump_alloc_cases. Qed.

Lemma bump_alloc_best_fit_witness :
  bump_wf (bump_new 0 0x2000) /\
  ((exists a, @bump_alloc dev 5 16 (bump_new 0 0x2000) = Ret (Some a, mkBump 0 a) /\ a mod 16 = 0) \/
   @bump_alloc dev 5 16 (bump_new 0 0x2000) = Ret (None, bump_new 0 0x2000)).
Proof.
  assert (bump_wf (bump_new 0 0x2000)) as Hw by (split; split; reflexivity || discriminate).
  split; [exact Hw|].
  destruct (@bump_alloc_best_fit dev (bump_new 0 0x2000) 5 4 Hw) as [(a & E & Hm & _)|[E _]];
    [lia..|left; exists a; split; [exact E|exact Hm]|right; exact E].
Defined.

(** Blocks never overlap: whatever sequence of requests is served, every
    block lies in the region with the alignment it asked for, and each later
    block ends at or below the start of every earlier one. *)
Theorem bump_blocks_disjoint `{P : Profile} (reqs : list (Z * Z)) (lo hi : Z) :
  is_usize lo -> is_usize hi -> Forall bump_req reqs ->
  exists rs b', bump_alloc_all reqs (bump_new lo hi) = Ret (rs, b') /\ length rs = length reqs /\
    (forall i size align a, reqs !! i = Some (size, align) -> rs !! i = Some (Some a) ->
       a mod align = 0 /\ lo <= a /\ a + size <= hi) /\
    (forall i j si ai a sj aj a', (i < j)%nat ->
       reqs !! i = Some (si, ai) -> rs !! i = Some (Some a) ->
       reqs !! j = Some (sj, aj) -> rs !! j = Some (Some a') -> a' + sj <= a).
Proof.
  intros Hlo Hhi Hr.
  destruct (bump_alloc_all_spec reqs (bump_new lo hi)) as (rs & b' & ? & ? & ? & ? & ? & ? & ?);
    [done..|]. eauto 10.
Qed.

Lemma bump_blocks_disjoint_witness :
  exists rs b', @bump_alloc_all dev [(5, 16); (5, 16); (0x1000, 0x1000)] (bump_new 0 0x2000)
    = Ret (rs, b') /\ length rs = 3%nat.
Proof.
  destruct (@bump_blocks_disjoint dev [(5, 16); (5, 16); (0x1000, 0x1000)] 0 0x2000)
    as (rs & b' & E & L & _); [split; lia..| |exists rs, b'; split; [exact E|exact L]].
  repeat constructor; simpl; try lia; [exists 4|exists 4|exists 12]; split; lia.
Defined.
