(* ===== verification/Api.v ===== *)
(** * ftl_api

    The data that crosses the boundary between the kernel and the servers:
    error codes, handle rights and page attributes (libs/rust/ftl_api/src/
    error.rs, handle.rs, vmspace.rs), and the thread contexts of thread.rs. *)

From S2P Require Import Prelude Bytes.

(** ** Error codes: four ASCII characters in an [i32] *)

Definition ErrorCode := Z.

(** The loop of [from_name], one character per step. *)
Fixpoint from_name_loop (raw : Z) (name : list Z) : outcome Z :=
  match name with
  | [] => Ret raw
  | ch :: r =>
      if ch <? 128
      then from_name_loop (to_signed 32 (Z.lor (Z.shiftl raw 8) ch)) r
      else Panic
  end.

Definition from_name (name : list Z) : outcome ErrorCode :=
  if Nat.eqb (length name) 4 then from_name_loop 0 name else Panic.

(** The constants are evaluated at compile time. *)
Definition const_eval (m : outcome Z) : Z := match m with Ret v => v | _ => 0 end.

Definition OUT_OF_MEMORY : ErrorCode := Eval cbv in const_eval (from_name [32; 79; 79; 77]).
Definition NOT_ALLOWED : ErrorCode := Eval cbv in const_eval (from_name [78; 65; 76; 87]).
Definition ALREADY_EXISTS : ErrorCode := Eval cbv in const_eval (from_name [69; 88; 83; 84]).
Definition INVALID_ARG : ErrorCode := Eval cbv in const_eval (from_name [73; 78; 86; 65]).
Definition INVALID_STATE : ErrorCode := Eval cbv in const_eval (from_name [73; 78; 86; 83]).
Definition INVALID_TYPE : ErrorCode := Eval cbv in const_eval (from_name [73; 78; 86; 84]).
Definition OUT_OF_BOUNDS : ErrorCode := Eval cbv in const_eval (from_name [32; 79; 79; 66]).
Definition UNSUPPORTED : ErrorCode := Eval cbv in const_eval (from_name [85; 78; 83; 80]).

(** What [Debug] prints: [to_be_bytes] of the code. *)
Definition error_debug (e : ErrorCode) : list Z := rev (le_bytes 4 (wrap 32 e)).

(** ** Handles *)

Definition HandleRight := Z.
Definition RIGHT_NONE : HandleRight := 0.
Definition RIGHT_READ : HandleRight := Z.shiftl 1 0.
Definition RIGHT_WRITE : HandleRight := Z.shiftl 1 1.
Definition RIGHT_MAP : HandleRight := Z.shiftl 1 2.

Definition right_contains (self other : HandleRight) : bool := Z.land self other =? other.
Definition right_or (self other : HandleRight) : HandleRight := Z.lor self other.

(** The [TypeId]s of the kernel objects that handles are made for. *)
Inductive TypeId : Set := VmAreaType | VmSpaceType | ThreadType.
#[global] Instance TypeId_eq_dec : EqDecision TypeId.
Proof. solve_decision. Defined.

Record Handle : Set := mkHandle {
  h_raw : Z;
  type_id : TypeId;
  h_right : HandleRight
}.

Definition is_type (h : Handle) (t : TypeId) : bool := bool_decide (type_id h = t).
Definition authorize (h : Handle) (action : HandleRight) : bool := right_contains (h_right h) action.

(** ** Page attributes (x86-64 flag bits) *)

Definition PageAttrs := Z.
Definition ATTR_READ : PageAttrs := Z.shiftl 1 0.
Definition ATTR_WRITE : PageAttrs := Z.shiftl 1 1.
Definition ATTR_EXEC : PageAttrs := Z.shiftl 1 2.

Definition attrs_contains (self other : PageAttrs) : bool := Z.land self other =? other.
Definition attrs_or (self other : PageAttrs) : PageAttrs := Z.lor self other.
Definition attrs_as_raw (self : PageAttrs) : Z := self.

(** The field is private, so every value is an [or] of the constants. *)
Inductive attrs_built : PageAttrs -> Prop :=
| built_read : attrs_built ATTR_READ
| built_write : attrs_built ATTR_WRITE
| built_exec : attrs_built ATTR_EXEC
| built_or a b : attrs_built a -> attrs_built b -> attrs_built (attrs_or a b).

(** ** Thread contexts *)

Inductive ContextKind : Set := KindSyscallArgs | KindSysret | KindInitRegs | KindFsbase.

Record InitRegs : Set := mkInitRegs { pc : Z; sp : Z }.
Record SyscallArgs : Set := mkSyscallArgs {
  sa_n : Z; arg0 : Z; arg1 : Z; arg2 : Z; arg3 : Z; arg4 : Z; arg5 : Z
}.
Record Sysret : Set := mkSysret { retval : Z }.
Record FsBase : Set := mkFsBase { fs_base : Z }.

Definition SyscallArgs_zeroed : SyscallArgs := mkSyscallArgs 0 0 0 0 0 0 0.
Definition Sysret_zeroed : Sysret := mkSysret 0.

(** [ContextData] is a [repr(C)] union of structs of 64-bit words: seven words
    (the size of the largest variant), each of which may be uninitialised. *)
Definition ContextData := list (option Z).

Definition of_syscall_args (a : SyscallArgs) : ContextData :=
  Some <$> [sa_n a; arg0 a; arg1 a; arg2 a; arg3 a; arg4 a; arg5 a].
Definition of_sysret (r : Sysret) : ContextData := Some (retval r) :: replicate 6 None.
Definition of_init_regs (r : InitRegs) : ContextData := Some (pc r) :: Some (sp r) :: replicate 5 None.
Definition of_fsbase (r : FsBase) : ContextData := Some (fs_base r) :: replicate 6 None.

(** Reading a word of the union. *)
Definition ctx_word (d : ContextData) (i : nat) : outcome Z :=
  match d !! i with
  | Some (Some w) => Ret w
  | _ => Undef
  end.

(** Writing a word through a reference to one of the variants. *)
Definition ctx_set (d : ContextData) (i : nat) (w : Z) : ContextData := <[i := Some w]> d.

(** * Lemmas *)

Lemma from_name_loop_step raw ch r :
  0 <= ch < 128 -> 0 <= raw < 2 ^ 23 ->
  from_name_loop raw (ch :: r) = from_name_loop (raw * 256 + ch) r.
Proof.
  intros Hc Hr. cbn [from_name_loop]. rewrite (proj2 (Z.ltb_lt _ _)) by lia.
  assert (Z.lor (Z.shiftl raw 8) ch = raw * 256 + ch) as ->.
  { rewrite Z.shiftl_mul_pow2 by lia. apply (lor_add_low 8); [lia| |lia]. apply Z.mod_mul. lia. }
  unfold to_signed, wrap. rewrite Z.mod_small by lia. by rewrite (proj2 (Z.ltb_lt _ _)) by lia.
Qed.

Lemma from_name_ok name :
  Forall (fun b => 0 <= b < 128) name -> length name = 4%nat ->
  from_name name = Ret (le_val (rev name)).
Proof.
  intros Hb Hl. destruct name as [|a [|b [|c [|d [|? ?]]]]]; try done.
  repeat apply Forall_cons in Hb as [? Hb]. unfold from_name; simpl length; simpl Nat.eqb; cbv iota.
  rewrite !from_name_loop_step by lia. cbn. f_equal. lia.
Qed.

(** [attrs] values only use the low three bits. *)
Lemma attrs_built_bound a : attrs_built a -> 0 <= a < 8.
Proof.
  induction 1 as [| | |a b _ IHa _ IHb]; try (split; done || reflexivity).
  unfold attrs_or. split; [apply Z.lor_nonneg; lia|].
  assert (Z.lor a b = Z.lor a b mod 2 ^ 3) as ->; [|apply Z.mod_pos_bound; lia].
  apply Z.bits_inj'. intros i Hi. destruct (Z.ltb_spec i 3).
  - by rewrite Z.mod_pow2_bits_low.
  - rewrite Z.mod_pow2_bits_high, Z.lor_spec by lia.
    rewrite <- (Z.mod_small a (2 ^ 3)), <- (Z.mod_small b (2 ^ 3)) by lia.
    by rewrite !Z.mod_pow2_bits_high by lia.
Qed.

(** * Properties *)

(** Error names survive the trip through the code.  For a name of four
    ASCII characters [from_name] succeeds, the code fits a non-negative [i32],
    and [Debug] prints the four characters back. *)
Theorem error_name_roundtrip (name : list Z) :
  Forall (fun b => 0 <= b < 128) name -> length name = 4%nat ->
  exists e, from_name name = Ret e /\ 0 <= e < 2 ^ 31 /\ error_debug e = name.
Proof.
  intros Hb Hl. rewrite from_name_ok by done. eexists. split; [done|].
  assert (bytes_ok (rev name)) as Hok.
  { apply Forall_rev. eapply Forall_impl; [exact Hb|]. unfold is_byte. simpl. lia. }
  assert (0 <= le_val (rev name) < 2 ^ 31) as Hv.
  { destruct name as [|a [|b [|c [|d [|? ?]]]]]; try done. repeat apply Forall_cons in Hb as [? Hb].
    cbn. lia. }
  split; [done|]. unfold error_debug, wrap. rewrite Z.mod_small by lia.
  replace 4%nat with (length (rev name)) by (by rewrite length_rev).
  by rewrite le_bytes_le_val, rev_involutive.
Qed.

Lemma error_name_roundtrip_witness :
  exists e, from_name [73; 78; 86; 65] = Ret e /\ 0 <= e < 2 ^ 31 /\ error_debug e = [73; 78; 86; 65].
Proof. apply error_name_roundtrip; [repeat constructor; lia|reflexivity]. Defined.
