(* ===== verification/Malloc.v ===== *)
(** * ftl_malloc

    The K&R allocator of libs/rust/ftl_malloc/src/lib.rs.  The heap is a map
    from addresses to the headers written there; the [Option<NonNull<Header>>]
    links are optional addresses.  Following a link to an address that holds
    no header is [Undef]. *)

From S2P Require Import Prelude Bytes Alignment.

Definition MAGIC_FREE : Z := 0x5f5f5f5f.
Definition MAGIC_ALLOCATED : Z := 0x5a5a5a5a.
Definition HEADER_SIZE : Z := 16.
Definition MIN_CAPACITY : Z := 16.
Definition MIN_SIZE : Z := 16.

Record Header : Set := mkHeader {
  hnext : option Z;
  capacity : Z;
  magic : Z
}.

(** [LinkedListAllocator] together with the memory its headers live in. *)
Record Heap : Set := mkHeap {
  head : option Z;
  heap : gmap Z Header
}.

Definition heap_new : Heap := mkHeap None ∅.

Section MallocOps.
Context {P : Profile}.

Definition data_ptr (header : Z) : Z := header + HEADER_SIZE.
Definition from_data_ptr (ptr : Z) : Z := ptr - HEADER_SIZE.

Definition can_fit (a : Z) (h : Header) (size align : Z) : outcome (result unit Z) :=
  if size <=? capacity h then
    let* b := is_aligned (data_ptr a) align in
    if b then Ret (Ok (data_ptr a)) else Ret (Err tt)
  else Ret (Err tt).

(** [try_split] also returns the shrunk header. *)
Definition try_split (a : Z) (h : Header) (size : Z) : outcome (option (Z * Z) * Header) :=
  match checked_sub (capacity h) size with
  | None => Ret (None, h)
  | Some remaining =>
      if remaining <? wrap 32 (HEADER_SIZE + MIN_CAPACITY) then Ret (None, h)
      else match checked_sub remaining HEADER_SIZE with
           | None => Ret (None, h)
           | Some remainder =>
               let new_header_ptr := data_ptr a + size in
               let* b := is_aligned new_header_ptr MIN_SIZE in
               let* _ := debug_assert b in
               Ret (Some (new_header_ptr, remainder), mkHeader (hnext h) size (magic h))
           end
  end.

Definition read_header (a : Z) : M Heap Header :=
  fun s => match heap s !! a with
           | Some h => Ret (h, s)
           | None => Undef
           end.

Definition write_header (a : Z) (h : Header) : M Heap unit :=
  fun s => Ret (tt, mkHeap (head s) (<[a := h]> (heap s))).

Definition set_head (o : option Z) : M Heap unit :=
  fun s => Ret (tt, mkHeap o (heap s)).

Definition add_chunk (ptr size : Z) : M Heap unit :=
  do* b := lift (if ptr =? 0 then Ret false else is_aligned ptr MIN_SIZE) in
  if negb b then ret tt
  else match checked_sub size HEADER_SIZE with
       | None => ret tt
       | Some capacity =>
           if capacity <? MIN_CAPACITY then ret tt
           else if U32_MAX <? capacity then ret tt
           else
             do* s := get in
             do* _ := write_header ptr (mkHeader (head s) capacity MAGIC_FREE) in
             set_head (Some ptr)
       end.

(** The chunk [a] has been chosen: split it, mark it, unlink it. *)
Definition take_chunk (size : Z) (prev : option Z) (a : Z) (h : Header) : M Heap unit :=
  do* (split, h') := lift (try_split a h size) in
  do* next_free :=
    match split with
    | Some (new_header, remainder) =>
        do* _ := write_header new_header (mkHeader (hnext h') remainder MAGIC_FREE) in
        ret (Some new_header)
    | None => ret (hnext h')
    end in
  do* _ := write_header a (mkHeader None (capacity h') MAGIC_ALLOCATED) in
  match prev with
  | Some p =>
      do* hp := read_header p in
      write_header p (mkHeader next_free (capacity hp) (magic hp))
  | None => set_head next_free
  end.

Fixpoint malloc_loop (fuel : nat) (size align : Z) (prev next : option Z) : M Heap (option Z) :=
  match next with
  | None => ret None
  | Some a =>
      match fuel with
      | O => fun _ => Hang
      | S fuel =>
          do* h := read_header a in
          do* _ := lift (debug_assert (magic h =? MAGIC_FREE)) in
          do* r := lift (can_fit a h size align) in
          match r with
          | Ok ptr => do* _ := take_chunk size prev a h in ret (Some ptr)
          | Err _ => malloc_loop fuel size align (Some a) (hnext h)
          end
      end
  end.

(** A walk that visits more headers than exist is in a cycle. *)
Definition malloc (size align : Z) : M Heap (option Z) :=
  do* _ := lift (debug_assert (is_power_of_two align)) in
  do* _ := lift (debug_assert (0 <? align)) in
  do* _ := lift (debug_assert (0 <? size)) in
  if U32_MAX / 2 <? size then ret None
  else
    do* rounded := lift (align_up size MIN_SIZE) in
    do* s := get in
    malloc_loop (base.size (heap s)) (wrap 32 rounded) align None (head s).

Definition free (ptr : Z) : M Heap unit :=
  if ptr =? 0 then ret tt
  else
    let a := from_data_ptr ptr in
    do* h := read_header a in
    do* _ := lift (debug_assert (magic h =? MAGIC_ALLOCATED)) in
    do* s := get in
    do* _ := write_header a (mkHeader (head s) (capacity h) MAGIC_FREE) in
    set_head (Some a).

End MallocOps.

(** ** The invariant *)

(** [lseg m o l o']: following the links from [o] visits the free headers [l]
    and arrives at [o']. *)
Fixpoint lseg (m : gmap Z Header) (o : option Z) (l : list Z) (o' : option Z) : Prop :=
  match l with
  | [] => o = o'
  | a :: r => o = Some a /\ exists h, m !! a = Some h /\ magic h = MAGIC_FREE /\ lseg m (hnext h) r o'
  end.

(** A chunk is its header followed by [capacity] bytes. *)
Definition chunk_end (a : Z) (h : Header) : Z := a + HEADER_SIZE + capacity h.

Definition chunk_ok (a : Z) (h : Header) : Prop :=
  0 < a /\ a mod MIN_SIZE = 0 /\ MIN_CAPACITY <= capacity h <= U32_MAX /\ chunk_end a h <= 2 ^ 64.

Record heap_inv (s : Heap) (l : list Z) : Prop := mkHeapInv {
  inv_list : lseg (heap s) (head s) l None;
  inv_nodup : NoDup l;
  inv_chunk : forall a h, heap s !! a = Some h -> chunk_ok a h;
  inv_magic : forall a h, heap s !! a = Some h -> a ∉ l -> magic h = MAGIC_ALLOCATED;
  inv_disjoint : forall a h b g, heap s !! a = Some h -> heap s !! b = Some g ->
    a < b -> chunk_end a h <= b
}.

(** A block handed out and not freed: its data pointer and its capacity. *)
Definition live (s : Heap) (p c : Z) : Prop :=
  exists h, heap s !! from_data_ptr p = Some h /\ magic h = MAGIC_ALLOCATED /\ capacity h = c.

(** What [add_chunk] requires of its caller: memory no chunk uses. *)
Definition region_free (s : Heap) (ptr size : Z) : Prop :=
  0 <= ptr /\ 0 <= size /\ ptr + size <= 2 ^ 64 /\
  forall a h, heap s !! a = Some h -> chunk_end a h <= ptr \/ ptr + size <= a.

(** The chunk [a] can serve a request for [size] bytes at alignment [align]. *)
Definition fits (s : Heap) (size align a : Z) : Prop :=
  exists h, heap s !! a = Some h /\ size <= capacity h /\ data_ptr a mod align = 0.

(** A request [malloc] is meant for. *)
Definition good_request (size align : Z) : Prop :=
  0 < size < 2 ^ 64 /\ exists k, 0 <= k < 64 /\ align = 2 ^ k.

(** The size malloc looks for. *)
Definition rounded (size : Z) : Z := size + (- size) mod MIN_SIZE.

(** * Lemmas *)

Lemma lseg_insert m o l o' a h : a ∉ l -> lseg m o l o' -> lseg (<[a := h]> m) o l o'.
Proof.
  revert o. induction l as [|b l IH]; intros o Ha; simpl; [done|].
  apply not_elem_of_cons in Ha as [Hab Ha]. intros (-> & g & Hg & Hm & Hl).
  split; [done|]. exists g. rewrite lookup_insert_ne by done. auto.
Qed.

Lemma lseg_app m o l1 l2 o' : lseg m o (l1 ++ l2) o' <-> exists x, lseg m o l1 x /\ lseg m x l2 o'.
Proof.
  revert o. induction l1 as [|a l1 IH]; intros o; simpl; [naive_solver|].
  setoid_rewrite IH. naive_solver.
Qed.

(** Redirect the last link of a segment. *)
Lemma lseg_relink m o l p h x y :
  p ∉ l -> m !! p = Some h -> lseg m o (l ++ [p]) x ->
  lseg (<[p := mkHeader y (capacity h) (magic h)]> m) o (l ++ [p]) y.
Proof.
  intros Hp Hm (z & Hl & Hz)%lseg_app. simpl in Hz. destruct Hz as (-> & g & Hg & Hgm & _).
  rewrite Hm in Hg. simplify_eq. apply lseg_app. exists (Some p). split; [by apply lseg_insert|].
  simpl. split; [done|]. eexists. rewrite lookup_insert_eq. split_and!; done.
Qed.

Lemma lseg_lookup m o l o' a : lseg m o l o' -> a ∈ l -> exists h, m !! a = Some h /\ magic h = MAGIC_FREE.
Proof.
  revert o. induction l as [|b l IH]; intros o; simpl; [by intros _ ?%not_elem_of_nil|].
  intros (-> & h & Hh & Hm & Hl) [->|Ha]%elem_of_cons; eauto.
Qed.

Lemma lseg_length m o l : lseg m o l None -> NoDup l -> (length l <= size m)%nat.
Proof.
  intros Hl Hn. rewrite <- (size_list_to_set (C := gset Z) l Hn).
  rewrite <- (size_dom (D := gset Z) m). apply subseteq_size. intros a Ha%elem_of_list_to_set.
  destruct (lseg_lookup _ _ _ _ _ Hl Ha) as (h & Hh & _). by apply elem_of_dom_2 in Hh.
Qed.

Section MallocLemmas.
Context {P : Profile}.

Lemma rounded_spec size :
  0 < size <= U32_MAX / 2 ->
  align_up size MIN_SIZE = Ret (rounded size) /\ wrap 32 (rounded size) = rounded size /\
  rounded size mod 16 = 0 /\ size <= rounded size < size + 16.
Proof.
  intros Hs. change (U32_MAX / 2) with 2147483647 in Hs. unfold rounded, MIN_SIZE.
  change (16) with (2 ^ 4). rewrite align_up_pow2 by lia.
  destruct (round_up_spec size (2 ^ 4)) as (Hm & Hr & _); [lia|]. unfold wrap.
  split_and!; [done| |done|lia..]. apply Z.mod_small. lia.
Qed.

Lemma can_fit_spec a h size k :
  0 <= k < 64 ->
  can_fit a h size (2 ^ k) =
  Ret (if (size <=? capacity h) && (data_ptr a mod 2 ^ k =? 0) then Ok (data_ptr a) else Err tt).
Proof.
  intros Hk. unfold can_fit. rewrite is_aligned_pow2 by done.
  destruct (size <=? capacity h), (data_ptr a mod 2 ^ k =? 0); done.
Qed.

(** Splitting at a multiple of 16 keeps the remainder aligned. *)
Lemma try_split_spec a h size :
  a mod 16 = 0 -> size mod 16 = 0 -> size <= capacity h ->
  try_split a h size =
  Ret (if capacity h - size <? 32 then (None, h)
       else (Some (a + 16 + size, capacity h - size - 16), mkHeader (hnext h) size (magic h))).
Proof.
  intros Ha Hs Hc. unfold try_split.
  destruct (checked_sub_spec (capacity h) size) as [[-> ?]|[-> ?]]; [|lia].
  change (wrap 32 (HEADER_SIZE + MIN_CAPACITY)) with 32. unfold HEADER_SIZE, data_ptr.
  case_Z; [done|]. destruct (checked_sub_spec (capacity h - size) 16) as [[-> ?]|[-> ?]]; [|lia].
  unfold MIN_SIZE. rewrite is_aligned_16. unfold HEADER_SIZE.
  replace ((a + 16 + size) mod 16 =? 0) with true; [simpl; by rewrite debug_assert_ok|].
  symmetry. bool_lia. dlia.
Qed.

(** *** The list surgery, as changes of the heap *)

(** [m'] has the same chunks as [m] (only links and magics differ). *)
Definition same_extents (m m' : gmap Z Header) : Prop :=
  forall a h', m' !! a = Some h' -> exists h, m !! a = Some h /\ capacity h = capacity h'.

Lemma same_extents_insert m m' a h h' :
  same_extents m m' -> m !! a = Some h -> capacity h = capacity h' ->
  same_extents m (<[a := h']> m').
Proof.
  intros Hm Ha Hc b g [[<- <-]|[_ Hb]]%lookup_insert_Some; [by exists h|]. by apply Hm.
Qed.

Lemma same_extents_refl m : same_extents m m.
Proof. intros a h Hh. by exists h. Qed.

Lemma same_extents_chunk m m' :
  same_extents m m' -> (forall a h, m !! a = Some h -> chunk_ok a h) ->
  forall a h, m' !! a = Some h -> chunk_ok a h.
Proof.
  intros Hm Hc a h' Hh'. destruct (Hm a h' Hh') as (h & Hh & E).
  specialize (Hc a h Hh). unfold chunk_ok, chunk_end in *. by rewrite <- E.
Qed.

Lemma same_extents_disjoint m m' :
  same_extents m m' ->
  (forall a h b g, m !! a = Some h -> m !! b = Some g -> a < b -> chunk_end a h <= b) ->
  forall a h b g, m' !! a = Some h -> m' !! b = Some g -> a < b -> chunk_end a h <= b.
Proof.
  intros Hm Hd a h' b g' Ha Hb Hab.
  destruct (Hm a h' Ha) as (h & Hh & E). destruct (Hm b g' Hb) as (g & Hg & _).
  specialize (Hd a h b g Hh Hg Hab). unfold chunk_end in *. by rewrite <- E.
Qed.

(** Replace the chunk [a] by a smaller one followed by a new free chunk. *)
Lemma split_inv s l1 l2 a h size :
  heap_inv s (l1 ++ a :: l2) -> heap s !! a = Some h ->
  size mod 16 = 0 -> 16 <= size -> 32 <= capacity h - size ->
  let n := a + 16 + size in
  heap s !! n = None /\
  heap_inv (mkHeap (head s)
    (<[a := mkHeader (Some n) size MAGIC_FREE]>
      (<[n := mkHeader (hnext h) (capacity h - size - 16) MAGIC_FREE]> (heap s))))
    (l1 ++ a :: n :: l2).
Proof.
  intros [Hl Hnd Hc Hm Hd] Ha Hs Hs16 Hcap n.
  pose proof (Hc a h Ha) as (Ha0 & Ham & Hcb & Hce).
  unfold chunk_end, MIN_SIZE, MIN_CAPACITY, HEADER_SIZE in *.
  assert (forall b g, heap s !! b = Some g -> b <= a \/ a + 16 + capacity h <= b) as Hgap.
  { intros b g Hb. destruct (Z.lt_trichotomy a b) as [?|[->|?]]; [right; by eapply Hd|lia..]. }
  assert (heap s !! n = None) as Hn.
  { destruct (heap s !! n) eqn:E; [|done]. destruct (Hgap n h0 E); lia. }
  assert (n ∉ l1 ++ a :: l2) as Hnl.
  { intros Hin. destruct (lseg_lookup _ _ _ _ _ Hl Hin) as (g & Hg & _). congruence. }
  split; [done|]. apply lseg_app in Hl as (x & Hl1 & -> & g & Hg & Hgm & Hl2).
  assert (g = h) as -> by congruence.
  rewrite not_elem_of_app, not_elem_of_cons in Hnl. destruct Hnl as (? & ? & ?).
  apply NoDup_app in Hnd as (Hnd1 & Hnd12 & Hnd2). apply NoDup_cons in Hnd2 as [Ha2 Hnd2].
  constructor; simpl.
  - apply lseg_app. exists (Some a). split.
    { apply lseg_insert; [|by apply lseg_insert]. intros ?. eapply Hnd12; [done|]. by left. }
    simpl. split; [done|]. eexists. rewrite lookup_insert_eq. split_and!; [done..|simpl].
    eexists. rewrite lookup_insert_ne, lookup_insert_eq by lia. split_and!; [done..|simpl].
    apply lseg_insert; [done|]. by apply lseg_insert.
  - apply NoDup_app. split_and!; [done| |].
    + intros b Hb. rewrite !not_elem_of_cons. specialize (Hnd12 b Hb).
      rewrite not_elem_of_cons in Hnd12. destruct Hnd12. split_and!; [done| |done].
      intros ->. done.
    + apply NoDup_cons. rewrite elem_of_cons. split; [naive_solver|]. by apply NoDup_cons.
  - intros b g [[<- <-]|[_ Hb]]%lookup_insert_Some.
    { unfold chunk_ok, chunk_end, MIN_SIZE, MIN_CAPACITY, HEADER_SIZE; simpl. lia. }
    apply lookup_insert_Some in Hb as [[<- <-]|[_ Hb]]; [|by apply Hc].
    unfold chunk_ok, chunk_end, MIN_SIZE, MIN_CAPACITY, HEADER_SIZE; simpl.
    split_and!; [lia| |lia..]. unfold n. dlia.
  - intros b g [[<- <-]|[? Hb]]%lookup_insert_Some Hbl; [exfalso; set_solver|].
    apply lookup_insert_Some in Hb as [[<- <-]|[? Hb]]; [exfalso; set_solver|].
    apply (Hm b); [done|]. set_solver.
  - intros b g c k [[<- <-]|[? Hb]]%lookup_insert_Some [[<- <-]|[? Hk]]%lookup_insert_Some Hbc;
      unfold chunk_end, HEADER_SIZE; try lia; simpl.
    + apply lookup_insert_Some in Hk as [[<- <-]|[? Hk]]; [lia|].
      specialize (Hd a h c k Ha Hk Hbc). lia.
    + apply lookup_insert_Some in Hb as [[<- <-]|[? Hb]]; [lia|]. by apply (Hd b g a h).
    + apply lookup_insert_Some in Hb as [[<- <-]|[? Hb]];
        apply lookup_insert_Some in Hk as [[<- <-]|[? Hk]]; simpl; [lia| | |by eapply Hd].
      * assert (a < c) by lia. specialize (Hd a h c k Ha Hk). lia.
      * destruct (Hgap b g Hb); [|lia]. specialize (Hd b g a h Hb Ha). lia.
Qed.

(** The heap after [a], found behind the prefix [l1] of the free list, has
    been marked allocated and its predecessor linked to its successor. *)
Definition unlinked (s : Heap) (prev : option Z) (a : Z) (h : Header) : Heap :=
  let m := <[a := mkHeader None (capacity h) MAGIC_ALLOCATED]> (heap s) in
  match prev with
  | None => mkHeap (hnext h) m
  | Some p => mkHeap (head s)
      (match m !! p with
       | Some hp => <[p := mkHeader (hnext h) (capacity hp) (magic hp)]> m
       | None => m
       end)
  end.

Lemma unlinked_lookup s l1 l2 a h b g :
  heap_inv s (l1 ++ a :: l2) -> heap s !! a = Some h -> b ∉ l1 ++ a :: l2 ->
  heap (unlinked s (last l1) a h) !! b = Some g <-> heap s !! b = Some g.
Proof.
  intros Hi Ha Hb. rewrite not_elem_of_app, not_elem_of_cons in Hb.
  destruct Hb as (Hb1 & Hba & _). unfold unlinked.
  destruct (last l1) as [p|] eqn:Hp; simpl; [|by rewrite lookup_insert_ne by done].
  assert (p <> b) by (intros ->; by apply last_Some_elem_of in Hp).
  destruct (_ !! p) eqn:E; rewrite ?lookup_insert_ne by done; done.
Qed.

Lemma unlinked_self s l1 l2 a h :
  heap_inv s (l1 ++ a :: l2) -> heap s !! a = Some h ->
  heap (unlinked s (last l1) a h) !! a = Some (mkHeader None (capacity h) MAGIC_ALLOCATED).
Proof.
  intros Hi Ha. unfold unlinked. destruct (last l1) as [p|] eqn:Hp; simpl; [|apply lookup_insert_eq].
  apply last_Some_elem_of in Hp. pose proof (inv_nodup _ _ Hi) as (_ & Hn & _)%NoDup_app.
  assert (p <> a) by (intros ->; eapply Hn; [done|by left]).
  destruct (_ !! p) eqn:E; rewrite ?(lookup_insert_ne _ p a) by done; apply lookup_insert_eq.
Qed.

Lemma unlinked_extents s prev a h :
  heap s !! a = Some h -> same_extents (heap s) (heap (unlinked s prev a h)).
Proof.
  intros Ha. assert (same_extents (heap s)
    (<[a := mkHeader None (capacity h) MAGIC_ALLOCATED]> (heap s))) as He
    by (by eapply same_extents_insert; [apply same_extents_refl|..]).
  unfold unlinked. destruct prev as [p|]; [|done]. simpl.
  destruct (_ !! p) as [hp|] eqn:E; [|done].
  destruct (He p hp E) as (g & Hg & Hc). by eapply same_extents_insert.
Qed.

Lemma unlink_inv s l1 l2 a h :
  heap_inv s (l1 ++ a :: l2) -> heap s !! a = Some h ->
  heap_inv (unlinked s (last l1) a h) (l1 ++ l2).
Proof.
  intros Hi Ha. pose proof Hi as [Hl Hnd Hc Hm Hd].
  pose proof (unlinked_extents s (last l1) a h Ha) as Hext.
  apply NoDup_app in Hnd as (Hnd1 & Hnd12 & [Ha2 Hnd2]%NoDup_cons).
  assert (a ∉ l1) as Ha1 by (intros Hx; eapply Hnd12; [done|by left]).
  constructor.
  - apply lseg_app in Hl as (x & Hl1 & -> & g & Hg & _ & Hl2).
    assert (g = h) as -> by congruence. unfold unlinked.
    destruct l1 as [|p l1 _] using rev_ind; [simpl; by apply lseg_insert|].
    rewrite last_snoc. simpl. apply NoDup_app in Hnd1 as (_ & Hp & _).
    assert (p ∉ l1) by (intros Hx; eapply Hp; [done|by left]).
    rewrite not_elem_of_app, list_elem_of_singleton in Ha1. destruct Ha1 as [? Hpa].
    destruct (lseg_lookup _ _ _ _ p Hl1) as (hp & Hhp & _); [set_solver|].
    rewrite lookup_insert_ne, Hhp by done. apply lseg_app. exists (hnext h). split.
    + apply lseg_relink with (x := Some a); [done|by rewrite lookup_insert_ne|].
      apply lseg_insert; [set_solver|done].
    + apply lseg_insert; [|by apply lseg_insert].
      intros Hx. eapply Hnd12; [apply elem_of_app; right; by left|by right].
  - apply NoDup_app. split_and!; [done| |done]. intros b Hb Hb2. eapply Hnd12; [done|by right].
  - by eapply same_extents_chunk.
  - intros b g Hb Hbl. destruct (decide (b = a)) as [->|Hba].
    { rewrite (unlinked_self s l1 l2 a h) in Hb by done. by simplify_eq. }
    assert (b ∉ l1 ++ a :: l2) as Hbl' by set_solver.
    apply (unlinked_lookup s l1 l2) in Hb; [|done..]. by apply (Hm b).
  - by eapply same_extents_disjoint.
Qed.

Lemma free_inv s l a h :
  heap_inv s l -> heap s !! a = Some h -> a ∉ l ->
  heap_inv (mkHeap (Some a) (<[a := mkHeader (head s) (capacity h) MAGIC_FREE]> (heap s))) (a :: l).
Proof.
  intros [Hl Hnd Hc Hm Hd] Ha Hal.
  assert (same_extents (heap s) (<[a := mkHeader (head s) (capacity h) MAGIC_FREE]> (heap s)))
    as Hext by (by eapply same_extents_insert; [apply same_extents_refl|..]).
  constructor; simpl.
  - split; [done|]. eexists. rewrite lookup_insert_eq. split_and!; [done..|]. by apply lseg_insert.
  - by constructor.
  - by eapply same_extents_chunk.
  - intros b g [[<- <-]|[? Hb]]%lookup_insert_Some Hbl; [set_solver|]. apply (Hm b); set_solver.
  - by eapply same_extents_disjoint.
Qed.

Lemma add_inv s l ptr c :
  heap_inv s l -> 0 < ptr -> ptr mod 16 = 0 -> 16 <= c <= U32_MAX ->
  region_free s ptr (c + 16) ->
  heap_inv (mkHeap (Some ptr) (<[ptr := mkHeader (head s) c MAGIC_FREE]> (heap s))) (ptr :: l).
Proof.
  intros [Hl Hnd Hc Hm Hd] Hp Hpm Hcap (_ & _ & Hend & Hfree).
  assert (heap s !! ptr = None) as Hn.
  { destruct (heap s !! ptr) as [h|] eqn:E; [|done]. specialize (Hfree ptr h E).
    pose proof (Hc ptr h E) as (_ & _ & ? & _). unfold chunk_end, HEADER_SIZE, MIN_CAPACITY in *. lia. }
  assert (ptr ∉ l) as Hpl.
  { intros Hx. destruct (lseg_lookup _ _ _ _ _ Hl Hx) as (g & Hg & _). congruence. }
  constructor; simpl.
  - split; [done|]. eexists. rewrite lookup_insert_eq. split_and!; [done..|]. by apply lseg_insert.
  - by constructor.
  - intros b g [[<- <-]|[_ Hb]]%lookup_insert_Some; [|by apply Hc].
    unfold chunk_ok, chunk_end, MIN_SIZE, MIN_CAPACITY, HEADER_SIZE; simpl. split_and!; done || lia.
  - intros b g [[<- <-]|[? Hb]]%lookup_insert_Some Hbl; [set_solver|]. apply (Hm b); set_solver.
  - intros b g d k [[<- <-]|[? Hb]]%lookup_insert_Some [[<- <-]|[? Hk]]%lookup_insert_Some Hbd;
      try lia; [| |by eapply Hd]; unfold chunk_end in *; unfold HEADER_SIZE in *; simpl.
    + destruct (Hfree d k Hk); [|lia]. pose proof (Hc d k Hk) as (_&_&?&_).
      unfold MIN_CAPACITY in *. lia.
    + destruct (Hfree b g Hb); [lia|]. lia.
Qed.

(** The tail of [take_chunk] computes [unlinked]. *)
Lemma unlink_run s l1 l2 a h :
  heap_inv s (l1 ++ a :: l2) -> heap s !! a = Some h ->
  (do* _ := write_header a (mkHeader None (capacity h) MAGIC_ALLOCATED) in
   match last l1 with
   | Some p =>
       do* hp := read_header p in
       write_header p (mkHeader (hnext h) (capacity hp) (magic hp))
   | None => set_head (hnext h)
   end) s = Ret (tt, unlinked s (last l1) a h).
Proof.
  intros Hi Ha. unfold unlinked, bind, write_header, set_head, read_header; simpl.
  destruct (last l1) as [p|] eqn:Hp; simpl; [|done].
  apply last_Some_elem_of in Hp. pose proof (inv_nodup _ _ Hi) as (_ & Hn & _)%NoDup_app.
  assert (a <> p) by (intros ->; eapply Hn; [done|by left]).
  destruct (lseg_lookup _ _ _ _ p (inv_list _ _ Hi)) as (hp & Hhp & _); [set_solver|].
  by rewrite lookup_insert_ne, Hhp by done.
Qed.

Lemma not_in_list_alloc s l b g :
  heap_inv s l -> heap s !! b = Some g -> magic g = MAGIC_ALLOCATED -> b ∉ l.
Proof.
  intros Hi Hb Hm Hin. destruct (lseg_lookup _ _ _ _ b (inv_list _ _ Hi) Hin) as (g' & Hg & Hm').
  assert (g' = g) as -> by congruence. rewrite Hm in Hm'. discriminate.
Qed.

(** Every chunk of [m'] lies in one of [m]. *)
Definition within (m m' : gmap Z Header) : Prop :=
  forall b g, m' !! b = Some g -> exists a h, m !! a = Some h /\ a <= b /\ chunk_end b g <= chunk_end a h.

Lemma same_extents_within m m1 m' : within m m1 -> same_extents m1 m' -> within m m'.
Proof.
  intros Hw He b g Hb. destruct (He b g Hb) as (g1 & Hb1 & Hc). destruct (Hw b g1 Hb1) as (a & h & Ha & Hle & Hend).
  exists a, h. unfold chunk_end in *. by rewrite <- Hc.
Qed.

Lemma within_refl m : within m m.
Proof. intros b g Hb. exists b, g. split_and!; [done|lia..]. Qed.

(** What serving a request from chunk [a] leaves behind. *)
Definition chunk_taken (s s' : Heap) (l1 l2 : list Z) (a size : Z) (h : Header) : Prop :=
  exists mid c, heap_inv s' (l1 ++ mid ++ l2) /\ size <= c <= capacity h /\
    heap s' !! a = Some (mkHeader None c MAGIC_ALLOCATED) /\
    (forall b g, b ∉ l1 ++ a :: l2 -> heap s !! b = Some g -> heap s' !! b = Some g) /\
    (forall b g, heap s' !! b = Some g -> magic g = MAGIC_ALLOCATED -> b = a \/ heap s !! b = Some g) /\
    within (heap s) (heap s').

Lemma take_chunk_spec s l1 l2 a h size :
  heap_inv s (l1 ++ a :: l2) -> heap s !! a = Some h ->
  size mod 16 = 0 -> 16 <= size <= capacity h ->
  exists s', take_chunk size (last l1) a h s = Ret (tt, s') /\ chunk_taken s s' l1 l2 a size h.
Proof.
  intros Hi Ha Hs Hc. pose proof (inv_chunk _ _ Hi a h Ha) as (_ & Ham & _).
  unfold take_chunk, bind at 1, lift. rewrite try_split_spec by (done || lia). case_Z.
  - (* no split *)
    unfold bind at 1, ret. rewrite (unlink_run s l1 l2 a h) by done.
    eexists. split; [done|]. exists [], (capacity h). split_and!; [|lia..| | | |].
    + by apply unlink_inv.
    + by eapply unlinked_self.
    + intros b g Hb Hg. by apply (unlinked_lookup s l1 l2).
    + intros b g Hb Hg. destruct (decide (b = a)) as [|Hba]; [by left|right].
      pose proof (not_in_list_alloc _ _ b g (unlink_inv s l1 l2 a h Hi Ha) Hb Hg).
      apply (unlinked_lookup s l1 l2) in Hb; [done..|set_solver].
    + eapply same_extents_within; [apply within_refl|by apply unlinked_extents].
  - (* split *)
    destruct (split_inv s l1 l2 a h size Hi Ha) as [Hn Hi']; [done|lia..|].
    set (n := a + 16 + size) in *. set (s1 := mkHeap _ _) in Hi'.
    assert (heap s1 !! a = Some (mkHeader (Some n) size MAGIC_FREE)) as Ha1 by apply lookup_insert_eq.
    pose proof (unlink_run s1 l1 (n :: l2) a _ Hi' Ha1) as E.
    unfold bind at 1, write_header at 1, ret. simpl in E |- *.
    unfold bind at 1, write_header at 1 in E. unfold bind at 1, write_header at 1.
    simpl in E |- *. rewrite insert_insert_eq in E. rewrite E. clear E.
    eexists. split; [done|]. exists [n], size. split_and!; [|lia..| | | |].
    + by apply (unlink_inv s1 l1 (n :: l2)).
    + by apply (unlinked_self s1 l1 (n :: l2)).
    + intros b g Hb Hg. assert (b <> n) by congruence.
      apply (unlinked_lookup s1 l1 (n :: l2)); [done..|set_solver|]. simpl.
      rewrite !lookup_insert_ne by set_solver. done.
    + intros b g Hb Hg. destruct (decide (b = a)) as [|Hba]; [by left|right].
      pose proof (not_in_list_alloc _ _ b g (unlink_inv s1 l1 (n :: l2) a _ Hi' Ha1) Hb Hg).
      apply (unlinked_lookup s1 l1 (n :: l2)) in Hb; [|done..|set_solver]. simpl in Hb.
      rewrite !lookup_insert_ne in Hb by set_solver. done.
    + eapply same_extents_within; [|by apply (unlinked_extents s1)].
      intros b g. unfold s1. cbn [heap]. unfold chunk_end, HEADER_SIZE.
      intros [[<- <-]|[_ [[<- <-]|[_ Hb]]%lookup_insert_Some]]%lookup_insert_Some; cbn [capacity].
      * exists a, h. split; [done|]. lia.
      * exists a, h. split; [done|]. lia.
      * exists b, g. split; [done|]. lia.
Qed.

Lemma malloc_loop_cons s fuel size k prev a h :
  heap s !! a = Some h -> magic h = MAGIC_FREE -> 0 <= k < 64 ->
  malloc_loop (S fuel) size (2 ^ k) prev (Some a) s =
  (if (size <=? capacity h) && (data_ptr a mod 2 ^ k =? 0)
   then (do* _ := take_chunk size prev a h in ret (Some (data_ptr a)))
   else malloc_loop fuel size (2 ^ k) (Some a) (hnext h)) s.
Proof.
  intros Ha Hm Hk. cbn [malloc_loop].
  rewrite (bind_run _ _ s h s) by (unfold read_header; by rewrite Ha).
  rewrite Hm, Z.eqb_refl, (bind_lift _ _ _ tt) by apply debug_assert_ok.
  erewrite bind_lift by (by apply can_fit_spec).
  by destruct (_ && _).
Qed.

(** The walk over the free list: first fit. *)
Lemma malloc_loop_spec s size k l2 : forall l1 fuel next,
  heap_inv s (l1 ++ l2) -> 0 <= k < 64 -> size mod 16 = 0 -> 16 <= size ->
  lseg (heap s) next l2 None -> (length l2 <= fuel)%nat ->
  (malloc_loop fuel size (2 ^ k) (last l1) next s = Ret (None, s) /\
   forall a, a ∈ l2 -> ~ fits s size (2 ^ k) a) \/
  (exists m1 a m2 h s', l2 = m1 ++ a :: m2 /\ heap s !! a = Some h /\
   size <= capacity h /\ data_ptr a mod 2 ^ k = 0 /\
   (forall b, b ∈ m1 -> ~ fits s size (2 ^ k) b) /\
   malloc_loop fuel size (2 ^ k) (last l1) next s = Ret (Some (data_ptr a), s') /\
   chunk_taken s s' (l1 ++ m1) m2 a size h).
Proof.
  induction l2 as [|a l2 IH]; intros l1 fuel next Hi Hk Hs Hs16 Hl Hf; simpl in Hl.
  - subst next. left. destruct fuel; split; try done; by intros ? ?%not_elem_of_nil.
  - destruct Hl as (-> & h & Ha & Hm & Hl). destruct fuel as [|fuel]; simpl in Hf; [lia|].
    rewrite (malloc_loop_cons s fuel size k _ a h) by done.
    destruct ((size <=? capacity h) && (data_ptr a mod 2 ^ k =? 0)) eqn:Hfit.
    + right. simpl_bool. destruct (take_chunk_spec s l1 l2 a h size) as (s' & E & Ht); [done..|].
      exists [], a, l2, h, s'. rewrite app_nil_r. split_and!; [done..| | |done].
      { by intros ? ?%not_elem_of_nil. }
      by erewrite bind_run by done.
    + assert (~ fits s size (2 ^ k) a) as Hno.
      { intros (h' & Ha' & Hc' & Hd'). assert (h' = h) as -> by congruence.
        by rewrite (proj2 (Z.leb_le _ _) Hc'), Hd' in Hfit. }
      replace (Some a) with (last (l1 ++ [a])) by apply last_snoc.
      destruct (IH (l1 ++ [a]) fuel (hnext h)) as [[E Hn]|(m1 & b & m2 & g & s' & -> & Hb & Hc & Hd & Hnf & E & Ht)];
        [by rewrite <- app_assoc|done..|lia| |].
      * left. split; [done|]. intros b [->|Hb]%elem_of_cons; auto.
      * right. exists (a :: m1), b, m2, g, s'. split_and!; [done..| |done|].
        { intros c [->|Hcm]%elem_of_cons; auto. }
        by rewrite <- app_assoc in Ht.
Qed.

Lemma malloc_unfold s size align :
  good_request size align -> size <= U32_MAX / 2 ->
  malloc size align s = malloc_loop (base.size (heap s)) (rounded size) align None (head s) s.
Proof.
  intros (Hs & k & Hk & ->) Hsmall. unfold malloc.
  pose proof (pow2_lt_64 k Hk). destruct (rounded_spec size) as (E1 & E2 & _); [lia|].
  rewrite (bind_lift _ _ _ tt) by (apply debug_assert_pow2; lia).
  rewrite (proj2 (Z.ltb_lt _ _)), (bind_lift _ _ _ tt) by (lia || apply debug_assert_ok).
  rewrite (proj2 (Z.ltb_lt 0 size)), (bind_lift _ _ _ tt) by (lia || apply debug_assert_ok).
  rewrite (proj2 (Z.ltb_ge _ _)) by lia. erewrite bind_lift by done.
  by rewrite bind_get, E2.
Qed.

Lemma malloc_too_large s size align :
  good_request size align -> U32_MAX / 2 < size -> malloc size align s = Ret (None, s).
Proof.
  intros (Hs & k & Hk & ->) Hbig. unfold malloc. pose proof (pow2_lt_64 k Hk).
  rewrite (bind_lift _ _ _ tt) by (apply debug_assert_pow2; lia).
  rewrite (proj2 (Z.ltb_lt _ _)), (bind_lift _ _ _ tt) by (lia || apply debug_assert_ok).
  rewrite (proj2 (Z.ltb_lt 0 size)), (bind_lift _ _ _ tt) by (lia || apply debug_assert_ok).
  by rewrite (proj2 (Z.ltb_lt _ _)) by lia.
Qed.

Lemma malloc_cases s l size align :
  heap_inv s l -> good_request size align -> size <= U32_MAX / 2 ->
  (malloc size align s = Ret (None, s) /\ forall a, a ∈ l -> ~ fits s (rounded size) align a) \/
  (exists l1 a l2 h s', l = l1 ++ a :: l2 /\ heap s !! a = Some h /\
     rounded size <= capacity h /\ data_ptr a mod align = 0 /\
     (forall b, b ∈ l1 -> ~ fits s (rounded size) align b) /\
     malloc size align s = Ret (Some (data_ptr a), s') /\
     chunk_taken s s' l1 l2 a (rounded size) h).
Proof.
  intros Hi Hg Hsmall. rewrite malloc_unfold by done. destruct Hg as (Hs & k & Hk & ->).
  destruct (rounded_spec size) as (_ & _ & Hm & Hr); [lia|].
  assert (16 <= rounded size) by dlia.
  apply (malloc_loop_spec s (rounded size) k l [] _ (head s)); try done.
  - apply inv_list, Hi.
  - eapply lseg_length; [apply Hi|apply Hi].
Qed.

Lemma malloc_preserves s l size align :
  heap_inv s l -> good_request size align ->
  exists r s' l', malloc size align s = Ret (r, s') /\ heap_inv s' l'.
Proof.
  intros Hi Hg. destruct (decide (size <= U32_MAX / 2)).
  - destruct (malloc_cases s l size align) as [[E _]|(l1 & a & l2 & h & s' & _ & _ & _ & _ & _ & E & Ht)];
      [done..|by exists None, s, l|]. destruct Ht as (mid & c & Hi' & _). eauto.
  - rewrite malloc_too_large by (done || lia). by exists None, s, l.
Qed.

Lemma free_run s l p c :
  heap_inv s l -> live s p c ->
  exists s', free p s = Ret (tt, s') /\ heap_inv s' (from_data_ptr p :: l) /\
    head s' = Some (from_data_ptr p) /\
    heap s' = <[from_data_ptr p := mkHeader (head s) c MAGIC_FREE]> (heap s).
Proof.
  intros Hi (h & Hh & Hm & <-). pose proof (not_in_list_alloc _ _ _ _ Hi Hh Hm) as Hnl.
  pose proof (inv_chunk _ _ Hi _ _ Hh) as (Hpos & _). unfold free.
  rewrite (proj2 (Z.eqb_neq p 0)) by (unfold from_data_ptr, HEADER_SIZE in *; lia).
  rewrite (bind_run _ _ s h s) by (unfold read_header; by rewrite Hh).
  rewrite Hm, Z.eqb_refl, (bind_lift _ _ _ tt) by apply debug_assert_ok.
  rewrite bind_get. eexists. split; [done|]. simpl. split_and!; [|done..]. by apply free_inv.
Qed.

Lemma add_chunk_preserves s l ptr size :
  heap_inv s l -> region_free s ptr size ->
  exists s' l', add_chunk ptr size s = Ret (tt, s') /\ heap_inv s' l'.
Proof.
  intros Hi Hf. pose proof Hf as (Hp & Hsz & Hend & Hd). unfold add_chunk, MIN_SIZE.
  destruct (Z.eqb_spec ptr 0) as [|Hnz]; [by exists s, l|].
  rewrite is_aligned_16. erewrite bind_lift by done.
  destruct (Z.eqb_spec (ptr mod 16) 0) as [Ham|]; [|by exists s, l]. cbn [negb].
  unfold HEADER_SIZE, MIN_CAPACITY in *.
  destruct (checked_sub_spec size 16) as [[-> ?]|[-> ?]]; [|by exists s, l].
  case_Z; [by exists s, l|]. case_Z; [by exists s, l|]. rewrite bind_get.
  eexists _, (ptr :: l). split; [done|]. simpl.
  apply add_inv; [done|lia|done|lia|]. by replace (size - 16 + 16) with size by lia.
Qed.
End MallocLemmas.

(** ** A heap used under its contract *)

(** One call on the allocator that respects the safety comments of the
    source: [add_chunk] gets memory nobody else uses, [malloc] a non-zero size
    and a power-of-two alignment, [free] a block that is live. *)
Inductive heap_call `{P : Profile} (s : Heap) : M Heap (option Z) -> Prop :=
| call_add ptr size : region_free s ptr size ->
    heap_call s (do* _ := add_chunk ptr size in ret None)
| call_malloc size align : good_request size align -> heap_call s (malloc size align)
| call_free p c : live s p c -> heap_call s (do* _ := free p in ret None).

Inductive heap_reachable `{P : Profile} : Heap -> Prop :=
| reach_new : heap_reachable heap_new
| reach_call s m r s' : heap_reachable s -> heap_call s m -> m s = Ret (r, s') -> heap_reachable s'.

Section Reachable.
Context {P : Profile}.

Lemma heap_inv_new : heap_inv heap_new [].
Proof. constructor; simpl; try done; constructor. Qed.

Lemma heap_call_preserves s l m :
  heap_inv s l -> heap_call s m -> exists r s' l', m s = Ret (r, s') /\ heap_inv s' l'.
Proof.
  intros Hi Hc. destruct Hc as [ptr size Hf|size align Hg|p c Hlive].
  - destruct (add_chunk_preserves s l ptr size Hi Hf) as (s' & l' & E & Hi').
    exists None, s', l'. by erewrite bind_run by done.
  - by eapply malloc_preserves.
  - destruct (free_run s l p c Hi Hlive) as (s' & E & Hi' & _).
    exists None, s', (from_data_ptr p :: l). by erewrite bind_run by done.
Qed.

Lemma reachable_inv s : heap_reachable s -> exists l, heap_inv s l.
Proof.
  induction 1 as [|s m r s' _ [l Hi] Hc E]; [exists []; apply heap_inv_new|].
  destruct (heap_call_preserves s l m Hi Hc) as (r' & s'' & l' & E' & Hi'). exists l'. congruence.
Qed.

Lemma live_data_ptr s a c :
  live s (data_ptr a) c = (exists h, heap s !! a = Some h /\ magic h = MAGIC_ALLOCATED /\ capacity h = c).
Proof. unfold live, from_data_ptr, data_ptr. by rewrite Z.add_simpl_r. Qed.

Lemma live_bounds s l p c : heap_inv s l -> live s p c ->
  16 < p /\ p mod 16 = 0 /\ 16 <= c /\ p + c <= 2 ^ 64.
Proof.
  intros Hi (h & Hh & _ & <-). destruct (inv_chunk _ _ Hi _ _ Hh) as (? & ? & ? & ?).
  unfold chunk_end, from_data_ptr, MIN_SIZE, MIN_CAPACITY, HEADER_SIZE in *.
  split_and!; [lia| |lia..]. dlia.
Qed.

Lemma live_disjoint s l p c q d :
  heap_inv s l -> live s p c -> live s q d -> p <> q -> p + c <= q \/ q + d <= p.
Proof.
  intros Hi (h & Hh & _ & <-) (g & Hg & _ & <-) Hpq.
  pose proof (inv_disjoint _ _ Hi _ _ _ _ Hh Hg). pose proof (inv_disjoint _ _ Hi _ _ _ _ Hg Hh).
  unfold chunk_end, from_data_ptr, HEADER_SIZE in *. lia.
Qed.

(** * Properties *)


(** Every call that respects the contract returns: from a reachable heap,
    [add_chunk], [malloc] and [free] neither panic, nor follow a dangling
    link, nor loop on a cyclic free list. *)
Theorem malloc_calls_return (s : Heap) (m : M Heap (option Z)) :
  heap_reachable s -> heap_call s m -> exists r s', m s = Ret (r, s').
Proof.
  intros [l Hi]%reachable_inv Hc. destruct (heap_call_preserves s l m Hi Hc) as (r & s' & _ & E & _).
  eauto.
Qed.

(** [malloc] is first fit.  It returns [None] (and leaves the heap alone)
    when no chunk of the free list is large enough and aligned; otherwise it
    takes the first one that is, returning its data pointer, aligned as asked,
    with at least [size] bytes behind it; blocks that were live stay live, and
    no other block becomes live. *)
Theorem malloc_first_fit (s : Heap) (l : list Z) (size align : Z) :
  heap_inv s l -> good_request size align -> size <= U32_MAX / 2 ->
  (malloc size align s = Ret (None, s) /\ forall a, a ∈ l -> ~ fits s (rounded size) align a) \/
  (exists l1 a l2 s' c, l = l1 ++ a :: l2 /\
     (forall b, b ∈ l1 -> ~ fits s (rounded size) align b) /\
     malloc size align s = Ret (Some (data_ptr a), s') /\
     data_ptr a mod align = 0 /\ size <= c /\ live s' (data_ptr a) c /\
     (forall q d, live s q d -> live s' q d) /\
     (forall q d, live s' q d -> q = data_ptr a \/ live s q d)).
Proof.
  intros Hi Hg Hs. destruct (malloc_cases s l size align Hi Hg Hs)
    as [?|(l1 & a & l2 & h & s' & -> & Ha & Hc & Hd & Hnf & E & mid & c & Hi' & Hc' & Ha' & Hin & Hout & _)];
    [by left|right].
  exists l1, a, l2, s', c. destruct Hg as (Hs0 & _).
  destruct (rounded_spec size) as (_ & _ & _ & Hr); [lia|]. rewrite live_data_ptr.
  split_and!; [done..|lia|by eexists| |].
  - intros q d (g & Hq & Hm & <-). exists g. split_and!; [|done..].
    apply Hin; [|done]. by eapply not_in_list_alloc.
  - intros q d (g & Hq & Hm & <-). destruct (Hout _ _ Hq Hm) as [Hqa|Hq']; [left|right; by exists g].
    unfold from_data_ptr, data_ptr in *. lia.
Qed.

(** A freed block is reused first.  After [free p] of a live block of
    capacity [c], a request that rounds up to at most [c] bytes with an
    alignment [p] has is served at [p], whatever else is on the free list. *)
Theorem free_then_malloc_reuses (s s' : Heap) (l : list Z) (p c size align : Z) :
  heap_inv s l -> live s p c -> free p s = Ret (tt, s') ->
  good_request size align -> size <= U32_MAX / 2 -> rounded size <= c -> p mod align = 0 ->
  exists s'', malloc size align s' = Ret (Some p, s'') /\ exists c', live s'' p c' /\ size <= c' <= c.
Proof.
  intros Hi Hlive E Hg Hs Hr Hp.
  destruct (free_run s l p c Hi Hlive) as (s1 & E1 & Hi1 & _ & Hh). assert (s1 = s') as -> by congruence.
  assert (data_ptr (from_data_ptr p) = p) as Hpp by (unfold data_ptr, from_data_ptr; lia).
  assert (fits s' (rounded size) align (from_data_ptr p)) as Hfit.
  { eexists. by rewrite Hh, lookup_insert_eq, Hpp. }
  destruct (malloc_cases s' _ size align Hi1 Hg Hs)
    as [[_ Hn]|(l1 & a & l2 & h & s'' & Hl & Ha & Hc & Hd & Hnf & E2 & Ht)].
  { exfalso. eapply Hn; [by left|done]. }
  destruct l1 as [|b l1]; simplify_eq/=; [|exfalso; eapply Hnf; [by left|done]].
  rewrite Hpp in E2. exists s''. split; [done|]. destruct Ht as (mid & c' & _ & Hc' & Ha' & _).
  rewrite Hh, lookup_insert_eq in Ha. simplify_eq/=. exists c'. split; [by eexists|].
  destruct Hg as (? & _). destruct (rounded_spec size) as (_ & _ & _ & ?); lia.
Qed.

End Reachable.

(** ** Witnesses: one 4 KiB chunk at 0x1000 *)

Definition heap0 : Heap :=
  mkHeap (Some 0x1000) {[0x1000 := mkHeader None 4080 MAGIC_FREE]}.

(** After [malloc 100 16] and [malloc 32 16]. *)
Definition heap2 : Heap :=
  mkHeap (Some 0x10b0)
    (list_to_map [(0x1000, mkHeader None 112 MAGIC_ALLOCATED);
                  (0x1080, mkHeader None 32 MAGIC_ALLOCATED);
                  (0x10b0, mkHeader None 3904 MAGIC_FREE)]).

Lemma good_request_pow2 size k : 0 < size < 2 ^ 64 -> 0 <= k < 64 -> good_request size (2 ^ k).
Proof. split; [done|]. by exists k. Qed.

Lemma heap0_reachable : @heap_reachable dev heap0.
Proof.
  eapply (reach_call (P := dev) heap_new); [constructor| |].
  - apply (call_add _ 0x1000 0x1000). split_and!; done.
  - vm_compute. reflexivity.
Qed.

Lemma heap2_reachable : @heap_reachable dev heap2.
Proof.
  eapply (reach_call (P := dev)); [eapply (reach_call (P := dev)); [apply heap0_reachable|..]|..].
  - apply (call_malloc (P := dev) _ 100 (2 ^ 4)). by apply good_request_pow2.
  - vm_compute. reflexivity.
  - apply (call_malloc (P := dev) _ 32 (2 ^ 4)). by apply good_request_pow2.
  - vm_compute. reflexivity.
Qed.

Lemma heap0_inv : heap_inv heap0 [0x1000].
Proof.
  constructor; simpl.
  - split; [done|]. by eexists.
  - by apply NoDup_singleton.
  - intros a h [<- <-]%lookup_singleton_Some. done.
  - intros a h [<- <-]%lookup_singleton_Some Ha. set_solver.
  - intros a h b g [<- <-]%lookup_singleton_Some [<- <-]%lookup_singleton_Some. lia.
Qed.


Lemma malloc_calls_return_witness :
  exists r s', (do* _ := @free dev 0x1010 in ret (@None Z)) heap2 = Ret (r, s').
Proof.
  apply (malloc_calls_return (P := dev) heap2); [apply heap2_reachable|].
  apply (call_free (P := dev) heap2 0x1010 112). by eexists.
Defined.

Lemma malloc_first_fit_witness :
  (@malloc dev 100 (2 ^ 4) heap0 = Ret (None, heap0) /\
   forall a, a ∈ [0x1000] -> ~ fits heap0 (rounded 100) (2 ^ 4) a) \/
  (exists l1 a l2 s' c, [0x1000] = l1 ++ a :: l2 /\
     (forall b, b ∈ l1 -> ~ fits heap0 (rounded 100) (2 ^ 4) b) /\
     @malloc dev 100 (2 ^ 4) heap0 = Ret (Some (data_ptr a), s') /\
     data_ptr a mod 2 ^ 4 = 0 /\ 100 <= c /\ live s' (data_ptr a) c /\
     (forall q d, live heap0 q d -> live s' q d) /\
     (forall q d, live s' q d -> q = data_ptr a \/ live heap0 q d)).
Proof.
  apply (malloc_first_fit (P := dev) heap0 [0x1000] 100 (2 ^ 4)).
  - apply heap0_inv.
  - by apply good_request_pow2.
  - vm_compute. discriminate.
Defined.

Lemma free_then_malloc_reuses_witness :
  exists s'', @malloc dev 100 (2 ^ 4) heap0 = Ret (Some 0x1010, s'') /\
    exists s3, @free dev 0x1010 s'' = Ret (tt, s3) /\
    exists s4, @malloc dev 90 (2 ^ 3) s3 = Ret (Some 0x1010, s4) /\
    exists c', live s4 0x1010 c' /\ 90 <= c' <= 112.
Proof.
  destruct (malloc_cases (P := dev) heap0 [0x1000] 100 (2 ^ 4) heap0_inv)
    as [[E _]|(l1 & a & l2 & h & s' & _ & _ & _ & _ & _ & E & mid & c & Hi & _ & Ha & _)];
    [by apply good_request_pow2|by vm_compute|exfalso; by vm_compute in E|].
  set (s1 := match @malloc dev 100 (2 ^ 4) heap0 with Ret (_, t) => t | _ => heap0 end).
  assert (@malloc dev 100 (2 ^ 4) heap0 = Ret (Some 0x1010, s1)) as E1 by (vm_compute; reflexivity).
  assert (live s1 0x1010 112) as Hlive by (eexists; split_and!; vm_compute; reflexivity).
  rewrite E in E1. assert (s' = s1) as -> by congruence. clearbody s1.
  exists s1. split; [congruence|].
  destruct (free_run (P := dev) s1 _ 0x1010 112 Hi Hlive) as (s3 & E3 & _). exists s3. split; [done|].
  apply (free_then_malloc_reuses (P := dev) s1 s3 _ 0x1010 112 90 (2 ^ 3) Hi); try done.
  by apply good_request_pow2.
Defined.
