(* ===== verification/Machine.v ===== *)
(** * Physical memory behind the direct map

    The constants and address conversions of kernel/src/arch/x64/vmspace.rs,
    accesses through kernel pointers, and the interface [Machine] that the
    page allocator of kernel/src/memory.rs offers to the rest of the kernel.

    [VmSpace::new] and the boot code map [KERNEL_BASE, KERNEL_BASE + 4 GiB)
    to the first 4 GiB of physical memory.  A pointer into that window reaches
    the byte of physical memory behind it; a pointer outside of it is not
    mapped, and dereferencing it is [Undef]. *)

From S2P Require Import Prelude Bytes Alignment.

Definition MIN_PAGE_SIZE : Z := 4096.
Definition KERNEL_BASE : Z := 0xffff800000000000.
Definition GIGA_PAGE_SIZE : Z := 1024 * 1024 * 1024.
Definition DIRECT_MAP_SIZE : Z := 4 * GIGA_PAGE_SIZE.
Definition DIRECT_MAP_END : Z := DIRECT_MAP_SIZE.

Definition paddr2vaddr (paddr : Z) : Z := Z.lor paddr KERNEL_BASE.
Definition vaddr2paddr (vaddr : Z) : Z := Z.land vaddr (unot 64 KERNEL_BASE).

Inductive PageType : Set := Dirty | Zeroed.

(** ** The interface of the page allocator *)

Class Machine (S : Type) := {
  ram : S -> mem;
  set_ram : mem -> S -> S;
  (** [PAGE_ALLOCATOR.alloc]. *)
  page_alloc : Z -> PageType -> M S (option Z);
  (** The bytes that have not been handed out yet. *)
  avail : S -> Z -> Prop;
  machine_inv : S -> Prop
}.

Definition mem_ok (m : mem) : Prop := forall x, is_byte (m x).

Definition in_block (p len x : Z) : Prop := p <= x < p + len.

(** What a caller of [page_alloc] may rely on. *)
Definition alloc_post {S : Type} `{Machine S} (len : Z) (ty : PageType) (s : S) (r : option Z) (s' : S) : Prop :=
  match r with
  | None => s' = s
  | Some p =>
      p mod MIN_PAGE_SIZE = 0 /\
      (forall x, in_block p len x -> avail s x) /\
      (forall x, avail s' x -> avail s x /\ ~ in_block p len x) /\
      (forall x, ~ in_block p len x -> ram s' x = ram s x) /\
      (ty = Zeroed -> forall x, in_block p len x -> ram s' x = 0)
  end.

Class MachineLaws (S : Type) `{Machine S} : Prop := {
  ram_set_ram : forall m (s : S), ram (set_ram m s) = m;
  avail_set_ram : forall m (s : S) x, avail (set_ram m s) x <-> avail s x;
  inv_set_ram : forall m (s : S), machine_inv s -> mem_ok m -> machine_inv (set_ram m s);
  inv_mem_ok : forall s : S, machine_inv s -> mem_ok (ram s);
  avail_bounds : forall (s : S) x, machine_inv s -> avail s x -> 0 <= x < DIRECT_MAP_SIZE;
  page_alloc_spec : forall (s : S) len ty,
    machine_inv s -> 0 < len < 2 ^ 64 -> len mod MIN_PAGE_SIZE = 0 ->
    exists r s', page_alloc len ty s = Ret (r, s') /\ machine_inv s' /\ alloc_post len ty s r s'
}.

(** ** Accesses through kernel pointers *)

Definition dm_range (vaddr len : Z) : bool :=
  (KERNEL_BASE <=? vaddr) && (vaddr + len <=? KERNEL_BASE + DIRECT_MAP_SIZE).

Section Access.
Context {S : Type} `{Machine S}.

Definition vread (vaddr : Z) (n : nat) : M S (list Z) :=
  fun s => if dm_range vaddr (Z.of_nat n)
           then Ret (mem_read (ram s) (vaddr - KERNEL_BASE) n, s)
           else Undef.

Definition vwrite (vaddr : Z) (bs : list Z) : M S unit :=
  fun s => if dm_range vaddr (len bs)
           then Ret (tt, set_ram (mem_write (ram s) (vaddr - KERNEL_BASE) bs) s)
           else Undef.

(** A 64-bit word. *)
Definition vread64 (vaddr : Z) : M S Z :=
  do* bs := vread vaddr 8 in ret (le_val bs).
Definition vwrite64 (vaddr v : Z) : M S unit := vwrite vaddr (le_bytes 8 v).

End Access.

(** * Lemmas *)

Lemma KERNEL_BASE_mod : KERNEL_BASE mod 2 ^ 47 = 0.
Proof. reflexivity. Qed.

Lemma paddr2vaddr_add p : 0 <= p < 2 ^ 47 -> paddr2vaddr p = KERNEL_BASE + p.
Proof.
  intros. unfold paddr2vaddr. rewrite Z.lor_comm. by apply (lor_add_low 47).
Qed.

Lemma vaddr2paddr_sub p : 0 <= p < 2 ^ 47 -> vaddr2paddr (KERNEL_BASE + p) = p.
Proof.
  intros Hp. unfold vaddr2paddr. change (unot 64 KERNEL_BASE) with (Z.ones 47).
  rewrite Z.land_ones by lia. rewrite Z.add_mod, KERNEL_BASE_mod by lia.
  rewrite Z.add_0_l, Z.mod_mod by lia. by apply Z.mod_small.
Qed.

Lemma direct_map_small x : 0 <= x < DIRECT_MAP_SIZE -> 0 <= x < 2 ^ 47.
Proof. unfold DIRECT_MAP_SIZE, GIGA_PAGE_SIZE. lia. Qed.

Lemma dm_range_paddr p len :
  0 <= p < 2 ^ 47 -> p + len <= DIRECT_MAP_SIZE -> dm_range (paddr2vaddr p) len = true.
Proof. intros. rewrite paddr2vaddr_add by done. unfold dm_range. bool_lia. Qed.

Lemma mem_ok_write m a bs : mem_ok m -> bytes_ok bs -> mem_ok (mem_write m a bs).
Proof.
  intros Hm Hb x. rewrite mem_write_eq. case_Z; [|done].
  destruct (bs !! Z.to_nat (x - a)) as [b|] eqn:E; simpl; [|done].
  by eapply Forall_lookup_1.
Qed.

Lemma mem_ok_read m a n : mem_ok m -> bytes_ok (mem_read m a n).
Proof. intros Hm. unfold mem_read. apply Forall_fmap, Forall_true. intros x. apply Hm. Qed.

Lemma bytes_ok_zeros n : bytes_ok (replicate n 0).
Proof. apply Forall_replicate. unfold is_byte. lia. Qed.

#[export] Hint Resolve mem_ok_write mem_ok_read le_bytes_ok bytes_ok_zeros direct_map_small : ftl.

Section AccessLemmas.
Context {S : Type} `{MachineLaws S}.
Implicit Types s : S.

Lemma vread_run s p (n : nat) o :
  0 <= p < 2 ^ 47 -> 0 <= o -> p + o + Z.of_nat n <= DIRECT_MAP_SIZE ->
  vread (paddr2vaddr p + o) n s = Ret (mem_read (ram s) (p + o) n, s).
Proof.
  intros Hp Ho Hn. unfold vread. rewrite paddr2vaddr_add by done.
  replace (dm_range _ _) with true by (symmetry; unfold dm_range; bool_lia).
  by replace (KERNEL_BASE + p + o - KERNEL_BASE) with (p + o) by lia.
Qed.

Lemma vwrite_run s p bs o :
  0 <= p < 2 ^ 47 -> 0 <= o -> p + o + len bs <= DIRECT_MAP_SIZE ->
  vwrite (paddr2vaddr p + o) bs s = Ret (tt, set_ram (mem_write (ram s) (p + o) bs) s).
Proof.
  intros Hp Ho Hn. unfold vwrite. rewrite paddr2vaddr_add by done.
  replace (dm_range _ _) with true by (symmetry; unfold dm_range; bool_lia).
  by replace (KERNEL_BASE + p + o - KERNEL_BASE) with (p + o) by lia.
Qed.

Lemma write_inv s a bs :
  machine_inv s -> bytes_ok bs -> machine_inv (set_ram (mem_write (ram s) a bs) s).
Proof. intros Hi Hb. apply inv_set_ram; [done|]. apply mem_ok_write; [|done]. by apply inv_mem_ok. Qed.

(** A freshly allocated block lies inside the direct map. *)
Lemma alloc_post_bounds s len ty p s' :
  machine_inv s -> 0 < len -> alloc_post len ty s (Some p) s' ->
  0 <= p /\ p + len <= DIRECT_MAP_SIZE.
Proof.
  intros Hi Hl (_ & Hb & _). pose proof (avail_bounds s p Hi (Hb p ltac:(unfold in_block; lia))).
  pose proof (avail_bounds s (p + len - 1) Hi (Hb (p + len - 1) ltac:(unfold in_block; lia))). lia.
Qed.

End AccessLemmas.

(** * Properties *)

(** The two address conversions are inverse on the direct map, and map it
    onto the window that starts at [KERNEL_BASE]. *)
Theorem direct_map_roundtrip (paddr : Z) :
  0 <= paddr < DIRECT_MAP_SIZE ->
  paddr2vaddr paddr = KERNEL_BASE + paddr /\ vaddr2paddr (paddr2vaddr paddr) = paddr.
Proof.
  intros Hp%direct_map_small. rewrite paddr2vaddr_add by done. split; [done|]. by apply vaddr2paddr_sub.
Qed.

Lemma direct_map_roundtrip_witness :
  paddr2vaddr 0x1000 = KERNEL_BASE + 0x1000 /\ vaddr2paddr (paddr2vaddr 0x1000) = 0x1000.
Proof. apply direct_map_roundtrip. split; [lia|reflexivity]. Defined.
