(* ===== verification/Memory.v ===== *)
(** * kernel/src/memory.rs: the page allocator and its initialisation

    [PageAllocator] hands out physical pages from at most eight bump
    allocators.  [init] fills it from the boot information: the free RAM
    regions, minus the kernel image and the boot modules, below the end of the
    direct map.  The file ends with the instance that discharges the
    [Machine] interface. *)

From S2P Require Import Prelude Bytes Alignment ArrayVec Bump Machine.

(** ** Boot information (kernel/src/boot.rs) *)

Record FreeRam : Set := mkFreeRam { ram_addr : Z; ram_size : Z }.
Record Module_ : Set := mkModule { mod_start : Z; mod_end : Z }.
Definition NUM_MODULES_MAX : nat := 8.
Record BootInfo : Type := mkBootInfo {
  cmdline : list Z;
  modules : ArrayVec Module_;
  free_rams : ArrayVec FreeRam
}.

(** ** The allocator *)

(** Physical memory and [PAGE_ALLOCATOR.regions]. *)
Record Phys : Type := mkPhys {
  phys_ram : mem;
  regions : ArrayVec BumpAllocator
}.

Definition PageAllocator_new (m : mem) : Phys := mkPhys m (av_new 8).

Section PageAllocator.
Context {P : Profile}.

(** Run a computation on the regions. *)
Definition on_regions {A} (m : M (ArrayVec BumpAllocator) A) : M Phys A :=
  fun s => let* (a, r) := m (regions s) in Ret (a, mkPhys (phys_ram s) r).

Definition add_region (start end_ : Z) : M Phys unit :=
  do* _ := on_regions (try_push (bump_new start end_)) in ret tt.

(** The loop over [regions.iter_mut()]. *)
Fixpoint alloc_loop (len : Z) (rs : list BumpAllocator) : outcome (option Z * list BumpAllocator) :=
  match rs with
  | [] => Ret (None, [])
  | region :: rest =>
      let* (o, region') := bump_alloc len MIN_PAGE_SIZE region in
      match o with
      | Some addr => Ret (Some addr, region' :: rest)
      | None => let* (o', rest') := alloc_loop len rest in Ret (o', region' :: rest')
      end
  end.

(** [write_bytes(ptr, 0, len)] through the direct map. *)
Definition zero_fill (paddr len : Z) : M Phys unit :=
  fun s =>
    let vaddr := paddr2vaddr paddr in
    if dm_range vaddr len
    then Ret (tt, mkPhys (mem_fill (phys_ram s) (vaddr - KERNEL_BASE) len 0) (regions s))
    else Undef.

Definition PageAllocator_alloc (len : Z) (page_type : PageType) : M Phys (option Z) :=
  do* _ := lift (debug_assert (0 <? len)) in
  do* aligned := lift (if debug_assertions then is_aligned len MIN_PAGE_SIZE else Ret true) in
  do* _ := lift (debug_assert aligned) in
  do* o := on_regions (as_slice_mut (alloc_loop len)) in
  match o with
  | Some paddr =>
      do* _ := match page_type with
               | Dirty => ret tt
               | Zeroed => zero_fill paddr len
               end in
      ret (Some paddr)
  | None => ret None
  end.

End PageAllocator.

(** ** Free RAM minus the reserved ranges *)

(** The loop of [visit_unused_regions]: [None] when it returned early, the
    cursor otherwise. *)
Fixpoint visit_loop {S} (end_ : Z) (reserved : list (Z * Z)) (f : Z -> Z -> M S unit) (cursor : Z)
  : M S (option Z) :=
  match reserved with
  | [] => ret (Some cursor)
  | (rstart, rend) :: rest =>
      if end_ <=? cursor then ret None
      else if rend <=? cursor then visit_loop end_ rest f cursor
      else if end_ <=? rstart then ret (Some cursor)
      else
        do* _ := (if cursor <? rstart then f cursor rstart else ret tt) in
        visit_loop end_ rest f rend
  end.

Definition visit_unused_regions {S} (addr end_ : Z) (reserved : list (Z * Z)) (f : Z -> Z -> M S unit)
  : M S unit :=
  let end_ := Z.min end_ DIRECT_MAP_END in
  do* o := visit_loop end_ reserved f addr in
  match o with
  | None => ret tt
  | Some cursor => if cursor <? end_ then f cursor end_ else ret tt
  end.

(** ** Bubble sort *)

(** [n] iterations of the inner loop, from index [j]. *)
Fixpoint bubble_inner {T} (f : T -> T -> bool) (n j : nat) (l : list T) : outcome (list T) :=
  match n with
  | O => Ret l
  | S n =>
      match l !! j, l !! (j + 1)%nat with
      | Some a, Some b =>
          bubble_inner f n (S j) (if f a b then <[j := b]> (<[(j + 1)%nat := a]> l) else l)
      | _, _ => Panic
      end
  end.

(** [n] iterations of the outer loop, from [i]; [i < len], so [len - i - 1]
    does not underflow. *)
Fixpoint bubble_outer {T} (f : T -> T -> bool) (len n i : nat) (l : list T) : outcome (list T) :=
  match n with
  | O => Ret l
  | S n => let* l' := bubble_inner f (len - i - 1) 0 l in bubble_outer f len n (S i) l'
  end.

Definition bubble_sort {T} (f : T -> T -> bool) : M (list T) unit :=
  fun l => let* l' := bubble_outer f (length l) (length l) 0 l in Ret (tt, l').

(** ** Initialisation *)

Section Init.
Context {P : Profile}.

(** [__kernel_memory] and [__kernel_memory_end] are linker symbols. *)
Definition get_kernel_reserved_range (kernel_memory kernel_memory_end : Z) : Z * Z :=
  (vaddr2paddr kernel_memory, vaddr2paddr kernel_memory_end).

(** The pushes are followed by [unwrap] and [expect]. *)
Fixpoint push_reserved (ranges : list (Z * Z)) : M (ArrayVec (Z * Z)) unit :=
  match ranges with
  | [] => ret tt
  | r :: rest =>
      do* res := try_push r in
      match res with
      | Ok _ => push_reserved rest
      | Err _ => lift Panic
      end
  end.

Definition collect_reserved (kernel : Z * Z) (mods : list Module_) : outcome (ArrayVec (Z * Z)) :=
  let* (_, v) := push_reserved (kernel :: ((fun m => (mod_start m, mod_end m)) <$> mods))
                   (av_new (NUM_MODULES_MAX + 1)) in
  let* (_, v') := as_slice_mut (bubble_sort (fun a b => b.1 <? a.1)) v in
  Ret v'.

(** The closure passed to [visit_unused_regions]; it computes the size that
    is traced. *)
Definition add_unused (addr end_ : Z) : M Phys unit :=
  do* _ := lift (usize_sub end_ addr) in add_region addr end_.

Fixpoint init_loop (rams : list FreeRam) (reserved : list (Z * Z)) : M Phys unit :=
  match rams with
  | [] => ret tt
  | r :: rest =>
      match checked_add 64 (ram_addr r) (ram_size r) with
      | None => init_loop rest reserved
      | Some end_ =>
          do* _ := visit_unused_regions (ram_addr r) end_ reserved add_unused in
          init_loop rest reserved
      end
  end.

Definition memory_init (kernel : Z * Z) (bootinfo : BootInfo) : M Phys unit :=
  do* mods := lift (as_slice (modules bootinfo)) in
  do* v := lift (collect_reserved kernel mods) in
  do* rams := lift (as_slice (free_rams bootinfo)) in
  do* reserved := lift (as_slice v) in
  init_loop rams reserved.

End Init.

(** ** The allocator's invariant *)

Definition region_has (b : BumpAllocator) (x : Z) : Prop := start b <= x < next b.

Definition region_ok (b : BumpAllocator) : Prop := bump_wf b /\ next b <= DIRECT_MAP_SIZE.

Definition regions_disjoint (l : list BumpAllocator) : Prop :=
  forall i j b c x, i <> j -> l !! i = Some b -> l !! j = Some c -> region_has b x -> ~ region_has c x.

Record phys_inv (s : Phys) : Prop := mkPhysInv {
  phys_mem_ok : mem_ok (phys_ram s);
  phys_regions : exists l, av_rep (regions s) l /\ Forall region_ok l /\ regions_disjoint l
}.

(** A byte no one has been given yet. *)
Definition phys_avail (s : Phys) (x : Z) : Prop :=
  exists l b, av_rep (regions s) l /\ b ∈ l /\ region_has b x.

#[global] Instance phys_machine `{P : Profile} : Machine Phys := {
  ram := phys_ram;
  set_ram m s := mkPhys m (regions s);
  page_alloc := PageAllocator_alloc;
  avail := phys_avail;
  machine_inv := phys_inv
}.

(** ** What [init] should build *)

(** The gaps between the reserved ranges, from [cursor] to [end_]. *)
Fixpoint gaps (end_ : Z) (reserved : list (Z * Z)) (cursor : Z) : list (Z * Z) :=
  match reserved with
  | [] => if cursor <? end_ then [(cursor, end_)] else []
  | (rstart, rend) :: rest =>
      if end_ <=? cursor then []
      else if rend <=? cursor then gaps end_ rest cursor
      else if end_ <=? rstart then [(cursor, end_)]
      else (if cursor <? rstart then [(cursor, rstart)] else []) ++ gaps end_ rest rend
  end.

Definition ram_gaps (reserved : list (Z * Z)) (r : FreeRam) : list (Z * Z) :=
  match checked_add 64 (ram_addr r) (ram_size r) with
  | None => []
  | Some end_ => gaps (Z.min end_ DIRECT_MAP_END) reserved (ram_addr r)
  end.

Fixpoint run_all {S} (f : Z -> Z -> M S unit) (l : list (Z * Z)) : M S unit :=
  match l with
  | [] => ret tt
  | (a, b) :: r => do* _ := f a b in run_all f r
  end.

(** [x] is memory the firmware reports as free, below the end of the direct
    map and outside the kernel image and the modules. *)
Definition usable (kernel : Z * Z) (mods : list Module_) (rams : list FreeRam) (x : Z) : Prop :=
  (exists r, r ∈ rams /\ ram_addr r <= x < ram_addr r + ram_size r /\ ram_addr r + ram_size r < 2 ^ 64) /\
  x < DIRECT_MAP_END /\ ~ (kernel.1 <= x < kernel.2) /\
  forall m, m ∈ mods -> ~ (mod_start m <= x < mod_end m).

(** The boot information a sane boot loader passes. *)
Record boot_ok (kernel : Z * Z) (mods : list Module_) (rams : list FreeRam) : Prop := mkBootOk {
  boot_kernel : 0 <= kernel.1 <= kernel.2;
  boot_mods : Forall (fun m => 0 <= mod_start m <= mod_end m) mods;
  boot_rams : Forall (fun r => 0 <= ram_addr r /\ 0 <= ram_size r) rams;
  boot_disjoint : forall i j r q x, i <> j -> rams !! i = Some r -> rams !! j = Some q ->
    ~ (ram_addr r <= x < ram_addr r + ram_size r /\ ram_addr q <= x < ram_addr q + ram_size q)
}.

(** * Lemmas *)

(** ** Bubble sort *)

(** One pass of [n] comparisons, structurally. *)
Fixpoint pass {T} (f : T -> T -> bool) (n : nat) (l : list T) : list T :=
  match n, l with
  | S n, a :: b :: r => if f a b then b :: pass f n (a :: r) else a :: pass f n (b :: r)
  | _, _ => l
  end.

Lemma bubble_inner_pass {T} (f : T -> T -> bool) n : forall pre l,
  (n < length l)%nat -> bubble_inner f n (length pre) (pre ++ l) = Ret (pre ++ pass f n l).
Proof.
  induction n as [|n IH]; intros pre l Hn; [by destruct l|].
  destruct l as [|a [|b r]]; simpl in Hn; try lia. cbn [bubble_inner pass].
  rewrite list_lookup_middle by done.
  rewrite (lookup_app_r pre) by lia. replace (length pre + 1 - length pre)%nat with 1%nat by lia.
  simpl. destruct (f a b).
  - replace (<[length pre := b]> (<[(length pre + 1)%nat := a]> (pre ++ a :: b :: r)))
      with ((pre ++ [b]) ++ a :: r).
    2: { rewrite (insert_app_r pre). rewrite <- (Nat.add_0_r (length pre)) at 1.
         rewrite (insert_app_r pre). simpl. by rewrite <- app_assoc. }
    replace (S (length pre)) with (length (pre ++ [b])) by (rewrite length_app; simpl; lia).
    rewrite IH by (simpl; lia). by rewrite <- app_assoc.
  - replace (pre ++ a :: b :: r) with ((pre ++ [a]) ++ b :: r) by by rewrite <- app_assoc.
    replace (S (length pre)) with (length (pre ++ [a])) by (rewrite length_app; simpl; lia).
    rewrite IH by (simpl; lia). by rewrite <- app_assoc.
Qed.

Section BubbleSort.
Context {T : Type} (key : T -> Z).
Let f (a b : T) : bool := key b <? key a.
Let le (a b : T) : Prop := key a <= key b.

(** A pass carries the largest of the first [n + 1] elements to the right. *)
Lemma pass_max n : forall l r, length l = S n ->
  exists l' m, pass f n (l ++ r) = l' ++ m :: r /\ l' ++ [m] ≡ₚ l /\ Forall (fun a => le a m) l.
Proof.
  induction n as [|n IH]; intros l r Hl.
  { destruct l as [|a [|? ?]]; try done. exists [], a. split_and!; [done..|]. repeat constructor. unfold le; lia. }
  destruct l as [|a [|b l]]; try done. cbn [pass app]. unfold f at 1. destruct (Z.ltb_spec (key b) (key a)).
  - destruct (IH (a :: l) r) as (l' & m & E & Hp & Hm); [simpl in *; lia|]. rewrite <- app_comm_cons in E.
    rewrite E. exists (b :: l'), m. split_and!; [done|simpl; rewrite Hp; apply Permutation_swap|].
    apply Forall_cons in Hm as [Ha Hm]. repeat constructor; unfold le in *; [lia|lia|done].
  - destruct (IH (b :: l) r) as (l' & m & E & Hp & Hm); [simpl in *; lia|]. rewrite <- app_comm_cons in E.
    rewrite E. exists (a :: l'), m. split_and!; [done|simpl; by rewrite Hp|].
    apply Forall_cons in Hm as [Hb Hm]. repeat constructor; unfold le in *; [lia|lia|done].
Qed.

(** After [i] passes the last [i] elements are the largest ones, in order. *)
Definition settled (l1 l2 : list T) : Prop :=
  StronglySorted le l2 /\ forall a b, a ∈ l1 -> b ∈ l2 -> le a b.

Lemma bubble_outer_sorted n : forall i l1 l2,
  length l1 = n -> length l2 = i -> settled l1 l2 ->
  exists l', bubble_outer f (n + i) n i (l1 ++ l2) = Ret l' /\ l' ≡ₚ l1 ++ l2 /\ StronglySorted le l'.
Proof.
  induction n as [|n IH]; intros i l1 l2 H1 H2 [Hs Hle].
  { apply length_zero_iff_nil in H1 as ->. by exists l2. }
  cbn [bubble_outer]. replace (S n + i - i - 1)%nat with n by lia.
  pose proof (bubble_inner_pass f n [] (l1 ++ l2)) as Ei. simpl in Ei.
  rewrite Ei by (rewrite length_app; lia). cbn [obind].
  destruct (pass_max n l1 l2 H1) as (l' & m & -> & Hp & Hm).
  replace (S n + i)%nat with (n + S i)%nat by lia.
  destruct (IH (S i) l' (m :: l2)) as (l'' & E & Hp' & Hs'').
  - apply Permutation_length in Hp. rewrite length_app in Hp. simpl in Hp. lia.
  - simpl. lia.
  - split.
    + constructor; [done|]. apply Forall_forall. intros b Hb. apply Hle; [|done].
      rewrite <- Hp. set_solver.
    + intros a b Ha [->|Hb]%elem_of_cons.
      * rewrite Forall_forall in Hm. apply Hm. rewrite <- Hp. set_solver.
      * apply Hle; [|done]. rewrite <- Hp. set_solver.
  - exists l''. split_and!; [done| |done]. rewrite Hp', <- Hp, <- app_assoc. done.
Qed.

Lemma bubble_sort_run l :
  exists l', bubble_sort f l = Ret (tt, l') /\ l' ≡ₚ l /\ StronglySorted le l'.
Proof.
  unfold bubble_sort. destruct (bubble_outer_sorted (length l) 0 l []) as (l' & E & Hp & Hs);
    [done..|split; [constructor|by intros a b _ ?%not_elem_of_nil]|].
  rewrite Nat.add_0_r, app_nil_r in *. rewrite E. by exists l'.
Qed.

End BubbleSort.

(** ** The gaps *)

Lemma visit_loop_gaps {S} end_ (f : Z -> Z -> M S unit) reserved : forall cursor s,
  (do* o := visit_loop end_ reserved f cursor in
   match o with
   | None => ret tt
   | Some c => if c <? end_ then f c end_ else ret tt
   end) s = run_all f (gaps end_ reserved cursor) s.
Proof.
  assert (forall a b t, f a b t = (do* _ := f a b in ret tt) t) as Hf.
  { intros a b t. unfold bind, ret. by destruct (f a b t) as [[[] ?]| | |]. }
  induction reserved as [|[rs re] rest IH]; intros cursor s; cbn [visit_loop gaps].
  - rewrite bind_ret. case_Z; [apply Hf|done].
  - destruct (Z.leb_spec end_ cursor); [done|]. destruct (Z.leb_spec re cursor); [apply IH|].
    destruct (Z.leb_spec end_ rs).
    + rewrite bind_ret, (proj2 (Z.ltb_lt _ _)) by lia. apply Hf.
    + destruct (Z.ltb_spec cursor rs); [|apply IH]. cbn [run_all app].
      unfold bind in IH |- *. destruct (f cursor rs s) as [[[] s']| | |]; [apply IH|done..].
Qed.

Definition reserved_ok (reserved : list (Z * Z)) : Prop :=
  Forall (fun r => r.1 <= r.2) reserved /\ StronglySorted (fun a b => a.1 <= b.1) reserved.

Lemma reserved_ok_cons r rest : reserved_ok (r :: rest) ->
  r.1 <= r.2 /\ (forall q, q ∈ rest -> r.1 <= q.1) /\ reserved_ok rest.
Proof.
  intros [[Hr Hf]%Forall_cons Hs]. apply StronglySorted_inv in Hs as [Hs Hle].
  split_and!; [done| |done..]. by apply Forall_forall.
Qed.

Definition in_gap (l : list (Z * Z)) (x : Z) : Prop := exists g, g ∈ l /\ g.1 <= x < g.2.

Lemma in_gap_cons a b l x : in_gap ((a, b) :: l) x <-> a <= x < b \/ in_gap l x.
Proof. unfold in_gap. setoid_rewrite elem_of_cons. naive_solver. Qed.

Lemma in_gap_nil x : ~ in_gap [] x.
Proof. unfold in_gap. set_solver. Qed.

(** A byte is in a gap exactly when no reserved range covers it. *)
Lemma gaps_spec end_ reserved : forall cursor, reserved_ok reserved ->
  Forall (fun g => cursor <= g.1 < g.2 /\ g.2 <= end_) (gaps end_ reserved cursor) /\
  StronglySorted (fun g h => g.2 <= h.1) (gaps end_ reserved cursor) /\
  (forall x, in_gap (gaps end_ reserved cursor) x <->
     cursor <= x < end_ /\ forall r, r ∈ reserved -> ~ (r.1 <= x < r.2)).
Proof.
  induction reserved as [|[rs re] rest IH]; intros cursor Hok; cbn [gaps].
  - case_Z; (split_and!; [repeat constructor; simpl; lia|repeat constructor|]); intros x;
      rewrite ?in_gap_cons; (split; [|intros [? _]; try lia; by left]).
    + intros [?|?%in_gap_nil]; [|done]. split; [done|]. by intros r ?%not_elem_of_nil.
    + by intros ?%in_gap_nil.
  - apply reserved_ok_cons in Hok as (Hr & Hle & Hok). simpl in Hr, Hle.
    destruct (Z.leb_spec end_ cursor).
    { split_and!; [constructor..|]. intros x. split; [by intros ?%in_gap_nil|lia]. }
    destruct (Z.leb_spec re cursor).
    { destruct (IH cursor Hok) as (Hb & Hs & Hx). split_and!; [done..|]. intros x. rewrite Hx.
      setoid_rewrite elem_of_cons. split; [|naive_solver]. intros [? Hn]. split; [done|].
      intros r [->|?]; simpl; [lia|auto]. }
    destruct (Z.leb_spec end_ rs).
    { split_and!; [repeat constructor; simpl; lia..|]. intros x. rewrite in_gap_cons.
      setoid_rewrite elem_of_cons. split; [|intros [? _]; by left].
      intros [?|?%in_gap_nil]; [|done]. split; [done|].
      intros r [->|Hr']; simpl; [lia|]. specialize (Hle r Hr'). lia. }
    destruct (IH re Hok) as (Hb & Hs & Hx).
    assert (forall x, in_gap ((if cursor <? rs then [(cursor, rs)] else []) ++ gaps end_ rest re) x <->
      cursor <= x < rs \/ in_gap (gaps end_ rest re) x) as Hcat.
    { intros x. case_Z; simpl; rewrite ?in_gap_cons; [done|]. split; [by right|intros [?|?]; [lia|done]]. }
    split_and!.
    + apply Forall_app. split; [case_Z; repeat constructor; simpl; lia|].
      eapply Forall_impl; [exact Hb|]. simpl. lia.
    + case_Z; simpl; [|done]. constructor; [done|]. eapply Forall_impl; [exact Hb|]. simpl. lia.
    + intros x. rewrite Hcat, Hx. setoid_rewrite elem_of_cons. split.
      * intros [?|[? Hn]]; (split; [lia|]); intros r [->|Hr']; simpl; try lia; [|auto].
        specialize (Hle r Hr'). lia.
      * intros [? Hn]. specialize (Hn (rs, re) (or_introl eq_refl)) as Hrs. simpl in Hrs.
        destruct (Z.ltb_spec x rs); [left; lia|right]. split; [lia|]. auto.
Qed.

(** ** Allocation *)

Lemma av_rep_inj {T} (v : ArrayVec T) l l' : av_rep v l -> av_rep v l' -> l = l'.
Proof. intros H1%av_rep_slice H2%av_rep_slice. congruence. Qed.

Section AllocLemmas.
Context {P : Profile}.

Lemma alloc_loop_spec len l :
  0 <= len -> Forall region_ok l ->
  exists o l', alloc_loop len l = Ret (o, l') /\
    match o with
    | None => l' = l /\ forall b p, b ∈ l -> p mod MIN_PAGE_SIZE = 0 -> start b <= p -> next b < p + len
    | Some p => exists i b, l !! i = Some b /\ l' = <[i := mkBump (start b) p]> l /\
        p mod MIN_PAGE_SIZE = 0 /\ start b <= p /\ p + len <= next b
    end.
Proof.
  intros Hl Hok. induction Hok as [|b l [Hb _] Hok IH]; cbn [alloc_loop].
  { eexists _, _. split; [done|]. split; [done|]. set_solver. }
  change MIN_PAGE_SIZE with (2 ^ 12) in *.
  destruct (bump_alloc_cases b len 12) as [(a & E & Hm & Hlo & Hhi & _)|[E Hno]]; [done..| |]; rewrite E; simpl.
  - eexists _, _. split; [done|]. exists 0%nat, b. done.
  - destruct IH as (o & l' & -> & Ho). simpl. eexists _, _. split; [done|]. destruct o as [p|].
    + destruct Ho as (i & c & Hi & -> & Hp). exists (S i), c. done.
    + destruct Ho as [-> Hn]. split; [done|]. intros c p [->|Hc]%elem_of_cons; auto.
Qed.

Lemma av_rep_mut_run s l {A} (f : M (list BumpAllocator) A) a l' :
  av_rep (regions s) l -> f l = Ret (a, l') -> length l' = length l ->
  exists v, on_regions (as_slice_mut f) s = Ret (a, mkPhys (phys_ram s) v) /\ av_rep v l'.
Proof.
  intros Hr Hf Hl. destruct (as_slice_mut_spec (regions s) l f a l' Hr Hf Hl) as (v & E & _ & Hr').
  exists v. unfold on_regions. by rewrite E.
Qed.

Lemma zero_fill_run s p len :
  0 <= p -> 0 < len -> p + len <= DIRECT_MAP_SIZE ->
  zero_fill p len s = Ret (tt, mkPhys (mem_fill (phys_ram s) p len 0) (regions s)).
Proof.
  intros. unfold zero_fill. rewrite dm_range_paddr by (done || apply direct_map_small; lia).
  rewrite paddr2vaddr_add by (apply direct_map_small; lia). do 3 f_equal. f_equal. lia.
Qed.

(** Lowering one region to the block that was cut off its end. *)
Lemma regions_lowered l i b p :
  Forall region_ok l -> regions_disjoint l -> l !! i = Some b -> start b <= p <= next b ->
  Forall region_ok (<[i := mkBump (start b) p]> l) /\ regions_disjoint (<[i := mkBump (start b) p]> l).
Proof.
  intros Hok Hd Hi Hp. split.
  - apply Forall_insert; [done|]. rewrite Forall_lookup in Hok. destruct (Hok i b Hi) as [Hw Hn].
    split; [by apply bump_wf_lower|simpl; lia].
  - intros j k c d x Hjk Hj Hk Hc Hdx. unfold region_has in *.
    destruct (decide (j = i)) as [->|Hji], (decide (k = i)) as [->|Hki]; try done.
    + rewrite list_lookup_insert_eq in Hj by (by eapply lookup_lt_Some).
      rewrite list_lookup_insert_ne in Hk by done. simplify_eq/=.
      apply (Hd i k b d x Hjk Hi Hk); unfold region_has; [lia|done].
    + rewrite list_lookup_insert_eq in Hk by (by eapply lookup_lt_Some).
      rewrite list_lookup_insert_ne in Hj by done. simplify_eq/=.
      apply (Hd j i c b x Hjk Hj Hi); unfold region_has; [done|lia].
    + rewrite list_lookup_insert_ne in Hj, Hk by done. by apply (Hd j k c d x).
Qed.

(** The bytes available after a block has been cut off region [i]. *)
Lemma avail_lowered l i b p len c x :
  regions_disjoint l -> l !! i = Some b -> start b <= p -> 0 < len -> p + len <= next b ->
  c ∈ <[i := mkBump (start b) p]> l -> region_has c x ->
  (exists d, d ∈ l /\ region_has d x) /\ ~ in_block p len x.
Proof.
  intros Hd Hi Hs Hl Hn [j Hj]%list_elem_of_lookup Hx. unfold region_has, in_block in *.
  destruct (decide (j = i)) as [->|Hji].
  - rewrite list_lookup_insert_eq in Hj by (by eapply lookup_lt_Some). simplify_eq/=.
    split; [|lia]. exists b. split; [by eapply list_elem_of_lookup_2|]. lia.
  - rewrite list_lookup_insert_ne in Hj by done. split.
    + exists c. split; [by eapply list_elem_of_lookup_2|done].
    + intros Hp. eapply (Hd i j b c x); unfold region_has; eauto. lia.
Qed.

Lemma alloc_checks len ty s :
  0 < len -> len mod MIN_PAGE_SIZE = 0 ->
  PageAllocator_alloc len ty s =
  (do* o := on_regions (as_slice_mut (alloc_loop len)) in
   match o with
   | Some paddr =>
       do* _ := match ty with Dirty => ret tt | Zeroed => zero_fill paddr len end in
       ret (Some paddr)
   | None => ret None
   end) s.
Proof.
  intros Hl Hm. unfold PageAllocator_alloc.
  rewrite (proj2 (Z.ltb_lt _ _)), (bind_lift _ _ _ tt) by (lia || apply debug_assert_ok).
  rewrite (bind_lift _ _ _ true).
  - by rewrite (bind_lift _ _ _ tt) by apply debug_assert_ok.
  - unfold MIN_PAGE_SIZE in *. rewrite is_aligned_page, Hm. by destruct debug_assertions.
Qed.

Lemma on_regions_same s l {A} (f : M (list BumpAllocator) A) a :
  av_rep (regions s) l -> f l = Ret (a, l) -> on_regions (as_slice_mut f) s = Ret (a, s).
Proof.
  intros Hr Hf. unfold on_regions, as_slice_mut. rewrite (av_rep_slice _ l Hr). simpl. rewrite Hf. simpl.
  destruct Hr as (Hl & _ & Ht). rewrite <- Ht, <- Hl, take_drop. by destruct s as [m []].
Qed.

Lemma PageAllocator_alloc_spec s l len ty :
  mem_ok (phys_ram s) -> av_rep (regions s) l -> Forall region_ok l -> regions_disjoint l ->
  0 < len < 2 ^ 64 -> len mod MIN_PAGE_SIZE = 0 ->
  exists r s', PageAllocator_alloc len ty s = Ret (r, s') /\ phys_inv s' /\ alloc_post len ty s r s' /\
    (r = None -> forall b p, b ∈ l -> p mod MIN_PAGE_SIZE = 0 -> start b <= p -> next b < p + len).
Proof.
  intros Hm Hr Hok Hd Hl Hlm. rewrite alloc_checks by (done || lia).
  destruct (alloc_loop_spec len l) as (o & l' & E & Ho); [lia|done|]. destruct o as [p|].
  2: { destruct Ho as [-> Hno]. rewrite (bind_run _ _ _ _ _ (on_regions_same s l _ _ Hr E)).
       exists None, s. split_and!; [done|by constructor; eauto|done..]. }
  destruct Ho as (i & b & Hi & -> & Hp & Hlo & Hhi).
  destruct (av_rep_mut_run s l (alloc_loop len) _ _ Hr E) as (v & E' & Hv); [apply length_insert|].
  rewrite (bind_run _ _ _ _ _ E'). destruct (regions_lowered l i b p) as [Hok' Hd']; [done..|lia|].
  assert (0 <= start b /\ next b <= DIRECT_MAP_SIZE) as [Hb0 Hb1].
  { rewrite Forall_lookup in Hok. destruct (Hok i b Hi) as [[[? _] _] ?]. done. }
  assert (forall m, (forall x, ~ in_block p len x -> m x = phys_ram s x) -> mem_ok m ->
    (ty = Zeroed -> forall x, in_block p len x -> m x = 0) ->
    phys_inv (mkPhys m v) /\ alloc_post len ty s (Some p) (mkPhys m v)) as Hpost.
  { intros m Hout Hmok Hz. split; [constructor; [done|]; by exists (<[i := mkBump (start b) p]> l)|].
    split_and!; [done| | |done..].
    - intros x Hx. exists l, b. split_and!; [done|by eapply list_elem_of_lookup_2|].
      unfold in_block, region_has in *. lia.
    - intros x (l' & c & Hl' & Hc & Hx). rewrite (av_rep_inj _ _ _ Hl' Hv) in Hc.
      destruct (avail_lowered l i b p len c x) as [(d & ? & ?) ?]; try (done || lia).
      split; [by exists l, d|done]. }
  destruct ty.
  - destruct (Hpost (phys_ram s)) as [Hinv Hp']; [done..|]. exists (Some p), (mkPhys (phys_ram s) v). done.
  - rewrite (bind_run _ _ _ _ _ (zero_fill_run _ p len ltac:(lia) ltac:(lia) ltac:(lia))). simpl.
    set (m := mem_fill _ _ _ _). destruct (Hpost m) as [Hinv Hp'].
    + intros x Hx. apply mem_fill_out. unfold in_block in Hx. lia.
    + intros x. unfold m, mem_fill. destruct (_ && _); [unfold is_byte; lia|apply Hm].
    + intros _ x Hx. by apply mem_fill_in.
    + exists (Some p), (mkPhys m v). done.
Qed.

#[global] Instance phys_machine_laws : MachineLaws Phys.
Proof.
  constructor.
  - done.
  - done.
  - intros m s [Hm Hr] Hm'. by constructor.
  - by intros s [Hm _].
  - intros s x [_ (l & Hr & Hok & _)] (l' & b & Hr' & Hb & Hx).
    rewrite (av_rep_inj _ _ _ Hr' Hr) in Hb. rewrite Forall_forall in Hok.
    destruct (Hok b Hb) as [[[? _] _] ?]. unfold region_has in Hx. lia.
  - intros s len ty [Hm (l & Hr & Hok & Hd)] Hl Hlm.
    destruct (PageAllocator_alloc_spec s l len ty) as (r & s' & E & Hi & Hp & _); [done..|].
    exists r, s'. done.
Qed.

End AllocLemmas.

(** ** Initialisation *)

Definition bump_of (g : Z * Z) : BumpAllocator := bump_new g.1 g.2.

(** The regions [init] adds, in order; the allocator keeps the first eight. *)
Definition all_gaps (reserved : list (Z * Z)) (rams : list FreeRam) : list (Z * Z) :=
  rams ≫= ram_gaps reserved.

Definition has_regions (s : Phys) (l : list BumpAllocator) : Prop :=
  av_rep (regions s) (take 8 l) /\ av_cap (regions s) = 8%nat.

Definition gap_bounds (g : Z * Z) : Prop := 0 <= g.1 < g.2 /\ g.2 <= DIRECT_MAP_SIZE.

Definition gap_disjoint (g h : Z * Z) : Prop := forall x, ~ (g.1 <= x < g.2 /\ h.1 <= x < h.2).

Section InitLemmas.
Context {P : Profile}.

Lemma add_region_run s l a b :
  has_regions s l ->
  exists s', add_region a b s = Ret (tt, s') /\ phys_ram s' = phys_ram s /\
    has_regions s' (l ++ [bump_new a b]).
Proof.
  intros [Hr Hc]. destruct (try_push_spec (regions s) (take 8 l) (bump_new a b) Hr) as (v & E & Hc' & Hr').
  exists (mkPhys (phys_ram s) v). unfold add_region.
  erewrite bind_run by (unfold on_regions; rewrite E; done). split_and!; [done..|].
  unfold has_regions; simpl. rewrite Hc', Hc in *. split; [|done]. rewrite length_take in Hr'.
  destruct (Nat.ltb_spec (8 `min` length l) 8).
  - by rewrite !(take_ge (_ ++ _)), (take_ge l) in * by (rewrite ?length_app; simpl; lia).
  - by rewrite take_app_le by lia.
Qed.

Lemma run_all_add gs : forall s l,
  has_regions s l -> Forall gap_bounds gs ->
  exists s', run_all add_unused gs s = Ret (tt, s') /\ phys_ram s' = phys_ram s /\
    has_regions s' (l ++ (bump_of <$> gs)).
Proof.
  induction gs as [|[a b] gs IH]; intros s l Hr Hg; cbn [run_all].
  { exists s. by rewrite app_nil_r. }
  apply Forall_cons in Hg as [[[? ?] Hb] Hg]. simpl in *.
  destruct (add_region_run s l a b Hr) as (s1 & E1 & Hm1 & Hr1).
  destruct (IH s1 _ Hr1 Hg) as (s' & E & Hm & Hr'). exists s'. split_and!.
  - erewrite bind_run; [exact E|]. unfold add_unused.
    erewrite bind_lift; [exact E1|]. apply usize_sub_ok. unfold DIRECT_MAP_SIZE, GIGA_PAGE_SIZE in *. lia.
  - by rewrite Hm.
  - by rewrite <- app_assoc in Hr'.
Qed.

Lemma ram_gaps_spec reserved r :
  reserved_ok reserved -> 0 <= ram_addr r -> 0 <= ram_size r ->
  Forall gap_bounds (ram_gaps reserved r) /\
  StronglySorted gap_disjoint (ram_gaps reserved r) /\
  (forall x, in_gap (ram_gaps reserved r) x <->
     ram_addr r <= x < ram_addr r + ram_size r /\ ram_addr r + ram_size r < 2 ^ 64 /\
     x < DIRECT_MAP_END /\ forall q, q ∈ reserved -> ~ (q.1 <= x < q.2)).
Proof.
  intros Hok Ha Hs. unfold ram_gaps.
  destruct (checked_add_spec 64 (ram_addr r) (ram_size r)) as [[-> ?]|[-> ?]].
  - destruct (gaps_spec (Z.min (ram_addr r + ram_size r) DIRECT_MAP_END) reserved (ram_addr r) Hok)
      as (Hb & Hd & Hx). split_and!.
    + eapply Forall_impl; [exact Hb|]. unfold gap_bounds, DIRECT_MAP_END. simpl. lia.
    + clear Hx. induction Hd as [|g l Hd IH Hg]; [constructor|]. apply Forall_cons in Hb as [? Hb].
      constructor; [auto|]. apply Forall_forall. rewrite Forall_forall in Hg, Hb.
      intros h Hh x. specialize (Hg h Hh). specialize (Hb h Hh). lia.
    + intros x. rewrite Hx. split; [|intros (? & ? & ? & ?)]; [intros [? ?]|]; split_and!; try done; lia.
  - split_and!; [constructor..|]. intros x. split; [by intros ?%in_gap_nil|lia].
Qed.

Lemma init_loop_run reserved rams : forall s l,
  has_regions s l -> reserved_ok reserved -> Forall (fun r => 0 <= ram_addr r /\ 0 <= ram_size r) rams ->
  exists s', init_loop rams reserved s = Ret (tt, s') /\ phys_ram s' = phys_ram s /\
    has_regions s' (l ++ (bump_of <$> all_gaps reserved rams)).
Proof.
  induction rams as [|r rams IH]; intros s l Hr Hok Hrams; cbn [init_loop].
  { exists s. by rewrite app_nil_r. }
  apply Forall_cons in Hrams as [[? ?] Hrams].
  destruct (ram_gaps_spec reserved r) as (Hb & _); [done..|].
  change (all_gaps reserved (r :: rams)) with (ram_gaps reserved r ++ all_gaps reserved rams).
  rewrite fmap_app. unfold ram_gaps in *. destruct (checked_add _ _ _) as [e|]; [|by apply IH].
  destruct (run_all_add _ s l Hr Hb) as (s1 & E1 & Hm1 & Hr1).
  destruct (IH s1 _ Hr1 Hok Hrams) as (s' & E & Hm & Hr'). exists s'. split_and!.
  - erewrite bind_run; [exact E|]. unfold visit_unused_regions. by rewrite visit_loop_gaps.
  - by rewrite Hm.
  - by rewrite <- app_assoc in Hr'.
Qed.

Lemma push_reserved_run rs : forall v l,
  av_rep v l -> (length l + length rs <= av_cap v)%nat ->
  exists v', push_reserved rs v = Ret (tt, v') /\ av_rep v' (l ++ rs) /\ av_cap v' = av_cap v.
Proof.
  induction rs as [|r rs IH]; intros v l Hv Hc; cbn [push_reserved length] in *.
  { exists v. by rewrite app_nil_r. }
  destruct (try_push_spec v l r Hv) as (v1 & E & Hc1 & Hv1).
  rewrite (proj2 (Nat.ltb_lt _ _)) in E, Hv1 by lia. rewrite (bind_run _ _ _ _ _ E).
  destruct (IH v1 _ Hv1) as (v' & E' & Hv' & Hc'); [rewrite length_app; simpl; lia|].
  exists v'. rewrite <- app_assoc in Hv'. split_and!; [done..|lia].
Qed.

Definition reserved_of (kernel : Z * Z) (mods : list Module_) : list (Z * Z) :=
  kernel :: ((fun m => (mod_start m, mod_end m)) <$> mods).

Lemma collect_reserved_run kernel mods rams :
  boot_ok kernel mods rams -> (length mods <= NUM_MODULES_MAX)%nat ->
  exists v l, collect_reserved kernel mods = Ret v /\ av_rep v l /\ reserved_ok l /\
    l ≡ₚ reserved_of kernel mods.
Proof.
  intros Hb Hl. unfold collect_reserved. fold (reserved_of kernel mods).
  destruct (push_reserved_run (reserved_of kernel mods) (av_new (NUM_MODULES_MAX + 1)) [])
    as (v & -> & Hv & _).
  { apply av_rep_new. }
  { unfold av_cap, av_new, reserved_of, NUM_MODULES_MAX in *; simpl. rewrite length_fmap. lia. }
  cbn [obind]. destruct (bubble_sort_run (T := Z * Z) fst (reserved_of kernel mods)) as (l & E & Hp & Hs).
  destruct (as_slice_mut_spec v _ _ _ _ Hv E) as (v' & E' & _ & Hv'); [by apply Permutation_length|].
  simpl in E'. rewrite E'. exists v', l. split_and!; [done..| |done]. split; [|done].
  rewrite Hp. destruct Hb as [? Hm _ _]. constructor; [lia|]. apply Forall_fmap.
  eapply Forall_impl; [exact Hm|]. simpl. lia.
Qed.

Lemma StronglySorted_lookup {A} (R : A -> A -> Prop) l i j a b :
  StronglySorted R l -> (i < j)%nat -> l !! i = Some a -> l !! j = Some b -> R a b.
Proof.
  intros Hs. revert i j. induction Hs as [|c l Hs IH Hc]; intros i j Hij Hi Hj; [done|].
  destruct j as [|j]; [lia|]. simpl in Hj. destruct i as [|i]; simpl in Hi; [|apply (IH i j); done || lia].
  simplify_eq. rewrite Forall_forall in Hc. apply Hc. by eapply list_elem_of_lookup_2.
Qed.

Lemma all_gaps_elem reserved rams g :
  g ∈ all_gaps reserved rams <-> exists r, r ∈ rams /\ g ∈ ram_gaps reserved r.
Proof. unfold all_gaps. rewrite list_elem_of_bind. naive_solver. Qed.

Lemma all_gaps_disjoint kernel mods rams reserved :
  boot_ok kernel mods rams -> reserved_ok reserved ->
  StronglySorted gap_disjoint (all_gaps reserved rams).
Proof.
  intros [_ _ Hr Hd] Hok. clear kernel mods. induction Hr as [|r rams [? ?] Hr IH]; [constructor|].
  change (all_gaps reserved (r :: rams)) with (ram_gaps reserved r ++ all_gaps reserved rams).
  destruct (ram_gaps_spec reserved r) as (_ & Hs & Hx); [done..|].
  apply StronglySorted_app. split_and!; [|done|].
  - intros g h Hg (q & Hq & Hh)%all_gaps_elem x [Hgx Hhx].
    apply list_elem_of_lookup in Hq as [j Hj]. rewrite Forall_lookup in Hr.
    destruct (Hr j q Hj) as [? ?]. destruct (ram_gaps_spec reserved q) as (_ & _ & Hxq); [done..|].
    assert (in_gap (ram_gaps reserved r) x) as [? _]%Hx by by exists g.
    assert (in_gap (ram_gaps reserved q) x) as [? _]%Hxq by by exists h.
    by apply (Hd 0%nat (S j) r q x).
  - apply IH. intros i j q q' x Hij Hi Hj. apply (Hd (S i) (S j) q q' x); [congruence|done..].
Qed.

Lemma all_gaps_usable kernel mods rams reserved :
  boot_ok kernel mods rams -> reserved_ok reserved -> reserved ≡ₚ reserved_of kernel mods ->
  Forall gap_bounds (all_gaps reserved rams) /\
  forall x, in_gap (all_gaps reserved rams) x <-> usable kernel mods rams x.
Proof.
  intros [_ _ Hr _] Hok Hp. rewrite Forall_forall in Hr.
  assert (forall x, (forall q, q ∈ reserved -> ~ (q.1 <= x < q.2)) <->
    ~ (kernel.1 <= x < kernel.2) /\ forall m, m ∈ mods -> ~ (mod_start m <= x < mod_end m)) as Hq.
  { intros x. setoid_rewrite Hp. unfold reserved_of. setoid_rewrite elem_of_cons.
    setoid_rewrite list_elem_of_fmap. split.
    - intros H. split; [apply H; by left|]. intros m Hm. apply (H (mod_start m, mod_end m)).
      right. by exists m.
    - intros [? H] q [->|(m & -> & Hm)]; [done|]. by apply H. }
  split.
  - apply Forall_forall. intros g (r & Hin & Hg)%all_gaps_elem. destruct (Hr r Hin) as [? ?].
    destruct (ram_gaps_spec reserved r) as (Hb & _); [done..|]. rewrite Forall_forall in Hb. by apply Hb.
  - intros x. split.
    + intros (g & (r & Hin & Hg)%all_gaps_elem & Hgx). destruct (Hr r Hin) as [? ?].
      destruct (ram_gaps_spec reserved r) as (_ & _ & Hx); [done..|].
      destruct (proj1 (Hx x)) as (? & ? & ? & [? ?]%Hq); [by exists g|].
      split_and!; try done. by exists r.
    + intros ((r & Hin & ? & ?) & ? & ? & ?). destruct (Hr r Hin) as [? ?].
      destruct (ram_gaps_spec reserved r) as (_ & _ & Hx); [done..|].
      destruct (proj2 (Hx x)) as (g & Hg & Hgx); [split_and!; [lia..|by apply Hq]|].
      exists g. split; [|done]. apply all_gaps_elem. by exists r.
Qed.

Lemma memory_init_run kernel bootinfo mods rams m :
  av_rep (modules bootinfo) mods -> av_rep (free_rams bootinfo) rams ->
  boot_ok kernel mods rams -> (length mods <= NUM_MODULES_MAX)%nat ->
  exists s reserved, memory_init kernel bootinfo (PageAllocator_new m) = Ret (tt, s) /\ phys_ram s = m /\
    reserved_ok reserved /\ reserved ≡ₚ reserved_of kernel mods /\
    has_regions s (bump_of <$> all_gaps reserved rams).
Proof.
  intros Hm Hr Hb Hl. unfold memory_init.
  rewrite (bind_lift _ _ _ mods) by by apply av_rep_slice.
  destruct (collect_reserved_run kernel mods rams Hb Hl) as (v & reserved & E & Hv & Hok & Hp).
  rewrite (bind_lift _ _ _ _ E), (bind_lift _ _ _ rams) by by apply av_rep_slice.
  rewrite (bind_lift _ _ _ reserved) by by apply av_rep_slice.
  destruct (init_loop_run reserved rams (PageAllocator_new m) []) as (s & E' & Hm' & Hr').
  - split; [apply av_rep_new|done].
  - done.
  - by destruct Hb.
  - by exists s, reserved.
Qed.

Lemma has_regions_inv s gs :
  mem_ok (phys_ram s) -> has_regions s (bump_of <$> gs) ->
  Forall gap_bounds gs -> StronglySorted gap_disjoint gs -> phys_inv s.
Proof.
  intros Hm [Hr _] Hb Hd. constructor; [done|]. eexists. split; [exact Hr|]. split.
  - apply Forall_take, Forall_fmap. eapply Forall_impl; [exact Hb|].
    intros g [[? ?] ?]. unfold region_ok, bump_wf, is_usize, DIRECT_MAP_SIZE, GIGA_PAGE_SIZE in *; simpl. lia.
  - intros i j b c x Hij Hi Hj Hbx Hcx.
    apply lookup_take_Some in Hi as [Hi _]. apply lookup_take_Some in Hj as [Hj _].
    rewrite list_lookup_fmap in Hi, Hj. apply fmap_Some in Hi as (g & Hg & ->), Hj as (h & Hh & ->).
    destruct (Nat.lt_trichotomy i j) as [?|[?|?]]; [|done|].
    + eapply (StronglySorted_lookup _ _ i j g h Hd); eauto.
    + eapply (StronglySorted_lookup _ _ j i h g Hd); eauto.
Qed.

Lemma has_regions_avail s gs x :
  has_regions s (bump_of <$> gs) ->
  (phys_avail s x -> in_gap gs x) /\ ((length gs <= 8)%nat -> in_gap gs x -> phys_avail s x).
Proof.
  intros [Hr _]. split.
  - intros (l & b & Hl & Hb & Hx). rewrite (av_rep_inj _ _ _ Hl Hr) in Hb.
    apply list_elem_of_lookup in Hb as (i & [Hi _]%lookup_take_Some). rewrite list_lookup_fmap in Hi.
    apply fmap_Some in Hi as (g & Hg & ->). exists g. split; [by eapply list_elem_of_lookup_2|done].
  - intros Hlen (g & Hg & Hx). exists (take 8 (bump_of <$> gs)), (bump_of g). split_and!; [done| |done].
    rewrite take_ge by (rewrite length_fmap; lia). apply list_elem_of_fmap. by exists g.
Qed.

Lemma memory_init_safe kernel bootinfo mods rams m :
  av_rep (modules bootinfo) mods -> av_rep (free_rams bootinfo) rams -> (length mods <= NUM_MODULES_MAX)%nat ->
  boot_ok kernel mods rams -> mem_ok m ->
  exists s reserved, memory_init kernel bootinfo (PageAllocator_new m) = Ret (tt, s) /\
    phys_inv s /\ reserved ≡ₚ reserved_of kernel mods /\
    (forall x, phys_avail s x -> usable kernel mods rams x) /\
    (forall x, in_gap (all_gaps reserved rams) x <-> usable kernel mods rams x) /\
    has_regions s (bump_of <$> all_gaps reserved rams).
Proof.
  intros Hm Hr Hl Hb Hok.
  destruct (memory_init_run kernel bootinfo mods rams m) as (s & res & E & Hs & Hres & Hp & Hreg); [done..|].
  destruct (all_gaps_usable kernel mods rams res) as [Hbd Hx]; [done..|].
  exists s, res. split_and!; [done| |done| |done|done].
  - eapply has_regions_inv; [by rewrite Hs|done..|]. by eapply all_gaps_disjoint.
  - intros x Ha. apply Hx. by eapply has_regions_avail.
Qed.

(** [init] does not write to memory. *)
Lemma memory_init_ram kernel bootinfo mods rams m s :
  av_rep (modules bootinfo) mods -> av_rep (free_rams bootinfo) rams -> (length mods <= NUM_MODULES_MAX)%nat ->
  boot_ok kernel mods rams -> memory_init kernel bootinfo (PageAllocator_new m) = Ret (tt, s) -> phys_ram s = m.
Proof.
  intros Hm Hr Hl Hb E. destruct (memory_init_run kernel bootinfo mods rams m) as (s' & res & E' & Hs & _); [done..|].
  rewrite E in E'. by injection E' as ->.
Qed.

(** * Properties *)

(** C12: [init] fills the page allocator with usable memory only.  For sane
    boot information it returns, the allocator's invariant holds (regions in
    the direct map and pairwise disjoint), every byte it may hand out is free
    RAM below the end of the direct map and outside the kernel image and all
    modules, and, when the gaps fit the eight regions the allocator has, every
    such byte can be handed out. *)
Theorem memory_init_usable (kernel : Z * Z) (bootinfo : BootInfo)
    (mods : list Module_) (rams : list FreeRam) (m : mem) :
  av_rep (modules bootinfo) mods ->
  av_rep (free_rams bootinfo) rams -> (length mods <= NUM_MODULES_MAX)%nat ->
  boot_ok kernel mods rams -> mem_ok m ->
  exists s reserved, memory_init kernel bootinfo (PageAllocator_new m) = Ret (tt, s) /\
    phys_inv s /\ reserved ≡ₚ reserved_of kernel mods /\
    (forall x, phys_avail s x -> usable kernel mods rams x) /\
    ((length (all_gaps reserved rams) <= 8)%nat -> forall x, usable kernel mods rams x -> phys_avail s x).
Proof.
  intros Hm Hr Hl Hb Hok.
  destruct (memory_init_safe kernel bootinfo mods rams m) as (s & res & E & Hi & Hp & Ha & Hx & Hreg); [done..|].
  exists s, res. split_and!; [done..|]. intros Hlen x Hu. eapply has_regions_avail; [done..|]. by apply Hx.
Qed.

(** Page allocation.  On an allocator that satisfies the invariant [alloc]
    of a positive multiple of the page size returns, keeps the invariant, and
    either hands out page-aligned memory that was available, is not available
    any more and is zeroed when asked for, leaving all other memory alone; or
    returns [None] with nothing changed because no region has room. *)
Theorem page_allocator_alloc_correct (s : Phys) (l : list BumpAllocator) (n : Z) (ty : PageType) :
  phys_inv s -> av_rep (regions s) l -> 0 < n < 2 ^ 64 -> n mod MIN_PAGE_SIZE = 0 ->
  exists r s', PageAllocator_alloc n ty s = Ret (r, s') /\ phys_inv s' /\ alloc_post n ty s r s' /\
    (r = None -> forall b p, b ∈ l -> p mod MIN_PAGE_SIZE = 0 -> start b <= p -> next b < p + n).
Proof.
  intros [Hm (l' & Hr' & Hok & Hd)] Hr Hn Hnm. rewrite (av_rep_inj _ _ _ Hr' Hr) in Hok, Hd.
  by apply PageAllocator_alloc_spec.
Qed.

(** [bubble_sort] terminates with a sorted permutation of the slice. *)
Theorem bubble_sort_correct (T : Type) (key : T -> Z) (l : list T) :
  exists l', bubble_sort (fun a b => key b <? key a) l = Ret (tt, l') /\ l' ≡ₚ l /\
    StronglySorted (fun a b => key a <= key b) l'.
Proof. apply bubble_sort_run. Qed.

End InitLemmas.

(** ** Witnesses: 256 MiB of RAM, a kernel at 1 MiB and one module *)

Definition example_boot : BootInfo :=
  mkBootInfo []
    (mkArrayVec (Some (mkModule 0x300000 0x310000) :: replicate 7 None) 1)
    (mkArrayVec (Some (mkFreeRam 0 0x10000000) :: replicate 7 None) 1).

Definition example_kernel : Z * Z :=
  get_kernel_reserved_range (KERNEL_BASE + 0x100000) (KERNEL_BASE + 0x200000).

Lemma example_boot_ok :
  boot_ok example_kernel [mkModule 0x300000 0x310000] [mkFreeRam 0 0x10000000].
Proof.
  constructor; [done|repeat constructor; done..|]. intros [|i] [|j] r q x Hij Hi Hj; try done.
Qed.

Lemma memory_init_usable_witness :
  exists s reserved,
    @memory_init dev example_kernel example_boot (PageAllocator_new (fun _ => 0)) = Ret (tt, s) /\
    phys_inv s /\ reserved ≡ₚ reserved_of example_kernel [mkModule 0x300000 0x310000] /\
    (forall x, phys_avail s x ->
       usable example_kernel [mkModule 0x300000 0x310000] [mkFreeRam 0 0x10000000] x) /\
    ((length (all_gaps reserved [mkFreeRam 0 0x10000000]) <= 8)%nat ->
     forall x, usable example_kernel [mkModule 0x300000 0x310000] [mkFreeRam 0 0x10000000] x ->
       phys_avail s x).
Proof.
  apply (memory_init_usable (P := dev) example_kernel example_boot).
  - split_and!; [done|unfold av_cap; simpl; lia|done].
  - split_and!; [done|unfold av_cap; simpl; lia|done].
  - simpl. unfold NUM_MODULES_MAX. lia.
  - apply example_boot_ok.
  - intros x. unfold is_byte. lia.
Defined.

Definition example_phys : Phys :=
  mkPhys (fun _ => 0) (mkArrayVec (Some (bump_new 0x400000 0x800000) :: replicate 7 None) 1).

Lemma example_phys_rep : av_rep (regions example_phys) [bump_new 0x400000 0x800000].
Proof. split_and!; [done|unfold av_cap; simpl; lia|done]. Qed.

Lemma example_phys_inv : phys_inv example_phys.
Proof.
  constructor; [intros x; unfold is_byte; simpl; lia|]. eexists. split; [apply example_phys_rep|].
  split; [by repeat constructor|]. intros [|i] [|j] b c x Hij Hi Hj; done.
Qed.

Lemma page_allocator_alloc_correct_witness :
  exists r s', @PageAllocator_alloc dev 0x2000 Zeroed example_phys = Ret (r, s') /\ phys_inv s' /\
    @alloc_post Phys (@phys_machine dev) 0x2000 Zeroed example_phys r s' /\
    (r = None -> forall b p, b ∈ [bump_new 0x400000 0x800000] -> p mod MIN_PAGE_SIZE = 0 ->
       start b <= p -> next b < p + 0x2000).
Proof.
  apply (page_allocator_alloc_correct (P := dev) example_phys).
  - apply example_phys_inv.
  - apply example_phys_rep.
  - lia.
  - reflexivity.
Defined.
