(* ===== verification/VmArea.v ===== *)
(** * kernel/src/vmarea.rs: lazily filled memory areas

    A [VmArea] is a vector of optional physical pages.  Areas are shared
    ([SharedRef<VmArea>]), so the state holds all live areas, keyed by the
    address of the object, beside the machine.  The operations are written
    against the [Machine] interface. *)

From S2P Require Import Prelude Bytes Alignment Api Bump ArrayVec Machine Memory.

(** [Pager] has the single variant [Anonymous]. *)
Inductive Pager : Set := Anonymous.

Record VmArea : Set := mkVmArea {
  pages : list (option Z);
  pager : Pager;
  area_len : Z
}.

Record VmState (Mc : Type) : Type := mkVmState {
  machine : Mc;
  areas : gmap Z VmArea
}.
Arguments mkVmState {Mc} _ _.
Arguments machine {Mc} _.
Arguments areas {Mc} _.

Section VmAreaOps.
Context {P : Profile} {Mc : Type} `{Machine Mc}.
Abbreviation VM := (M (VmState Mc)).

Definition on_machine {A} (m : M Mc A) : VM A :=
  fun st => match m (machine st) with
            | Ret (a, s) => Ret (a, mkVmState s (areas st))
            | Panic => Panic
            | Undef => Undef
            | Hang => Hang
            end.

(** Dereferencing a [SharedRef<VmArea>]. *)
Definition area_ref (id : Z) : VM VmArea :=
  fun st => match areas st !! id with
            | Some a => Ret (a, st)
            | None => Undef
            end.

Definition area_put (id : Z) (a : VmArea) : VM unit :=
  fun st => Ret (tt, mkVmState (machine st) (<[id := a]> (areas st))).

(** [Mutable::get_or_fill]. *)
Definition get_or_fill (id index : Z) : VM (result ErrorCode Z) :=
  do* a := area_ref id in
  match pages a !! Z.to_nat index with
  | None => lift Panic
  | Some (Some paddr) => ret (Ok paddr)
  | Some None =>
      do* o := on_machine (page_alloc MIN_PAGE_SIZE Zeroed) in
      do? paddr := ret (ok_or o OUT_OF_MEMORY) in
      do* _ := area_put id (mkVmArea (<[Z.to_nat index := Some paddr]> (pages a)) (pager a) (area_len a)) in
      ret (Ok paddr)
  end.

(** [reserve] is the outcome of [try_reserve_exact], [ptr] the block the heap
    returns for the object ([None] for a null pointer). *)
Definition new_anonymous (reserve : bool) (ptr : option Z) (len : Z) : VM (result ErrorCode Z) :=
  do* bad := lift (if len =? 0 then Ret true
                   else let* b := is_aligned len MIN_PAGE_SIZE in Ret (negb b)) in
  if bad then ret (Err INVALID_ARG)
  else
    let n := len / MIN_PAGE_SIZE in
    if negb reserve then ret (Err OUT_OF_MEMORY)
    else match ptr with
         | None => ret (Err OUT_OF_MEMORY)
         | Some id =>
             do* _ := area_put id (mkVmArea (replicate (Z.to_nat n) None) Anonymous len) in
             ret (Ok id)
         end.

Definition vmarea_len (id : Z) : VM Z := do* a := area_ref id in ret (area_len a).

Definition ensure_page (id index : Z) : VM (result ErrorCode Z) :=
  do* a := area_ref id in
  if len (pages a) <=? index then ret (Err OUT_OF_BOUNDS) else get_or_fill id index.

(** The loop of [write]: each turn copies at least one byte, so one unit of
    fuel per byte suffices. *)
Fixpoint write_loop (fuel : nat) (id offset : Z) (data : list Z) : VM (result ErrorCode unit) :=
  match data with
  | [] => ret (Ok tt)
  | _ =>
      match fuel with
      | O => lift Hang
      | S fuel =>
          let index := offset / MIN_PAGE_SIZE in
          let page_offset := offset mod MIN_PAGE_SIZE in
          do* room := lift (usize_sub MIN_PAGE_SIZE page_offset) in
          let copy_len := Z.min (len data) room in
          do? paddr := get_or_fill id index in
          do* _ := on_machine (vwrite (paddr2vaddr paddr + page_offset) (take (Z.to_nat copy_len) data)) in
          do* rest := lift (slice_index data copy_len (len data)) in
          do* offset' := lift (usize_add offset copy_len) in
          write_loop fuel id offset' rest
      end
  end.

(** The bounds check shared by [write] and [read]. *)
Definition check_range (id offset n : Z) : VM (result ErrorCode unit) :=
  do? offset_end := ret (ok_or (checked_add 64 offset n) OUT_OF_BOUNDS) in
  do* a := area_ref id in
  if area_len a <? offset_end then ret (Err OUT_OF_BOUNDS) else ret (Ok tt).

Definition vmarea_write (id offset : Z) (data : list Z) : VM (result ErrorCode unit) :=
  do? _ := check_range id offset (len data) in write_loop (length data) id offset data.

(** The loop of [read] returns the buffer it leaves behind as well: an error
    may have filled a prefix. *)
Fixpoint read_loop (fuel : nat) (id offset : Z) (buf : list Z) : VM (result ErrorCode unit * list Z) :=
  match buf with
  | [] => ret (Ok tt, [])
  | _ =>
      match fuel with
      | O => lift Hang
      | S fuel =>
          let index := offset / MIN_PAGE_SIZE in
          let offset_in_page := offset mod MIN_PAGE_SIZE in
          do* r := get_or_fill id index in
          match r with
          | Err e => ret (Err e, buf)
          | Ok paddr =>
              do* room := lift (usize_sub MIN_PAGE_SIZE offset_in_page) in
              let copy_len := Z.min (len buf) room in
              do* bytes := on_machine (vread (paddr2vaddr paddr + offset_in_page) (Z.to_nat copy_len)) in
              do* rest := lift (slice_index buf copy_len (len buf)) in
              do* offset' := lift (usize_add offset copy_len) in
              do* (r', rest') := read_loop fuel id offset' rest in
              ret (r', bytes ++ rest')
          end
      end
  end.

Definition vmarea_read (id offset : Z) (buf : list Z) : VM (result ErrorCode unit * list Z) :=
  do* r := check_range id offset (len buf) in
  match r with
  | Err e => ret (Err e, buf)
  | Ok _ => read_loop (length buf) id offset buf
  end.

Definition VmArea_DEFAULT_RIGHT : HandleRight := right_or (right_or RIGHT_READ RIGHT_WRITE) RIGHT_MAP.

End VmAreaOps.

(** ** The invariant and the abstract contents *)

Section VmAreaInv.
Context {Mc : Type} `{Machine Mc}.

(** The page of area [id] at [index]. *)
Definition page_at (st : VmState Mc) (id : Z) (index : nat) (paddr : Z) : Prop :=
  exists a, areas st !! id = Some a /\ pages a !! index = Some (Some paddr).

Definition area_ok (a : VmArea) : Prop :=
  0 < area_len a < 2 ^ 64 /\ area_len a = MIN_PAGE_SIZE * len (pages a).

Record vm_inv (st : VmState Mc) : Prop := mkVmInv {
  vm_machine : machine_inv (machine st);
  vm_areas : forall id a, areas st !! id = Some a -> area_ok a;
  vm_aligned : forall id i p, page_at st id i p -> p mod MIN_PAGE_SIZE = 0;
  vm_bounds : forall id i p, page_at st id i p -> 0 <= p /\ p + MIN_PAGE_SIZE <= DIRECT_MAP_SIZE;
  vm_owned : forall id i p x, page_at st id i p -> in_block p MIN_PAGE_SIZE x -> ~ avail (machine st) x;
  vm_distinct : forall id i id' i' p, page_at st id i p -> page_at st id' i' p -> id = id' /\ i = i'
}.

(** The bytes an area presents: a page that is not there yet reads as zeros. *)
Definition content (st : VmState Mc) (id : Z) : mem := fun off =>
  match areas st !! id with
  | Some a =>
      if (0 <=? off) && (off <? area_len a) then
        match pages a !! Z.to_nat (off / MIN_PAGE_SIZE) with
        | Some (Some p) => ram (machine st) (p + off mod MIN_PAGE_SIZE)
        | _ => 0
        end
      else 0
  | None => 0
  end.

(** The lengths of the live areas. *)
Definition same_areas (st st' : VmState Mc) : Prop :=
  forall id, area_len <$> areas st' !! id = area_len <$> areas st !! id.

(** Areas keep their pages, and new pages come from memory that was available. *)
Record vm_extends (st st' : VmState Mc) : Prop := mkExtends {
  ext_areas : same_areas st st';
  ext_pages : forall id i p, page_at st id i p -> page_at st' id i p;
  ext_new : forall id i p, page_at st' id i p ->
    page_at st id i p \/ forall x, in_block p MIN_PAGE_SIZE x -> avail (machine st) x;
  ext_avail : forall x, avail (machine st') x -> avail (machine st) x
}.

(** Every page of an area has been filled. *)
Definition populated (st : VmState Mc) (id : Z) : Prop :=
  forall a i, areas st !! id = Some a -> (i < length (pages a))%nat -> exists p, page_at st id i p.

(** Memory in use, other than [touched], is left alone. *)
Definition ram_frame (touched : Z -> Prop) (st st' : VmState Mc) : Prop :=
  forall x, ~ avail (machine st) x -> ~ touched x -> ram (machine st') x = ram (machine st) x.

(** The memory behind the pages of an area. *)
Definition backing (st : VmState Mc) (id x : Z) : Prop :=
  exists i p, page_at st id i p /\ in_block p MIN_PAGE_SIZE x.

End VmAreaInv.

(** * Lemmas *)

Lemma aligned_blocks_disjoint p q x :
  p mod MIN_PAGE_SIZE = 0 -> q mod MIN_PAGE_SIZE = 0 ->
  in_block p MIN_PAGE_SIZE x -> in_block q MIN_PAGE_SIZE x -> p = q.
Proof. unfold in_block, MIN_PAGE_SIZE. intros. dlia. Qed.

Lemma page_offset_bound off : 0 <= off mod MIN_PAGE_SIZE < MIN_PAGE_SIZE.
Proof. apply Z.mod_pos_bound. reflexivity. Qed.

Section VmAreaLemmas.
Context {P : Profile} {Mc : Type} `{MachineLaws Mc}.
Implicit Types st : VmState Mc.

#[global] Instance vm_extends_preorder : PreOrder (vm_extends (Mc := Mc)).
Proof.
  split.
  - intros st. constructor; try done. intros. by left.
  - intros st1 st2 st3 [H1 H2 H3 H4] [K1 K2 K3 K4]. constructor; [|auto|..].
    + intros id. by rewrite K1, H1.
    + intros id i p [Hp|Hp]%K3; [by apply H3|right; auto].
    + auto.
Qed.

Lemma ram_frame_trans touched st1 st2 st3 :
  vm_extends st1 st2 -> ram_frame touched st1 st2 -> ram_frame touched st2 st3 -> ram_frame touched st1 st3.
Proof.
  intros He H1 H2 x Ha Ht. rewrite H2; [by apply H1| |done]. intros ?. apply Ha. by apply (ext_avail _ _ He).
Qed.

Lemma on_machine_run {A} (m : M Mc A) st a s :
  m (machine st) = Ret (a, s) -> on_machine m st = Ret (a, mkVmState s (areas st)).
Proof. unfold on_machine. by intros ->. Qed.

Lemma area_ref_run st id a : areas st !! id = Some a -> area_ref id st = Ret (a, st).
Proof. unfold area_ref. by intros ->. Qed.

Lemma content_page st id a off p :
  areas st !! id = Some a -> 0 <= off < area_len a ->
  page_at st id (Z.to_nat (off / MIN_PAGE_SIZE)) p ->
  content st id off = ram (machine st) (p + off mod MIN_PAGE_SIZE).
Proof.
  intros Ha Hoff (a' & Ha' & Hp). simplify_eq. unfold content. rewrite Ha.
  replace ((0 <=? off) && (off <? area_len a)) with true by (symmetry; bool_lia). by rewrite Hp.
Qed.

(** The state after an empty slot has been filled with the page [p]. *)
Definition filled st (s : Mc) (id : Z) (a : VmArea) (index : nat) (p : Z) : VmState Mc :=
  mkVmState s (<[id := mkVmArea (<[index := Some p]> (pages a)) (pager a) (area_len a)]> (areas st)).

Lemma filled_page st s id a index p id' i' q :
  areas st !! id = Some a -> pages a !! index = Some None ->
  page_at (filled st s id a index p) id' i' q <->
  page_at st id' i' q \/ id' = id /\ i' = index /\ q = p.
Proof.
  intros Ha Hi. unfold page_at, filled; simpl. split.
  - intros (a' & [[<- <-]|[? Ha']]%lookup_insert_Some & Hq); [|left; eauto].
    apply list_lookup_insert_Some in Hq as [(<- & ? & _)|[? Hq]]; [right; naive_solver|left; eauto].
  - intros [(a' & Ha' & Hq)|(-> & -> & ->)].
    + destruct (decide (id' = id)) as [->|]; [|exists a'; by rewrite lookup_insert_ne].
      assert (a' = a) as -> by congruence. eexists. rewrite lookup_insert_eq. split; [done|]. simpl.
      rewrite list_lookup_insert_ne; [done|]. intros ->. congruence.
    + eexists. rewrite lookup_insert_eq. split; [done|]. simpl.
      apply list_lookup_insert_eq. by eapply lookup_lt_Some.
Qed.

Lemma filled_areas st s id a index p :
  areas st !! id = Some a -> same_areas st (filled st s id a index p).
Proof.
  intros Ha id'. unfold filled; simpl. destruct (decide (id' = id)) as [->|].
  - by rewrite lookup_insert_eq, Ha.
  - by rewrite lookup_insert_ne.
Qed.

Section Filled.
Context (st : VmState Mc) (s : Mc) (id : Z) (a : VmArea) (index : nat) (p : Z).
Context (Hi : vm_inv st) (Ha : areas st !! id = Some a) (Hidx : pages a !! index = Some None).
Context (Hs : machine_inv s) (Hp : alloc_post MIN_PAGE_SIZE Zeroed (machine st) (Some p) s).

Lemma filled_inv : vm_inv (filled st s id a index p).
Proof using All.
  pose proof Hp as (Hpa & Hav & Hav' & _).
  destruct (alloc_post_bounds (machine st) MIN_PAGE_SIZE Zeroed p s) as [? ?]; [apply Hi|done..|].
  destruct Hi as [Hm Har Hal Hbd Hown Hdis].
  assert (forall id' i', page_at st id' i' p -> False) as Hnew.
  { intros id' i' Hq. assert (in_block p MIN_PAGE_SIZE p) by (unfold in_block, MIN_PAGE_SIZE; lia).
    eapply Hown; eauto. }
  constructor; [done|..].
  - intros id' a' Ha'. simpl in Ha'. apply lookup_insert_Some in Ha' as [[<- <-]|[? Ha']]; [|eauto].
    destruct (Har id a Ha) as [? ?]. split; simpl; [done|]. by rewrite length_insert.
  - intros id' i' q [Hq|(_ & _ & ->)]%filled_page; eauto.
  - intros id' i' q [Hq|(_ & _ & ->)]%filled_page; eauto.
  - intros id' i' q x Hq Hx Hax. simpl in Hax. apply Hav' in Hax as [Hax Hnx].
    apply filled_page in Hq as [Hq|(_ & _ & ->)]; [|done..]. by eapply Hown.
  - intros id1 i1 id2 i2 q Hq1 Hq2. apply filled_page in Hq1, Hq2; [|done..].
    naive_solver.
Qed.

Lemma filled_extends : vm_extends st (filled st s id a index p).
Proof using All.
  pose proof Hp as (_ & Hav & Hav' & _). constructor.
  - by apply filled_areas.
  - intros id' i' q Hq. apply filled_page; auto.
  - intros id' i' q [Hq|(_ & _ & ->)]%filled_page; auto.
  - intros x Hx. by apply Hav'.
Qed.

Lemma filled_frame : ram_frame (fun _ => False) st (filled st s id a index p).
Proof using All.
  pose proof Hp as (_ & Hav & _ & Hram & _). intros x Hx _. simpl. apply Hram. intros Hb. by apply Hx, Hav.
Qed.

(** A zeroed page shows what the empty slot showed. *)
Lemma filled_content id' off : content (filled st s id a index p) id' off = content st id' off.
Proof using All.
  pose proof Hp as (_ & Hav & _ & Hram & Hz). destruct Hi as [Hm _ _ _ Hown _].
  assert (forall i q y, page_at st id' i q -> 0 <= y < MIN_PAGE_SIZE ->
    ram s (q + y) = ram (machine st) (q + y)) as Hold.
  { intros i q y Hq Hy. apply Hram. intros Hb%Hav.
    eapply (Hown id' i q (q + y)); [done|unfold in_block; lia|done]. }
  pose proof (page_offset_bound off). unfold content, filled; simpl. destruct (decide (id' = id)) as [->|Hid].
  - rewrite lookup_insert_eq, Ha; simpl. destruct (_ && _) eqn:Hb; [|done]. simpl_bool.
    destruct (decide (Z.to_nat (off / MIN_PAGE_SIZE) = index)) as [->|Hne].
    + rewrite list_lookup_insert_eq, Hidx by (by eapply lookup_lt_Some).
      apply Hz; [done|]. unfold in_block. lia.
    + rewrite list_lookup_insert_ne by done.
      destruct (pages a !! Z.to_nat (off / MIN_PAGE_SIZE)) as [[q|]|] eqn:Hq; [|done..]. eapply Hold; [|done]. by exists a.
  - rewrite lookup_insert_ne by done. destruct (areas st !! id') as [a'|] eqn:Ha'; [|done].
    destruct (_ && _); [|done]. destruct (pages a' !! Z.to_nat (off / MIN_PAGE_SIZE)) as [[q|]|] eqn:Hq; [|done..].
    eapply Hold; [|done]. by exists a'.
Qed.

End Filled.

Lemma get_or_fill_spec st id a index :
  vm_inv st -> areas st !! id = Some a -> 0 <= index < len (pages a) ->
  exists r st', get_or_fill id index st = Ret (r, st') /\ vm_inv st' /\ vm_extends st st' /\
    ram_frame (fun _ => False) st st' /\ (forall id' x, content st' id' x = content st id' x) /\
    match r with
    | Ok p => page_at st' id (Z.to_nat index) p
    | Err e => e = OUT_OF_MEMORY /\ st' = st /\ ~ populated st id
    end.
Proof.
  intros Hi Ha Hidx. unfold get_or_fill. rewrite (bind_run _ _ _ _ _ (area_ref_run _ _ _ Ha)).
  destruct (lookup_lt_is_Some_2 (pages a) (Z.to_nat index)) as [[p|] Hpg]; [lia|..]; rewrite Hpg.
  { exists (Ok p), st. split_and!; try done. by exists a. }
  destruct (page_alloc_spec (machine st) MIN_PAGE_SIZE Zeroed) as (r & s & E & Hs & Hp);
    [apply Hi|done..|].
  rewrite (bind_run _ _ _ _ _ (on_machine_run _ _ _ _ E)). destruct r as [p|].
  - exists (Ok p), (filled st s id a (Z.to_nat index) p). split_and!; [done|..].
    + by apply filled_inv.
    + by apply filled_extends.
    + by eapply filled_frame.
    + intros. by apply filled_content.
    + apply filled_page; auto.
  - simpl in Hp. subst s. exists (Err OUT_OF_MEMORY), st. split_and!; try done; [by destruct st|].
    intros Hpop. destruct (Hpop a (Z.to_nat index) Ha) as (p & a' & Ha' & Hp); [lia|].
    rewrite Ha in Ha'. injection Ha' as <-. congruence.
Qed.

(** ** Copying into and out of a page *)

(** The state after [bs] has been stored at offset [off] of the page [p]. *)
Definition stored st (p off : Z) (bs : list Z) : VmState Mc :=
  mkVmState (set_ram (mem_write (ram (machine st)) (p + off mod MIN_PAGE_SIZE) bs) (machine st)) (areas st).

Section Stored.
Context (st : VmState Mc) (id : Z) (a : VmArea) (p off : Z) (bs : list Z).
Context (Hi : vm_inv st) (Ha : areas st !! id = Some a) (Hoff : 0 <= off).
Context (Hp : page_at st id (Z.to_nat (off / MIN_PAGE_SIZE)) p) (Hbs : bytes_ok bs).
Context (Hroom : off mod MIN_PAGE_SIZE + len bs <= MIN_PAGE_SIZE) (Hend : off + len bs <= area_len a).

Lemma stored_run :
  on_machine (vwrite (paddr2vaddr p + off mod MIN_PAGE_SIZE) bs) st = Ret (tt, stored st p off bs).
Proof using All.
  pose proof (page_offset_bound off). destruct (vm_bounds st Hi _ _ _ Hp).
  apply on_machine_run, vwrite_run; [|lia..].
  apply direct_map_small. unfold MIN_PAGE_SIZE in *. lia.
Qed.

Lemma stored_inv : vm_inv (stored st p off bs).
Proof using All.
  destruct Hi as [Hm Har Hal Hbd Hown Hdis]. constructor; simpl; try done.
  - by apply write_inv.
  - intros id' i q x Hq Hx Hax%avail_set_ram. by eapply Hown.
Qed.

Lemma stored_extends : vm_extends st (stored st p off bs).
Proof using All.
  constructor; try done; [by left|]. intros x Hx%avail_set_ram. done.
Qed.

Lemma stored_frame : ram_frame (backing st id) st (stored st p off bs).
Proof using All.
  intros x _ Hx. simpl. rewrite ram_set_ram. apply mem_write_out.
  pose proof (page_offset_bound off). destruct (decide (in_block p MIN_PAGE_SIZE x)) as [Hb|Hb].
  - destruct Hx. eexists _, _. done.
  - unfold in_block in Hb. lia.
Qed.

Lemma stored_content id' x :
  content (stored st p off bs) id' x =
  if decide (id' = id) then mem_write (content st id) off bs x else content st id' x.
Proof using All.
  pose proof Hi as [_ _ Hal _ _ Hdis]. pose proof (page_offset_bound off).
  assert (forall id' i q y, page_at st id' i q -> 0 <= y < MIN_PAGE_SIZE ->
    (id', i) <> (id, Z.to_nat (off / MIN_PAGE_SIZE)) ->
    mem_write (ram (machine st)) (p + off mod MIN_PAGE_SIZE) bs (q + y) = ram (machine st) (q + y)) as Hother.
  { intros id1 i q y Hq Hy Hne. apply mem_write_out.
    destruct (decide (in_block p MIN_PAGE_SIZE (q + y))) as [Hb|Hb]; [|unfold in_block in Hb; lia].
    assert (p = q) as <- by (eapply aligned_blocks_disjoint; eauto; unfold in_block; lia).
    destruct (Hdis _ _ _ _ _ Hq Hp) as [-> ->]. done. }
  pose proof (page_offset_bound x) as Hx.
  unfold content at 1, stored; simpl. rewrite ram_set_ram. destruct (decide (id' = id)) as [->|Hid].
  - rewrite Ha. destruct ((0 <=? x) && (x <? area_len a)) eqn:Hb.
    + simpl_bool. destruct (decide (Z.to_nat (x / MIN_PAGE_SIZE) = Z.to_nat (off / MIN_PAGE_SIZE))) as [E|Hne].
      * destruct Hp as (a' & Ha' & Hp'). assert (a' = a) as -> by congruence. rewrite E, Hp'.
        rewrite !mem_write_eq. rewrite (content_page st id a x p); [|done|lia|by exists a; rewrite E].
        assert (p + x mod MIN_PAGE_SIZE - (p + off mod MIN_PAGE_SIZE) = x - off) as ->.
        { unfold MIN_PAGE_SIZE in *. dlia. }
        do 2 case_Z; try done; exfalso; unfold MIN_PAGE_SIZE in *; dlia.
      * rewrite mem_write_out by (unfold MIN_PAGE_SIZE in *; dlia).
        unfold content. rewrite Ha. replace (_ && _) with true by (symmetry; bool_lia).
        destruct (pages a !! Z.to_nat (x / MIN_PAGE_SIZE)) as [[q|]|] eqn:Hq; [|done..].
        eapply Hother; [by exists a|done|]. congruence.
    + rewrite mem_write_out; [unfold content; by rewrite Ha, Hb|].
      apply andb_false_iff in Hb as [?|?]; simpl_bool; lia.
  - unfold content. destruct (areas st !! id') as [a'|] eqn:Ha'; [|done].
    destruct (_ && _); [|done]. destruct (pages a' !! Z.to_nat (x / MIN_PAGE_SIZE)) as [[q|]|] eqn:Hq; [|done..].
    eapply Hother; [by exists a'|done|]. congruence.
Qed.

End Stored.

(** ** The copy loops *)

(** [written], at [off] in area [id], is the only change of any contents. *)
Definition wrote st (id off : Z) (written : list Z) st' : Prop :=
  forall id' x, content st' id' x =
    if decide (id' = id) then mem_write (content st id) off written x else content st id' x.

Record copied st (id off : Z) (written : list Z) st' : Prop := mkCopied {
  copied_inv : vm_inv st';
  copied_ext : vm_extends st st';
  copied_frame : ram_frame (backing st' id) st st';
  copied_wrote : wrote st id off written st'
}.

Lemma backing_mono st st' id x : vm_extends st st' -> backing st id x -> backing st' id x.
Proof. intros He (i & p & Hp & Hx). exists i, p. split; [|done]. by apply (ext_pages _ _ He). Qed.

Lemma copied_refl st id off : vm_inv st -> copied st id off [] st.
Proof.
  intros Hi. constructor; [done..|]. intros id' x. rewrite mem_write_nil. by destruct (decide _) as [->|].
Qed.

Lemma copied_app st1 st2 st3 id off bs1 bs2 :
  copied st1 id off bs1 st2 -> copied st2 id (off + len bs1) bs2 st3 ->
  copied st1 id off (bs1 ++ bs2) st3.
Proof.
  intros [Hi1 He1 Hf1 Hw1] [Hi2 He2 Hf2 Hw2]. constructor; [done|by etrans| |].
  - eapply ram_frame_trans; [done| |done]. intros x Ha Hb. apply Hf1; [done|].
    intros ?. apply Hb. by eapply backing_mono.
  - intros id' x. rewrite Hw2. specialize (Hw1 id' x). destruct (decide (id' = id)) as [->|]; [|done].
    rewrite <- mem_write_app. by apply mem_write_ext.
Qed.

(** Fill the page, then store into it. *)
Lemma copied_chunk st st1 id a off p bs :
  vm_inv st1 -> vm_extends st st1 -> ram_frame (fun _ => False) st st1 ->
  (forall id' x, content st1 id' x = content st id' x) ->
  areas st1 !! id = Some a -> 0 <= off -> page_at st1 id (Z.to_nat (off / MIN_PAGE_SIZE)) p ->
  bytes_ok bs -> off mod MIN_PAGE_SIZE + len bs <= MIN_PAGE_SIZE -> off + len bs <= area_len a ->
  copied st id off bs (stored st1 p off bs).
Proof.
  intros Hi He Hf Hc Ha Hoff Hp Hbs Hr Hend.
  pose proof (stored_extends st1 id a p off bs Hi Ha Hoff Hp Hbs Hr Hend) as He'. constructor.
  - by apply (stored_inv st1 id a p off bs).
  - by etrans.
  - eapply ram_frame_trans; [exact He| |].
    + intros x Hx _. apply Hf; [done|tauto].
    + intros x Hx Hb. apply (stored_frame st1 id a p off bs Hi Ha Hoff Hp Hbs Hr Hend); [done|].
      intros ?. apply Hb. by eapply backing_mono.
  - intros id' x. rewrite (stored_content st1 id a p off bs) by done.
    destruct (decide _); [by apply mem_write_ext|done].
Qed.

Lemma extends_area st st' id a :
  vm_extends st st' -> areas st !! id = Some a ->
  exists a', areas st' !! id = Some a' /\ area_len a' = area_len a.
Proof.
  intros He Ha. pose proof (ext_areas _ _ He id) as Hl. rewrite Ha in Hl. simpl in Hl.
  apply fmap_Some in Hl as (a' & -> & ->). eauto.
Qed.

Lemma area_index st id a off :
  vm_inv st -> areas st !! id = Some a -> 0 <= off < area_len a ->
  0 <= off / MIN_PAGE_SIZE < len (pages a).
Proof.
  intros Hi Ha Hoff. destruct (vm_areas st Hi id a Ha) as [_ Hl]. unfold MIN_PAGE_SIZE in *. dlia.
Qed.

(** Sizes of one turn of either loop. *)
Lemma chunk_size off (data : list Z) :
  data <> [] -> let n := Z.min (len data) (MIN_PAGE_SIZE - off mod MIN_PAGE_SIZE) in
  0 < n <= len data /\ off mod MIN_PAGE_SIZE + n <= MIN_PAGE_SIZE /\
  len (take (Z.to_nat n) data) = n /\ (length (drop (Z.to_nat n) data) < length data)%nat.
Proof.
  intros Hd n. pose proof (page_offset_bound off). destruct data as [|b data]; [done|].
  rewrite length_take, length_drop. simpl length in *. lia.
Qed.

Lemma write_loop_spec fuel : forall st id a off data,
  vm_inv st -> areas st !! id = Some a -> bytes_ok data -> (length data <= fuel)%nat ->
  0 <= off -> off + len data <= area_len a ->
  exists r st' written, write_loop fuel id off data st = Ret (r, st') /\
    copied st id off written st' /\ written `prefix_of` data /\
    match r with Ok _ => written = data | Err e => e = OUT_OF_MEMORY end.
Proof.
  induction fuel as [|fuel IH]; intros st id a off data Hi Ha Hb Hf Hoff Hend;
    (destruct (decide (data = [])) as [->|Hne];
      [exists (Ok tt), st, []; split_and!; [done|by apply copied_refl|done..]|]).
  { destruct data; [done|]. simpl in Hf. lia. }
  destruct data as [|b0 data0] eqn:Hdata; [done|]. cbn [write_loop]. rewrite <- Hdata in *. clear b0 data0 Hdata.
  pose proof (page_offset_bound off) as Hpo.
  rewrite (bind_lift _ _ _ (MIN_PAGE_SIZE - off mod MIN_PAGE_SIZE)) by
    (apply usize_sub_ok; unfold MIN_PAGE_SIZE in *; lia).
  destruct (chunk_size off data Hne) as (Hn & Hroom & Hlen & Hrest).
  set (n := Z.min _ _) in *. set (chunk := take (Z.to_nat n) data) in *.
  destruct (vm_areas st Hi id a Ha) as [Hal _].
  destruct (get_or_fill_spec st id a (off / MIN_PAGE_SIZE)) as (r & st1 & E & Hi1 & He1 & Hf1 & Hc1 & Hr);
    [done..|apply (area_index st id a); [done..|lia]|].
  destruct r as [p|e].
  2: { destruct Hr as (-> & -> & _). rewrite (bindr_err _ _ _ _ _ E). exists (Err OUT_OF_MEMORY), st, [].
       split_and!; [done|by apply copied_refl|apply prefix_nil|done]. }
  rewrite (bindr_ok _ _ _ _ _ E). destruct (extends_area st st1 id a He1 Ha) as (a1 & Ha1 & Hl1).
  assert (bytes_ok chunk) by by apply Forall_take.
  rewrite (bind_run _ _ _ _ _ (stored_run st1 id a1 p off chunk Hi1 Ha1 Hoff Hr ltac:(done) ltac:(lia) ltac:(lia))).
  rewrite (bind_lift _ _ _ _ (slice_index_from data n ltac:(lia))).
  rewrite (bind_lift _ _ _ (off + n)) by (apply usize_add_ok; lia).
  assert (copied st id off chunk (stored st1 p off chunk)) as Hcp
    by (apply (copied_chunk st st1 id a1); done || lia).
  destruct (IH (stored st1 p off chunk) id a1 (off + n) (drop (Z.to_nat n) data))
    as (r' & st' & w & E' & Hcp' & Hw & Hr'); [apply Hcp|done|by apply Forall_drop|lia..|
    rewrite length_drop; lia|].
  exists r', st', (chunk ++ w). split_and!; [done| | |].
  - eapply copied_app; [done|]. by rewrite Hlen.
  - rewrite <- (take_drop (Z.to_nat n) data). by apply prefix_app.
  - destruct r'; [|done]. subst w. apply take_drop.
Qed.

(** Reading changes no contents. *)
Record looked st st' : Prop := mkLooked {
  looked_inv : vm_inv st';
  looked_ext : vm_extends st st';
  looked_frame : ram_frame (fun _ => False) st st';
  looked_content : forall id x, content st' id x = content st id x
}.

Lemma looked_refl st : vm_inv st -> looked st st.
Proof. intros. constructor; [done..|by intros ?|done]. Qed.

Lemma looked_trans st1 st2 st3 : looked st1 st2 -> looked st2 st3 -> looked st1 st3.
Proof.
  intros [? ? ? H1] [? ? ? H2]. constructor; [done|by etrans|by eapply ram_frame_trans|].
  intros id x. by rewrite H2.
Qed.

Lemma page_read st id a p off n :
  vm_inv st -> areas st !! id = Some a -> 0 <= off ->
  page_at st id (Z.to_nat (off / MIN_PAGE_SIZE)) p ->
  off mod MIN_PAGE_SIZE + Z.of_nat n <= MIN_PAGE_SIZE -> off + Z.of_nat n <= area_len a ->
  on_machine (vread (paddr2vaddr p + off mod MIN_PAGE_SIZE) n) st = Ret (mem_read (content st id) off n, st).
Proof.
  intros Hi Ha Hoff Hp Hroom Hend. destruct (vm_bounds st Hi _ _ _ Hp). pose proof (page_offset_bound off).
  erewrite on_machine_run by (apply vread_run; [apply direct_map_small; unfold MIN_PAGE_SIZE in *; lia|lia..]).
  destruct st as [s ar]. do 2 f_equal. simpl. apply list_eq_same_length with n; [apply length_mem_read..|].
  intros i x y Hin. rewrite !mem_read_lookup by done. intros <-%(inj Some) <-%(inj Some).
  assert ((off + Z.of_nat i) / MIN_PAGE_SIZE = off / MIN_PAGE_SIZE) as E by (unfold MIN_PAGE_SIZE in *; dlia).
  rewrite (content_page _ id a _ p); [|done|lia|by rewrite E]. simpl. f_equal. unfold MIN_PAGE_SIZE in *. dlia.
Qed.

Lemma populated_extends st st' id : vm_inv st -> vm_inv st' -> vm_extends st st' -> populated st id -> populated st' id.
Proof.
  intros Hi Hi' He Hp a' i Ha' Hlt. pose proof (ext_areas _ _ He id) as Hsame. rewrite Ha' in Hsame. simpl in Hsame.
  destruct (areas st !! id) as [a|] eqn:Ha; [|done]. simpl in Hsame. injection Hsame as Hl.
  destruct (vm_areas _ Hi _ _ Ha) as [_ E], (vm_areas _ Hi' _ _ Ha') as [_ E'].
  destruct (Hp a i Ha) as [p Hpg]; [unfold MIN_PAGE_SIZE in *; lia|]. exists p. by apply (ext_pages _ _ He).
Qed.

Lemma read_loop_spec fuel : forall st id a off buf,
  vm_inv st -> areas st !! id = Some a -> (length buf <= fuel)%nat ->
  0 <= off -> off + len buf <= area_len a ->
  exists r st' k, (k <= length buf)%nat /\
    read_loop fuel id off buf st = Ret ((r, mem_read (content st id) off k ++ drop k buf), st') /\
    looked st st' /\
    match r with Ok _ => k = length buf | Err e => e = OUT_OF_MEMORY /\ ~ populated st id end.
Proof.
  induction fuel as [|fuel IH]; intros st id a off buf Hi Ha Hf Hoff Hend;
    (destruct (decide (buf = [])) as [->|Hne];
      [exists (Ok tt), st, 0%nat; split_and!; [done..|by apply looked_refl|done]|]).
  { destruct buf; [done|]. simpl in Hf. lia. }
  destruct buf as [|b0 buf0] eqn:Hdata; [done|]. cbn [read_loop]. rewrite <- Hdata in *. clear b0 buf0 Hdata.
  pose proof (page_offset_bound off) as Hpo. destruct (chunk_size off buf Hne) as (Hn & Hroom & _ & Hrest).
  set (n := Z.min _ _) in *. destruct (vm_areas st Hi id a Ha) as [Hal _].
  destruct (get_or_fill_spec st id a (off / MIN_PAGE_SIZE)) as (r & st1 & E & Hi1 & He1 & Hf1 & Hc1 & Hr);
    [done..|apply (area_index st id a); [done..|lia]|].
  rewrite (bind_run _ _ _ _ _ E). destruct r as [p|e].
  2: { destruct Hr as (-> & -> & Hpop). exists (Err OUT_OF_MEMORY), st, 0%nat.
       split_and!; [lia|done|by apply looked_refl|done..]. }
  destruct (extends_area st st1 id a He1 Ha) as (a1 & Ha1 & Hl1).
  rewrite (bind_lift _ _ _ (MIN_PAGE_SIZE - off mod MIN_PAGE_SIZE)) by
    (apply usize_sub_ok; unfold MIN_PAGE_SIZE in *; lia). fold n.
  rewrite (bind_run _ _ _ _ _ (page_read st1 id a1 p off (Z.to_nat n) Hi1 Ha1 Hoff Hr ltac:(lia) ltac:(lia))).
  rewrite (bind_lift _ _ _ _ (slice_index_from buf n ltac:(lia))).
  rewrite (bind_lift _ _ _ (off + n)) by (apply usize_add_ok; lia).
  destruct (IH st1 id a1 (off + n) (drop (Z.to_nat n) buf)) as (r' & st' & k & Hk & E' & Hlk & Hr');
    [done..|lia|lia|rewrite length_drop; lia|].
  rewrite (bind_run _ _ _ _ _ E'). rewrite length_drop in *.
  exists r', st', (Z.to_nat n + k)%nat. split_and!; [lia| | |].
  - unfold ret. rewrite mem_read_app, drop_drop, <- app_assoc.
    replace (off + Z.of_nat (Z.to_nat n)) with (off + n) by lia.
    by rewrite !(mem_read_ext (content st1 id) (content st id)).
  - eapply looked_trans; [by constructor|done].
  - destruct r'; [lia|]. destruct Hr' as [-> Hpop]. split; [done|]. intros Hp. apply Hpop. by apply (populated_extends st st1).
Qed.

(** ** The bounds check *)

Lemma check_range_spec st id a off n :
  areas st !! id = Some a -> 0 <= off -> 0 <= n -> area_len a < 2 ^ 64 ->
  check_range id off n st =
  Ret (if off + n <=? area_len a then Ok tt else Err OUT_OF_BOUNDS, st).
Proof.
  intros Ha Ho Hn Hl. unfold check_range.
  destruct (checked_add_spec 64 off n) as [[-> ?]|[-> ?]]; cbn [ok_or].
  - unfold bindr at 1. rewrite bind_ret. rewrite (bind_run _ _ _ _ _ (area_ref_run _ _ _ Ha)).
    destruct (Z.leb_spec (off + n) (area_len a)).
    + by rewrite (proj2 (Z.ltb_ge _ _)) by lia.
    + by rewrite (proj2 (Z.ltb_lt _ _)) by lia.
  - rewrite (proj2 (Z.leb_gt _ _)) by lia. done.
Qed.

Lemma vmarea_write_spec st id a off data :
  vm_inv st -> areas st !! id = Some a -> bytes_ok data -> 0 <= off ->
  exists r st' written, vmarea_write id off data st = Ret (r, st') /\
    copied st id off written st' /\ written `prefix_of` data /\
    match r with
    | Ok _ => off + len data <= area_len a /\ written = data
    | Err e => if off + len data <=? area_len a then e = OUT_OF_MEMORY else e = OUT_OF_BOUNDS /\ st' = st
    end.
Proof.
  intros Hi Ha Hb Ho. destruct (vm_areas st Hi id a Ha) as [Hal _]. unfold vmarea_write.
  pose proof (check_range_spec st id a off (len data) Ha Ho ltac:(lia) ltac:(lia)) as Hc.
  destruct (Z.leb_spec (off + len data) (area_len a)).
  - rewrite (bindr_ok _ _ _ _ _ Hc).
    destruct (write_loop_spec (length data) st id a off data) as (r & st' & w & E & Hcp & Hw & Hr); [done..|].
    exists r, st', w. split_and!; [done..|]. destruct r; [split; [lia|done]|done].
  - rewrite (bindr_err _ _ _ _ _ Hc). exists (Err OUT_OF_BOUNDS), st, [].
    split_and!; [done|by apply copied_refl|apply prefix_nil|done..].
Qed.

Lemma vmarea_read_spec st id a off buf :
  vm_inv st -> areas st !! id = Some a -> 0 <= off ->
  exists r st' k, (k <= length buf)%nat /\
    vmarea_read id off buf st = Ret ((r, mem_read (content st id) off k ++ drop k buf), st') /\
    looked st st' /\
    match r with
    | Ok _ => off + len buf <= area_len a /\ k = length buf
    | Err e => if off + len buf <=? area_len a then e = OUT_OF_MEMORY /\ ~ populated st id
               else e = OUT_OF_BOUNDS /\ k = 0%nat /\ st' = st
    end.
Proof.
  intros Hi Ha Ho. destruct (vm_areas st Hi id a Ha) as [Hal _]. unfold vmarea_read.
  pose proof (check_range_spec st id a off (len buf) Ha Ho ltac:(lia) ltac:(lia)) as Hc.
  rewrite (bind_run _ _ _ _ _ Hc). destruct (Z.leb_spec (off + len buf) (area_len a)).
  - destruct (read_loop_spec (length buf) st id a off buf) as (r & st' & k & Hk & E & Hl & Hr); [done..|].
    exists r, st', k. split_and!; [done..|]. destruct r; [split; [lia|done]|done].
  - exists (Err OUT_OF_BOUNDS), st, 0%nat. split_and!; [lia|done|by apply looked_refl|done..].
Qed.

Lemma new_anonymous_valid st reserve ptr n :
  0 < n -> n mod MIN_PAGE_SIZE = 0 ->
  new_anonymous reserve ptr n st =
  (if negb reserve then ret (Err OUT_OF_MEMORY)
   else match ptr with
        | None => ret (Err OUT_OF_MEMORY)
        | Some id =>
            do* _ := area_put id (mkVmArea (replicate (Z.to_nat (n / MIN_PAGE_SIZE)) None) Anonymous n) in
            ret (Ok id)
        end) st.
Proof.
  intros Hn Hm. unfold new_anonymous. rewrite (bind_lift _ _ _ false); [done|].
  rewrite (proj2 (Z.eqb_neq _ _)) by lia. unfold MIN_PAGE_SIZE in *. by rewrite is_aligned_page, Hm.
Qed.

Lemma new_anonymous_bad st reserve ptr n :
  (n =? 0) || negb (n mod MIN_PAGE_SIZE =? 0) = true ->
  new_anonymous reserve ptr n st = Ret (Err INVALID_ARG, st).
Proof.
  intros Hbad. unfold new_anonymous. rewrite (bind_lift _ _ _ true); [done|].
  destruct (n =? 0); [done|]. simpl in Hbad. change MIN_PAGE_SIZE with 4096 in *.
  by rewrite is_aligned_page; simpl; rewrite Hbad.
Qed.

(** Adding an area without pages. *)
Lemma fresh_area_inv st id n :
  vm_inv st -> areas st !! id = None -> 0 < n < 2 ^ 64 -> n mod MIN_PAGE_SIZE = 0 ->
  let a := mkVmArea (replicate (Z.to_nat (n / MIN_PAGE_SIZE)) None) Anonymous n in
  let st' := mkVmState (machine st) (<[id := a]> (areas st)) in
  vm_inv st' /\ forall id' i p, page_at st' id' i p <-> page_at st id' i p.
Proof.
  intros [Hm Har Hal Hbd Hown Hdis] Hid Hn Hnm a st'.
  assert (forall id' i p, page_at st' id' i p <-> page_at st id' i p) as Hpg.
  { intros id' i p. unfold page_at, st'; simpl. split.
    - intros (a' & [[<- <-]|[? Ha']]%lookup_insert_Some & Hp); [|eauto].
      simpl in Hp. by apply lookup_replicate in Hp as [? _].
    - intros (a' & Ha' & Hp). exists a'. split; [|done]. rewrite lookup_insert_ne; [done|congruence]. }
  split; [|done]. constructor; [done| |setoid_rewrite Hpg; eauto..].
  intros id' a' Ha'. unfold st' in Ha'; simpl in Ha'.
  apply lookup_insert_Some in Ha' as [[<- <-]|[? Ha']]; [|eauto]. split; simpl; [done|].
  rewrite length_replicate. unfold MIN_PAGE_SIZE in *. dlia.
Qed.

(** * Properties *)

(** C4: [VmArea::write] stores into a byte array.  On any state that satisfies
    the invariant it returns and keeps the invariant.  Within bounds it
    either stores all of [data] at [offset], or runs out of pages having
    stored a prefix; out of bounds it changes nothing.  No other byte of this
    area changes, no other area changes, and no memory in use outside the
    area's own pages is touched. *)
Theorem vmarea_write_correct st (id : Z) (a : VmArea) (off : Z) (data : list Z) :
  vm_inv st -> areas st !! id = Some a -> bytes_ok data -> 0 <= off ->
  exists r st' written, vmarea_write id off data st = Ret (r, st') /\ vm_inv st' /\
    same_areas st st' /\ ram_frame (backing st' id) st st' /\
    wrote st id off written st' /\ written `prefix_of` data /\
    match r with
    | Ok _ => off + len data <= area_len a /\ written = data
    | Err e => if off + len data <=? area_len a then e = OUT_OF_MEMORY else e = OUT_OF_BOUNDS /\ st' = st
    end.
Proof.
  intros Hi Ha Hb Ho.
  destruct (vmarea_write_spec st id a off data) as (r & st' & w & E & [? He ? ?] & Hw & Hr); [done..|].
  exists r, st', w. split_and!; try done. apply He.
Qed.

(** [VmArea::read] returns the area's bytes: the whole range on success, a
    prefix (the rest of the buffer untouched) when a missing page cannot be filled,
    nothing when the range is out of bounds.  Filling pages on demand is
    invisible: no area's contents change. *)
Theorem vmarea_read_correct st (id : Z) (a : VmArea) (off : Z) (buf : list Z) :
  vm_inv st -> areas st !! id = Some a -> 0 <= off ->
  exists r st' k, (k <= length buf)%nat /\
    vmarea_read id off buf st = Ret ((r, mem_read (content st id) off k ++ drop k buf), st') /\
    vm_inv st' /\ same_areas st st' /\ (forall id' x, content st' id' x = content st id' x) /\
    match r with
    | Ok _ => off + len buf <= area_len a /\ k = length buf
    | Err e => if off + len buf <=? area_len a then e = OUT_OF_MEMORY /\ ~ populated st id
               else e = OUT_OF_BOUNDS /\ k = 0%nat /\ st' = st
    end.
Proof.
  intros Hi Ha Ho.
  destruct (vmarea_read_spec st id a off buf) as (r & st' & k & Hk & E & [? He ? ?] & Hr); [done..|].
  exists r, st', k. split_and!; try done. apply He.
Qed.

(** What was written is read back: after a successful [write], a read of
    the same range that succeeds returns exactly the bytes written. *)
Theorem vmarea_write_read st st' st'' (id : Z) (a : VmArea) (off : Z) (data buf buf' : list Z) :
  vm_inv st -> areas st !! id = Some a -> bytes_ok data -> 0 <= off -> length buf = length data ->
  vmarea_write id off data st = Ret (Ok tt, st') ->
  vmarea_read id off buf st' = Ret ((Ok tt, buf'), st'') -> buf' = data.
Proof.
  intros Hi Ha Hb Ho Hlen Ew Er.
  destruct (vmarea_write_spec st id a off data) as (r & t & w & E & [Hi' He _ Hw] & _ & Hr); [done..|].
  rewrite Ew in E. simplify_eq. destruct Hr as [_ ->].
  destruct (extends_area st t id a He Ha) as (a' & Ha' & _).
  destruct (vmarea_read_spec t id a' off buf) as (r & t' & k & Hk & E & _ & Hr); [done..|].
  rewrite Er in E. simplify_eq. destruct Hr as [_ ->]. rewrite drop_all, app_nil_r, Hlen.
  rewrite (mem_read_ext _ (mem_write (content st id) off data)).
  - by apply mem_read_write_same.
  - intros x _. rewrite Hw. by rewrite decide_True.
Qed.

(** [VmArea::new_anonymous] accepts exactly the positive multiples of the
    page size that the heap can serve; the new area reads as zeros, and the
    invariant and all other areas are kept. *)
Theorem new_anonymous_correct st (reserve : bool) (id n : Z) :
  vm_inv st -> areas st !! id = None -> 0 <= n < 2 ^ 64 ->
  exists st', new_anonymous reserve (Some id) n st =
      Ret (if (n =? 0) || negb (n mod MIN_PAGE_SIZE =? 0) then Err INVALID_ARG
           else if reserve then Ok id else Err OUT_OF_MEMORY, st') /\
    vm_inv st' /\
    (forall id' x, content st' id' x = content st id' x) /\
    (if (n =? 0) || negb (n mod MIN_PAGE_SIZE =? 0) || negb reserve then st' = st
     else exists a, areas st' = <[id := a]> (areas st) /\ area_len a = n).
Proof.
  intros Hi Hid Hn. destruct ((n =? 0) || negb (n mod MIN_PAGE_SIZE =? 0)) eqn:Hbad; cbn [orb].
  - exists st. split_and!; try done. by apply new_anonymous_bad.
  - simpl_bool. rewrite new_anonymous_valid by lia. destruct reserve; cbn [negb].
    2: { exists st. done. }
    destruct (fresh_area_inv st id n) as [Hi' Hpg]; [done..|lia|done|].
    eexists. split; [done|]. split; [exact Hi'|]. split; [|eexists; done].
    intros id' x. unfold content; simpl. destruct (decide (id' = id)) as [->|].
    + rewrite lookup_insert_eq, Hid; simpl. destruct (_ && _); [|done].
      destruct (replicate _ _ !! _) as [[p|]|] eqn:Hp; [|done..].
      by apply lookup_replicate in Hp as [? _].
    + by rewrite lookup_insert_ne.
Qed.

End VmAreaLemmas.

(** ** Witnesses: an area of two pages on the real page allocator *)

#[local] Existing Instance dev.

Definition example_vm : VmState Phys :=
  mkVmState example_phys {[0x5000 := mkVmArea [None; None] Anonymous 0x2000]}.

Definition example_area : VmArea := mkVmArea [None; None] Anonymous 0x2000.

Lemma example_vm_inv : vm_inv example_vm.
Proof.
  assert (forall id i p, ~ page_at example_vm id i p) as Hn.
  { intros id i p (a & Ha & Hp). simpl in Ha. apply lookup_singleton_Some in Ha as [<- <-]. destruct i as [|[|i]]; done. }
  constructor.
  - apply example_phys_inv.
  - intros id a Ha. simpl in Ha. apply lookup_singleton_Some in Ha as [<- <-]. done.
  - intros id i p []%Hn.
  - intros id i p []%Hn.
  - intros id i p x []%Hn.
  - intros id i id' i' p []%Hn.
Qed.

Lemma vmarea_write_correct_witness :
  exists r st' written,
    vmarea_write 0x5000 4094 [1; 2; 3; 4] example_vm = Ret (r, st') /\
    vm_inv st' /\
    same_areas example_vm st' /\
    ram_frame (backing st' 0x5000) example_vm st' /\
    wrote example_vm 0x5000 4094 written st' /\ written `prefix_of` [1; 2; 3; 4] /\
    match r with
    | Ok _ => 4094 + 4 <= 0x2000 /\ written = [1; 2; 3; 4]
    | Err e => if 4094 + 4 <=? 0x2000 then e = OUT_OF_MEMORY else e = OUT_OF_BOUNDS /\ st' = example_vm
    end.
Proof.
  apply (vmarea_write_correct example_vm 0x5000 example_area).
  - apply example_vm_inv.
  - reflexivity.
  - repeat constructor; lia.
  - lia.
Defined.

Lemma vmarea_read_correct_witness :
  exists r st' k, (k <= 3)%nat /\
    vmarea_read 0x5000 4094 [7; 7; 7] example_vm =
      Ret ((r, mem_read (content example_vm 0x5000) 4094 k ++ drop k [7; 7; 7]), st') /\
    vm_inv st' /\ same_areas example_vm st' /\
    (forall id' x, content st' id' x = content example_vm id' x) /\
    match r with
    | Ok _ => 4094 + 3 <= 0x2000 /\ k = 3%nat
    | Err e => if 4094 + 3 <=? 0x2000 then e = OUT_OF_MEMORY /\ ~ populated example_vm 0x5000
               else e = OUT_OF_BOUNDS /\ k = 0%nat /\ st' = example_vm
    end.
Proof.
  apply (vmarea_read_correct example_vm 0x5000 example_area 4094 [7; 7; 7]).
  - apply example_vm_inv.
  - reflexivity.
  - lia.
Defined.

Lemma vmarea_write_read_witness :
  exists st' buf' st'',
    vmarea_write 0x5000 4094 [1; 2; 3; 4] example_vm = Ret (Ok tt, st') /\
    vmarea_read 0x5000 4094 [0; 0; 0; 0] st' = Ret ((Ok tt, buf'), st'') /\ buf' = [1; 2; 3; 4].
Proof.
  destruct (observe_run (do* _ := vmarea_write 0x5000 4094 [1; 2; 3; 4] in
                         do* (r, _) := vmarea_read 0x5000 4094 [0; 0; 0; 0] in ret r) example_vm (Ok tt))
    as [s E]; [vm_compute; reflexivity|].
  destruct (observe_run (vmarea_write 0x5000 4094 [1; 2; 3; 4]) example_vm (Ok tt)) as [st' E1];
    [vm_compute; reflexivity|].
  rewrite (bind_run _ _ _ _ _ E1) in E. unfold bind in E.
  destruct (vmarea_read 0x5000 4094 [0; 0; 0; 0] st') as [[[r buf'] st'']| | |] eqn:E2; try discriminate E.
  injection E as -> _. exists st', buf', st''. split; [exact E1|]. split; [exact E2|].
  refine (vmarea_write_read example_vm _ _ 0x5000 example_area 4094
    [1; 2; 3; 4] [0; 0; 0; 0] _ example_vm_inv eq_refl _ _ eq_refl E1 E2).
  - repeat constructor; lia.
  - lia.
Defined.

Lemma new_anonymous_correct_witness :
  exists st', new_anonymous true (Some 0x6000) 0x3000 example_vm = Ret (Ok 0x6000, st') /\
    vm_inv st'.
Proof.
  destruct (new_anonymous_correct example_vm true 0x6000 0x3000)
    as (st' & E & Hi & _); [apply example_vm_inv|reflexivity|lia|]. exists st'. split; [exact E|exact Hi].
Defined.
