(* ===== verification/PageTable.v ===== *)
(** * kernel/src/arch/x64/vmspace.rs: x86-64 page tables

    Page tables live in physical memory and are edited through the direct
    map.  The file models the code, states what the processor's page walk does
    with the tables, and shows that [map] adds one translation and changes no
    other. *)

From S2P Require Import Prelude Bytes Alignment Api ArrayVec Bump Machine Memory.

Definition ENTRIES_PER_TABLE : Z := 512.
Definition PTE_V : Z := Z.shiftl 1 0.
Definition PTE_W : Z := Z.shiftl 1 1.
Definition PTE_U : Z := Z.shiftl 1 2.
Definition PTE_HUGE : Z := Z.shiftl 1 7.

Definition is_present (pte : Z) : bool := negb (Z.land pte PTE_V =? 0).
Definition is_huge (pte : Z) : bool := negb (Z.land pte PTE_HUGE =? 0).
Definition pte_paddr (pte : Z) : Z := Z.land pte 0x000ffffffffff000.

Definition pml4_index (vaddr : Z) : Z := Z.land (Z.shiftr vaddr 39) 0x1ff.
Definition pdpt_index (vaddr : Z) : Z := Z.land (Z.shiftr vaddr 30) 0x1ff.
Definition pdt_index (vaddr : Z) : Z := Z.land (Z.shiftr vaddr 21) 0x1ff.
Definition pt_index (vaddr : Z) : Z := Z.land (Z.shiftr vaddr 12) 0x1ff.

(** [arch::VmSpace]; [pml4] is the field of its [Mutable]. *)
Record ArchVmSpace : Set := mkArchVmSpace {
  pml4 : Z;
  cr3 : Z
}.

Section PageTableOps.
Context {P : Profile} {Mc : Type} `{Machine Mc}.

Definition Pte_new (paddr flags : Z) : outcome Z :=
  let* aligned := (if debug_assertions then PAddr_is_aligned paddr 4096 else Ret true) in
  let* _ := debug_assert aligned in
  Ret (Z.lor paddr flags).

(** [BOOT_PDPT], which maps the first 4 GiB with giga pages; evaluated at
    compile time. *)
Definition boot_pdpt_entry (i : Z) : outcome Z :=
  if i <? DIRECT_MAP_SIZE / GIGA_PAGE_SIZE
  then Pte_new (i * GIGA_PAGE_SIZE) (Z.lor (Z.lor PTE_V PTE_W) PTE_HUGE)
  else Ret 0.

(** A [&mut Table] is the kernel address of the table. *)
Definition read_entry (table index : Z) : M Mc Z := vread64 (table + 8 * index).
Definition write_entry (table index pte : Z) : M Mc unit := vwrite64 (table + 8 * index) pte.

Definition paddr_to_table_mut (paddr : Z) : Z := paddr2vaddr paddr.

Definition alloc_table : M Mc (result ErrorCode Z) :=
  do* o := page_alloc MIN_PAGE_SIZE Zeroed in
  do? paddr := ret (ok_or o OUT_OF_MEMORY) in
  ret (Ok paddr).

Definition ensure_next_table (table index : Z) : M Mc (result ErrorCode Z) :=
  do* entry := read_entry table index in
  do? next_table_paddr :=
    (if negb (is_present entry) then
       do? paddr := alloc_table in
       do* pte := lift (Pte_new paddr (Z.lor (Z.lor PTE_V PTE_W) PTE_U)) in
       do* _ := write_entry table index pte in
       ret (Ok paddr)
     else if is_huge entry then ret (Err UNSUPPORTED)
     else ret (Ok (pte_paddr entry))) in
  ret (Ok (paddr_to_table_mut next_table_paddr)).

(** [boot_pdpt] is the address of the static [BOOT_PDPT]. *)
Definition arch_vmspace_new (boot_pdpt : Z) : M Mc (result ErrorCode ArchVmSpace) :=
  let pdpt_paddr := vaddr2paddr boot_pdpt in
  do* o := page_alloc 4096 Zeroed in
  do? pml4_paddr := ret (ok_or o OUT_OF_MEMORY) in
  let pml4_vaddr := paddr2vaddr pml4_paddr in
  do* pte := lift (Pte_new pdpt_paddr PTE_V) in
  do* _ := write_entry pml4_vaddr 256 pte in
  ret (Ok (mkArchVmSpace pml4_vaddr pml4_paddr)).

(** [switch] reads CR3 and writes it only when it differs; the result is the
    new value of CR3 and whether it was written. *)
Definition arch_switch (self : ArchVmSpace) (current_cr3 : Z) : Z * bool :=
  if current_cr3 =? cr3 self then (current_cr3, false) else (cr3 self, true).

Definition arch_map (self : ArchVmSpace) (uaddr paddr n attrs : Z) : M Mc (result ErrorCode unit) :=
  do* a1 := lift (is_aligned uaddr MIN_PAGE_SIZE) in
  do* a2 := lift (if a1 then PAddr_is_aligned paddr MIN_PAGE_SIZE else Ret false) in
  do* a3 := lift (if a2 then is_aligned n MIN_PAGE_SIZE else Ret false) in
  if negb a3 then ret (Err INVALID_ARG)
  else if KERNEL_BASE <=? uaddr then ret (Err NOT_ALLOWED)
  else
    do? pdpt := ensure_next_table (pml4 self) (pml4_index uaddr) in
    do? pdt := ensure_next_table pdpt (pdpt_index uaddr) in
    do? pt := ensure_next_table pdt (pdt_index uaddr) in
    do* entry := read_entry pt (pt_index uaddr) in
    if is_present entry then ret (Err ALREADY_EXISTS)
    else
      do* pte := lift (Pte_new paddr (Z.lor (Z.lor PTE_V PTE_U) (attrs_as_raw attrs))) in
      do* _ := write_entry pt (pt_index uaddr) pte in
      ret (Ok tt).

End PageTableOps.

(** ** What the processor sees

    The four-level walk of 64-bit paging, by physical addresses.  A present
    entry with bit 7 set ends the walk at the second level (1 GiB pages) or the third
    (2 MiB pages). *)

(** The entry at [index] of the table at physical address [table]. *)
Definition entry_at (m : mem) (table index : Z) : Z := le_val (mem_read m (table + 8 * index) 8).

Definition has_flag (pte flag : Z) : bool := negb (Z.land pte flag =? 0).

(** The result of a translation: the physical address, and whether user code
    may access and write it (the conjunction over the levels). *)
Record Translation : Set := mkTranslation { tr_paddr : Z; tr_user : bool; tr_write : bool }.

Definition restrict (pte : Z) (t : Translation) : Translation :=
  mkTranslation (tr_paddr t) (tr_user t && has_flag pte PTE_U) (tr_write t && has_flag pte PTE_W).

(** Walk the tables for the indices [idxs]; [shift] is the number of address
    bits below the index at hand, [large] whether a large page may end the
    walk at this level. *)
Fixpoint walk (m : mem) (table : Z) (idxs : list (Z * Z * bool)) (vaddr : Z) : option Translation :=
  match idxs with
  | [] => None
  | (index, shift, large) :: rest =>
      let pte := entry_at m table index in
      if negb (is_present pte) then None
      else match rest with
           | [] => Some (restrict pte (mkTranslation (pte_paddr pte + vaddr mod 2 ^ shift) true true))
           | _ =>
               if large && is_huge pte
               then Some (restrict pte (mkTranslation
                      (pte_paddr pte - pte_paddr pte mod 2 ^ shift + vaddr mod 2 ^ shift) true true))
               else restrict pte <$> walk m (pte_paddr pte) rest vaddr
           end
  end.

Definition levels (vaddr : Z) : list (Z * Z * bool) :=
  [(pml4_index vaddr, 39, false); (pdpt_index vaddr, 30, true);
   (pdt_index vaddr, 21, true); (pt_index vaddr, 12, false)].

Definition translate (m : mem) (root vaddr : Z) : option Translation := walk m root (levels vaddr) vaddr.

(** ** The tree of tables *)

(** The table reached by following [path] from the table at [t]. *)
Definition next_table (m : mem) (t i : Z) : option Z :=
  if is_present (entry_at m t i) then Some (pte_paddr (entry_at m t i)) else None.

Fixpoint table_at (m : mem) (t : Z) (path : list Z) : option Z :=
  match path with
  | [] => Some t
  | i :: r => t' ← next_table m t i; table_at m t' r
  end.

(** The present entry of the last level behind [path ++ [i]]. *)
Definition leaf (m : mem) (root : Z) (path : list Z) (i : Z) : option Z :=
  t ← table_at m root path;
  if is_present (entry_at m t i) then Some (entry_at m t i) else None.

(** Indices of the lower half of the address space. *)
Definition user_path (path : list Z) : Prop :=
  Forall (fun i => 0 <= i < 512) path /\ match path with i :: _ => i < 256 | [] => True end.

Definition path_of (uaddr : Z) : list Z := [pml4_index uaddr; pdpt_index uaddr; pdt_index uaddr].

(** A page frame in use. *)
Definition frame (av : Z -> Prop) (t : Z) : Prop :=
  t mod MIN_PAGE_SIZE = 0 /\ 0 <= t /\ t + MIN_PAGE_SIZE <= DIRECT_MAP_SIZE /\
  forall x, in_block t MIN_PAGE_SIZE x -> ~ av x.

(** An entry that leads to another table grants everything. *)
Definition inner_ok (pte : Z) : Prop :=
  is_huge pte = false /\ has_flag pte PTE_U = true /\ has_flag pte PTE_W = true.

(** [root] is a PML4 made by [arch_vmspace_new] and edited by [arch_map] only;
    [bp] is the frame of [BOOT_PDPT]. *)
Record pt_inv (av : Z -> Prop) (m : mem) (root bp : Z) : Prop := mkPtInv {
  pt_frame : forall path t, user_path path -> (length path <= 3)%nat ->
    table_at m root path = Some t -> frame av t /\ t <> bp;
  pt_inj : forall p q t, user_path p -> user_path q -> (length p <= 3)%nat -> (length q <= 3)%nat ->
    table_at m root p = Some t -> table_at m root q = Some t -> p = q;
  pt_inner : forall path t i, user_path (path ++ [i]) -> (length path < 3)%nat ->
    table_at m root path = Some t -> is_present (entry_at m t i) = true -> inner_ok (entry_at m t i);
  pt_kernel : entry_at m root 256 = Z.lor bp PTE_V;
  pt_boot : frame av bp;
  pt_giga : forall i, 0 <= i < 4 ->
    entry_at m bp i = Z.lor (i * GIGA_PAGE_SIZE) (Z.lor (Z.lor PTE_V PTE_W) PTE_HUGE)
}.

(** The memory of the page tables below [root]. *)
Definition in_tables (m : mem) (root x : Z) : Prop :=
  exists path t, user_path path /\ (length path <= 3)%nat /\
    table_at m root path = Some t /\ in_block t MIN_PAGE_SIZE x.

(** * Lemmas *)

(** ** Entries *)

Lemma is_present_bit x : is_present x = Z.testbit x 0.
Proof. by apply (bit_test x 0). Qed.

Lemma is_huge_bit x : is_huge x = Z.testbit x 7.
Proof. by apply (bit_test x 7). Qed.

Lemma has_flag_bit x k : 0 <= k -> has_flag x (Z.shiftl 1 k) = Z.testbit x k.
Proof. apply bit_test. Qed.

(** The bits of an entry: the flags below bit 12, the address above. *)
Lemma pte_flag p f i :
  p mod MIN_PAGE_SIZE = 0 -> 0 <= i < 12 -> Z.testbit (Z.lor p f) i = Z.testbit f i.
Proof. intros Hp Hi. by rewrite Z.lor_spec, (multiple_low_bits 12 p i Hp Hi). Qed.

Lemma pte_paddr_lor p f :
  p mod MIN_PAGE_SIZE = 0 -> 0 <= p < 2 ^ 52 -> 0 <= f < MIN_PAGE_SIZE -> pte_paddr (Z.lor p f) = p.
Proof.
  intros Hp Hb Hf. unfold pte_paddr. change 0x000ffffffffff000 with (Z.shiftl (Z.ones 40) 12).
  apply Z.bits_inj'. intros i Hi. rewrite Z.land_spec, Z.lor_spec, Z.shiftl_spec by lia.
  destruct (Z.ltb_spec i 12).
  { rewrite (Z.testbit_neg_r _ (i - 12)), andb_false_r by lia.
    by rewrite (multiple_low_bits 12 p i Hp) by lia. }
  rewrite (small_high_bits 12 f i) by (unfold MIN_PAGE_SIZE in *; lia). rewrite orb_false_r.
  destruct (Z.ltb_spec i 52); [by rewrite Z.ones_spec_low, andb_true_r by lia|].
  by rewrite (small_high_bits 52 p i) by lia.
Qed.

Lemma pte_bound p f :
  0 <= p < 2 ^ 52 -> 0 <= f < MIN_PAGE_SIZE -> 0 <= Z.lor p f < 2 ^ 64.
Proof.
  intros Hp Hf. split; [apply Z.lor_nonneg; lia|].
  assert (Z.lor p f = Z.lor p f mod 2 ^ 52) as ->; [|pose proof (Z.mod_pos_bound (Z.lor p f) (2 ^ 52)); lia].
  apply Z.bits_inj'. intros i Hi. destruct (Z.ltb_spec i 52); [by rewrite Z.mod_pow2_bits_low|].
  rewrite Z.mod_pow2_bits_high, Z.lor_spec by lia. unfold MIN_PAGE_SIZE in *.
  by rewrite (small_high_bits 52 p i), (small_high_bits 12 f i) by lia.
Qed.

Lemma Pte_new_run `{P : Profile} p f : p mod MIN_PAGE_SIZE = 0 -> Pte_new p f = Ret (Z.lor p f).
Proof.
  intros Hp. unfold Pte_new, PAddr_is_aligned. unfold MIN_PAGE_SIZE in *. rewrite is_aligned_page, Hp.
  destruct debug_assertions; simpl; by rewrite debug_assert_ok.
Qed.

(** ** Reading and writing entries *)

Lemma entry_at_ext m m' t i :
  0 <= i < 512 -> (forall x, in_block t MIN_PAGE_SIZE x -> m' x = m x) -> entry_at m' t i = entry_at m t i.
Proof.
  intros Hi Hx. unfold entry_at. f_equal. apply mem_read_ext. intros x Hb. apply Hx.
  unfold in_block, MIN_PAGE_SIZE in *. lia.
Qed.

Lemma entry_at_zero m t i :
  0 <= i < 512 -> (forall x, in_block t MIN_PAGE_SIZE x -> m x = 0) -> entry_at m t i = 0.
Proof.
  intros Hi Hx. unfold entry_at. rewrite mem_read_zero; [done|]. intros x Hb. apply Hx.
  unfold in_block, MIN_PAGE_SIZE in *. lia.
Qed.

Lemma entry_at_write m t i v t' j :
  t mod MIN_PAGE_SIZE = 0 -> t' mod MIN_PAGE_SIZE = 0 -> 0 <= i < 512 -> 0 <= j < 512 ->
  0 <= v < 2 ^ 64 ->
  entry_at (mem_write m (t + 8 * i) (le_bytes 8 v)) t' j =
  if decide (t' = t /\ j = i) then v else entry_at m t' j.
Proof.
  intros Ht Ht' Hi Hj Hv. unfold entry_at. destruct (decide _) as [[-> ->]|Hne].
  - rewrite mem_read_write_same by (by rewrite length_le_bytes). by apply le_val_le_bytes_small.
  - rewrite mem_read_write_disjoint; [done|]. rewrite length_le_bytes.
    unfold MIN_PAGE_SIZE in *. apply not_and_r in Hne. destruct Hne; dlia.
Qed.

Section EntryAccess.
Context {Mc : Type} `{MachineLaws Mc}.
Implicit Types s : Mc.

Lemma read_entry_run s t i :
  frame (avail s) t -> 0 <= i < 512 ->
  read_entry (paddr2vaddr t) i s = Ret (entry_at (ram s) t i, s).
Proof.
  intros (_ & ? & ? & _) Hi. unfold read_entry, vread64.
  rewrite (bind_run _ _ s (mem_read (ram s) (t + 8 * i) 8) s); [done|].
  apply vread_run; [apply direct_map_small|..]; unfold MIN_PAGE_SIZE in *; lia.
Qed.

Lemma write_entry_run s t i v :
  frame (avail s) t -> 0 <= i < 512 ->
  write_entry (paddr2vaddr t) i v s =
  Ret (tt, set_ram (mem_write (ram s) (t + 8 * i) (le_bytes 8 v)) s).
Proof.
  intros (_ & ? & ? & _) Hi. apply vwrite_run; [apply direct_map_small|..];
    rewrite ?length_le_bytes; unfold MIN_PAGE_SIZE in *; lia.
Qed.

End EntryAccess.

(** ** Paths *)

Lemma table_at_snoc m t path i :
  table_at m t (path ++ [i]) = t' ← table_at m t path; next_table m t' i.
Proof.
  revert t. induction path as [|j path IH]; intros t; simpl.
  - by destruct (next_table m t i).
  - destruct (next_table m t j); simpl; [apply IH|done].
Qed.

Lemma user_path_snoc path i : user_path (path ++ [i]) -> user_path path /\ 0 <= i < 512.
Proof.
  intros [[Hf Hi]%Forall_app Hm]. apply Forall_cons in Hi as [Hi _]. split; [split; [done|]|done].
  by destruct path.
Qed.

(** Tables stay where they are when the entries that lead to them do. *)
Lemma table_at_ext m m' root :
  (forall q t i, user_path (q ++ [i]) -> (length q < 3)%nat -> table_at m root q = Some t ->
     next_table m' t i = next_table m t i) ->
  forall q, user_path q -> (length q <= 3)%nat -> table_at m' root q = table_at m root q.
Proof.
  intros Hn q. induction q as [|i q IH] using rev_ind; intros Hq Hl; [done|].
  rewrite !table_at_snoc. rewrite length_app in Hl; simpl in Hl.
  pose proof (user_path_snoc q i Hq) as [Hq' _]. rewrite IH by (done || lia).
  destruct (table_at m root q) as [t|] eqn:E; simpl; [|done]. apply (Hn q); [done|lia|done].
Qed.

(** A new table [f] is linked at index [i] of the table [t] at [p]. *)
Lemma table_at_link m m' root p t i f :
  user_path (p ++ [i]) -> (length p < 3)%nat ->
  (forall q t', user_path q -> (length q <= 3)%nat -> table_at m root q = Some t' -> t' = t -> q = p) ->
  table_at m root p = Some t -> next_table m t i = None -> next_table m' t i = Some f ->
  (forall q t' j, user_path (q ++ [j]) -> (length q < 3)%nat -> table_at m root q = Some t' ->
     (t', j) <> (t, i) -> next_table m' t' j = next_table m t' j) ->
  (forall j, 0 <= j < 512 -> next_table m' f j = None) ->
  forall q, user_path q -> (length q <= 3)%nat ->
    table_at m' root q = if decide (q = p ++ [i]) then Some f else table_at m root q.
Proof.
  intros Hpi Hlp Hinj Hp Hno Hf Hoth Hz q. induction q as [|j q IH] using rev_ind; intros Hq Hl.
  { rewrite decide_False; [done|]. by destruct p. }
  rewrite !table_at_snoc. rewrite length_app in Hl; simpl in Hl.
  pose proof (user_path_snoc q j Hq) as [Hq' Hj]. rewrite IH by (done || lia).
  destruct (decide (q = p ++ [i])) as [->|Hqp].
  - rewrite decide_False by (intros E; apply (f_equal length) in E; rewrite !length_app in E; simpl in E; lia).
    rewrite table_at_snoc, Hp; simpl. rewrite Hno; simpl. by apply Hz.
  - destruct (decide (q ++ [j] = p ++ [i])) as [[-> ->]%app_inj_tail|Hne].
    + rewrite Hp; simpl. done.
    + destruct (table_at m root q) as [t'|] eqn:E; simpl; [|done].
      apply (Hoth q t' j); [done|lia|done|]. intros [= -> ->]. apply Hne. f_equal.
      apply (Hinj q t); [done|lia|done..].
Qed.

(** ** Linking a new table *)

(** What [ensure_next_table] may do to the tables below [root]. *)
Record pt_grows {Mc} `{Machine Mc} (root : Z) (s s' : Mc) : Prop := mkPtGrows {
  grow_tables : forall q t, user_path q -> (length q <= 3)%nat ->
    table_at (ram s) root q = Some t -> table_at (ram s') root q = Some t;
  grow_leaf : forall q i, user_path (q ++ [i]) -> length q = 3%nat ->
    leaf (ram s') root q i = leaf (ram s) root q i;
  grow_avail : forall x, avail s' x -> avail s x;
  grow_new : forall x, in_tables (ram s') root x -> in_tables (ram s) root x \/ avail s x;
  grow_frame : forall x, ~ avail s x -> ~ in_tables (ram s) root x -> ram s' x = ram s x
}.

Definition INNER_FLAGS : Z := Z.lor (Z.lor PTE_V PTE_W) PTE_U.

Lemma frame_mono (av av' : Z -> Prop) t : (forall x, av' x -> av x) -> frame av t -> frame av' t.
Proof. intros Hav (? & ? & ? & Hn). split_and!; try done. intros x Hx Ha. by eapply Hn; [|apply Hav]. Qed.

Lemma frames_disjoint (av : Z -> Prop) t f x :
  frame av t -> f mod MIN_PAGE_SIZE = 0 -> (forall y, in_block f MIN_PAGE_SIZE y -> av y) ->
  in_block t MIN_PAGE_SIZE x -> ~ in_block f MIN_PAGE_SIZE x.
Proof. intros (_ & _ & _ & Hn) _ Hf Hx Hfx. by eapply Hn, Hf. Qed.

Lemma inner_entry f :
  f mod MIN_PAGE_SIZE = 0 -> 0 <= f -> f + MIN_PAGE_SIZE <= DIRECT_MAP_SIZE ->
  is_present (Z.lor f INNER_FLAGS) = true /\ pte_paddr (Z.lor f INNER_FLAGS) = f /\
  inner_ok (Z.lor f INNER_FLAGS) /\ 0 <= Z.lor f INNER_FLAGS < 2 ^ 64.
Proof.
  intros Hm H0 Hb. assert (0 <= f < 2 ^ 52) by
    (unfold DIRECT_MAP_SIZE, GIGA_PAGE_SIZE, MIN_PAGE_SIZE in *; lia).
  unfold inner_ok, PTE_U, PTE_W. rewrite is_present_bit, is_huge_bit, !has_flag_bit by lia.
  rewrite !pte_flag by (done || lia). split_and!; try done.
  - by apply pte_paddr_lor.
  - by apply pte_bound.
  - by apply pte_bound.
Qed.

Section Link.
Context {Mc : Type} `{MachineLaws Mc}.
Context (root bp : Z) (s s1 : Mc) (p : list Z) (t i f : Z).
Context (Hpt : pt_inv (avail s) (ram s) root bp).
Context (Hpi : user_path (p ++ [i])) (Hlp : (length p < 3)%nat).
Context (Ht : table_at (ram s) root p = Some t) (Hno : is_present (entry_at (ram s) t i) = false).
Context (Hinv : machine_inv s) (Hal : alloc_post MIN_PAGE_SIZE Zeroed s (Some f) s1).

Let s2 : Mc := set_ram (mem_write (ram s1) (t + 8 * i) (le_bytes 8 (Z.lor f INNER_FLAGS))) s1.

Lemma link_frame_t : frame (avail s) t /\ t <> bp.
Proof using All.
  destruct (user_path_snoc p i Hpi) as [Hp _]. by apply (pt_frame _ _ _ _ Hpt p); [|lia|].
Qed.

Lemma link_new : frame (avail s1) f /\ f <> bp /\ (forall x, in_block f MIN_PAGE_SIZE x -> avail s x).
Proof using All.
  pose proof Hal as (Hm & Hav & Hav' & _).
  destruct (alloc_post_bounds s MIN_PAGE_SIZE Zeroed f s1 Hinv) as [? ?]; [done..|].
  split; [unfold frame; split_and!; [done..|]|split; [|done]].
  - intros x Hx Ha. by apply Hav' in Ha as [_ ?].
  - intros ->. destruct (pt_boot _ _ _ _ Hpt) as (_ & _ & _ & Hn).
    apply (Hn bp); [unfold in_block, MIN_PAGE_SIZE; lia|]. apply Hav. unfold in_block, MIN_PAGE_SIZE; lia.
Qed.

(** Entries of tables in use. *)
Lemma link_entry t' j :
  frame (avail s) t' -> 0 <= j < 512 ->
  entry_at (ram s2) t' j = if decide (t' = t /\ j = i) then Z.lor f INNER_FLAGS else entry_at (ram s) t' j.
Proof using All.
  intros Hf Hj. destruct link_frame_t as [Hft _]. destruct link_new as (Hf1 & _ & Hav).
  destruct (user_path_snoc p i Hpi) as [_ Hi]. pose proof Hf1 as (? & ? & ? & _).
  destruct (inner_entry f) as (_ & _ & _ & Hb); [done..|].
  unfold s2. rewrite ram_set_ram, entry_at_write; [|apply Hft|apply Hf|done..].
  destruct (decide _); [done|]. apply entry_at_ext; [done|]. intros x Hx.
  destruct Hal as (_ & _ & _ & Hram & _). apply Hram. by apply (frames_disjoint (avail s) t').
Qed.

Lemma link_entry_new j : 0 <= j < 512 -> entry_at (ram s2) f j = 0.
Proof using All.
  intros Hj. destruct link_frame_t as [Hft _]. destruct link_new as (Hf1 & _ & Hav).
  destruct (user_path_snoc p i Hpi) as [_ Hi]. pose proof Hf1 as (? & ? & ? & _).
  destruct (inner_entry f) as (_ & _ & _ & Hb); [done..|].
  unfold s2. rewrite ram_set_ram, entry_at_write; [|apply Hft|done..].
  rewrite decide_False.
  - apply entry_at_zero; [done|]. by apply Hal.
  - intros [-> _]. destruct Hft as (_ & _ & _ & Hn).
    apply (Hn t); [|apply Hav]; unfold in_block, MIN_PAGE_SIZE; lia.
Qed.

Lemma link_tables q : user_path q -> (length q <= 3)%nat ->
  table_at (ram s2) root q = if decide (q = p ++ [i]) then Some f else table_at (ram s) root q.
Proof using All.
  destruct link_frame_t as [Hft _]. destruct link_new as (Hf1 & _ & Hav).
  destruct (user_path_snoc p i Hpi) as [Hp Hi]. pose proof Hf1 as (? & ? & ? & _).
  destruct (inner_entry f) as (Hpr & Hpa & _); [done..|].
  apply table_at_link with (t := t); try done.
  - intros q' t' Hq' Hl' Hq -> . by eapply (pt_inj _ _ _ _ Hpt); eauto with lia.
  - unfold next_table. by rewrite Hno.
  - unfold next_table. rewrite link_entry by done. by rewrite decide_True, Hpr, Hpa.
  - intros q' t' j Hq' Hl' Htq Hne. destruct (user_path_snoc q' j Hq') as [Hq'' Hj].
    unfold next_table. rewrite link_entry; [|by apply (pt_frame _ _ _ _ Hpt q'); [|lia|]|done].
    rewrite decide_False; [done|]. intros [-> ->]. done.
  - intros j Hj. unfold next_table. by rewrite link_entry_new.
Qed.

Lemma link_avail x : avail s2 x -> avail s x /\ ~ in_block f MIN_PAGE_SIZE x.
Proof using All. unfold s2. rewrite avail_set_ram. apply Hal. Qed.

(** A table of the new tree: the new one, or one of the old tree. *)
Lemma link_cases q t' : user_path q -> (length q <= 3)%nat -> table_at (ram s2) root q = Some t' ->
  q = p ++ [i] /\ t' = f \/
  q <> p ++ [i] /\ table_at (ram s) root q = Some t' /\ frame (avail s) t' /\ t' <> bp /\ t' <> f.
Proof using All.
  intros Hq Hl. rewrite link_tables by done. destruct (decide _) as [->|Hne]; [intros [= ->]; by left|].
  intros Hq'. right. destruct (pt_frame _ _ _ _ Hpt q t') as [Hf Hb]; [done..|]. split_and!; try done.
  intros ->. destruct link_new as (_ & _ & Hav). destruct Hf as (_ & _ & _ & Hn).
  apply (Hn f); [|apply Hav]; unfold in_block, MIN_PAGE_SIZE; lia.
Qed.

Lemma link_pt_inv : pt_inv (avail s2) (ram s2) root bp.
Proof using All.
  destruct link_new as (Hf1 & Hfb & Hav). pose proof Hf1 as (Hfa & Hf0 & Hfd & _).
  destruct (inner_entry f) as (_ & _ & Hio & _); [done..|].
  assert (forall t', frame (avail s) t' -> frame (avail s2) t') as Hmono.
  { intros t'. apply frame_mono. intros x Hx. by apply link_avail. }
  assert (frame (avail s2) f) as Hff.
  { split_and!; [done..|]. intros x Hx Ha%link_avail. tauto. }
  pose proof (pt_boot _ _ _ _ Hpt) as Hbp. destruct link_frame_t as [_ Htb].
  destruct (user_path_snoc p i Hpi) as [Hp Hi]. constructor.
  - intros q t' Hq Hl [[-> ->]|(_ & _ & ? & ? & _)]%link_cases; auto.
  - intros q1 q2 t' H1 H2 L1 L2 C1%link_cases C2%link_cases; [|done..].
    destruct C1 as [[-> ->]|(_ & C1 & _ & _ & ?)], C2 as [[-> ?]|(_ & C2 & _ & _ & ?)]; try done.
    by eapply (pt_inj _ _ _ _ Hpt).
  - intros q t' j Hq Hl Hq' Hpr. destruct (user_path_snoc q j Hq) as [Hq1 Hj].
    apply link_cases in Hq' as [[-> ->]|(_ & Hq' & Hf & _)]; [| |done|lia].
    + rewrite link_entry_new in Hpr by done. discriminate.
    + rewrite link_entry in * by done. destruct (decide _) as [[-> ->]|]; [done|].
      by apply (pt_inner _ _ _ _ Hpt q).
  - destruct (pt_frame _ _ _ _ Hpt [] root) as [Hr _]; [done|simpl; lia|done|].
    rewrite link_entry, decide_False; [apply (pt_kernel _ _ _ _ Hpt)| |done|lia].
    intros [Hrt H256]. assert (p = []) as Hp0.
    { apply (pt_inj _ _ _ _ Hpt p [] t); simpl; congruence || done || lia. }
    destruct Hpi as [_ Hx]. rewrite Hp0 in Hx. simpl in Hx. lia.
  - auto.
  - intros j Hj. rewrite link_entry, decide_False; [by apply (pt_giga _ _ _ _ Hpt)| |done|lia].
    by intros [<- _].
Qed.

Lemma link_leaf q j : user_path (q ++ [j]) -> length q = 3%nat ->
  leaf (ram s2) root q j = leaf (ram s) root q j.
Proof using All.
  intros Hq Hl. destruct (user_path_snoc q j Hq) as [Hq' Hj]. unfold leaf.
  rewrite link_tables by (done || lia). destruct (decide (q = p ++ [i])) as [->|Hne]; simpl.
  - rewrite link_entry_new, table_at_snoc, Ht by done; simpl. unfold next_table. by rewrite Hno.
  - destruct (table_at (ram s) root q) as [t'|] eqn:E; simpl; [|done].
    rewrite link_entry; [|by apply (pt_frame _ _ _ _ Hpt q); [|lia|]|done].
    rewrite decide_False; [done|]. intros [-> ->].
    destruct (user_path_snoc p i Hpi) as [Hp _].
    assert (q = p) as -> by (apply (pt_inj _ _ _ _ Hpt q p t); done || lia). lia.
Qed.

Lemma link_grows : pt_grows root s s2.
Proof using All.
  destruct (user_path_snoc p i Hpi) as [Hp Hi]. constructor.
  - intros q t' Hq Hl Hq'. rewrite link_tables by done. destruct (decide _) as [->|]; [|done].
    rewrite table_at_snoc, Ht in Hq'; simpl in Hq'. unfold next_table in Hq'. by rewrite Hno in Hq'.
  - apply link_leaf.
  - intros x Hx. by apply link_avail.
  - intros x (q & t' & Hq & Hl & [[-> ->]|(_ & Hq' & _)]%link_cases & Hx); [|left|done..].
    + right. by apply link_new.
    + by exists q, t'.
  - intros x Ha Hnt. unfold s2. rewrite ram_set_ram, mem_write_out.
    + destruct Hal as (_ & Hav & _ & Hram & _). apply Hram. intros Hx. by apply Ha, Hav.
    + rewrite length_le_bytes. destruct (decide (in_block t MIN_PAGE_SIZE x)) as [Hx|Hx].
      * destruct Hnt. exists p, t. split_and!; [done|lia|done..].
      * unfold in_block, MIN_PAGE_SIZE in Hx. lia.
Qed.

End Link.

Section EnsureTable.
Context {P : Profile} {Mc : Type} `{MachineLaws Mc}.

#[global] Instance pt_grows_preorder root : PreOrder (pt_grows (Mc := Mc) root).
Proof.
  split.
  - intros s. constructor; try done. by left.
  - intros s1 s2 s3 [A1 A2 A3 A4 A5] [B1 B2 B3 B4 B5]. constructor; [auto|..].
    + intros q i Hq Hl. by rewrite B2, A2.
    + auto.
    + intros x [Hx|Hx]%B4; [by apply A4|right; auto].
    + intros x Ha Ht. rewrite B5; [by apply A5|auto|]. by intros [?|?]%A4.
Qed.

Definition pt_ok (root bp : Z) (s : Mc) : Prop :=
  machine_inv s /\ pt_inv (avail s) (ram s) root bp.

Lemma alloc_table_run (s : Mc) r s1 :
  page_alloc MIN_PAGE_SIZE Zeroed s = Ret (r, s1) -> alloc_table s = Ret (ok_or r OUT_OF_MEMORY, s1).
Proof. intros E. unfold alloc_table. rewrite (bind_run _ _ _ _ _ E). by destruct r. Qed.

Lemma ensure_next_table_spec root bp s p t i :
  pt_ok root bp s -> user_path (p ++ [i]) -> (length p < 3)%nat -> table_at (ram s) root p = Some t ->
  exists r s', ensure_next_table (paddr2vaddr t) i s = Ret (r, s') /\ pt_ok root bp s' /\
    pt_grows root s s' /\
    match r with
    | Ok v => exists t', v = paddr2vaddr t' /\ table_at (ram s') root (p ++ [i]) = Some t'
    | Err e => e = OUT_OF_MEMORY /\ s' = s
    end.
Proof.
  intros [Hm Hpt] Hpi Hl Ht. destruct (user_path_snoc p i Hpi) as [Hp Hi].
  destruct (pt_frame _ _ _ _ Hpt p t) as [Hf _]; [done|lia|done|].
  unfold ensure_next_table. rewrite (bind_run _ _ _ _ _ (read_entry_run s t i Hf Hi)).
  destruct (is_present (entry_at (ram s) t i)) eqn:Hpr; cbn [negb].
  - destruct (pt_inner _ _ _ _ Hpt p t i) as (Hh & _); [done..|]. rewrite Hh.
    eexists _, s. split; [done|]. split; [done|]. split; [done|]. eexists. split; [done|].
    rewrite table_at_snoc, Ht; simpl. unfold next_table. by rewrite Hpr.
  - destruct (page_alloc_spec s MIN_PAGE_SIZE Zeroed) as (r & s1 & E & Hm1 & Hal); [done..|].
    pose proof (alloc_table_run s r s1 E) as Ea. destruct r as [f|]; cbn [ok_or] in Ea.
    2: { simpl in Hal. subst s1. eexists (Err OUT_OF_MEMORY), s. split; [|by split; [|split]].
         erewrite bindr_err; [done|]. by rewrite (bindr_err _ _ _ _ _ Ea). }
    pose proof Hal as (Hfa & _).
    destruct (link_new root bp s s1 p t i f Hpt Hpi Hl Ht Hpr Hm Hal) as (Hf1 & _ & _).
    assert (frame (avail s1) t) as Hft by (eapply frame_mono; [|exact Hf]; intros x Hx; by apply Hal).
    eexists (Ok (paddr2vaddr f)), _. split.
    { erewrite bindr_ok; [done|]. rewrite (bindr_ok _ _ _ _ _ Ea).
      rewrite (bind_lift _ _ _ _ (Pte_new_run f _ Hfa)).
      by rewrite (bind_run _ _ _ _ _ (write_entry_run s1 t i _ Hft Hi)). }
    split; [|split].
    + split; [apply write_inv; [done|apply le_bytes_ok]|]. by eapply link_pt_inv.
    + by eapply link_grows.
    + exists f. split; [done|]. erewrite link_tables by (done || rewrite length_app; simpl; lia).
      by rewrite decide_True.
Qed.

(** ** Writing a leaf entry *)

Section LeafWrite.
Context (root bp : Z) (s : Mc) (p : list Z) (t i pte : Z).
Context (Hok : pt_ok root bp s) (Hpi : user_path (p ++ [i])) (Hlp : length p = 3%nat).
Context (Ht : table_at (ram s) root p = Some t) (Hpte : 0 <= pte < 2 ^ 64).

Let s' : Mc := set_ram (mem_write (ram s) (t + 8 * i) (le_bytes 8 pte)) s.

Lemma leaf_frame q t' : user_path q -> (length q <= 3)%nat -> table_at (ram s) root q = Some t' ->
  frame (avail s) t' /\ t' <> bp.
Proof using Hok. destruct Hok as [_ Hpt]. apply (pt_frame _ _ _ _ Hpt). Qed.

Lemma leaf_entry t' j : t' mod MIN_PAGE_SIZE = 0 -> 0 <= j < 512 ->
  entry_at (ram s') t' j = if decide (t' = t /\ j = i) then pte else entry_at (ram s) t' j.
Proof using All.
  intros Ht' Hj. destruct (user_path_snoc p i Hpi) as [Hp Hi].
  destruct (leaf_frame p t) as [(? & _) _]; [done|lia|done|].
  unfold s'. rewrite ram_set_ram. by apply entry_at_write.
Qed.

(** Inner tables are not the table written to. *)
Lemma leaf_inner_ne q t' : user_path q -> (length q < 3)%nat -> table_at (ram s) root q = Some t' -> t' <> t.
Proof using All.
  intros Hq Hl Hq' ->. destruct (user_path_snoc p i Hpi) as [Hp _]. destruct Hok as [_ Hpt].
  assert (q = p) as -> by (apply (pt_inj _ _ _ _ Hpt q p t); done || lia). lia.
Qed.

Lemma leaf_tables q : user_path q -> (length q <= 3)%nat -> table_at (ram s') root q = table_at (ram s) root q.
Proof using All.
  apply table_at_ext. intros q' t' j Hq Hl Hq'. destruct (user_path_snoc q' j Hq) as [Hq1 Hj].
  destruct (leaf_frame q' t') as [(? & _) _]; [done|lia|done|]. unfold next_table.
  rewrite leaf_entry by done. rewrite decide_False; [done|]. intros [-> _].
  by eapply leaf_inner_ne.
Qed.

Lemma leaf_pt_ok : pt_ok root bp s'.
Proof using All.
  pose proof Hok as [Hm Hpt]. split; [apply write_inv; [done|apply le_bytes_ok]|].
  assert (forall t', frame (avail s) t' -> frame (avail s') t') as Hmono.
  { intros t'. apply frame_mono. intros x Hx. unfold s' in Hx. by rewrite avail_set_ram in Hx. }
  destruct (user_path_snoc p i Hpi) as [Hp Hi].
  destruct (leaf_frame p t) as [_ Htb]; [done|lia|done|].
  pose proof (pt_boot _ _ _ _ Hpt) as Hbp. pose proof Hbp as (? & _).
  constructor.
  - intros q t' Hq Hl. rewrite leaf_tables by done. intros Hq'.
    destruct (leaf_frame q t') as [? ?]; auto.
  - intros q1 q2 t' U1 U2 L1 L2. rewrite !leaf_tables by done. by apply (pt_inj _ _ _ _ Hpt).
  - intros q t' j Hq Hl. destruct (user_path_snoc q j Hq) as [Hq1 Hj].
    rewrite leaf_tables by (done || lia). intros Hq'.
    destruct (leaf_frame q t') as [(? & _) _]; [done|lia|done|].
    rewrite leaf_entry, decide_False by (done || intros [-> _]; by eapply leaf_inner_ne).
    by apply (pt_inner _ _ _ _ Hpt q).
  - destruct (leaf_frame [] root) as [(? & _) _]; [done|simpl; lia|done|].
    rewrite leaf_entry, decide_False; [apply (pt_kernel _ _ _ _ Hpt)| |done|lia].
    intros [Hrt _]. apply (leaf_inner_ne [] root); [done|simpl; lia|done|done].
  - auto.
  - intros j Hj. rewrite leaf_entry, decide_False; [by apply (pt_giga _ _ _ _ Hpt)| |done|lia].
    intros [Hbt _]. done.
Qed.

Lemma leaf_leaf q j : user_path (q ++ [j]) -> length q = 3%nat ->
  leaf (ram s') root q j =
  if decide (q = p /\ j = i) then (if is_present pte then Some pte else None) else leaf (ram s) root q j.
Proof using All.
  intros Hq Hl. destruct (user_path_snoc q j Hq) as [Hq1 Hj]. destruct (user_path_snoc p i Hpi) as [Hp _].
  unfold leaf. rewrite leaf_tables by (done || lia).
  destruct (decide (q = p /\ j = i)) as [[-> ->]|Hne].
  - rewrite Ht; simpl. destruct (leaf_frame p t) as [(? & _) _]; [done|lia|done|].
    by rewrite leaf_entry, decide_True by done.
  - destruct (table_at (ram s) root q) as [t'|] eqn:E; simpl; [|done].
    destruct (leaf_frame q t') as [(? & _) _]; [done|lia|done|].
    rewrite leaf_entry, decide_False; [done| |done..]. intros [-> ->]. apply Hne. split; [|done].
    destruct Hok as [_ Hpt]. apply (pt_inj _ _ _ _ Hpt q p t); done || lia.
Qed.

Lemma leaf_outside x : ~ in_tables (ram s) root x -> ram s' x = ram s x.
Proof using All.
  intros Hx. unfold s'. rewrite ram_set_ram. apply mem_write_out. rewrite length_le_bytes.
  destruct (user_path_snoc p i Hpi) as [Hp Hi].
  destruct (decide (in_block t MIN_PAGE_SIZE x)) as [Hb|Hb].
  - destruct Hx. exists p, t. split_and!; [done|lia|done..].
  - unfold in_block, MIN_PAGE_SIZE in Hb. lia.
Qed.

Lemma leaf_in_tables x : in_tables (ram s') root x <-> in_tables (ram s) root x.
Proof using All.
  unfold in_tables. split; intros (q & t' & Hq & Hl & Hq' & Hx); exists q, t';
    rewrite leaf_tables in * by done; done.
Qed.

End LeafWrite.

(** ** Addresses *)

Definition is_user (va : Z) : Prop := 0 <= va < 2 ^ 47.

Lemma index_div va k : 0 <= k -> Z.land (Z.shiftr va k) 0x1ff = va / 2 ^ k mod 512.
Proof.
  intros Hk. change 0x1ff with (Z.ones 9). by rewrite Z.land_ones, Z.shiftr_div_pow2 by lia.
Qed.

Lemma user_path_of va : is_user va -> user_path (path_of va ++ [pt_index va]).
Proof.
  intros Hu. unfold path_of, pml4_index, pdpt_index, pdt_index, pt_index, is_user in *.
  rewrite !index_div by lia. split; simpl.
  - repeat constructor; apply Z.mod_pos_bound; lia.
  - rewrite Z.mod_small; [|split; [apply Z.div_pos; lia|]]; apply Z.div_lt_upper_bound; lia.
Qed.

(** Two user addresses with the same indices are in the same page. *)
Lemma same_page va va' :
  is_user va -> is_user va' -> path_of va = path_of va' -> pt_index va = pt_index va' ->
  va / MIN_PAGE_SIZE = va' / MIN_PAGE_SIZE.
Proof.
  unfold is_user, path_of, pml4_index, pdpt_index, pdt_index, pt_index, MIN_PAGE_SIZE.
  intros Hu Hu' E1 E2. rewrite !index_div in * by lia. injection E1 as E3 E4 E5. dlia.
Qed.

(** ** Translations *)

Definition leaf_translation (va e : Z) : Translation :=
  mkTranslation (pte_paddr e + va mod MIN_PAGE_SIZE) (has_flag e PTE_U) (has_flag e PTE_W).

Lemma restrict_inner e t : inner_ok e -> restrict e t = t.
Proof. intros (_ & Hu & Hw). unfold restrict. rewrite Hu, Hw, !andb_true_r. by destruct t. Qed.

Lemma walk_cons m t i sh l rest va :
  walk m t ((i, sh, l) :: rest) va =
  let pte := entry_at m t i in
  if negb (is_present pte) then None
  else match rest with
       | [] => Some (restrict pte (mkTranslation (pte_paddr pte + va mod 2 ^ sh) true true))
       | _ =>
           if l && is_huge pte
           then Some (restrict pte (mkTranslation
                  (pte_paddr pte - pte_paddr pte mod 2 ^ sh + va mod 2 ^ sh) true true))
           else restrict pte <$> walk m (pte_paddr pte) rest va
       end.
Proof. done. Qed.

(** One level of the walk of a user address. *)
Lemma walk_inner av m root bp p t i sh l rest va :
  pt_inv av m root bp -> user_path (p ++ [i]) -> (length p < 3)%nat -> table_at m root p = Some t ->
  rest <> [] ->
  walk m t ((i, sh, l) :: rest) va = t' ← next_table m t i; walk m t' rest va.
Proof.
  intros Hpt Hpi Hl Ht Hr. cbn [walk]. unfold next_table.
  destruct (is_present (entry_at m t i)) eqn:Hpr; cbn [negb]; [|done]. simpl.
  pose proof (pt_inner _ _ _ _ Hpt p t i Hpi Hl Ht Hpr) as Hin. pose proof Hin as (Hh & _).
  destruct rest as [|x rest]; [done|]. rewrite Hh, andb_false_r.
  destruct (walk m _ _ va) as [tr|]; simpl; [|done]. by rewrite restrict_inner.
Qed.

#[local] Arguments walk : simpl never.

Lemma translate_user av m root bp va :
  pt_inv av m root bp -> is_user va ->
  translate m root va = leaf_translation va <$> leaf m root (path_of va) (pt_index va).
Proof.
  intros Hpt Hu. pose proof (user_path_of va Hu) as Hp. unfold translate, levels, leaf, path_of in *.
  set (i4 := pml4_index va) in *. set (i3 := pdpt_index va) in *.
  set (i2 := pdt_index va) in *. set (i1 := pt_index va) in *.
  assert (user_path ([i4; i3] ++ [i2])) as U3 by by apply (user_path_snoc _ i1).
  assert (user_path ([i4] ++ [i3])) as U2 by by apply (user_path_snoc [i4; i3] i2).
  assert (user_path ([] ++ [i4])) as U1 by by apply (user_path_snoc [i4] i3).
  rewrite (walk_inner av m root bp [] root) by (done || simpl; lia). simpl.
  destruct (next_table m root i4) as [t3|] eqn:E4; [|done]; simpl.
  change ((i3, 30, true) :: _) with ((i3, 30, true) :: [(i2, 21, true); (i1, 12, false)]).
  rewrite (walk_inner av m root bp [i4] t3); [|done..|simpl; lia|by simpl; rewrite E4|done].
  destruct (next_table m t3 i3) as [t2|] eqn:E3; [|done]; simpl.
  change ((i2, 21, true) :: _) with ((i2, 21, true) :: [(i1, 12, false)]).
  rewrite (walk_inner av m root bp [i4; i3] t2);
    [|done..|simpl; lia|simpl; rewrite E4; simpl; by rewrite E3|done].
  destruct (next_table m t2 i2) as [t1|] eqn:E2; [|done]; simpl.
  unfold walk. by destruct (is_present (entry_at m t1 i1)).
Qed.

(** A giga page of the PDPT [bp] behind an entry of the root that is only
    present. *)
Lemma translate_giga m root bp va i :
  bp mod MIN_PAGE_SIZE = 0 -> 0 <= bp < 2 ^ 52 -> 0 <= i < 4 -> 0 <= va ->
  entry_at m root (pml4_index va) = Z.lor bp PTE_V -> pdpt_index va = i ->
  entry_at m bp i = Z.lor (i * GIGA_PAGE_SIZE) (Z.lor (Z.lor PTE_V PTE_W) PTE_HUGE) ->
  translate m root va = Some (mkTranslation (i * GIGA_PAGE_SIZE + va mod 2 ^ 30) false false).
Proof.
  intros Hba Hb Hi Hva Hroot Hidx Hpd. unfold translate, levels. rewrite Hidx.
  rewrite walk_cons; cbv zeta. rewrite Hroot. rewrite is_present_bit, pte_flag by (done || lia). simpl.
  rewrite pte_paddr_lor by done. rewrite walk_cons; cbv zeta. rewrite Hpd.
  assert ((i * GIGA_PAGE_SIZE) mod MIN_PAGE_SIZE = 0) as Hgm by (unfold GIGA_PAGE_SIZE, MIN_PAGE_SIZE; dlia).
  rewrite is_present_bit, is_huge_bit, (pte_flag _ _ 7), (pte_flag _ _ 0) by (done || lia). simpl.
  rewrite pte_paddr_lor by (done || unfold GIGA_PAGE_SIZE; lia).
  unfold restrict; simpl. unfold PTE_U, PTE_W. rewrite !has_flag_bit by lia.
  rewrite (pte_flag bp _ 2), (pte_flag bp _ 1), (pte_flag (i * _) _ 2) by (done || lia). simpl.
  rewrite andb_false_r. do 2 f_equal. unfold GIGA_PAGE_SIZE. dlia.
Qed.

Lemma translate_kernel av m root bp p :
  pt_inv av m root bp -> 0 <= p < DIRECT_MAP_SIZE ->
  translate m root (KERNEL_BASE + p) = Some (mkTranslation p false false).
Proof.
  intros Hpt Hp. unfold DIRECT_MAP_SIZE, GIGA_PAGE_SIZE in Hp.
  pose proof (pt_boot _ _ _ _ Hpt) as (Hba & Hb0 & Hbd & _).
  rewrite (translate_giga m root bp _ (p / 2 ^ 30)); [|done|unfold DIRECT_MAP_SIZE, GIGA_PAGE_SIZE, MIN_PAGE_SIZE in *; lia|dlia|unfold KERNEL_BASE; lia| | |].
  - do 2 f_equal. unfold KERNEL_BASE, GIGA_PAGE_SIZE. dlia.
  - rewrite <- (pt_kernel _ _ _ _ Hpt). f_equal. unfold pml4_index. rewrite index_div by lia. unfold KERNEL_BASE. dlia.
  - unfold pdpt_index. rewrite index_div by lia. unfold KERNEL_BASE. dlia.
  - apply (pt_giga _ _ _ _ Hpt). dlia.
Qed.

(** ** [map] *)

(** The flags of a user leaf. *)
Lemma attr_flags attrs :
  0 <= attrs < 8 ->
  0 <= Z.lor (Z.lor PTE_V PTE_U) attrs < MIN_PAGE_SIZE /\ Z.testbit (Z.lor (Z.lor PTE_V PTE_U) attrs) 0 = true.
Proof.
  intros. assert (attrs = 0 \/ attrs = 1 \/ attrs = 2 \/ attrs = 3 \/ attrs = 4 \/ attrs = 5 \/
    attrs = 6 \/ attrs = 7) as Ha by lia.
  by destruct Ha as [->|[->|[->|[->|[->|[->|[->| ->]]]]]]].
Qed.

(** What every outcome of [map] guarantees about memory. *)
Record pt_edited (root bp : Z) (s s' : Mc) : Prop := mkPtEdited {
  edit_ok : pt_ok root bp s';
  edit_avail : forall x, avail s' x -> avail s x;
  edit_new : forall x, in_tables (ram s') root x -> in_tables (ram s) root x \/ avail s x;
  edit_frame : forall x, ~ avail s x -> ~ in_tables (ram s) root x -> ram s' x = ram s x
}.

Definition leaves_kept (root : Z) (s s' : Mc) : Prop :=
  forall q i, user_path (q ++ [i]) -> length q = 3%nat -> leaf (ram s') root q i = leaf (ram s) root q i.

Definition map_post (root bp uaddr pte : Z) (s : Mc) (r : result ErrorCode unit) (s' : Mc) : Prop :=
  pt_edited root bp s s' /\
  match r with
  | Ok _ =>
      leaf (ram s) root (path_of uaddr) (pt_index uaddr) = None /\
      forall q i, user_path (q ++ [i]) -> length q = 3%nat ->
        leaf (ram s') root q i =
        if decide (q = path_of uaddr /\ i = pt_index uaddr) then Some pte else leaf (ram s) root q i
  | Err e =>
      leaves_kept root s s' /\
      (e = ALREADY_EXISTS /\ leaf (ram s) root (path_of uaddr) (pt_index uaddr) <> None \/
       e = OUT_OF_MEMORY)
  end.

Lemma grows_edited root bp s s' : pt_ok root bp s' -> pt_grows root s s' -> pt_edited root bp s s'.
Proof. intros Hok []. by constructor. Qed.

Lemma oom_post root bp uaddr pte s s' :
  pt_ok root bp s' -> pt_grows root s s' -> map_post root bp uaddr pte s (Err OUT_OF_MEMORY) s'.
Proof. intros Hok Hg. split; [by apply grows_edited|]. split; [exact (grow_leaf _ _ _ Hg)|by right]. Qed.

(** The last step: the tables exist, the entry is checked and written. *)
Lemma map_last_spec root bp uaddr paddr flags s0 s t :
  is_user uaddr -> pt_ok root bp s -> pt_grows root s0 s ->
  table_at (ram s) root (path_of uaddr) = Some t ->
  paddr mod MIN_PAGE_SIZE = 0 -> 0 <= paddr < 2 ^ 52 -> 0 <= flags < MIN_PAGE_SIZE ->
  Z.testbit flags 0 = true ->
  exists r s',
    (do* entry := read_entry (paddr2vaddr t) (pt_index uaddr) in
     if is_present entry then ret (Err ALREADY_EXISTS)
     else
       do* pte := lift (Pte_new paddr flags) in
       do* _ := write_entry (paddr2vaddr t) (pt_index uaddr) pte in
       ret (Ok tt)) s = Ret (r, s') /\
    map_post root bp uaddr (Z.lor paddr flags) s0 r s'.
Proof.
  intros Hu Hok Hg Ht Hpa Hpb Hf Hf0. pose proof (user_path_of uaddr Hu) as Hup.
  destruct (user_path_snoc _ _ Hup) as [Hp Hi]. pose proof Hok as [_ Hpt].
  destruct (pt_frame _ _ _ _ Hpt (path_of uaddr) t) as [Hft _]; [done|simpl; lia|done|].
  rewrite (bind_run _ _ _ _ _ (read_entry_run s t _ Hft Hi)).
  pose proof (grow_leaf _ _ _ Hg (path_of uaddr) (pt_index uaddr) Hup eq_refl) as Hleaf.
  unfold leaf in Hleaf at 1. rewrite Ht in Hleaf; simpl in Hleaf.
  destruct (is_present (entry_at (ram s) t (pt_index uaddr))) eqn:Hpr.
  { exists (Err ALREADY_EXISTS), s. split; [done|]. split; [by apply grows_edited|].
    split; [exact (grow_leaf _ _ _ Hg)|left]. split; [done|]. by rewrite <- Hleaf. }
  rewrite (bind_lift _ _ _ _ (Pte_new_run paddr flags Hpa)).
  rewrite (bind_run _ _ _ _ _ (write_entry_run s t _ _ Hft Hi)).
  pose proof (pte_bound paddr flags Hpb Hf) as Hb.
  eexists _, _. split; [done|]. split; [|split; [done|]].
  - constructor.
    + by eapply leaf_pt_ok.
    + intros x Hx%avail_set_ram. by apply (grow_avail _ _ _ Hg).
    + intros x Hx. erewrite leaf_in_tables in Hx by done. by apply (grow_new _ _ _ Hg).
    + intros x Ha Hx. erewrite leaf_outside; [by apply (grow_frame _ _ _ Hg)|done..|].
      intros [?|?]%(grow_new _ _ _ Hg); done.
  - intros q i Hq Hl. erewrite leaf_leaf by done. destruct (decide _).
    + by rewrite is_present_bit, pte_flag, Hf0 by (done || lia).
    + by apply (grow_leaf _ _ _ Hg).
Qed.

Lemma arch_map_spec root bp s uaddr paddr n attrs :
  pt_ok root bp s -> is_user uaddr -> uaddr mod MIN_PAGE_SIZE = 0 ->
  paddr mod MIN_PAGE_SIZE = 0 -> 0 <= paddr < 2 ^ 52 -> n mod MIN_PAGE_SIZE = 0 -> 0 <= attrs < 8 ->
  exists r s', arch_map (mkArchVmSpace (paddr2vaddr root) root) uaddr paddr n attrs s = Ret (r, s') /\
    map_post root bp uaddr (Z.lor paddr (Z.lor (Z.lor PTE_V PTE_U) attrs)) s r s'.
Proof.
  intros Hok Hu Hua Hpa Hpb Hn Hat. unfold arch_map, PAddr_is_aligned. change MIN_PAGE_SIZE with 4096 in Hua, Hpa, Hn.
  change MIN_PAGE_SIZE with 4096. rewrite !is_aligned_page, Hua, Hpa, Hn.
  do 3 (erewrite bind_lift by done; cbn [Z.eqb]). cbn [negb].
  rewrite (proj2 (Z.leb_gt _ _)) by (unfold is_user, KERNEL_BASE in *; lia).
  pose proof (user_path_of uaddr Hu) as Hup. unfold path_of in Hup.
  set (i4 := pml4_index uaddr) in *. set (i3 := pdpt_index uaddr) in *. set (i2 := pdt_index uaddr) in *.
  assert (user_path ([i4; i3] ++ [i2])) as U3 by by apply (user_path_snoc _ (pt_index uaddr)).
  assert (user_path ([i4] ++ [i3])) as U2 by by apply (user_path_snoc [i4; i3] i2).
  assert (user_path ([] ++ [i4])) as U1 by by apply (user_path_snoc [i4] i3).
  simpl pml4. destruct (ensure_next_table_spec root bp s [] root i4) as (r & s1 & E1 & Hok1 & Hg1 & Hr);
    [done..|simpl; lia|done|]. destruct r as [v|e].
  2: { destruct Hr as [-> ->]. rewrite (bindr_err _ _ _ _ _ E1). eexists _, _. split; [done|]. by apply oom_post. }
  rewrite (bindr_ok _ _ _ _ _ E1). destruct Hr as (t3 & -> & Ht3).
  destruct (ensure_next_table_spec root bp s1 [i4] t3 i3) as (r & s2 & E2 & Hok2 & Hg2 & Hr);
    [done..|simpl; lia|done|]. assert (pt_grows root s s2) as Hg02 by by etrans. destruct r as [v|e].
  2: { destruct Hr as [-> ->]. rewrite (bindr_err _ _ _ _ _ E2). eexists _, _. split; [done|]. by apply oom_post. }
  rewrite (bindr_ok _ _ _ _ _ E2). destruct Hr as (t2 & -> & Ht2).
  destruct (ensure_next_table_spec root bp s2 [i4; i3] t2 i2) as (r & s3 & E3 & Hok3 & Hg3 & Hr);
    [done..|simpl; lia|done|]. assert (pt_grows root s s3) as Hg03 by by etrans. destruct r as [v|e].
  2: { destruct Hr as [-> ->]. rewrite (bindr_err _ _ _ _ _ E3). eexists _, _. split; [done|]. by apply oom_post. }
  rewrite (bindr_ok _ _ _ _ _ E3). destruct Hr as (t1 & -> & Ht1).
  destruct (attr_flags attrs Hat) as [Hfb Hf0].
  by apply map_last_spec.
Qed.

(** A leaf that [map] wrote, as a translation. *)
Lemma leaf_translation_new va paddr attrs :
  paddr mod MIN_PAGE_SIZE = 0 -> 0 <= paddr < 2 ^ 52 -> 0 <= attrs < 8 ->
  leaf_translation va (Z.lor paddr (Z.lor (Z.lor PTE_V PTE_U) attrs)) =
  mkTranslation (paddr + va mod MIN_PAGE_SIZE) true (attrs_contains attrs ATTR_WRITE).
Proof.
  intros Hpa Hpb Hat. destruct (attr_flags attrs Hat) as [Hfb _]. unfold leaf_translation.
  rewrite pte_paddr_lor by done. unfold PTE_U, PTE_W. rewrite !has_flag_bit by lia.
  rewrite (pte_flag _ _ 2), (pte_flag _ _ 1) by (done || lia). rewrite !Z.lor_spec.
  change (Z.testbit PTE_V 2) with false. change (Z.testbit PTE_V 1) with false.
  change (Z.testbit (Z.shiftl 1 2) 2) with true. change (Z.testbit (Z.shiftl 1 2) 1) with false.
  cbn [orb]. f_equal. unfold attrs_contains, ATTR_WRITE. rewrite Z.shiftl_1_l, land_pow2 by lia.
  by destruct (Z.testbit attrs 1).
Qed.

Lemma page_key_eq va uaddr :
  is_user va -> is_user uaddr ->
  path_of va = path_of uaddr /\ pt_index va = pt_index uaddr <-> va / MIN_PAGE_SIZE = uaddr / MIN_PAGE_SIZE.
Proof.
  intros Hv Hu. split; [intros [? ?]; by apply same_page|].
  unfold is_user, path_of, pml4_index, pdpt_index, pdt_index, pt_index, MIN_PAGE_SIZE in *.
  rewrite !index_div by lia. intros E.
  assert (forall k, 12 <= k -> va / 2 ^ k = uaddr / 2 ^ k) as Hk.
  { intros k Hk. replace k with (12 + (k - 12)) by lia. rewrite Z.pow_add_r by lia.
    rewrite <- !Z.div_div by (try apply Z.pow_nonzero; lia). change (2 ^ 12) with 4096. by rewrite E. }
  by rewrite !Hk by lia.
Qed.

(** ** [new] *)

Section FreshSpace.
Context (bp : Z) (s s1 : Mc) (root : Z).
Context (Hinv : machine_inv s) (Hbp : frame (avail s) bp).
Context (Hgiga : forall i, 0 <= i < 4 ->
  entry_at (ram s) bp i = Z.lor (i * GIGA_PAGE_SIZE) (Z.lor (Z.lor PTE_V PTE_W) PTE_HUGE)).
Context (Hal : alloc_post 4096 Zeroed s (Some root) s1) (Hinv1 : machine_inv s1).

Let s2 : Mc := set_ram (mem_write (ram s1) (root + 8 * 256) (le_bytes 8 (Z.lor bp PTE_V))) s1.

Lemma fresh_root : frame (avail s1) root /\ root <> bp.
Proof using All.
  pose proof Hal as (Hm & Hav & Hav' & _).
  destruct (alloc_post_bounds s 4096 Zeroed root s1 Hinv) as [? ?]; [done..|].
  split; [unfold frame; split_and!; [done..|]|].
  - intros x Hx Ha. by apply Hav' in Ha as [_ ?].
  - intros ->. destruct Hbp as (_ & _ & _ & Hn).
    apply (Hn bp); [|apply Hav]; unfold in_block, MIN_PAGE_SIZE; lia.
Qed.

Lemma fresh_avail x : avail s2 x -> avail s x /\ ~ in_block root MIN_PAGE_SIZE x.
Proof using All. unfold s2. rewrite avail_set_ram. apply Hal. Qed.

Lemma fresh_entry t i :
  t mod MIN_PAGE_SIZE = 0 -> 0 <= i < 512 ->
  entry_at (ram s2) t i = if decide (t = root /\ i = 256) then Z.lor bp PTE_V else entry_at (ram s1) t i.
Proof using All.
  intros Ht Hi. destruct fresh_root as [(? & _) _]. unfold s2. rewrite ram_set_ram.
  apply entry_at_write; [done..|lia|done|]. destruct Hbp as (_ & ? & ? & _).
  apply pte_bound; [|done]. unfold DIRECT_MAP_SIZE, GIGA_PAGE_SIZE, MIN_PAGE_SIZE in *. lia.
Qed.

Lemma fresh_lower i : 0 <= i < 256 -> entry_at (ram s2) root i = 0.
Proof using All.
  intros Hi. destruct fresh_root as [(? & _) _]. rewrite fresh_entry, decide_False by (done || lia).
  apply entry_at_zero; [lia|]. by apply Hal.
Qed.

Lemma fresh_tables path : user_path path -> (length path <= 3)%nat ->
  table_at (ram s2) root path = match path with [] => Some root | _ => None end.
Proof using All.
  intros [Hf Hm] _. destruct path as [|i path]; [done|]. simpl. apply Forall_cons in Hf as [? _].
  unfold next_table. by rewrite fresh_lower by lia.
Qed.

Lemma fresh_pt_ok : pt_ok root bp s2.
Proof using All.
  destruct fresh_root as [Hr Hne]. pose proof Hr as (Hrm & ? & ? & _).
  split; [apply write_inv; [done|apply le_bytes_ok]|].
  assert (frame (avail s2) root) as Hr2.
  { split_and!; [done..|]. intros x Hx Ha%fresh_avail. tauto. }
  constructor.
  - intros path t Hp Hl. rewrite fresh_tables by done. destruct path; [|done]. by intros [= ->].
  - intros p q t Hp Hq Lp Lq. rewrite !fresh_tables by done. by destruct p, q.
  - intros path t i Hp Hl Ht Hpr. pose proof (user_path_snoc path i Hp) as [Hp' _].
    rewrite fresh_tables in Ht by (done || lia). destruct path; [|done]. injection Ht as <-.
    destruct Hp as [Hf Hlt]. simpl in Hf, Hlt. apply Forall_cons in Hf as [? _].
    rewrite fresh_lower in Hpr by lia. discriminate.
  - by rewrite fresh_entry, decide_True by (done || lia).
  - eapply frame_mono; [|exact Hbp]. intros x Hx. by apply fresh_avail.
  - intros i Hi. pose proof Hbp as (? & _). rewrite fresh_entry, decide_False; [|by intros [<- _]|done|lia].
    rewrite (entry_at_ext (ram s)); [by apply Hgiga|lia|]. intros x Hx.
    destruct Hal as (_ & Hav & _ & Hram & _). apply Hram. intros Hb%Hav.
    destruct Hbp as (_ & _ & _ & Hn). by eapply Hn.
Qed.

Lemma fresh_ram x : ~ avail s x -> ram s2 x = ram s x.
Proof using All.
  intros Ha. destruct Hal as (_ & Hav & _ & Hram & _).
  assert (~ in_block root 4096 x) as Hx by (intros Hx; by apply Ha, Hav).
  unfold s2. rewrite ram_set_ram, mem_write_out; [by apply Hram|].
  rewrite length_le_bytes. unfold in_block in Hx. lia.
Qed.

Lemma fresh_in_tables x : in_tables (ram s2) root x -> avail s x.
Proof using All.
  intros (path & t & Hp & Hl & Ht & Hx). rewrite fresh_tables in Ht by done.
  destruct path; [|done]. injection Ht as <-. by destruct Hal as (_ & Hav & _); apply Hav.
Qed.

End FreshSpace.

Lemma arch_vmspace_new_spec bp s :
  machine_inv s -> frame (avail s) bp ->
  (forall i, 0 <= i < 4 ->
     entry_at (ram s) bp i = Z.lor (i * GIGA_PAGE_SIZE) (Z.lor (Z.lor PTE_V PTE_W) PTE_HUGE)) ->
  exists r s', arch_vmspace_new (paddr2vaddr bp) s = Ret (r, s') /\
    match r with
    | Ok sp => exists root, sp = mkArchVmSpace (paddr2vaddr root) root /\ pt_ok root bp s' /\
        (forall path, user_path path -> (length path <= 3)%nat ->
           table_at (ram s') root path = match path with [] => Some root | _ => None end) /\
        (forall x, avail s' x -> avail s x) /\
        (forall x, in_tables (ram s') root x -> avail s x) /\
        (forall x, ~ avail s x -> ram s' x = ram s x)
    | Err e => e = OUT_OF_MEMORY /\ s' = s
    end.
Proof.
  intros Hi Hbp Hg. unfold arch_vmspace_new. pose proof Hbp as (Hbm & ? & ? & _).
  assert (0 <= bp < 2 ^ 47) as Hb47 by (apply direct_map_small; unfold MIN_PAGE_SIZE in *; lia).
  rewrite paddr2vaddr_add, vaddr2paddr_sub by done.
  destruct (page_alloc_spec s 4096 Zeroed) as (r & s1 & E & Hi1 & Hal); [done..|].
  rewrite (bind_run _ _ _ _ _ E). destruct r as [root|].
  2: { simpl in Hal. subst s1. eexists (Err OUT_OF_MEMORY), s. split; [reflexivity|done]. }
  destruct (fresh_root bp s s1 root Hi Hbp Hg Hal Hi1) as [Hr _]. eexists (Ok _), _. split.
  { cbn [ok_or]. unfold bindr at 1. rewrite bind_ret. rewrite (bind_lift _ _ _ _ (Pte_new_run bp _ Hbm)).
    rewrite (bind_run _ _ _ _ _ (write_entry_run s1 root 256 _ Hr ltac:(lia))). reflexivity. }
  exists root. split; [done|]. split; [by apply fresh_pt_ok with (s := s)|]. split_and!.
  - intros. by eapply fresh_tables with (s := s).
  - intros x Hx. by eapply fresh_avail with (bp := bp).
  - intros x Hx. by eapply fresh_in_tables with (bp := bp).
  - intros x Hx. by eapply fresh_ram with (bp := bp).
Qed.

(** * Properties *)

(** C3: [map] of a page adds exactly one translation.  For page tables that
    satisfy the invariant and a page-aligned user address, [map] returns and
    keeps the invariant.  On success the page was not mapped, and the
    processor now translates each of its addresses to the same offset of
    [paddr], for user code, writable exactly when the attributes say so; every
    other user address translates as before.  On failure (the page is mapped,
    or no memory for a table) no translation changes.  The direct map of the
    kernel never changes, and no memory in use outside these tables is
    touched. *)
Theorem arch_map_one_translation (root bp : Z) (s : Mc) (uaddr paddr n attrs : Z) :
  pt_ok root bp s -> is_user uaddr -> uaddr mod MIN_PAGE_SIZE = 0 ->
  paddr mod MIN_PAGE_SIZE = 0 -> 0 <= paddr < 2 ^ 52 -> n mod MIN_PAGE_SIZE = 0 -> 0 <= attrs < 8 ->
  exists r s', arch_map (mkArchVmSpace (paddr2vaddr root) root) uaddr paddr n attrs s = Ret (r, s') /\
    pt_ok root bp s' /\
    (forall va, is_user va ->
       translate (ram s') root va =
       if is_err r || negb (va / MIN_PAGE_SIZE =? uaddr / MIN_PAGE_SIZE) then translate (ram s) root va
       else Some (mkTranslation (paddr + va mod MIN_PAGE_SIZE) true (attrs_contains attrs ATTR_WRITE))) /\
    match r with
    | Ok _ => translate (ram s) root uaddr = None
    | Err e => e = ALREADY_EXISTS /\ translate (ram s) root uaddr <> None \/ e = OUT_OF_MEMORY
    end /\
    (forall p, 0 <= p < DIRECT_MAP_SIZE ->
       translate (ram s') root (KERNEL_BASE + p) = translate (ram s) root (KERNEL_BASE + p)) /\
    (forall x, ~ avail s x -> ~ in_tables (ram s) root x -> ram s' x = ram s x).
Proof.
  intros Hok Hu Hua Hpa Hpb Hn Hat. pose proof Hok as [_ Hpt].
  destruct (arch_map_spec root bp s uaddr paddr n attrs) as (r & s' & E & [Hok' _ _ Hfr] & Hr); [done..|].
  pose proof Hok' as [_ Hpt']. exists r, s'. split; [exact E|]. split; [exact Hok'|].
  rewrite (translate_user _ _ _ _ _ Hpt Hu). split; [|split; [|split; [|exact Hfr]]].
  - intros va Hva. rewrite (translate_user _ _ _ _ _ Hpt' Hva), (translate_user _ _ _ _ _ Hpt Hva).
    pose proof (user_path_of va Hva) as Hp. destruct r as [u|e]; cbn [is_err orb].
    + destruct Hr as [_ Hr]. rewrite (Hr _ _ Hp eq_refl).
      destruct (Z.eqb_spec (va / MIN_PAGE_SIZE) (uaddr / MIN_PAGE_SIZE)) as [Hk|Hk]; cbn [negb].
      * rewrite decide_True by (by apply page_key_eq). cbn. by rewrite leaf_translation_new.
      * rewrite decide_False; [reflexivity|]. by rewrite page_key_eq.
    + destruct Hr as [Hr _]. by rewrite (Hr _ _ Hp eq_refl).
  - destruct r; [by destruct Hr as [-> _]|]. destruct Hr as [_ [[-> Hne]| ->]]; [left|by right].
    split; [reflexivity|]. by destruct (leaf _ _ _ _).
  - intros p Hp. by rewrite (translate_kernel _ _ _ _ _ Hpt' Hp), (translate_kernel _ _ _ _ _ Hpt Hp).
Qed.


(** A new address space maps the kernel and nothing else.  Given the boot
    PDPT in memory, [new] either fails for want of a page and changes nothing,
    or returns tables that satisfy the invariant, in which no user address
    translates, leaving all memory in use alone. *)
Theorem arch_vmspace_new_empty (bp : Z) (s : Mc) :
  machine_inv s -> frame (avail s) bp ->
  (forall i, 0 <= i < 4 ->
     entry_at (ram s) bp i = Z.lor (i * GIGA_PAGE_SIZE) (Z.lor (Z.lor PTE_V PTE_W) PTE_HUGE)) ->
  exists r s', arch_vmspace_new (paddr2vaddr bp) s = Ret (r, s') /\
    match r with
    | Ok sp => pml4 sp = paddr2vaddr (cr3 sp) /\ pt_ok (cr3 sp) bp s' /\
        (forall va, is_user va -> translate (ram s') (cr3 sp) va = None) /\
        (forall x, ~ avail s x -> ram s' x = ram s x)
    | Err e => e = OUT_OF_MEMORY /\ s' = s
    end.
Proof.
  intros Hi Hbp Hg. destruct (arch_vmspace_new_spec bp s Hi Hbp Hg) as (r & s' & E & Hr).
  exists r, s'. split; [exact E|]. destruct r as [sp|]; [|done].
  destruct Hr as (root & -> & Hok & Ht & _ & _ & Hram). split; [reflexivity|]. split; [exact Hok|].
  split; [|exact Hram]. intros va Hva. destruct Hok as [_ Hpt]. simpl.
  rewrite (translate_user _ _ _ _ _ Hpt Hva). unfold leaf.
  destruct (user_path_snoc _ _ (user_path_of va Hva)) as [Hp _].
  by rewrite (Ht _ Hp) by (simpl; lia).
Qed.

(** [map] rejects bad arguments before it touches anything: a misaligned
    address or length gives [INVALID_ARG], a kernel address [NOT_ALLOWED]. *)
Theorem arch_map_rejects (self : ArchVmSpace) (s : Mc) (uaddr paddr n attrs : Z) :
  let aligned := (uaddr mod MIN_PAGE_SIZE =? 0) && (paddr mod MIN_PAGE_SIZE =? 0) &&
                 (n mod MIN_PAGE_SIZE =? 0) in
  aligned = false \/ KERNEL_BASE <= uaddr ->
  arch_map self uaddr paddr n attrs s =
  Ret (Err (if aligned then NOT_ALLOWED else INVALID_ARG), s).
Proof.
  intros aligned Hbad. unfold arch_map, PAddr_is_aligned.
  rewrite (bind_lift _ _ _ (uaddr mod MIN_PAGE_SIZE =? 0)) by apply is_aligned_page.
  rewrite (bind_lift _ _ _ ((uaddr mod MIN_PAGE_SIZE =? 0) && (paddr mod MIN_PAGE_SIZE =? 0))) by
    (destruct (uaddr mod MIN_PAGE_SIZE =? 0); [apply is_aligned_page|done]).
  rewrite (bind_lift _ _ _ aligned) by
    (unfold aligned; destruct ((uaddr mod MIN_PAGE_SIZE =? 0) && (paddr mod MIN_PAGE_SIZE =? 0));
     [apply is_aligned_page|done]).
  destruct aligned; [|done]. cbn [negb]. destruct Hbad as [?|?]; [done|].
  by rewrite (proj2 (Z.leb_le _ _)) by lia.
Qed.

End EnsureTable.

(** ** Witnesses: a machine whose kernel image holds [BOOT_PDPT] at 1 MiB *)

#[local] Existing Instance dev.

(** The entries of [BOOT_PDPT] that are not zero. *)
Definition boot_pdpt_bytes : list Z :=
  concat ((fun i => match boot_pdpt_entry i with Ret v => le_bytes 8 v | _ => [] end) <$> seqZ 0 4).

Definition boot_machine : Phys :=
  mkPhys (mem_write (fun _ => 0) 0x100000 boot_pdpt_bytes) (regions example_phys).

Lemma boot_machine_inv : machine_inv boot_machine.
Proof.
  destruct example_phys_inv as [_ Hr]. constructor; [|exact Hr]. apply mem_ok_write.
  - intros x. unfold is_byte. lia.
  - apply (bool_decide_unpack (bytes_ok boot_pdpt_bytes)). vm_compute. exact I.
Qed.

Lemma boot_pdpt_frame : frame (avail boot_machine) 0x100000.
Proof.
  split_and!; try done. intros x Hx (l & b & Hl & Hb & Hr).
  rewrite (av_rep_inj _ _ _ Hl example_phys_rep) in Hb. apply list_elem_of_singleton in Hb as ->.
  unfold region_has, in_block, MIN_PAGE_SIZE in *. simpl in Hr. lia.
Qed.

Lemma boot_pdpt_giga i : 0 <= i < 4 ->
  entry_at (ram boot_machine) 0x100000 i =
  Z.lor (i * GIGA_PAGE_SIZE) (Z.lor (Z.lor PTE_V PTE_W) PTE_HUGE).
Proof.
  intros Hi. assert (i = 0 \/ i = 1 \/ i = 2 \/ i = 3) as [->|[->|[->| ->]]] by lia;
    vm_compute; reflexivity.
Qed.

Lemma arch_vmspace_new_empty_witness :
  exists sp s', arch_vmspace_new (paddr2vaddr 0x100000) boot_machine = Ret (Ok sp, s') /\
    pml4 sp = paddr2vaddr (cr3 sp) /\ pt_ok (cr3 sp) 0x100000 s' /\
    forall va, is_user va -> translate (ram s') (cr3 sp) va = None.
Proof.
  destruct (observe_run (do* r := arch_vmspace_new (paddr2vaddr 0x100000) in ret (is_err r)) boot_machine false)
    as [t Et]; [vm_compute; reflexivity|].
  destruct (arch_vmspace_new_empty 0x100000 boot_machine boot_machine_inv boot_pdpt_frame boot_pdpt_giga)
    as (r & s' & E & Hr).
  rewrite (bind_run _ _ _ _ _ E) in Et. destruct r as [sp|e]; [|discriminate Et].
  destruct Hr as (Hp & Hok & Htr & _). exists sp, s'. split; [exact E|]. split; [exact Hp|].
  split; [exact Hok|exact Htr].
Defined.

Lemma boot_space :
  exists root s, arch_vmspace_new (paddr2vaddr 0x100000) boot_machine =
    Ret (Ok (mkArchVmSpace (paddr2vaddr root) root), s) /\ pt_ok root 0x100000 s.
Proof.
  destruct (observe_run (do* r := arch_vmspace_new (paddr2vaddr 0x100000) in ret (is_err r)) boot_machine false)
    as [t Et]; [vm_compute; reflexivity|].
  destruct (arch_vmspace_new_spec 0x100000 boot_machine boot_machine_inv boot_pdpt_frame boot_pdpt_giga)
    as (r & s' & E & Hr).
  rewrite (bind_run _ _ _ _ _ E) in Et. destruct r as [sp|e]; [|discriminate Et].
  destruct Hr as (root & -> & Hok & _). exists root, s'. split; [exact E|exact Hok].
Qed.

Lemma arch_map_one_translation_witness :
  exists root s r s', pt_ok root 0x100000 s /\
    arch_map (mkArchVmSpace (paddr2vaddr root) root) 0x400000 0x7000 0x1000 ATTR_READ s = Ret (r, s') /\
    translate (ram s') root 0x400123 =
      if is_err r then translate (ram s) root 0x400123
      else Some (mkTranslation 0x7123 true false).
Proof.
  destruct boot_space as (root & s & _ & Hok).
  destruct (arch_map_one_translation root 0x100000 s 0x400000 0x7000 0x1000 ATTR_READ Hok)
    as (r & s' & E & _ & Ht & _); [split; [lia|reflexivity]|reflexivity|reflexivity|split; [lia|reflexivity]
    |reflexivity|split; [discriminate|reflexivity]|].
  exists root, s, r, s'. split; [exact Hok|]. split; [exact E|].
  rewrite (Ht 0x400123) by (split; [lia|reflexivity]). destruct r; reflexivity.
Defined.


Lemma arch_map_rejects_witness :
  arch_map (mkArchVmSpace (paddr2vaddr 0x7000) 0x7000) KERNEL_BASE 0x8000 0x1000 ATTR_READ boot_machine =
  Ret (Err NOT_ALLOWED, boot_machine).
Proof.
  apply (arch_map_rejects (mkArchVmSpace (paddr2vaddr 0x7000) 0x7000) boot_machine KERNEL_BASE 0x8000 0x1000).
  right. discriminate.
Defined.

(** Map a page at an address between the canonical halves and read entry 4 of
    [BOOT_PDPT] before and after. *)
Definition noncanonical_run : M Phys (Z * result ErrorCode unit * bool) :=
  do* r := arch_vmspace_new (paddr2vaddr 0x100000) in
  match r with
  | Err e => ret (0, Err e, false)
  | Ok sp =>
      do* before := read_entry (paddr2vaddr 0x100000) 4 in
      do* r := arch_map sp 0x800100000000 0x7000 0x1000 ATTR_READ in
      do* after := read_entry (paddr2vaddr 0x100000) 4 in
      ret (before, r, is_present after)
  end.

