(* ===== verification/VmSpace.v ===== *)
(** * kernel/src/vmspace.rs: address spaces

    A [VmSpace] is the architecture's page tables plus the list of mappings,
    sorted by start address.  The state holds the memory areas, the machine
    and all live address spaces, keyed by the address of the object. *)

From S2P Require Import Prelude Bytes Alignment Api ArrayVec Bump Machine Memory VmArea PageTable.

Record Mapping : Set := mkMapping {
  m_start : Z;
  m_end : Z;
  m_vmarea : Z;
  m_attrs : PageAttrs
}.

Definition overlaps_with (self : Mapping) (start end_ : Z) : bool :=
  (start <? m_end self) && (m_start self <? end_).

Record VmSpace : Set := mkVmSpace {
  vs_arch : ArchVmSpace;
  mappings : list Mapping
}.

Record KState (Mc : Type) : Type := mkKState {
  vm : VmState Mc;
  spaces : gmap Z VmSpace
}.
Arguments mkKState {Mc} _ _.
Arguments vm {Mc} _.
Arguments spaces {Mc} _.

(** [slice::partition_point] on a slice that is partitioned by [f], as the
    sorted mappings are: the length of the prefix that satisfies [f]. *)
Fixpoint partition_point {A} (f : A -> bool) (l : list A) : nat :=
  match l with
  | [] => 0
  | x :: r => if f x then S (partition_point f r) else 0
  end.

Section VmSpaceOps.
Context {P : Profile} {Mc : Type} `{Machine Mc}.
Abbreviation KM := (M (KState Mc)).

Definition on_vm {A} (m : M (VmState Mc) A) : KM A :=
  fun k => match m (vm k) with
           | Ret (a, v) => Ret (a, mkKState v (spaces k))
           | Panic => Panic
           | Undef => Undef
           | Hang => Hang
           end.

(** Dereferencing a [SharedRef<VmSpace>]. *)
Definition space_ref (sid : Z) : KM VmSpace :=
  fun k => match spaces k !! sid with
           | Some sp => Ret (sp, k)
           | None => Undef
           end.

Definition space_put (sid : Z) (sp : VmSpace) : KM unit :=
  fun k => Ret (tt, mkKState (vm k) (<[sid := sp]> (spaces k))).

(** [boot_pdpt] is the address of the static [BOOT_PDPT]. *)
Definition vmspace_new (boot_pdpt : Z) : KM (result ErrorCode VmSpace) :=
  do? arch := on_vm (on_machine (arch_vmspace_new boot_pdpt)) in
  ret (Ok (mkVmSpace arch [])).

Definition vmspace_switch (sid current_cr3 : Z) : KM (Z * bool) :=
  do* sp := space_ref sid in ret (arch_switch (vs_arch sp) current_cr3).

(** The loop over the pages of [map]: [n] pages from [index] on. *)
Fixpoint map_loop (arch : ArchVmSpace) (id : Z) (attrs : PageAttrs) (n : nat) (index uaddr : Z)
  : KM (result ErrorCode unit) :=
  match n with
  | O => ret (Ok tt)
  | S n =>
      do? paddr := on_vm (ensure_page id index) in
      do? _ := on_vm (on_machine (arch_map arch uaddr paddr MIN_PAGE_SIZE attrs)) in
      match UAddr_add uaddr MIN_PAGE_SIZE with
      | None => lift Panic
      | Some uaddr' => map_loop arch id attrs n (index + 1) uaddr'
      end
  end.

(** [reserve] is the outcome of [try_reserve(1)]. *)
Definition vmspace_map (reserve : bool) (sid id uaddr : Z) (attrs : PageAttrs) : KM (result ErrorCode unit) :=
  do* aligned := lift (UAddr_is_aligned_to uaddr MIN_PAGE_SIZE) in
  if negb aligned then ret (Err INVALID_ARG)
  else
    do* n := on_vm (vmarea_len id) in
    do? end_ := ret (ok_or (UAddr_add uaddr n) OUT_OF_BOUNDS) in
    do* sp := space_ref sid in
    if existsb (fun mapping => overlaps_with mapping uaddr end_) (mappings sp) then ret (Err ALREADY_EXISTS)
    else if negb reserve then ret (Err OUT_OF_MEMORY)
    else
      do? _ := map_loop (vs_arch sp) id attrs (Z.to_nat (n / MIN_PAGE_SIZE)) 0 uaddr in
      let insert_at := partition_point (fun mapping => m_start mapping <? uaddr) (mappings sp) in
      do* _ := space_put sid (mkVmSpace (vs_arch sp)
                 (take insert_at (mappings sp) ++ mkMapping uaddr end_ id attrs ::
                  drop insert_at (mappings sp))) in
      ret (Ok tt).

(** The loop of [read_bytes] over the mappings from the first one on; like
    [VmArea::read] it returns the buffer it leaves behind. *)
Fixpoint read_mappings (iter : list Mapping) (uaddr : Z) (buf : list Z)
  : KM (result ErrorCode unit * list Z) :=
  match buf, iter with
  | [], _ => ret (Ok tt, [])
  | _, [] => ret (Ok tt, buf)
  | _, mapping :: rest =>
      if negb ((m_start mapping <=? uaddr) && (uaddr <? m_end mapping)) then ret (Err OUT_OF_BOUNDS, buf)
      else
        do* room := lift (usize_sub (m_end mapping) uaddr) in
        let copy_len := Z.min (len buf) room in
        do* chunk := lift (slice_index buf 0 copy_len) in
        do* tail := lift (slice_index buf copy_len (len buf)) in
        do* offset := lift (usize_sub uaddr (m_start mapping)) in
        do* (r, chunk') := on_vm (vmarea_read (m_vmarea mapping) offset chunk) in
        match r with
        | Err e => ret (Err e, chunk' ++ tail)
        | Ok _ =>
            match UAddr_add uaddr copy_len with
            | None => lift Panic
            | Some uaddr' =>
                do* (r', tail') := read_mappings rest uaddr' tail in
                ret (r', chunk' ++ tail')
            end
        end
  end.

Definition vmspace_read_bytes (sid uaddr : Z) (buf : list Z) : KM (result ErrorCode unit * list Z) :=
  match buf with
  | [] => ret (Ok tt, [])
  | _ =>
      match UAddr_add uaddr (len buf) with
      | None => ret (Err OUT_OF_BOUNDS, buf)
      | Some _ =>
          do* sp := space_ref sid in
          match checked_sub (Z.of_nat (partition_point (fun mapping => m_start mapping <=? uaddr) (mappings sp))) 1 with
          | None => ret (Err OUT_OF_BOUNDS, buf)
          | Some index => read_mappings (drop (Z.to_nat index) (mappings sp)) uaddr buf
          end
      end
  end.

Definition VmSpace_DEFAULT_RIGHT : HandleRight := right_or (right_or RIGHT_READ RIGHT_WRITE) RIGHT_MAP.

End VmSpaceOps.

(** ** The invariant *)

(** What does not change in the kernel's image after the boot: [BOOT_PDPT],
    and other statics with their contents. *)
Record KernelImage : Set := mkKernelImage {
  ki_pdpt : Z;
  ki_statics : list (Z * list Z)
}.
Coercion ki_pdpt : KernelImage >-> Z.

Definition fixed (ki : KernelImage) (x : Z) : Prop :=
  in_block ki MIN_PAGE_SIZE x \/ exists a bs, (a, bs) ∈ ki_statics ki /\ in_block a (len bs) x.

Section VmSpaceInv.
Context {Mc : Type} `{Machine Mc}.
Implicit Types k : KState Mc.

Definition kram k : mem := ram (machine (vm k)).
Definition kavail k : Z -> Prop := avail (machine (vm k)).
Definition root_of (sp : VmSpace) : Z := cr3 (vs_arch sp).

(** The entry [map] writes for a page. *)
Definition user_pte (paddr : Z) (attrs : PageAttrs) : Z :=
  Z.lor paddr (Z.lor (Z.lor PTE_V PTE_U) (attrs_as_raw attrs)).

Definition leaf_of k (root va : Z) : option Z := leaf (kram k) root (path_of va) (pt_index va).

(** The first [n] pages of area [id] are mapped at [start]. *)
Definition pages_mapped k (root id : Z) (attrs : PageAttrs) (start : Z) (n : nat) : Prop :=
  forall i, (i < n)%nat -> exists p, page_at (vm k) id i p /\
    leaf_of k root (start + MIN_PAGE_SIZE * Z.of_nat i) = Some (user_pte p attrs).

Record mapping_ok k (root : Z) (m : Mapping) : Prop := mkMappingOk {
  mo_start : 0 <= m_start m /\ m_start m mod MIN_PAGE_SIZE = 0 /\ m_end m <= 2 ^ 47;
  mo_attrs : 0 <= m_attrs m < 8;
  mo_area : exists a, areas (vm k) !! m_vmarea m = Some a /\ m_end m = m_start m + area_len a /\
    pages_mapped k root (m_vmarea m) (m_attrs m) (m_start m) (length (pages a))
}.

(** An entry for user code maps a page frame that is in use and holds neither
    page tables nor the kernel's statics. *)
Definition user_frame (bp : KernelImage) k (p : Z) : Prop :=
  frame (kavail k) p /\ forall x, in_block p MIN_PAGE_SIZE x -> ~ fixed bp x /\
    forall sid sp, spaces k !! sid = Some sp -> ~ in_tables (kram k) (root_of sp) x.
Definition user_leaf (bp : KernelImage) k (e : Z) : Prop :=
  exists p attrs, user_frame bp k p /\ 0 <= attrs < 8 /\ e = user_pte p attrs.

Record ks_inv (bp : KernelImage) k : Prop := mkKsInv {
  ks_vm : vm_inv (vm k);
  ks_bp : frame (kavail k) bp;
  ks_fixed : forall x, fixed bp x -> ~ kavail k x;
  ks_statics : forall a bs, (a, bs) ∈ ki_statics bp -> mem_holds (kram k) a bs;
  ks_giga : forall i, 0 <= i < 4 ->
    entry_at (kram k) bp i = Z.lor (i * GIGA_PAGE_SIZE) (Z.lor (Z.lor PTE_V PTE_W) PTE_HUGE);
  ks_root : forall sid sp, spaces k !! sid = Some sp -> pml4 (vs_arch sp) = paddr2vaddr (root_of sp);
  ks_pt : forall sid sp, spaces k !! sid = Some sp -> pt_inv (kavail k) (kram k) (root_of sp) bp;
  ks_tables : forall sid sp id x, spaces k !! sid = Some sp ->
    in_tables (kram k) (root_of sp) x -> ~ backing (vm k) id x;
  ks_boot : forall id x, fixed bp x -> ~ backing (vm k) id x;
  ks_kept : forall sid sp x, spaces k !! sid = Some sp -> in_tables (kram k) (root_of sp) x -> ~ fixed bp x;
  ks_spaces : forall sid sp sid' sp' x, spaces k !! sid = Some sp -> spaces k !! sid' = Some sp' ->
    sid <> sid' -> in_tables (kram k) (root_of sp) x -> ~ in_tables (kram k) (root_of sp') x;
  ks_sorted : forall sid sp, spaces k !! sid = Some sp ->
    StronglySorted (fun a b => m_end a <= m_start b) (mappings sp);
  ks_maps : forall sid sp m, spaces k !! sid = Some sp -> m ∈ mappings sp -> mapping_ok k (root_of sp) m;
  ks_leaves : forall sid sp va e, spaces k !! sid = Some sp -> is_user va ->
    leaf_of k (root_of sp) va = Some e -> user_leaf bp k e
}.

End VmSpaceInv.

(** * Lemmas *)

(** ** Page tables and areas under changes elsewhere *)

Lemma on_vm_run {Mc A} (m : M (VmState Mc) A) (k : KState Mc) a st :
  m (vm k) = Ret (a, st) -> on_vm m k = Ret (a, mkKState st (spaces k)).
Proof. unfold on_vm. by intros ->. Qed.

Section Stability.
Context {P : Profile} {Mc : Type} `{MachineLaws Mc}.

Section PtStable.
Context (av av' : Z -> Prop) (m m' : mem) (root bp : Z).
Context (Hpt : pt_inv av m root bp) (Hav : forall x, av' x -> av x).
Context (Hram : forall x, in_tables m root x \/ in_block bp MIN_PAGE_SIZE x -> m' x = m x).

Lemma stable_entry q t i : user_path q -> (length q <= 3)%nat -> table_at m root q = Some t ->
  0 <= i < 512 -> entry_at m' t i = entry_at m t i.
Proof using All.
  intros Hq Hl Ht Hi. apply entry_at_ext; [done|]. intros x Hx. apply Hram. left. by exists q, t.
Qed.

Lemma stable_tables q : user_path q -> (length q <= 3)%nat -> table_at m' root q = table_at m root q.
Proof using All.
  apply table_at_ext. intros q' t i Hq Hl Ht. destruct (user_path_snoc q' i Hq) as [Hq' Hi].
  unfold next_table. by rewrite (stable_entry q') by (done || lia).
Qed.

Lemma stable_leaf q i : user_path (q ++ [i]) -> length q = 3%nat -> leaf m' root q i = leaf m root q i.
Proof using All.
  intros Hq Hl. destruct (user_path_snoc q i Hq) as [Hq' Hi]. unfold leaf.
  rewrite stable_tables by (done || lia). destruct (table_at m root q) as [t|] eqn:E; [|done]; simpl.
  by rewrite (stable_entry q) by (done || lia).
Qed.

Lemma stable_in_tables x : in_tables m' root x <-> in_tables m root x.
Proof using All.
  unfold in_tables. split; intros (q & t & Hq & Hl & Ht & Hx); exists q, t;
    rewrite stable_tables in * by done; done.
Qed.

Lemma stable_pt_inv : pt_inv av' m' root bp.
Proof using All.
  constructor.
  - intros q t Hq Hl. rewrite stable_tables by done. intros Ht.
    destruct (pt_frame _ _ _ _ Hpt q t Hq Hl Ht) as [Hf ?]. split; [by eapply frame_mono|done].
  - intros p q t Hp Hq Lp Lq. rewrite !stable_tables by done. by apply (pt_inj _ _ _ _ Hpt).
  - intros q t i Hq Hl. destruct (user_path_snoc q i Hq) as [Hq' Hi].
    rewrite stable_tables by (done || lia). intros Ht. rewrite (stable_entry q) by (done || lia).
    by apply (pt_inner _ _ _ _ Hpt q).
  - rewrite (stable_entry []); [apply (pt_kernel _ _ _ _ Hpt)|done|simpl; lia|done|lia].
  - eapply frame_mono; [exact Hav|]. apply (pt_boot _ _ _ _ Hpt).
  - intros i Hi. rewrite (entry_at_ext m); [by apply (pt_giga _ _ _ _ Hpt)|lia|].
    intros x Hx. apply Hram. by right.
Qed.

End PtStable.

(** The areas do not notice a change of the machine that leaves their pages
    alone. *)
Lemma vm_inv_machine (st : VmState Mc) s' :
  vm_inv st -> machine_inv s' -> (forall x, avail s' x -> avail (machine st) x) ->
  vm_inv (mkVmState s' (areas st)).
Proof.
  intros [Hm Har Hal Hbd Hown Hdis] Hs Hav. constructor; try done.
  intros id i p x Hp Hx Ha%Hav. by eapply Hown.
Qed.

Lemma content_machine (st : VmState Mc) s' id off :
  (forall x, backing st id x -> ram s' x = ram (machine st) x) ->
  content (mkVmState s' (areas st)) id off = content st id off.
Proof.
  intros Hram. unfold content; simpl. destruct (areas st !! id) as [a|] eqn:Ha; [|done].
  destruct (_ && _); [|done].
  destruct (pages a !! Z.to_nat (off / MIN_PAGE_SIZE)) as [[p|]|] eqn:Hp; [|done..].
  apply Hram. exists (Z.to_nat (off / MIN_PAGE_SIZE)), p. split; [by exists a|].
  pose proof (page_offset_bound off). unfold in_block. lia.
Qed.

End Stability.

(** ** One step of the mapping loop *)

Section Steps.
Context {P : Profile} {Mc : Type} `{MachineLaws Mc}.
Implicit Types k : KState Mc.

Lemma in_tables_owned bp k sid sp x :
  ks_inv bp k -> spaces k !! sid = Some sp -> in_tables (kram k) (root_of sp) x ->
  ~ kavail k x /\ ~ in_block bp MIN_PAGE_SIZE x.
Proof.
  intros Hi Hsp (q & t & Hq & Hl & Ht & Hx). pose proof (ks_pt _ _ Hi sid sp Hsp) as Hpt.
  destruct (pt_frame _ _ _ _ Hpt q t Hq Hl Ht) as [(? & _ & _ & Hn) Hne]. split; [by apply Hn|].
  intros Hb. apply Hne. eapply aligned_blocks_disjoint; [done| |done..].
  by destruct (pt_boot _ _ _ _ Hpt).
Qed.

Lemma in_tables_avail bp k sid sp x :
  ks_inv bp k -> spaces k !! sid = Some sp -> in_tables (kram k) (root_of sp) x -> ~ kavail k x.
Proof. intros Hi Hs Hx. by destruct (in_tables_owned bp k sid sp x Hi Hs Hx). Qed.

Lemma boot_owned (bp : KernelImage) k x : ks_inv bp k -> in_block bp MIN_PAGE_SIZE x -> ~ kavail k x.
Proof. intros Hi Hx. apply (ks_fixed _ _ Hi). by left. Qed.

(** The statics depend on their own bytes. *)
Lemma statics_held (bp : KernelImage) (m m' : mem) :
  (forall x, fixed bp x -> m' x = m x) -> (forall a bs, (a, bs) ∈ ki_statics bp -> mem_holds m a bs) ->
  forall a bs, (a, bs) ∈ ki_statics bp -> mem_holds m' a bs.
Proof.
  intros Hm Hs a bs Hin. specialize (Hs a bs Hin). unfold mem_holds in *. rewrite <- Hs at 2. apply mem_read_ext.
  intros x Hx. apply Hm. right. exists a, bs. split; [done|]. unfold in_block. lia.
Qed.

Lemma backing_owned k id x : vm_inv (vm k) -> backing (vm k) id x -> ~ kavail k x.
Proof. intros Hi (i & p & Hp & Hx). by eapply (vm_owned _ Hi). Qed.

Lemma backing_new k k' id x :
  vm_extends (vm k) (vm k') -> backing (vm k') id x -> backing (vm k) id x \/ kavail k x.
Proof.
  intros He (i & p & [Hp|Hp]%(ext_new _ _ He) & Hx); [left; by exists i, p|right; by apply Hp].
Qed.

(** Page counts follow from the lengths. *)
Lemma extends_pages (st st' : VmState Mc) id a :
  vm_inv st -> vm_inv st' -> vm_extends st st' -> areas st !! id = Some a ->
  exists a', areas st' !! id = Some a' /\ area_len a' = area_len a /\ length (pages a') = length (pages a).
Proof.
  intros Hi Hi' He Ha. destruct (extends_area st st' id a He Ha) as (a' & Ha' & Hl).
  destruct (vm_areas _ Hi _ _ Ha) as [_ E], (vm_areas _ Hi' _ _ Ha') as [_ E'].
  exists a'. split_and!; [done..|]. unfold MIN_PAGE_SIZE in *. lia.
Qed.

Definition leaves_mono k k' (sp : VmSpace) : Prop :=
  forall va e, is_user va -> leaf_of k (root_of sp) va = Some e -> leaf_of k' (root_of sp) va = Some e.

Lemma pages_user (st : VmState Mc) id a start (i : nat) :
  vm_inv st -> areas st !! id = Some a -> 0 <= start -> start + area_len a <= 2 ^ 47 ->
  (i < length (pages a))%nat -> is_user (start + MIN_PAGE_SIZE * Z.of_nat i).
Proof.
  intros Hi Ha Hs He Hl. destruct (vm_areas _ Hi _ _ Ha) as [_ E].
  unfold is_user, MIN_PAGE_SIZE in *. lia.
Qed.

Lemma mapping_ok_mono k k' sp m :
  vm_inv (vm k) -> vm_inv (vm k') -> vm_extends (vm k) (vm k') -> leaves_mono k k' sp ->
  mapping_ok k (root_of sp) m -> mapping_ok k' (root_of sp) m.
Proof.
  intros Hi Hi' He Hlm [Hs Hat (a & Ha & Hend & Hpg)]. constructor; [done..|].
  destruct (extends_pages _ _ _ _ Hi Hi' He Ha) as (a' & Ha' & Hl & Hn).
  exists a'. rewrite Hl, Hn. split_and!; [done..|]. intros i Hlt.
  destruct (Hpg i Hlt) as (p & Hp & Hleaf). exists p. split; [by apply (ext_pages _ _ He)|].
  apply Hlm; [|done]. eapply (pages_user (vm k)); eauto; lia.
Qed.

(** The frame stays one if page tables only grow into memory that was available. *)
Lemma user_leaf_mono bp k k' e :
  (forall x, kavail k' x -> kavail k x) ->
  (forall sid sp x, spaces k' !! sid = Some sp -> in_tables (kram k') (root_of sp) x ->
     kavail k x \/ exists sid' sp', spaces k !! sid' = Some sp' /\ in_tables (kram k) (root_of sp') x) ->
  user_leaf bp k e -> user_leaf bp k' e.
Proof.
  intros Hav Ht (p & attrs & [Hf Hx] & Hr). exists p, attrs. split; [|done]. split; [by eapply frame_mono|].
  intros x Hin. destruct (Hx x Hin) as [Hfx Htx]. split; [done|]. intros sid sp Hs Hi.
  destruct (Ht sid sp x Hs Hi) as [Ha|(sid' & sp' & Hs' & Hi')]; [|by apply (Htx sid' sp')].
  destruct Hf as (_ & _ & _ & Hn). by apply (Hn x).
Qed.

(** The pages of areas are such frames. *)
Lemma page_user_frame bp k id i p : ks_inv bp k -> page_at (vm k) id i p -> user_frame bp k p.
Proof.
  intros Hi Hp. pose proof (ks_vm _ _ Hi) as Hvm. destruct (vm_bounds _ Hvm _ _ _ Hp). split.
  - split; [by apply (vm_aligned _ Hvm _ _ _ Hp)|]. split; [done|]. split; [done|].
    intros x Hx. by apply (vm_owned _ Hvm id i p).
  - intros x Hx. assert (backing (vm k) id x) as Hb by by exists i, p. split.
    + intros Hf. by apply (ks_boot _ _ Hi id x).
    + intros sid sp Hs Ht. by apply (ks_tables _ _ Hi sid sp id x).
Qed.

Lemma ks_inv_step bp k k' (sid0 : option Z) :
  ks_inv bp k -> vm_inv (vm k') -> spaces k' = spaces k -> vm_extends (vm k) (vm k') ->
  (forall x, fixed bp x -> kram k' x = kram k x) ->
  (forall sid sp, spaces k !! sid = Some sp -> pt_inv (kavail k') (kram k') (root_of sp) bp) ->
  (forall sid sp x, spaces k !! sid = Some sp -> in_tables (kram k') (root_of sp) x ->
     in_tables (kram k) (root_of sp) x \/ Some sid = sid0 /\ kavail k x) ->
  (sid0 = None \/ forall id x, backing (vm k') id x -> backing (vm k) id x) ->
  (forall sid sp, spaces k !! sid = Some sp -> leaves_mono k k' sp) ->
  (forall sid sp va e, spaces k !! sid = Some sp -> is_user va -> leaf_of k' (root_of sp) va = Some e ->
     leaf_of k (root_of sp) va = Some e \/ user_leaf bp k e) ->
  ks_inv bp k'.
Proof.
  intros Hi Hvm Hsp He Hbp Hpt Hnew Hexcl Hleaf Hback. constructor; [done|..]; rewrite ?Hsp.
  - eapply frame_mono; [|apply (ks_bp _ _ Hi)]. apply (ext_avail _ _ He).
  - intros x Hx Ha. apply (ks_fixed _ _ Hi x Hx). by apply (ext_avail _ _ He).
  - apply (statics_held bp (kram k)); [done|apply (ks_statics _ _ Hi)].
  - intros i Hlt. rewrite (entry_at_ext (kram k)); [by apply (ks_giga _ _ Hi)|lia|]. intros x Hx. apply Hbp. by left.
  - apply (ks_root _ _ Hi).
  - done.
  - intros sid sp id x Hs Ht Hb. destruct (Hnew sid sp x Hs Ht) as [Ht'|[Hsid Ha]].
    + destruct (backing_new k k' id x He Hb) as [Hb'|Ha]; [by eapply (ks_tables _ _ Hi)|].
      by eapply in_tables_avail.
    + destruct Hexcl as [->|Hexcl]; [done|]. apply Hexcl in Hb.
      by eapply backing_owned; [apply (ks_vm _ _ Hi)|..].
  - intros id x Hx Hb. destruct (backing_new k k' id x He Hb) as [Hb'|Ha]; [by eapply (ks_boot _ _ Hi)|].
    by eapply (ks_fixed _ _ Hi).
  - intros sid sp x Hs Ht Hx. destruct (Hnew sid sp x Hs Ht) as [Ht'|[_ Ha]]; [by apply (ks_kept _ _ Hi sid sp x)|].
    by apply (ks_fixed _ _ Hi x).
  - intros sid sp sid' sp' x Hs Hs' Hne Ht Ht'.
    destruct (Hnew sid sp x Hs Ht) as [Ht1|[E Ha]], (Hnew sid' sp' x Hs' Ht') as [Ht2|[E' Ha']].
    + by apply (ks_spaces _ _ Hi sid sp sid' sp' x).
    + by apply (in_tables_avail bp k sid sp x).
    + by apply (in_tables_avail bp k sid' sp' x).
    + congruence.
  - apply (ks_sorted _ _ Hi).
  - intros sid sp m Hs Hm. apply (mapping_ok_mono k);
      [apply (ks_vm _ _ Hi)|done|done|by apply (Hleaf sid)|by apply (ks_maps _ _ Hi sid)].
  - intros sid sp va e Hs Hu Hl. apply (user_leaf_mono bp k); [apply (ext_avail _ _ He)| |].
    { rewrite Hsp. intros sid' sp' x Hs' Ht. destruct (Hnew sid' sp' x Hs' Ht) as [Ht'|[_ Ha]]; [right; by exists sid', sp'|by left]. }
    destruct (Hback sid sp va e Hs Hu Hl) as [Hl'|]; [|done]. by apply (ks_leaves _ _ Hi sid sp va).
Qed.

(** What a step may change: pages and tables are added, no contents change,
    and only the addresses in [R] of space [sid] get new translations. *)
Record ks_grows (sid : Z) (R : Z -> Prop) k k' : Prop := mkKsGrows {
  kg_spaces : spaces k' = spaces k;
  kg_ext : vm_extends (vm k) (vm k');
  kg_content : forall id x, content (vm k') id x = content (vm k) id x;
  kg_mono : forall sid' sp, spaces k !! sid' = Some sp -> leaves_mono k k' sp;
  kg_leaf : forall sid' sp va, spaces k !! sid' = Some sp -> is_user va -> ~ (sid' = sid /\ R va) ->
    leaf_of k' (root_of sp) va = leaf_of k (root_of sp) va
}.

Lemma ks_grows_refl sid R k : ks_grows sid R k k.
Proof. constructor; try done. by intros sid' sp _ va e. Qed.

Lemma ks_grows_trans sid (R1 R2 R : Z -> Prop) k1 k2 k3 :
  (forall va, R1 va -> R va) -> (forall va, R2 va -> R va) ->
  ks_grows sid R1 k1 k2 -> ks_grows sid R2 k2 k3 -> ks_grows sid R k1 k3.
Proof.
  intros HR1 HR2 [S1 E1 C1 M1 L1] [S2 E2 C2 M2 L2]. constructor.
  - by rewrite S2.
  - by etrans.
  - intros id x. by rewrite C2.
  - intros sid' sp Hs va e Hu Hl. rewrite S1 in M2. apply (M2 sid' sp Hs); [done|]. by apply (M1 sid' sp Hs).
  - intros sid' sp va Hs Hu Hn. rewrite S1 in L2.
    rewrite (L2 sid' sp), (L1 sid' sp); try done; naive_solver.
Qed.

(** Looking at the areas, which may fill pages. *)
Lemma looked_step bp k sid st :
  ks_inv bp k -> looked (vm k) st ->
  ks_inv bp (mkKState st (spaces k)) /\ ks_grows sid (fun _ => False) k (mkKState st (spaces k)).
Proof.
  intros Hi [Hvm He Hf Hc].
  assert (forall x, ~ kavail k x -> ram (machine st) x = kram k x) as Hram.
  { intros x Hx. apply Hf; [done|tauto]. }
  assert (forall sid' sp, spaces k !! sid' = Some sp -> forall x,
    in_tables (kram k) (root_of sp) x \/ in_block bp MIN_PAGE_SIZE x -> ram (machine st) x = kram k x) as Hst.
  { intros sid' sp Hs x [Hx|Hx]; apply Hram; [by eapply in_tables_avail|by eapply boot_owned]. }
  assert (forall sid' sp va, spaces k !! sid' = Some sp -> is_user va ->
    leaf_of (mkKState st (spaces k)) (root_of sp) va = leaf_of k (root_of sp) va) as Hlf.
  { intros sid' sp va Hs Hu. eapply (stable_leaf (kavail k)); [by eapply (ks_pt _ _ Hi)|
      apply (ext_avail _ _ He)|by eapply Hst|by apply user_path_of|done]. }
  assert (forall sid' sp, spaces k !! sid' = Some sp -> leaves_mono k (mkKState st (spaces k)) sp) as Hmono.
  { intros sid' sp Hs va e Hu Hl. by rewrite (Hlf sid'). }
  split.
  - eapply (ks_inv_step bp k _ None); try done.
    + intros x Hx. apply Hram. by eapply (ks_fixed _ _ Hi).
    + intros sid' sp Hs. eapply stable_pt_inv; [by eapply (ks_pt _ _ Hi)|apply (ext_avail _ _ He)|by eapply Hst].
    + intros sid' sp x Hs Hx. left.
      by apply (stable_in_tables (kavail k) (avail (machine st)) (kram k) (ram (machine st)) (root_of sp) bp
        (ks_pt _ _ Hi _ _ Hs) (ext_avail _ _ He) (Hst _ _ Hs) x).
    + by left.
    + intros sid' sp va e Hs Hu. rewrite (Hlf sid') by done. by left.
  - constructor; try done. intros sid' sp va Hs Hu _. by apply (Hlf sid').
Qed.

(** Filling a page of an area. *)
Lemma ensure_page_step bp k sid id a index :
  ks_inv bp k -> areas (vm k) !! id = Some a -> 0 <= index < len (pages a) ->
  exists r k', on_vm (ensure_page id index) k = Ret (r, k') /\ ks_inv bp k' /\
    ks_grows sid (fun _ => False) k k' /\
    match r with
    | Ok p => page_at (vm k') id (Z.to_nat index) p
    | Err e => e = OUT_OF_MEMORY
    end.
Proof.
  intros Hi Ha Hidx. unfold on_vm, ensure_page.
  rewrite (bind_run _ _ _ _ _ (area_ref_run _ _ _ Ha)), (proj2 (Z.leb_gt _ _)) by lia.
  destruct (get_or_fill_spec (vm k) id a index (ks_vm _ _ Hi) Ha Hidx)
    as (r & st & E & Hvm & He & Hf & Hc & Hr).
  rewrite E. exists r, (mkKState st (spaces k)). split; [done|].
  destruct (looked_step bp k sid st Hi) as [Hi' Hg]; [by constructor|].
  split; [done|]. split; [done|]. destruct r; [done|by destruct Hr].
Qed.

(** Mapping one page. *)
Section MapStep.
Context (bp : KernelImage) (k : KState Mc) (sid : Z) (sp : VmSpace) (s' : Mc) (uaddr pte : Z).
Context (r : result ErrorCode unit).
Context (Hi : ks_inv bp k) (Hs : spaces k !! sid = Some sp) (Hu : is_user uaddr).
Context (Hpost : map_post (root_of sp) bp uaddr pte (machine (vm k)) r s').

Let k' : KState Mc := mkKState (mkVmState s' (areas (vm k))) (spaces k).

Lemma map_step_ram x : ~ kavail k x -> ~ in_tables (kram k) (root_of sp) x -> kram k' x = kram k x.
Proof using All. destruct Hpost as [[_ _ _ Hf] _]. apply Hf. Qed.

Lemma map_step_avail x : kavail k' x -> kavail k x.
Proof using All. destruct Hpost as [[_ Hav _ _] _]. apply Hav. Qed.

Lemma map_step_boot x : fixed bp x -> kram k' x = kram k x.
Proof using All.
  intros Hx. apply map_step_ram; [by apply (ks_fixed _ _ Hi)|]. intros Ht. by apply (ks_kept _ _ Hi sid sp x).
Qed.

(** The tables of the other spaces. *)
Lemma map_step_other sid' sp' : spaces k !! sid' = Some sp' -> sid' <> sid ->
  forall x, in_tables (kram k) (root_of sp') x \/ in_block bp MIN_PAGE_SIZE x -> kram k' x = kram k x.
Proof using All.
  intros Hs' Hne x [Hx|Hx]; [|apply map_step_boot; by left].
  apply map_step_ram; [by eapply in_tables_avail|]. by apply (ks_spaces _ _ Hi sid' sp' sid sp x).
Qed.

Lemma map_step_extends : vm_extends (vm k) (vm k').
Proof using All.
  constructor; try done; [by left|]. apply map_step_avail.
Qed.

Lemma map_step_leaf sid' sp' va : spaces k !! sid' = Some sp' -> is_user va ->
  leaf_of k' (root_of sp') va =
  if decide (sid' = sid /\ is_err r = false /\ va / MIN_PAGE_SIZE = uaddr / MIN_PAGE_SIZE)
  then Some pte else leaf_of k (root_of sp') va.
Proof using All.
  intros Hs' Hva. pose proof (user_path_of va Hva) as Hp. destruct (decide (sid' = sid)) as [->|Hne].
  - assert (sp' = sp) as -> by congruence. destruct Hpost as [_ Hr]. unfold leaf_of, kram, k'; simpl.
    destruct r as [u|e]; simpl.
    + destruct Hr as [_ Hr]. rewrite (Hr _ _ Hp eq_refl).
      destruct (decide (path_of va = path_of uaddr /\ pt_index va = pt_index uaddr)) as [Hk|Hk].
      * apply (page_key_eq va uaddr Hva Hu) in Hk. by rewrite decide_True.
      * rewrite (page_key_eq va uaddr Hva Hu) in Hk. by rewrite decide_False by naive_solver.
    + destruct Hr as [Hr _]. rewrite (Hr _ _ Hp eq_refl). by rewrite decide_False by naive_solver.
  - rewrite decide_False by naive_solver.
    by apply (stable_leaf (kavail k) (kavail k') (kram k) _ _ bp (ks_pt _ _ Hi _ _ Hs') map_step_avail
      (map_step_other sid' sp' Hs' Hne)).
Qed.

(** An entry that is present stays. *)
Lemma map_step_mono sid' sp' : spaces k !! sid' = Some sp' -> leaves_mono k k' sp'.
Proof using All.
  intros Hs' va e Hva Hl. rewrite (map_step_leaf sid') by done.
  destruct (decide _) as [(-> & Hr & Hk)|]; [|done]. assert (sp' = sp) as -> by congruence.
  exfalso. destruct Hpost as [_ Hp]. destruct r as [u|]; [|done]. destruct Hp as [Hno _].
  unfold leaf_of, kram in Hl. apply (page_key_eq va uaddr Hva Hu) in Hk as [Hk1 Hk2].
  rewrite Hk1, Hk2 in Hl. congruence.
Qed.

Lemma map_step_inv : user_leaf bp k pte -> ks_inv bp k'.
Proof using All.
  intros Hpte. destruct Hpost as [[[Hm Hpt] _ Hnew _] _]. apply (ks_inv_step bp k k' (Some sid)).
  - done.
  - apply vm_inv_machine; [apply (ks_vm _ _ Hi)|done|apply map_step_avail].
  - done.
  - apply map_step_extends.
  - apply map_step_boot.
  - intros sid' sp' Hs'. destruct (decide (sid' = sid)) as [->|Hne].
    + by assert (sp' = sp) as -> by congruence.
    + by apply (stable_pt_inv (kavail k) (kavail k') (kram k) _ _ bp (ks_pt _ _ Hi _ _ Hs') map_step_avail
        (map_step_other sid' sp' Hs' Hne)).
  - intros sid' sp' x Hs' Hx. destruct (decide (sid' = sid)) as [->|Hne].
    + assert (sp' = sp) as -> by congruence. destruct (Hnew x Hx) as [?|?]; [by left|by right].
    + left. by apply (stable_in_tables (kavail k) (kavail k') (kram k) (kram k') _ bp (ks_pt _ _ Hi _ _ Hs')
        map_step_avail (map_step_other sid' sp' Hs' Hne)).
  - by right.
  - apply map_step_mono.
  - intros sid' sp' va e Hs' Hva. rewrite (map_step_leaf sid') by done.
    destruct (decide _); [intros [= <-]; by right|by left].
Qed.

Lemma map_step_grows : ks_grows sid (fun va => va / MIN_PAGE_SIZE = uaddr / MIN_PAGE_SIZE) k k'.
Proof using All.
  constructor.
  - done.
  - apply map_step_extends.
  - intros id' x. apply content_machine. intros y Hy. apply map_step_ram.
    + by eapply backing_owned; [apply (ks_vm _ _ Hi)|..].
    + intros Ht. by eapply (ks_tables _ _ Hi).
  - apply map_step_mono.
  - intros sid' sp' va Hs' Hva Hn. rewrite (map_step_leaf sid') by done.
    by rewrite decide_False by naive_solver.
Qed.

End MapStep.

Lemma arch_map_step bp k sid sp id i p uaddr attrs :
  ks_inv bp k -> spaces k !! sid = Some sp -> page_at (vm k) id i p ->
  is_user uaddr -> uaddr mod MIN_PAGE_SIZE = 0 -> 0 <= attrs < 8 ->
  exists r k', on_vm (on_machine (arch_map (vs_arch sp) uaddr p MIN_PAGE_SIZE attrs)) k = Ret (r, k') /\
    ks_inv bp k' /\
    ks_grows sid (fun va => va / MIN_PAGE_SIZE = uaddr / MIN_PAGE_SIZE) k k' /\
    match r with
    | Ok _ => leaf_of k' (root_of sp) uaddr = Some (user_pte p attrs)
    | Err e => e = ALREADY_EXISTS \/ e = OUT_OF_MEMORY
    end.
Proof.
  intros Hi Hs Hp Hu Hua Hat. pose proof (ks_vm _ _ Hi) as Hvm.
  pose proof (vm_aligned _ Hvm _ _ _ Hp) as Hpa. pose proof (vm_bounds _ Hvm _ _ _ Hp) as [Hp0 Hpd].
  assert (vs_arch sp = mkArchVmSpace (paddr2vaddr (root_of sp)) (root_of sp)) as Harch.
  { pose proof (ks_root _ _ Hi sid sp Hs) as Hr. unfold root_of in *. destruct (vs_arch sp). simpl in *. by subst. }
  destruct (arch_map_spec (root_of sp) bp (machine (vm k)) uaddr p MIN_PAGE_SIZE attrs)
    as (r & s' & E & Hpost); try done.
  - split; [apply Hvm|by apply (ks_pt _ _ Hi sid)].
  - unfold DIRECT_MAP_SIZE, GIGA_PAGE_SIZE, MIN_PAGE_SIZE in *. lia.
  - rewrite Harch. unfold on_vm. rewrite (on_machine_run _ _ _ _ E).
    eexists r, _. split; [done|]. split; [eapply map_step_inv; [done..|]; exists p, attrs; split; [by eapply page_user_frame|done]|]. split; [by eapply map_step_grows|].
    destruct r as [u|e]; [|destruct Hpost as [_ [_ [[-> _]| ->]]]; auto].
    erewrite (map_step_leaf bp k sid sp s' uaddr _ _ Hi Hs Hu Hpost sid) by done. by rewrite decide_True.
Qed.

Lemma pages_mapped_mono sid R bp k k' sp id attrs start a (n : nat) :
  ks_inv bp k -> ks_grows sid R k k' -> spaces k !! sid = Some sp -> areas (vm k) !! id = Some a ->
  0 <= start -> start + area_len a <= 2 ^ 47 -> (n <= length (pages a))%nat ->
  pages_mapped k (root_of sp) id attrs start n -> pages_mapped k' (root_of sp) id attrs start n.
Proof.
  intros Hi Hg Hs Ha Hst Hend Hn Hpm i Hlt. destruct (Hpm i Hlt) as (p & Hp & Hl).
  exists p. split; [by apply (ext_pages _ _ (kg_ext _ _ _ _ Hg))|].
  apply (kg_mono _ _ _ _ Hg sid sp Hs); [|done].
  eapply (pages_user (vm k)); eauto using ks_vm. lia.
Qed.

(** The addresses a mapping covers. *)
Definition covers (start n va : Z) : Prop := start <= va < start + n.

Lemma covers_page start n uaddr va :
  uaddr mod MIN_PAGE_SIZE = 0 -> start <= uaddr -> uaddr + MIN_PAGE_SIZE <= start + n ->
  va / MIN_PAGE_SIZE = uaddr / MIN_PAGE_SIZE -> covers start n va.
Proof. unfold covers, MIN_PAGE_SIZE. intros. dlia. Qed.

Lemma map_loop_spec bp sid sp id attrs start n : forall k a (index : nat),
  ks_inv bp k -> spaces k !! sid = Some sp -> areas (vm k) !! id = Some a ->
  (index + n = length (pages a))%nat -> 0 <= start -> start mod MIN_PAGE_SIZE = 0 ->
  start + area_len a <= 2 ^ 47 -> 0 <= attrs < 8 ->
  pages_mapped k (root_of sp) id attrs start index ->
  exists r k', map_loop (vs_arch sp) id attrs n (Z.of_nat index) (start + MIN_PAGE_SIZE * Z.of_nat index) k
      = Ret (r, k') /\
    ks_inv bp k' /\ ks_grows sid (covers start (area_len a)) k k' /\
    match r with
    | Ok _ => pages_mapped k' (root_of sp) id attrs start (length (pages a))
    | Err e => e = ALREADY_EXISTS \/ e = OUT_OF_MEMORY
    end.
Proof.
  induction n as [|n IH]; intros k a index Hi Hs Ha Hn Hst Hsm Hend Hat Hpm; cbn [map_loop].
  { exists (Ok tt), k. split; [done|]. split; [done|]. split; [apply ks_grows_refl|].
    by replace (length (pages a)) with index by lia. }
  set (uaddr := start + MIN_PAGE_SIZE * Z.of_nat index).
  destruct (vm_areas _ (ks_vm _ _ Hi) _ _ Ha) as [_ Hlen].
  assert (is_user uaddr) as Hu by (eapply (pages_user (vm k)); eauto using ks_vm; lia).
  assert (uaddr mod MIN_PAGE_SIZE = 0) as Hum by (unfold uaddr, MIN_PAGE_SIZE in *; dlia).
  destruct (ensure_page_step bp k sid id a (Z.of_nat index)) as (r & k1 & E1 & Hi1 & Hg1 & Hr);
    [done..|lia|].
  assert (spaces k1 !! sid = Some sp) as Hs1 by by rewrite (kg_spaces _ _ _ _ Hg1).
  destruct r as [p|e].
  2: { subst e. rewrite (bindr_err _ _ _ _ _ E1). exists (Err OUT_OF_MEMORY), k1. split; [done|].
       split; [done|]. split; [|by right].
       apply (ks_grows_trans sid (fun _ => False) (fun _ => False) _ k k1 k1); try done; apply ks_grows_refl. }
  rewrite Nat2Z.id in Hr. rewrite (bindr_ok _ _ _ _ _ E1).
  destruct (arch_map_step bp k1 sid sp id index p uaddr attrs) as (r2 & k2 & E2 & Hi2 & Hg2 & Hr2); [done..|].
  destruct (extends_pages (vm k) (vm k1) id a) as (a1 & Ha1 & Hl1 & Hp1);
    [apply (ks_vm _ _ Hi)|apply (ks_vm _ _ Hi1)|apply Hg1|done|].
  assert (ks_grows sid (covers start (area_len a)) k k2) as Hg02.
  { eapply ks_grows_trans; [| |exact Hg1|exact Hg2]; [done|]. intros va Hva.
    eapply covers_page; [exact Hum|..|exact Hva]; unfold uaddr, MIN_PAGE_SIZE in *; lia. }
  destruct r2 as [u|e].
  2: { rewrite (bindr_err _ _ _ _ _ E2). by exists (Err e), k2. }
  rewrite (bindr_ok _ _ _ _ _ E2). unfold UAddr_add.
  destruct (checked_add_spec 64 uaddr MIN_PAGE_SIZE) as [[-> _]|[_ ?]];
    [|exfalso; unfold uaddr, is_user, MIN_PAGE_SIZE in *; lia].
  destruct (extends_pages (vm k) (vm k2) id a) as (a2 & Ha2 & Hl2 & Hp2);
    [apply (ks_vm _ _ Hi)|apply (ks_vm _ _ Hi2)|apply Hg02|done|].
  assert (spaces k2 !! sid = Some sp) as Hs2 by by rewrite (kg_spaces _ _ _ _ Hg2).
  replace (Z.of_nat index + 1) with (Z.of_nat (S index)) by lia.
  replace (uaddr + MIN_PAGE_SIZE) with (start + MIN_PAGE_SIZE * Z.of_nat (S index)) by (unfold uaddr; lia).
  destruct (IH k2 a2 (S index)) as (r3 & k3 & E3 & Hi3 & Hg3 & Hr3); try done; [lia|lia| |].
  - intros i Hlt. destruct (decide (i = index)) as [->|Hne].
    + exists p. split; [by apply (ext_pages _ _ (kg_ext _ _ _ _ Hg2))|exact Hr2].
    + eapply (pages_mapped_mono sid _ bp k k2 sp id attrs start a index); try done; lia.
  - rewrite Hl2, Hp2 in *. exists r3, k3. split; [done|]. split; [done|]. split; [|done].
    by eapply ks_grows_trans; [| |exact Hg02|exact Hg3].
Qed.

(** ** Inserting the mapping *)

Lemma partition_point_sorted (f : Mapping -> bool) l :
  (forall i j a b, (i < j)%nat -> l !! i = Some a -> l !! j = Some b -> f b = true -> f a = true) ->
  let n := partition_point f l in
  Forall (fun m => f m = true) (take n l) /\ Forall (fun m => f m = false) (drop n l).
Proof.
  intros Hmono. induction l as [|a l IH]; simpl; [done|]. destruct (f a) eqn:Ha; simpl.
  - destruct IH as [H1 H2]; [|by split; [constructor|]]. intros i j b c Hij Hi Hj. by apply (Hmono (S i) (S j)); [lia|..].
  - split; [done|]. constructor; [done|]. apply Forall_lookup. intros j b Hj.
    destruct (f b) eqn:Hb; [|done]. by rewrite (Hmono 0%nat (S j) a b) in Ha by (done || lia).
Qed.

Lemma partition_point_length (f : Mapping -> bool) l : (partition_point f l <= length l)%nat.
Proof. induction l as [|a l IH]; simpl; [lia|]. destruct (f a); lia. Qed.

Definition insert_mapping (m : Mapping) (l : list Mapping) : list Mapping :=
  let n := partition_point (fun x => m_start x <? m_start m) l in take n l ++ m :: drop n l.

Lemma insert_mapping_elem m l x : x ∈ insert_mapping m l <-> x = m \/ x ∈ l.
Proof.
  unfold insert_mapping. set (n := partition_point _ _). rewrite elem_of_app, elem_of_cons.
  rewrite <- (take_drop n l) at 3. rewrite elem_of_app. tauto.
Qed.

Lemma insert_mapping_sorted m l :
  m_start m < m_end m -> Forall (fun x => m_start x < m_end x) l ->
  StronglySorted (fun a b => m_end a <= m_start b) l ->
  Forall (fun x => overlaps_with x (m_start m) (m_end m) = false) l ->
  StronglySorted (fun a b => m_end a <= m_start b) (insert_mapping m l).
Proof.
  intros Hm Hne Hs Hov. unfold insert_mapping. set (f := fun x => m_start x <? m_start m).
  destruct (partition_point_sorted f l) as [H1 H2].
  { intros i j a b Hij Hi Hj Hb. unfold f in *. pose proof (StronglySorted_lookup _ _ _ _ _ _ Hs Hij Hi Hj).
    rewrite Forall_lookup in Hne. pose proof (Hne i a Hi). simpl in *. apply Z.ltb_lt in Hb. apply Z.ltb_lt. lia. }
  set (n := partition_point f l) in *. rewrite <- (take_drop n l) in Hs, Hne, Hov.
  apply StronglySorted_app in Hs as (Hx & Hs1 & Hs2). apply Forall_app in Hne as [_ Hne2].
  apply Forall_app in Hov as [Hov1 Hov2]. rewrite Forall_forall in H1, H2, Hne2, Hov1, Hov2.
  apply StronglySorted_app. split_and!; [|done|].
  - intros a b Ha [->|Hb]%elem_of_cons; [|by apply Hx].
    specialize (H1 a Ha). specialize (Hov1 a Ha). unfold f, overlaps_with in *. simpl in *.
    apply Z.ltb_lt in H1. apply andb_false_iff in Hov1 as [?|?]; simpl_bool; lia.
  - constructor; [done|]. apply Forall_forall. intros b Hb. specialize (H2 b Hb). specialize (Hov2 b Hb).
    specialize (Hne2 b Hb). unfold f, overlaps_with in *. simpl in *.
    apply Z.ltb_ge in H2. apply andb_false_iff in Hov2 as [?|?]; simpl_bool; lia.
Qed.

Lemma mapping_nonempty bp k sid sp :
  ks_inv bp k -> spaces k !! sid = Some sp -> Forall (fun x => m_start x < m_end x) (mappings sp).
Proof.
  intros Hi Hs. apply Forall_forall. intros m Hm.
  destruct (ks_maps _ _ Hi sid sp m Hs Hm) as [_ _ (a & Ha & -> & _)].
  destruct (vm_areas _ (ks_vm _ _ Hi) _ _ Ha). lia.
Qed.

(** Only the memory matters. *)
Lemma mapping_ok_vm k sps root m : mapping_ok k root m -> mapping_ok (mkKState (vm k) sps) root m.
Proof. intros [Hs Hat (a & Ha & He & Hp)]. constructor; [done..|]. by exists a. Qed.

(** Recording a mapping whose pages are mapped. *)
Lemma record_mapping_inv bp k sid sp m :
  ks_inv bp k -> spaces k !! sid = Some sp -> mapping_ok k (root_of sp) m ->
  Forall (fun x => overlaps_with x (m_start m) (m_end m) = false) (mappings sp) ->
  ks_inv bp (mkKState (vm k) (<[sid := mkVmSpace (vs_arch sp) (insert_mapping m (mappings sp))]> (spaces k))).
Proof.
  intros Hi Hs Hm Hov. set (sp' := mkVmSpace _ _).
  assert (forall sid' sp1, <[sid := sp']> (spaces k) !! sid' = Some sp1 ->
    exists sp0, spaces k !! sid' = Some sp0 /\ root_of sp1 = root_of sp0 /\ vs_arch sp1 = vs_arch sp0 /\
      (sp1 = sp0 \/ sid' = sid /\ sp0 = sp /\ sp1 = sp')) as Hold.
  { intros sid' sp1 [[<- <-]|[? H']]%lookup_insert_Some; [exists sp|exists sp1]; split_and!; auto. }
  constructor; simpl.
  - apply (ks_vm _ _ Hi).
  - apply (ks_bp _ _ Hi).
  - apply (ks_fixed _ _ Hi).
  - apply (ks_statics _ _ Hi).
  - apply (ks_giga _ _ Hi).
  - intros sid' sp1 (sp0 & Hs0 & -> & -> & _)%Hold. by apply (ks_root _ _ Hi sid').
  - intros sid' sp1 (sp0 & Hs0 & -> & _)%Hold. by apply (ks_pt _ _ Hi sid').
  - intros sid' sp1 id x (sp0 & Hs0 & -> & _)%Hold. by apply (ks_tables _ _ Hi sid').
  - apply (ks_boot _ _ Hi).
  - intros sid' sp1 x (sp0 & Hs0 & -> & _)%Hold. by apply (ks_kept _ _ Hi sid').
  - intros sid1 sp1 sid2 sp2 x (sp1' & Hs1 & -> & _)%Hold (sp2' & Hs2 & -> & _)%Hold.
    by apply (ks_spaces _ _ Hi sid1 _ sid2).
  - intros sid' sp1 (sp0 & Hs0 & _ & _ & [->|(-> & -> & ->)])%Hold; [by apply (ks_sorted _ _ Hi sid')|].
    simpl. apply insert_mapping_sorted; [|by eapply mapping_nonempty|by apply (ks_sorted _ _ Hi sid)|done].
    destruct Hm as [_ _ (a & Ha & -> & _)]. destruct (vm_areas _ (ks_vm _ _ Hi) _ _ Ha). lia.
  - intros sid' sp1 m' (sp0 & Hs0 & -> & _ & [->|(-> & -> & ->)])%Hold Hm'; apply mapping_ok_vm;
      [by apply (ks_maps _ _ Hi sid')|]. revert Hm'. simpl. intros [->|Hm']%insert_mapping_elem; [done|]. by apply (ks_maps _ _ Hi sid).
  - intros sid' sp1 va e (sp0 & Hs0 & -> & _)%Hold Hu Hl. apply (user_leaf_mono bp k);
      [done| |by apply (ks_leaves _ _ Hi sid' sp0 va)].
    intros sid2 sp2 x (sp3 & Hs3 & -> & _)%Hold Ht. right. by exists sid2, sp3.
Qed.

(** ** Translations of mapped addresses *)

Lemma mapped_translation bp k sid sp id a attrs start off :
  ks_inv bp k -> spaces k !! sid = Some sp -> areas (vm k) !! id = Some a ->
  0 <= start -> start mod MIN_PAGE_SIZE = 0 -> start + area_len a <= 2 ^ 47 -> 0 <= attrs < 8 ->
  pages_mapped k (root_of sp) id attrs start (length (pages a)) -> 0 <= off < area_len a ->
  exists tr, translate (kram k) (root_of sp) (start + off) = Some tr /\ tr_user tr = true /\
    tr_write tr = attrs_contains attrs ATTR_WRITE /\ kram k (tr_paddr tr) = content (vm k) id off.
Proof.
  intros Hi Hs Ha Hst Hsm Hend Hat Hpm Hoff. pose proof (ks_vm _ _ Hi) as Hvm.
  destruct (area_index (vm k) id a off) as [Hidx0 Hidx]; [done..|].
  destruct (Hpm (Z.to_nat (off / MIN_PAGE_SIZE))) as (p & Hp & Hl); [lia|].
  assert (is_user (start + off)) as Hu by (unfold is_user; lia).
  set (va0 := start + MIN_PAGE_SIZE * Z.of_nat (Z.to_nat (off / MIN_PAGE_SIZE))) in *.
  assert (is_user va0) as Hu0 by (eapply (pages_user (vm k)); eauto; lia).
  assert ((start + off) / MIN_PAGE_SIZE = va0 / MIN_PAGE_SIZE) as Hpg.
  { unfold va0. rewrite Z2Nat.id by lia. unfold MIN_PAGE_SIZE in *. dlia. }
  apply (page_key_eq _ _ Hu Hu0) in Hpg as [E1 E2].
  rewrite (translate_user _ _ _ _ _ (ks_pt _ _ Hi sid sp Hs) Hu).
  unfold leaf_of in Hl. rewrite E1, E2, Hl. simpl.
  destruct (vm_bounds _ Hvm _ _ _ Hp). pose proof (vm_aligned _ Hvm _ _ _ Hp).
  unfold user_pte, attrs_as_raw. rewrite leaf_translation_new;
    [|done|unfold DIRECT_MAP_SIZE, GIGA_PAGE_SIZE, MIN_PAGE_SIZE in *; lia|done].
  eexists. split; [done|]. simpl. split_and!; [done..|].
  rewrite (content_page (vm k) id a off p) by done. unfold kram. f_equal.
  f_equal. unfold MIN_PAGE_SIZE in *. dlia.
Qed.

(** ** [map] *)

(** What [map] guarantees, in terms of the invariant. *)
Definition vmspace_map_post (bp : KernelImage) k sid sp id a uaddr attrs (r : result ErrorCode unit) k' : Prop :=
  ks_inv bp k' /\ vm_extends (vm k) (vm k') /\ (forall id' x, content (vm k') id' x = content (vm k) id' x) /\
  (forall sid' sp' va, spaces k !! sid' = Some sp' -> is_user va ->
     ~ (sid' = sid /\ covers uaddr (area_len a) va) ->
     leaf_of k' (root_of sp') va = leaf_of k (root_of sp') va) /\
  match r with
  | Ok _ => spaces k' = <[sid := mkVmSpace (vs_arch sp)
        (insert_mapping (mkMapping uaddr (uaddr + area_len a) id attrs) (mappings sp))]> (spaces k) /\
      pages_mapped k' (root_of sp) id attrs uaddr (length (pages a)) /\ uaddr mod MIN_PAGE_SIZE = 0
  | Err e => spaces k' = spaces k /\
      (e = INVALID_ARG /\ uaddr mod MIN_PAGE_SIZE <> 0 \/ e = ALREADY_EXISTS \/ e = OUT_OF_MEMORY)
  end.

Lemma vmspace_map_unchanged bp k sid sp id a uaddr attrs e :
  ks_inv bp k ->
  e = INVALID_ARG /\ uaddr mod MIN_PAGE_SIZE <> 0 \/ e = ALREADY_EXISTS \/ e = OUT_OF_MEMORY ->
  vmspace_map_post bp k sid sp id a uaddr attrs (Err e) k.
Proof. intros Hi He. split; [done|]. split; [done|]. split; [done|]. by split. Qed.

Lemma vmspace_map_spec bp k reserve sid sp id a uaddr attrs :
  ks_inv bp k -> spaces k !! sid = Some sp -> areas (vm k) !! id = Some a ->
  0 <= uaddr -> uaddr + area_len a <= 2 ^ 47 -> 0 <= attrs < 8 ->
  exists r k', vmspace_map reserve sid id uaddr attrs k = Ret (r, k') /\
    vmspace_map_post bp k sid sp id a uaddr attrs r k'.
Proof.
  intros Hi Hs Ha Hu Hend Hat. unfold vmspace_map, UAddr_is_aligned_to.
  destruct (vm_areas _ (ks_vm _ _ Hi) _ _ Ha) as [Hal Hlen].
  rewrite (bind_lift _ _ _ (uaddr mod MIN_PAGE_SIZE =? 0)) by apply is_aligned_page.
  destruct (Z.eqb_spec (uaddr mod MIN_PAGE_SIZE) 0) as [Hum|Hum]; cbn [negb].
  2: { eexists _, _. split; [done|]. apply vmspace_map_unchanged; auto. }
  rewrite (bind_run _ _ k (area_len a) k).
  2: { unfold on_vm, vmarea_len. rewrite (bind_run _ _ _ _ _ (area_ref_run _ _ _ Ha)). by destruct k. }
  unfold UAddr_add. destruct (checked_add_spec 64 uaddr (area_len a)) as [[-> _]|[_ ?]]; [|lia].
  cbn [ok_or]. rewrite (bindr_ok _ _ k (uaddr + area_len a) k) by done.
  rewrite (bind_run _ _ k sp k) by (unfold space_ref; by rewrite Hs).
  destruct (existsb _ (mappings sp)) eqn:Hov.
  { eexists _, _. split; [done|]. apply vmspace_map_unchanged; auto. }
  destruct reserve; cbn [negb].
  2: { eexists _, _. split; [done|]. apply vmspace_map_unchanged; auto. }
  assert (Z.to_nat (area_len a / MIN_PAGE_SIZE) = length (pages a)) as -> by (unfold MIN_PAGE_SIZE in *; dlia).
  destruct (map_loop_spec bp sid sp id attrs uaddr (length (pages a)) k a 0) as (r & k1 & E & Hi1 & Hg & Hr);
    try done; [by intros i Hlt; lia|].
  change (Z.of_nat 0) with 0 in E. rewrite Z.mul_0_r, Z.add_0_r in E. destruct r as [u|e].
  2: { rewrite (bindr_err _ _ _ _ _ E). exists (Err e), k1. split; [done|]. destruct Hg as [Hsp He Hc _ Hl].
       split; [done|]. split; [done|]. split; [done|]. split; [done|]. split; [done|by right]. }
  rewrite (bindr_ok _ _ _ _ _ E). set (m := mkMapping uaddr (uaddr + area_len a) id attrs).
  eexists (Ok tt), (mkKState (vm k1) (<[sid := mkVmSpace (vs_arch sp) (insert_mapping m (mappings sp))]> (spaces k1))).
  split; [done|]. destruct Hg as [Hsp He Hc _ Hl].
  destruct (extends_pages (vm k) (vm k1) id a) as (a1 & Ha1 & Hl1 & Hp1);
    [apply (ks_vm _ _ Hi)|apply (ks_vm _ _ Hi1)|done|done|].
  split; [|split; [done|split; [done|split; [done|]]]].
  - apply record_mapping_inv; [done|by rewrite Hsp| |].
    + constructor; [done..|]. exists a1. simpl. rewrite Hl1, Hp1. done.
    + apply Forall_forall. intros x Hx. destruct (overlaps_with x _ _) eqn:Ho; [|done].
      rewrite <- not_true_iff_false in Hov. destruct Hov. apply existsb_exists. exists x.
      by rewrite <- list_elem_of_In.
  - rewrite Hsp. done.
Qed.

(** ** [read_bytes] *)

Definition map_covers (m : Mapping) (va : Z) : Prop := m_start m <= va < m_end m.

(** The byte user code of the space sees at [va]. *)
Definition space_byte k (sp : VmSpace) (va b : Z) : Prop :=
  exists m, m ∈ mappings sp /\ map_covers m va /\ content (vm k) (m_vmarea m) (va - m_start m) = b.

(** Where the loop over the mappings stands: everything before [iter] ends at
    or below [va], everything after its head starts above it. *)
Definition read_at (l iter : list Mapping) (va : Z) : Prop :=
  exists pre, l = pre ++ iter /\ Forall (fun m => m_end m <= va) pre /\
    Forall (fun m => va < m_start m) (tail iter).

Definition read_result k sp (iter : list Mapping) (va : Z) (buf : list Z)
    (r : result ErrorCode unit) (bs : list Z) : Prop :=
  (length bs <= length buf)%nat /\
  (forall (i : nat) b, bs !! i = Some b -> space_byte k sp (va + Z.of_nat i) b) /\
  match r with
  | Ok _ => (length bs = length buf \/ Forall (fun m => m_end m <= va + len bs) iter) /\
            (iter <> [] -> buf <> [] -> bs <> [])
  | Err e => e = OUT_OF_BOUNDS /\ (length bs < length buf)%nat /\
             (forall m, m ∈ mappings sp -> ~ map_covers m (va + len bs))
  end.

Lemma read_gap l m rest va :
  read_at l (m :: rest) va -> ~ map_covers m va -> forall m', m' ∈ l -> ~ map_covers m' va.
Proof.
  intros (pre & -> & Hpre & Hpost) Hm m' [Hm'|[->|Hm']%elem_of_cons]%elem_of_app; [| done |].
  - rewrite Forall_forall in Hpre. specialize (Hpre m' Hm'). unfold map_covers. lia.
  - simpl in Hpost. rewrite Forall_forall in Hpost. specialize (Hpost m' Hm'). unfold map_covers. lia.
Qed.

Lemma read_next l m rest va :
  StronglySorted (fun a b => m_end a <= m_start b) l -> Forall (fun x => m_start x < m_end x) l ->
  read_at l (m :: rest) va -> map_covers m va -> read_at l rest (m_end m).
Proof.
  intros Hs Hne (pre & -> & Hpre & _) Hm. exists (pre ++ [m]). rewrite <- app_assoc. split; [done|].
  apply StronglySorted_app in Hs as (_ & _ & Hs). apply StronglySorted_inv in Hs as [Hs Hm2].
  apply Forall_app in Hne as [_ Hne]. apply Forall_cons in Hne as [_ Hne]. split.
  - apply Forall_app. split; [|by repeat constructor]. eapply Forall_impl; [exact Hpre|].
    unfold map_covers in Hm. simpl. lia.
  - destruct rest as [|m2 rest]; [constructor|]. simpl. apply StronglySorted_inv in Hs as [_ Hs].
    apply Forall_cons in Hm2 as [? _]. apply Forall_cons in Hne as [? _].
    eapply Forall_impl; [exact Hs|]. simpl. lia.
Qed.

(** The bytes read from one mapping. *)
Lemma mapping_bytes k sp m va (j : nat) (i : nat) b :
  m ∈ mappings sp -> m_start m <= va -> va + Z.of_nat j <= m_end m ->
  mem_read (content (vm k) (m_vmarea m)) (va - m_start m) j !! i = Some b ->
  space_byte k sp (va + Z.of_nat i) b.
Proof.
  intros Hm Hs He Hb. pose proof (lookup_lt_Some _ _ _ Hb) as Hi. rewrite length_mem_read in Hi.
  rewrite mem_read_lookup in Hb by done. simplify_eq. exists m. split; [done|].
  split; [unfold map_covers; lia|]. f_equal. lia.
Qed.

Lemma space_byte_grows sid R k k' sp va b :
  ks_grows sid R k k' -> space_byte k' sp va b -> space_byte k sp va b.
Proof.
  intros Hg (m & Hm & Hc & <-). exists m. split; [done|]. split; [done|]. by rewrite (kg_content _ _ _ _ Hg).
Qed.

(** Continue with the next mapping. *)
Lemma read_result_app sid R k k1 sp m rest va buf bytes r bs (n : nat) :
  ks_grows sid R k k1 -> length bytes = n -> (0 < n <= length buf)%nat -> va + Z.of_nat n = m_end m ->
  (forall (i : nat) b, bytes !! i = Some b -> space_byte k sp (va + Z.of_nat i) b) ->
  read_result k1 sp rest (va + Z.of_nat n) (drop n buf) r bs ->
  read_result k sp (m :: rest) va buf r (bytes ++ bs).
Proof.
  intros Hg Hb Hn He Hby (Hl & Hbs & Hr). rewrite length_drop in Hl, Hr. split; [rewrite length_app; lia|].
  rewrite length_app, Hb. split.
  - intros i b [Hi|[Hge Hi]]%lookup_app_Some; [by apply Hby|].
    eapply space_byte_grows; [exact Hg|]. replace (va + Z.of_nat i) with
      (va + Z.of_nat n + Z.of_nat (i - length bytes)) by lia. by apply Hbs.
  - replace (va + Z.of_nat (n + length bs)) with (va + Z.of_nat n + len bs) by lia.
    destruct r as [u|e]; [|split_and!; try apply Hr; lia]. destruct Hr as [Hr _]. split.
    + destruct Hr as [?|Hr]; [left; lia|right]. constructor; [lia|done].
    + intros _ _ [-> _]%app_nil. simpl in Hb. lia.
Qed.

Lemma read_mappings_nil iter va : read_mappings (Mc := Mc) iter va [] = ret (Ok tt, []).
Proof. by destruct iter. Qed.

Lemma read_mappings_spec bp sid sp iter : forall k va buf,
  ks_inv bp k -> spaces k !! sid = Some sp -> read_at (mappings sp) iter va -> 0 <= va ->
  exists r k' bs, read_mappings iter va buf k = Ret ((r, bs ++ drop (length bs) buf), k') /\
    ks_inv bp k' /\ ks_grows sid (fun _ => False) k k' /\ read_result k sp iter va buf r bs.
Proof.
  induction iter as [|m rest IH]; intros k va buf Hi Hs Hat Hva.
  - exists (Ok tt), k, []. rewrite drop_0. split; [by destruct buf|]. split; [done|].
    split; [apply ks_grows_refl|]. split; [simpl; lia|]. split; [done|]. split; [right; constructor|done].
  - destruct buf as [|b0 buf0] eqn:Hbuf.
    { exists (Ok tt), k, []. split; [done|]. split; [done|]. split; [apply ks_grows_refl|].
      split; [simpl; lia|]. split; [done|]. split; [by left|done]. }
    cbn [read_mappings]. rewrite <- Hbuf. assert (0 < len buf) as Hlen by (subst; simpl; lia). clear b0 buf0 Hbuf.
    pose proof Hat as (pre & Hl & _). assert (m ∈ mappings sp) as Hm by (rewrite Hl; set_solver).
    destruct (ks_maps _ _ Hi sid sp m Hs Hm) as [(Hm0 & _ & Hm47) _ (a & Ha & Hme & Hpg)].
    destruct ((m_start m <=? va) && (va <? m_end m)) eqn:Hc; cbn [negb].
    2: { exists (Err OUT_OF_BOUNDS), k, []. rewrite drop_0. split; [done|]. split; [done|].
         split; [apply ks_grows_refl|]. split; [simpl; lia|]. split; [done|]. split; [done|]. split; [simpl; lia|].
         rewrite Z.add_0_r. eapply read_gap; [done|]. unfold map_covers.
         apply andb_false_iff in Hc as [?|?]; simpl_bool; lia. }
    simpl_bool. rewrite (bind_lift _ _ _ (m_end m - va)) by (apply usize_sub_ok; lia).
    set (n := Z.min (len buf) (m_end m - va)).
    rewrite (bind_lift _ _ _ (take (Z.to_nat n) buf)).
    2: { unfold slice_index. rewrite slice_get_ok by lia. by rewrite drop_0, Z.sub_0_r. }
    rewrite (bind_lift _ _ _ _ (slice_index_from buf n ltac:(lia))).
    rewrite (bind_lift _ _ _ (va - m_start m)) by (apply usize_sub_ok; lia).
    destruct (vmarea_read_spec (vm k) (m_vmarea m) a (va - m_start m) (take (Z.to_nat n) buf))
      as (r & st & j & Hj & E & Hlk & Hr); [apply (ks_vm _ _ Hi)|done|lia|].
    rewrite length_take in Hj, Hr.
    rewrite (bind_run _ _ _ _ _ (on_vm_run _ _ _ _ E)).
    destruct (looked_step bp k sid st Hi Hlk) as [Hi1 Hg1]. set (k1 := mkKState st (spaces k)) in *.
    set (bytes := mem_read (content (vm k) (m_vmarea m)) (va - m_start m) j) in *.
    assert (length bytes = j) as Hbl by apply length_mem_read.
    assert (forall (i : nat) b, bytes !! i = Some b -> space_byte k sp (va + Z.of_nat i) b) as Hby.
    { intros i b. apply mapping_bytes; [done|lia|lia]. }
    rewrite (proj2 (Z.leb_le _ _)) in Hr by lia. destruct r as [u|e].
    2: { exfalso. apply (proj2 Hr). intros a' i Ha' Hlt. rewrite Ha in Ha'. injection Ha' as <-.
         destruct (Hpg i Hlt) as (p & Hp & _). by exists p. }
    destruct Hr as [_ Hjn]. assert (j = Z.to_nat n) as Hj' by lia.
    rewrite (drop_ge (take _ _)), app_nil_r by (rewrite length_take; lia).
    unfold UAddr_add. destruct (checked_add_spec 64 va n) as [[-> _]|[_ ?]]; [|lia].
    destruct (decide (n = len buf)) as [Hn|Hn].
    { rewrite (drop_ge buf (Z.to_nat n)) by lia. exists (Ok tt), k1, bytes. split.
      - by rewrite read_mappings_nil, bind_ret, Hbl, (drop_ge buf) by lia.
      - split; [done|]. split; [done|]. split; [lia|]. split; [done|]. split; [left; lia|].
        intros _ _ Hnil. rewrite Hnil in Hbl. simpl in Hbl. lia. }
    assert (va + n = m_end m) as Hvn by lia. rewrite Hvn.
    destruct (IH k1 (m_end m) (drop (Z.to_nat n) buf)) as (r' & k' & bs & E' & Hi' & Hg' & Hr'); try done; [|lia|].
    { eapply read_next; [by apply (ks_sorted _ _ Hi sid)|by eapply mapping_nonempty|done|].
      unfold map_covers. lia. }
    rewrite (bind_run _ _ _ _ _ E'). exists r', k', (bytes ++ bs). split.
    { unfold ret. rewrite drop_drop, length_app, Hbl, Hj', app_assoc. done. }
    split; [done|]. split; [by eapply ks_grows_trans; [| |exact Hg1|exact Hg']|].
    eapply (read_result_app sid _ k k1 sp m rest va buf bytes r' bs (Z.to_nat n)); try done; [lia..|].
    by replace (va + Z.of_nat (Z.to_nat n)) with (m_end m) by lia.
Qed.

Lemma tail_drop_S {A} (n : nat) (l : list A) : tail (drop n l) = drop (S n) l.
Proof. revert l. induction n as [|n IH]; intros [|x l]; simpl; try done. Qed.

Lemma read_bytes_spec bp k sid sp uaddr buf :
  ks_inv bp k -> spaces k !! sid = Some sp -> 0 <= uaddr -> uaddr + len buf < 2 ^ 64 ->
  exists r k' bs, vmspace_read_bytes sid uaddr buf k = Ret ((r, bs ++ drop (length bs) buf), k') /\
    ks_inv bp k' /\ ks_grows sid (fun _ => False) k k' /\
    exists iter, iter `suffix_of` mappings sp /\ (buf <> [] -> is_err r = false -> iter <> []) /\
      read_result k sp iter uaddr buf r bs.
Proof.
  intros Hi Hs Hu Hend. destruct (decide (buf = [])) as [->|Hne].
  { exists (Ok tt), k, []. split; [done|]. split; [done|]. split; [apply ks_grows_refl|].
    exists (mappings sp). split; [done|]. split; [done|]. split; [done|]. split; [done|]. split; [by left|done]. }
  unfold vmspace_read_bytes. destruct buf as [|b0 buf0] eqn:Hbuf; [done|]. rewrite <- Hbuf in *. clear b0 buf0 Hbuf.
  unfold UAddr_add. destruct (checked_add_spec 64 uaddr (len buf)) as [[-> _]|[_ ?]]; [|lia].
  rewrite (bind_run _ _ k sp k) by (unfold space_ref; by rewrite Hs).
  set (f := fun m => m_start m <=? uaddr). pose proof (ks_sorted _ _ Hi sid sp Hs) as Hsort.
  pose proof (mapping_nonempty bp k sid sp Hi Hs) as Hnem.
  destruct (partition_point_sorted f (mappings sp)) as [H1 H2].
  { intros i j a b Hij Ha Hb Hfb. unfold f in *. rewrite Forall_lookup in Hnem.
    pose proof (StronglySorted_lookup _ _ _ _ _ _ Hsort Hij Ha Hb). pose proof (Hnem i a Ha). simpl in *.
    apply Z.leb_le in Hfb. apply Z.leb_le. lia. }
  pose proof (partition_point_length f (mappings sp)) as Hppl.
  set (pp := partition_point f (mappings sp)) in *.
  destruct (checked_sub_spec (Z.of_nat pp) 1) as [[-> Hpp]|[-> Hpp]].
  2: { assert (pp = 0%nat) as Hpp0 by lia. rewrite Hpp0, drop_0 in H2.
       exists (Err OUT_OF_BOUNDS), k, []. rewrite drop_0. split; [done|]. split; [done|].
       split; [apply ks_grows_refl|]. exists (mappings sp). split; [done|]. split; [done|].
       split; [simpl; lia|]. split; [done|]. split; [done|]. split; [by destruct buf; [|simpl; lia]|].
       intros m Hm. rewrite Forall_forall in H2.
       specialize (H2 m Hm). unfold f in H2. apply Z.leb_gt in H2. unfold map_covers. simpl. lia. }
  replace (Z.to_nat (Z.of_nat pp - 1)) with (pp - 1)%nat by lia.
  destruct (read_mappings_spec bp sid sp (drop (pp - 1) (mappings sp)) k uaddr buf)
    as (r & k' & bs & E & Hi' & Hg & Hr); [done..| |done|].
  - exists (take (pp - 1) (mappings sp)). rewrite take_drop. split; [done|]. split.
    + apply Forall_lookup. intros i m [Hm Hlt]%lookup_take_Some.
      destruct (lookup_lt_is_Some_2 (take pp (mappings sp)) (pp - 1)) as [m' Hm'].
      { rewrite length_take. lia. }
      pose proof (Forall_lookup_1 _ _ _ _ H1 Hm') as Hf. unfold f in Hf. apply Z.leb_le in Hf.
      apply lookup_take_Some in Hm' as [Hm' _].
      pose proof (StronglySorted_lookup _ _ _ _ _ _ Hsort Hlt Hm Hm') as Hle. simpl in Hle. lia.
    + replace (tail (drop (pp - 1) (mappings sp))) with (drop pp (mappings sp)).
      * eapply Forall_impl; [exact H2|]. intros m Hm. unfold f in Hm. by apply Z.leb_gt in Hm.
      * rewrite tail_drop_S. f_equal. lia.
  - exists r, k', bs. split; [done|]. split; [done|]. split; [done|].
    exists (drop (pp - 1) (mappings sp)). split; [by eexists; symmetry; apply take_drop|]. split; [|done].
    intros _ _ Hnil%(f_equal length). rewrite length_drop in Hnil. simpl in *. lia.
Qed.

(** ** Creating a space *)

Lemma add_space_inv bp k k1 sid sp :
  ks_inv bp k -> ks_inv bp k1 -> ks_grows sid (fun _ => False) k k1 ->
  (forall id x, backing (vm k1) id x -> backing (vm k) id x) ->
  (forall sid' sp' x, spaces k !! sid' = Some sp' -> in_tables (kram k1) (root_of sp') x ->
     in_tables (kram k) (root_of sp') x) ->
  pml4 (vs_arch sp) = paddr2vaddr (root_of sp) -> pt_inv (kavail k1) (kram k1) (root_of sp) bp ->
  (forall x, in_tables (kram k1) (root_of sp) x -> kavail k x) -> mappings sp = [] ->
  (forall va, is_user va -> leaf_of k1 (root_of sp) va = None) ->
  ks_inv bp (mkKState (vm k1) (<[sid := sp]> (spaces k1))).
Proof.
  intros Hi Hi1 Hg Hback Htab Hpml Hpt Hnew Hmaps Hno.
  assert (forall sid' sp' x, spaces k1 !! sid' = Some sp' -> in_tables (kram k1) (root_of sp') x ->
    ~ in_tables (kram k1) (root_of sp) x) as Hdis.
  { intros sid' sp' x Hs' Hx Hx'. rewrite (kg_spaces _ _ _ _ Hg) in Hs'.
    by apply (in_tables_avail bp k sid' sp' x Hi Hs' (Htab _ _ _ Hs' Hx)), Hnew. }
  constructor; simpl.
  - apply (ks_vm _ _ Hi1).
  - apply (ks_bp _ _ Hi1).
  - apply (ks_fixed _ _ Hi1).
  - apply (ks_statics _ _ Hi1).
  - apply (ks_giga _ _ Hi1).
  - intros sid' sp' [[<- <-]|[_ Hs']]%lookup_insert_Some; [done|]. by apply (ks_root _ _ Hi1 sid').
  - intros sid' sp' [[<- <-]|[_ Hs']]%lookup_insert_Some; [done|]. by apply (ks_pt _ _ Hi1 sid').
  - intros sid' sp' id x [[<- <-]|[_ Hs']]%lookup_insert_Some Hx; [|by apply (ks_tables _ _ Hi1 sid' sp')].
    intros Hb%Hback. by eapply backing_owned; [apply (ks_vm _ _ Hi)|done|by apply Hnew].
  - apply (ks_boot _ _ Hi1).
  - intros sid' sp' x [[<- <-]|[_ Hs']]%lookup_insert_Some; [|by apply (ks_kept _ _ Hi1 sid')].
    intros Hx%Hnew Hf. by apply (ks_fixed _ _ Hi x).
  - intros sid1 sp1 sid2 sp2 x [[<- <-]|[_ Hs1]]%lookup_insert_Some [[<- <-]|[_ Hs2]]%lookup_insert_Some Hne;
      [done| | |by apply (ks_spaces _ _ Hi1 sid1 sp1 sid2 sp2)].
    + intros Hx Hx'. by apply (Hdis sid2 sp2 x).
    + intros Hx. by apply (Hdis sid1 sp1 x).
  - intros sid' sp' [[<- <-]|[_ Hs']]%lookup_insert_Some; [rewrite Hmaps; constructor|].
    by apply (ks_sorted _ _ Hi1 sid').
  - intros sid' sp' m [[<- <-]|[_ Hs']]%lookup_insert_Some; [rewrite Hmaps; by intros ?%not_elem_of_nil|].
    intros Hm. apply mapping_ok_vm. by apply (ks_maps _ _ Hi1 sid').
  - intros sid' sp' va e [[<- <-]|[_ Hs']]%lookup_insert_Some Hu Hl.
    { pose proof (Hno va Hu) as Hn. unfold leaf_of, kram in *. simpl in *. congruence. }
    pose proof Hs' as Hs0. rewrite (kg_spaces _ _ _ _ Hg) in Hs0. change (leaf_of k1 (root_of sp') va = Some e) in Hl.
    rewrite (kg_leaf _ _ _ _ Hg sid' sp' va Hs0 Hu) in Hl by tauto.
    apply (user_leaf_mono bp k); [apply (ext_avail _ _ (kg_ext _ _ _ _ Hg))| |by apply (ks_leaves _ _ Hi sid' sp' va)].
    cbn [spaces]. intros sid2 sp2 x [[<- <-]|[_ Hs2]]%lookup_insert_Some Ht; [left; by apply Hnew|right].
    rewrite (kg_spaces _ _ _ _ Hg) in Hs2. exists sid2, sp2. split; [done|]. by apply (Htab sid2).
Qed.

Lemma vmspace_new_spec bp k :
  ks_inv bp k ->
  exists r k', vmspace_new (paddr2vaddr bp) k = Ret (r, k') /\
    match r with
    | Ok sp => mappings sp = [] /\ (forall va, is_user va -> leaf_of k' (root_of sp) va = None) /\
        (forall id x, content (vm k') id x = content (vm k) id x) /\
        areas (vm k') = areas (vm k) /\ spaces k' = spaces k /\
        ks_inv bp k' /\ forall sid, ks_inv bp (mkKState (vm k') (<[sid := sp]> (spaces k)))
    | Err e => e = OUT_OF_MEMORY /\ k' = k
    end.
Proof.
  intros Hi. pose proof (ks_vm _ _ Hi) as Hvm.
  destruct (arch_vmspace_new_spec bp (machine (vm k))) as (r & s' & E & Hr);
    [apply Hvm|apply (ks_bp _ _ Hi)|apply (ks_giga _ _ Hi)|].
  unfold vmspace_new. pose proof (on_vm_run _ k _ _ (on_machine_run _ (vm k) _ _ E)) as E'.
  destruct r as [arch|e].
  2: { destruct Hr as [-> ->]. rewrite (bindr_err _ _ _ _ _ E'). exists (Err OUT_OF_MEMORY), k.
       split; [|done]. by destruct k as [[]]. }
  destruct Hr as (root & -> & [Hm Hpt] & Ht & Hav & Hnew & Hram). rewrite (bindr_ok _ _ _ _ _ E').
  set (st := mkVmState s' (areas (vm k))). eexists _, (mkKState st (spaces k)). split; [done|].
  assert (looked (vm k) st) as Hlk.
  { constructor.
    - by apply vm_inv_machine.
    - constructor; try done. by left.
    - intros x Hx _. by apply Hram.
    - intros id x. apply content_machine. intros y Hy. apply Hram. by apply (backing_owned k id). }
  split; [done|].
  assert (forall va, is_user va -> leaf_of (mkKState st (spaces k)) root va = None) as Hno.
  { intros va Hva. unfold leaf_of, leaf, kram, root_of; cbn [vm machine vs_arch cr3 st].
    destruct (user_path_snoc _ _ (user_path_of va Hva)) as [Hp _].
    by rewrite (Ht _ Hp) by (simpl; lia). }
  split; [done|split; [apply Hlk|split; [done|split; [done|]]]].
  split; [by apply (looked_step bp k 0)|]. intros sid. destruct (looked_step bp k sid st Hi Hlk) as [Hi1 Hg].
  apply (add_space_inv bp k (mkKState st (spaces k)) sid); try done.
  intros sid' sp' x Hs'. apply (stable_in_tables (kavail k) (avail s') (kram k) (ram s') (root_of sp') bp
    (ks_pt _ _ Hi _ _ Hs') Hav). intros y [Hy|Hy]; apply Hram;
    [by apply (in_tables_avail bp k sid' sp' y)|by apply (boot_owned bp k y)].
Qed.

Lemma translate_leaf bp k k' sid sp va :
  ks_inv bp k -> ks_inv bp k' -> spaces k !! sid = Some sp ->
  (exists sp', spaces k' !! sid = Some sp' /\ root_of sp' = root_of sp) -> is_user va ->
  leaf_of k' (root_of sp) va = leaf_of k (root_of sp) va ->
  translate (kram k') (root_of sp) va = translate (kram k) (root_of sp) va.
Proof.
  intros Hi Hi' Hs (sp' & Hs' & Hr) Hva Hl.
  rewrite (translate_user _ _ _ _ _ (ks_pt _ _ Hi sid sp Hs) Hva).
  pose proof (ks_pt _ _ Hi' sid sp' Hs') as Hpt'. rewrite Hr in Hpt'.
  rewrite (translate_user _ _ _ _ _ Hpt' Hva). unfold leaf_of in Hl. by rewrite Hl.
Qed.

(** * Properties *)


(** [VmSpace::read_bytes] returns the bytes user code sees.  It returns
    and keeps the invariant; the bytes it stores, a prefix of the buffer, are
    those of the mappings at these addresses.  The only error is
    [OUT_OF_BOUNDS], which means that the next address is not mapped: mapped
    pages are in memory, so a read never runs out of it.  [Ok] means that the buffer is full, or
    that the prefix is not empty and ends where the last mapping ends. *)
Theorem vmspace_read_bytes_correct (bp : KernelImage) k (sid : Z) (sp : VmSpace) (uaddr : Z) (buf : list Z) :
  ks_inv bp k -> spaces k !! sid = Some sp -> 0 <= uaddr -> uaddr + len buf < 2 ^ 64 ->
  exists r k' bs, vmspace_read_bytes sid uaddr buf k = Ret ((r, bs ++ drop (length bs) buf), k') /\
    ks_inv bp k' /\ (forall id x, content (vm k') id x = content (vm k) id x) /\
    (length bs <= length buf)%nat /\
    (forall (i : nat) b, bs !! i = Some b -> space_byte k sp (uaddr + Z.of_nat i) b) /\
    match r with
    | Ok _ => length bs = length buf \/ bs <> [] /\
        exists iter, iter `suffix_of` mappings sp /\ iter <> [] /\ Forall (fun m => m_end m <= uaddr + len bs) iter
    | Err e => e = OUT_OF_BOUNDS /\ (length bs < length buf)%nat /\
               (forall m, m ∈ mappings sp -> ~ map_covers m (uaddr + len bs))
    end.
Proof.
  intros Hi Hs Hu Hend.
  destruct (read_bytes_spec bp k sid sp uaddr buf) as (r & k' & bs & E & Hi' & Hg & iter & Hsuf & Hnil & Hl & Hb & Hr);
    [done..|].
  exists r, k', bs. split; [exact E|]. split; [done|]. split; [apply Hg|]. split; [done|]. split; [done|].
  destruct r; [|done]. destruct Hr as [[?|?] Hne]; [by left|].
  destruct (decide (length bs = length buf)) as [|Hlen]; [by left|right].
  assert (buf <> []) as Hbuf by (intros ->; simpl in Hl; destruct bs; simpl in *; lia).
  split; [by apply Hne, Hbuf; apply Hnil|]. exists iter. split; [done|]. split; [by apply Hnil|done].
Qed.

(** A new address space has no user mapping, and creating it disturbs
    neither the areas nor the other spaces: whatever key the object gets, the
    invariant holds with it added. *)
Theorem vmspace_new_correct (bp : KernelImage) k :
  ks_inv bp k ->
  exists r k', vmspace_new (paddr2vaddr bp) k = Ret (r, k') /\
    match r with
    | Ok sp => mappings sp = [] /\ (forall va, is_user va -> leaf_of k' (root_of sp) va = None) /\
        (forall id x, content (vm k') id x = content (vm k) id x) /\ spaces k' = spaces k /\
        forall sid, ks_inv bp (mkKState (vm k') (<[sid := sp]> (spaces k)))
    | Err e => e = OUT_OF_MEMORY /\ k' = k
    end.
Proof.
  intros Hi. destruct (vmspace_new_spec bp k Hi) as (r & k' & E & Hr). exists r, k'. split; [exact E|].
  destruct r; [|done]. destruct Hr as (? & ? & ? & _ & ? & _ & ?). done.
Qed.

End Steps.

(** ** Witnesses: one area of one page, one address space *)

#[local] Existing Instance dev.

Definition page_area : VmArea := mkVmArea [None] Anonymous 0x1000.

Definition example_kernel_state : KState Phys :=
  mkKState (mkVmState boot_machine {[0x5000 := page_area]}) ∅.

Definition example_image : KernelImage := mkKernelImage 0x100000 [].

Lemma example_fixed x : fixed example_image x -> in_block 0x100000 MIN_PAGE_SIZE x.
Proof. intros [Hx|(a & bs & Hin & _)]; [done|]. by apply elem_of_nil in Hin. Qed.

Lemma example_kernel_inv : ks_inv example_image example_kernel_state.
Proof.
  assert (forall id i p, ~ page_at (vm example_kernel_state) id i p) as Hn.
  { intros id i p (a & Ha & Hp). simpl in Ha. apply lookup_singleton_Some in Ha as [<- <-].
    destruct i as [|i]; done. }
  constructor; simpl.
  - constructor; simpl.
    + apply boot_machine_inv.
    + intros id a Ha. apply lookup_singleton_Some in Ha as [<- <-]. done.
    + intros id i p []%Hn.
    + intros id i p []%Hn.
    + intros id i p x []%Hn.
    + intros id i id' i' p []%Hn.
  - apply boot_pdpt_frame.
  - intros x Hx%example_fixed. destruct boot_pdpt_frame as (_ & _ & _ & Hf). by apply Hf.
  - intros a bs Hin%elem_of_nil. done.
  - apply boot_pdpt_giga.
  - by intros sid sp ?%lookup_empty_Some.
  - by intros sid sp ?%lookup_empty_Some.
  - by intros sid sp id x ?%lookup_empty_Some.
  - intros id x _ (i & p & []%Hn & _).
  - by intros sid sp x ?%lookup_empty_Some.
  - by intros sid sp sid' sp' x ?%lookup_empty_Some.
  - by intros sid sp ?%lookup_empty_Some.
  - by intros sid sp m ?%lookup_empty_Some.
  - by intros sid sp va e ?%lookup_empty_Some.
Qed.

Lemma vmspace_new_correct_witness :
  exists r k', vmspace_new (paddr2vaddr 0x100000) example_kernel_state = Ret (r, k') /\
    match r with
    | Ok sp => mappings sp = [] /\ (forall va, is_user va -> leaf_of k' (root_of sp) va = None) /\
        (forall id x, content (vm k') id x = content (vm example_kernel_state) id x) /\
        spaces k' = spaces example_kernel_state /\
        forall sid, ks_inv example_image (mkKState (vm k') (<[sid := sp]> (spaces example_kernel_state)))
    | Err e => e = OUT_OF_MEMORY /\ k' = example_kernel_state
    end.
Proof. apply (vmspace_new_correct example_image example_kernel_state). apply example_kernel_inv. Defined.

Lemma example_space :
  exists k sp, ks_inv example_image k /\ spaces k !! 0x9000 = Some sp /\ areas (vm k) !! 0x5000 = Some page_area /\
    mappings sp = [].
Proof.
  destruct (observe_run (do* r := vmspace_new (paddr2vaddr 0x100000) in ret (is_err r)) example_kernel_state false)
    as [t Et]; [vm_compute; reflexivity|].
  destruct (vmspace_new_spec example_image example_kernel_state example_kernel_inv) as (r & k & E & Hr).
  rewrite (bind_run _ _ _ _ _ E) in Et. destruct r as [sp|]; [|discriminate Et].
  destruct Hr as (Hm & _ & _ & Har & _ & _ & Hi). eexists _, sp. split; [apply (Hi 0x9000)|].
  split; [apply lookup_insert_eq|]. split; [|exact Hm]. simpl. by rewrite Har.
Qed.


Lemma vmspace_read_bytes_correct_witness :
  exists k sp r k' bs, ks_inv example_image k /\ spaces k !! 0x9000 = Some sp /\
    vmspace_read_bytes 0x9000 0x10ffc [7; 7; 7; 7] k = Ret ((r, bs ++ drop (length bs) [7; 7; 7; 7]), k') /\
    forall (i : nat) b, bs !! i = Some b -> space_byte k sp (0x10ffc + Z.of_nat i) b.
Proof.
  destruct example_space as (k0 & sp0 & Hi0 & Hs0 & Ha0 & _).
  destruct (vmspace_map_spec example_image k0 true 0x9000 sp0 0x5000 page_area 0x10000 ATTR_READ)
    as (r0 & k & E0 & Hi & _ & _ & _ & Hr0);
    [exact Hi0|exact Hs0|exact Ha0|lia|vm_compute; discriminate|split; [discriminate|reflexivity]|].
  assert (exists sp, spaces k !! 0x9000 = Some sp) as [sp Hs].
  { destruct r0; destruct Hr0 as [-> _]; [eexists; apply lookup_insert_eq|eauto]. }
  destruct (vmspace_read_bytes_correct example_image k 0x9000 sp 0x10ffc [7; 7; 7; 7])
    as (r & k' & bs & E & _ & _ & _ & Hb & _); [exact Hi|exact Hs|lia|reflexivity|].
  exists k, sp, r, k', bs. split; [exact Hi|]. split; [exact Hs|]. split; [exact E|exact Hb].
Defined.

(** Create a space, map the one-page area at 64 KiB, read eight bytes that
    straddle its end. *)
Definition short_read_run : M (KState Phys) (result ErrorCode unit * list Z) :=
  do* r := vmspace_new (paddr2vaddr 0x100000) in
  match r with
  | Err e => ret (Err e, [])
  | Ok sp =>
      do* _ := space_put 0x9000 sp in
      do* _ := vmspace_map true 0x9000 0x5000 0x10000 ATTR_READ in
      vmspace_read_bytes 0x9000 0x10ffc [7; 7; 7; 7; 7; 7; 7; 7]
  end.

