(* ===== verification/SharedRef.v ===== *)
(** * kernel/src/shared_ref.rs: reference counting

    The heap cells behind [SharedRef]s as a store from the address of the
    [RefCounted] to its counter and value.  A kernel object may own references
    to other objects (a thread owns its address space, an address space owns
    the areas it maps); dropping the last reference to an object runs its
    destructor, which drops the references the object owns. *)

From S2P Require Import Prelude Bytes Api.

Record RefCounted (V : Type) : Type := mkRefCounted {
  counter : Z;
  value : V
}.
Arguments mkRefCounted {V} _ _.
Arguments counter {V} _.
Arguments value {V} _.

Definition RefCounted_new {V} (v : V) : RefCounted V := mkRefCounted 1 v.
Definition RefCounted_new_static {V} (v : V) : RefCounted V := mkRefCounted (USIZE_MAX / 2) v.

(** What a type of kernel objects promises: the references an object owns, in
    the order its destructor drops them, and how deep ownership nests. *)
Class Object (V : Type) : Type := {
  obj_refs : V -> list Z;
  obj_rank : V -> nat;
  max_rank : nat;
  obj_rank_max v : (obj_rank v <= max_rank)%nat
}.

(** [offset_of!(RefCounted<T>, value)], which the compiler chooses per type. *)
Class RefLayout : Set := { value_offset : TypeId -> Z }.

Abbreviation RefStore V := (gmap Z (RefCounted V)).

(** A loop over a list. *)
Definition for_each {St A : Type} (f : A -> M St unit) : list A -> M St unit :=
  fix go l := match l with
              | [] => ret tt
              | x :: l => do* _ := f x in go l
              end.

Section SharedRefOps.
Context {P : Profile} {L : RefLayout} {V : Type} `{Object V}.
Abbreviation RM := (M (RefStore V)).

(** [inner]: following the pointer; a freed cell is undefined behaviour. *)
Definition sref_inner (r : Z) : RM (RefCounted V) :=
  fun st => match st !! r with
            | Some rc => Ret (rc, st)
            | None => Undef
            end.

Definition set_counter (r c : Z) : RM unit :=
  fun st => match st !! r with
            | Some rc => Ret (tt, <[r := mkRefCounted c (value rc)]> st)
            | None => Undef
            end.

Definition sref_as_ptr (T : TypeId) (r : Z) : RM Z :=
  do* _ := sref_inner r in
  ret (r + value_offset T).

Definition sref_eq (a b : Z) : bool := a =? b.

Definition sref_into_raw (T : TypeId) (r : Z) : RM Z := sref_as_ptr T r.

Definition sref_from_raw (T : TypeId) (raw : Z) : Z := raw - value_offset T.

Definition sref_clone (r : Z) : RM Z :=
  do* rc := sref_inner r in
  do* _ := lift (debug_assert (0 <? counter rc)) in
  do* _ := set_counter r (wrap 64 (counter rc + 1)) in
  ret r.

Definition sref_clone_from_raw (T : TypeId) (raw : Z) : RM Z :=
  sref_clone (sref_from_raw T raw).

Definition from_borrowed_handle (T : TypeId) (handle : Handle) (action : HandleRight)
  : RM (result ErrorCode Z) :=
  if negb (is_type handle T) then ret (Err INVALID_TYPE)
  else if negb (authorize handle action) then ret (Err NOT_ALLOWED)
  else do* r := sref_clone_from_raw T (h_raw handle) in ret (Ok r).

Definition from_moved_handle (T : TypeId) (handle : Handle) : RM (result ErrorCode Z) :=
  if negb (is_type handle T) then ret (Err INVALID_TYPE)
  else ret (Ok (sref_from_raw T (h_raw handle))).

Definition into_handle (T : TypeId) (DEFAULT_RIGHT : HandleRight) (r : Z) : RM Handle :=
  do* raw := sref_into_raw T r in
  ret (mkHandle raw T DEFAULT_RIGHT).

Definition sref_deref (r : Z) : RM V :=
  do* rc := sref_inner r in ret (value rc).

(** [Drop].  The destructor of the value owns it from the moment the counter
    reaches zero, so the cell leaves the store before the references it owns
    are dropped, in order. *)
Fixpoint drop_ref (fuel : nat) (r : Z) : RM unit :=
  match fuel with
  | O => lift Hang
  | S fuel =>
      do* rc := sref_inner r in
      do* _ := lift (debug_assert (0 <? counter rc)) in
      do* _ := set_counter r (wrap 64 (counter rc - 1)) in
      if counter rc =? 1 then
        do* _ := (fun st => Ret (tt, delete r st)) in
        for_each (drop_ref fuel) (obj_refs (value rc))
      else ret tt
  end.

Definition sref_drop (r : Z) : RM unit := drop_ref (S max_rank) r.

(** [ptr] is what the global allocator returned: [None] is null, and then the
    value, with the references it owns, is dropped on the way out. *)
Definition sref_new (ptr : option Z) (v : V) : RM (result ErrorCode Z) :=
  match ptr with
  | None => do* _ := for_each sref_drop (obj_refs v) in ret (Err OUT_OF_MEMORY)
  | Some p => fun st => Ret (Ok p, <[p := RefCounted_new v]> st)
  end.

End SharedRefOps.

(** ** The meaning of the counters *)

Section Ownership.
Context {V : Type} `{Object V}.

Definition occ (p : Z) (l : list Z) : Z := Z.of_nat (count_occ Z.eq_dec l p).

(** All the references that live objects own. *)
Definition all_refs (st : RefStore V) : list Z :=
  concat ((fun kv => obj_refs (value kv.2)) <$> map_to_list st).

(** [rc_inv own st]: every counter is the number of references there are to
    the object, those in [own] (locals, queues, handles) and those other
    objects own; and every reference is to a live object. *)
Record rc_inv (own : list Z) (st : RefStore V) : Prop := {
  rc_count p rc : st !! p = Some rc -> counter rc = occ p (own ++ all_refs st);
  rc_live p : p ∈ own ++ all_refs st -> is_Some (st !! p);
  rc_pos p rc : st !! p = Some rc -> 0 < counter rc < 2 ^ 64;
  rc_rank p rc q rc' : st !! p = Some rc -> q ∈ obj_refs (value rc) -> st !! q = Some rc' ->
    (obj_rank (value rc') < obj_rank (value rc))%nat
}.

(** The same as a test. *)
Definition rc_check (own : list Z) (st : RefStore V) : bool :=
  forallb (fun kv => (counter kv.2 =? occ kv.1 (own ++ all_refs st)) &&
                     (0 <? counter kv.2) && (counter kv.2 <? 2 ^ 64) &&
                     forallb (fun q => match st !! q with
                                       | Some rc => (obj_rank (value rc) <? obj_rank (value kv.2))%nat
                                       | None => false
                                       end) (obj_refs (value kv.2))) (map_to_list st) &&
  forallb (fun p => bool_decide (is_Some (st !! p))) own.

(** Objects keep their value while they live. *)
Definition survives (st st' : RefStore V) : Prop :=
  forall p rc', st' !! p = Some rc' -> exists rc, st !! p = Some rc /\ value rc' = value rc.

(** Enough fuel to destroy an object and all it owns. *)
Definition depth_ok (fuel : nat) (st : RefStore V) (l : list Z) : Prop :=
  forall p rc, p ∈ l -> st !! p = Some rc -> (obj_rank (value rc) < fuel)%nat.

(** States of the store that sequences of operations lead to, with the
    references the program then holds. *)
Inductive sref_reach {P : Profile} : list Z -> RefStore V -> Prop :=
| reach_start : sref_reach [] ∅
| reach_perm own own' st : sref_reach own st -> own ≡ₚ own' -> sref_reach own' st
| reach_new own st p v st' :
    sref_reach (obj_refs v ++ own) st -> st !! p = None ->
    (forall q rc, q ∈ obj_refs v -> st !! q = Some rc -> (obj_rank (value rc) < obj_rank v)%nat) ->
    sref_new (Some p) v st = Ret (Ok p, st') -> sref_reach (p :: own) st'
| reach_clone own st p rc st' :
    sref_reach own st -> p ∈ own -> st !! p = Some rc -> counter rc < 2 ^ 64 - 1 ->
    sref_clone p st = Ret (p, st') -> sref_reach (p :: own) st'
| reach_drop own st p st' :
    sref_reach (p :: own) st -> sref_drop p st = Ret (tt, st') -> sref_reach own st'.

End Ownership.

(** * Lemmas *)

Section OwnershipLemmas.
Context {P : Profile} {L : RefLayout} {V : Type} `{Object V}.
Implicit Types st : RefStore V.

Lemma occ_app p l1 l2 : occ p (l1 ++ l2) = occ p l1 + occ p l2.
Proof. unfold occ. rewrite count_occ_app. lia. Qed.

Lemma occ_cons p q l : occ p (q :: l) = (if decide (q = p) then 1 else 0) + occ p l.
Proof. unfold occ. simpl. destruct (Z.eq_dec q p), (decide (q = p)); (done || lia). Qed.

Lemma occ_perm p l1 l2 : l1 ≡ₚ l2 -> occ p l1 = occ p l2.
Proof. intros E. unfold occ. f_equal. by apply Permutation_count_occ. Qed.

Lemma occ_nonneg p l : 0 <= occ p l.
Proof. unfold occ. lia. Qed.

Lemma occ_pos p l : p ∈ l <-> 0 < occ p l.
Proof. unfold occ. rewrite list_elem_of_In, (count_occ_In Z.eq_dec). lia. Qed.

Lemma occ_absent p l : p ∉ l -> occ p l = 0.
Proof. rewrite occ_pos. pose proof (occ_nonneg p l). lia. Qed.

Lemma all_refs_fresh st p rc :
  st !! p = None -> all_refs (<[p := rc]> st) ≡ₚ obj_refs (value rc) ++ all_refs st.
Proof. intros E. unfold all_refs. by rewrite (map_to_list_insert st p rc E). Qed.

Lemma all_refs_delete st p rc :
  st !! p = Some rc -> all_refs st ≡ₚ obj_refs (value rc) ++ all_refs (delete p st).
Proof.
  intros E. rewrite <- (insert_delete_id st p rc E) at 1.
  apply all_refs_fresh, lookup_delete_eq.
Qed.

Lemma all_refs_insert st p rc rc' :
  st !! p = Some rc ->
  all_refs (<[p := rc']> st) ≡ₚ obj_refs (value rc') ++ all_refs (delete p st).
Proof.
  intros E. rewrite <- insert_delete_eq. apply all_refs_fresh, lookup_delete_eq.
Qed.

Lemma all_refs_same st p rc rc' :
  st !! p = Some rc -> obj_refs (value rc') = obj_refs (value rc) ->
  all_refs (<[p := rc']> st) ≡ₚ all_refs st.
Proof. intros E Hr. by rewrite (all_refs_insert st p rc rc' E), Hr, <- (all_refs_delete st p rc E). Qed.

Lemma all_refs_owner st p rc q : st !! p = Some rc -> q ∈ obj_refs (value rc) -> q ∈ all_refs st.
Proof. intros E Hq. rewrite (all_refs_delete st p rc E). set_solver. Qed.

Lemma all_refs_has_owner st q :
  q ∈ all_refs st -> exists p rc, st !! p = Some rc /\ q ∈ obj_refs (value rc).
Proof.
  unfold all_refs. rewrite list_elem_of_In, in_concat. intros (l & Hl & Hq).
  apply list_elem_of_In, list_elem_of_fmap in Hl as ([p rc] & -> & Hp).
  apply elem_of_map_to_list in Hp. exists p, rc. by rewrite list_elem_of_In.
Qed.

Lemma rc_inv_perm own own' st : own ≡ₚ own' -> rc_inv own st -> rc_inv own' st.
Proof.
  intros E [Hc Hl Hp Hr]. split; [|intros p; rewrite <- E; apply Hl|done|done].
  intros p rc Hst. rewrite (Hc p rc Hst). apply occ_perm. by rewrite E.
Qed.

Lemma rc_inv_empty : rc_inv [] (∅ : RefStore V).
Proof.
  assert (all_refs (∅ : RefStore V) = []) as E by (unfold all_refs; by rewrite map_to_list_empty).
  split; rewrite ?E; intros *; rewrite ?lookup_empty; try done. simpl. set_solver.
Qed.

Lemma rc_owned own st p : rc_inv own st -> p ∈ own -> exists rc, st !! p = Some rc.
Proof. intros Hi Hp. apply (rc_live _ _ Hi). set_solver. Qed.

Lemma rc_check_ok own st : rc_check own st = true -> rc_inv own st.
Proof.
  unfold rc_check. rewrite andb_true_iff, !forallb_forall. intros [Hall Hown].
  assert (forall p rc, st !! p = Some rc ->
    counter rc = occ p (own ++ all_refs st) /\ 0 < counter rc < 2 ^ 64 /\
    forall q, q ∈ obj_refs (value rc) -> exists rc', st !! q = Some rc' /\
      (obj_rank (value rc') < obj_rank (value rc))%nat) as Hst.
  { intros p rc Hp. apply elem_of_map_to_list, list_elem_of_In in Hp. apply Hall in Hp. simpl in Hp.
    rewrite !andb_true_iff, forallb_forall in Hp. destruct Hp as [[[E1%Z.eqb_eq E2%Z.ltb_lt] E3%Z.ltb_lt] E4].
    split; [done|split; [done|]]. intros q Hq. apply list_elem_of_In, E4 in Hq.
    destruct (st !! q) as [rc'|]; [|done]. exists rc'. split; [done|]. by apply Nat.ltb_lt. }
  split.
  - intros p rc Hp. by apply Hst.
  - intros p [Hp|Hp]%elem_of_app; [by eapply bool_decide_eq_true, Hown, list_elem_of_In|].
    apply all_refs_has_owner in Hp as (q & rc & Hq & Hin). apply Hst in Hq as (_ & _ & Hq).
    destruct (Hq p Hin) as (rc' & E & _). eauto.
  - intros p rc Hp. by destruct (Hst p rc Hp) as (_ & ? & _).
  - intros p rc q rc' Hp Hq E. apply Hst in Hp as (_ & _ & Hr). destruct (Hr q Hq) as (x & E' & Hlt).
    congruence.
Qed.

(** Replacing an object by one that owns the same references, with a counter
    that matches a new set of owners. *)
Lemma rc_inv_update own own' st p rc rc' :
  rc_inv own st -> st !! p = Some rc ->
  obj_refs (value rc') = obj_refs (value rc) -> obj_rank (value rc') = obj_rank (value rc) ->
  0 < counter rc' < 2 ^ 64 -> counter rc' = counter rc + (occ p own' - occ p own) ->
  (forall q, q <> p -> occ q own' = occ q own) ->
  rc_inv own' (<[p := rc']> st).
Proof.
  intros Hi Hp Hrefs Hrank Hpos Hcnt Hown.
  pose proof (all_refs_same st p rc rc' Hp Hrefs) as Hall.
  assert (forall q x, <[p := rc']> st !! q = Some x ->
    exists y, st !! q = Some y /\ obj_refs (value x) = obj_refs (value y) /\
              obj_rank (value x) = obj_rank (value y)) as Hold.
  { intros q x. rewrite lookup_insert_Some. intros [[<- <-]|[Hne Hq]]; eauto. }
  split.
  - intros q x. rewrite occ_app, (occ_perm q _ _ Hall), lookup_insert_Some.
    intros [[<- <-]|[Hne Hq]].
    + pose proof (rc_count _ _ Hi p rc Hp) as E. rewrite occ_app in E. lia.
    + pose proof (rc_count _ _ Hi q x Hq) as E. rewrite occ_app in E. rewrite Hown by done. lia.
  - intros q. rewrite Hall. destruct (decide (q = p)) as [->|Hne].
    + intros _. rewrite lookup_insert_eq. eauto.
    + rewrite lookup_insert_ne by done. rewrite elem_of_app, occ_pos, Hown, <- occ_pos by done.
      intros Hq. apply (rc_live _ _ Hi). by rewrite elem_of_app.
  - intros q x. rewrite lookup_insert_Some. intros [[<- <-]|[Hne Hq]]; [done|].
    by apply (rc_pos _ _ Hi q).
  - intros q x q' x' (y & Hy & Er & Ek)%Hold Hin (y' & Hy' & _ & Ek')%Hold.
    rewrite Ek, Ek'. rewrite Er in Hin. by apply (rc_rank _ _ Hi q y q' y').
Qed.

(** Mutating an object in place. *)
Lemma rc_inv_mutate own st p rc v :
  rc_inv own st -> st !! p = Some rc ->
  obj_refs v = obj_refs (value rc) -> obj_rank v = obj_rank (value rc) ->
  rc_inv own (<[p := mkRefCounted (counter rc) v]> st).
Proof.
  intros Hi Hp Hr Hk. eapply rc_inv_update; try done; simpl; [|lia].
  by apply (rc_pos _ _ Hi p).
Qed.

Lemma rc_inv_new own st p v :
  rc_inv (obj_refs v ++ own) st -> st !! p = None ->
  (forall q rc, q ∈ obj_refs v -> st !! q = Some rc -> (obj_rank (value rc) < obj_rank v)%nat) ->
  rc_inv (p :: own) (<[p := RefCounted_new v]> st).
Proof.
  intros Hi Hp Hrank. pose proof (all_refs_fresh st p (RefCounted_new v) Hp) as Hall. simpl in Hall.
  assert (p ∉ (obj_refs v ++ own) ++ all_refs st) as Hfresh.
  { intros Hin. destruct (rc_live _ _ Hi p Hin) as [rc E]. congruence. }
  assert (forall q, occ q ((p :: own) ++ all_refs (<[p := RefCounted_new v]> st)) =
    (if decide (p = q) then 1 else 0) + occ q ((obj_refs v ++ own) ++ all_refs st)) as Hocc.
  { intros q. rewrite <- app_comm_cons, occ_cons, !occ_app, (occ_perm q _ _ Hall), occ_app. lia. }
  split.
  - intros q x. rewrite Hocc, lookup_insert_Some. intros [[<- <-]|[Hne Hq]].
    + rewrite decide_True, occ_absent by done. done.
    + rewrite decide_False by done. rewrite (rc_count _ _ Hi q x Hq). lia.
  - intros q. rewrite occ_pos, Hocc. destruct (decide (p = q)) as [->|Hne].
    + rewrite lookup_insert_eq. eauto.
    + rewrite lookup_insert_ne by done. intros Hq. apply (rc_live _ _ Hi), occ_pos. lia.
  - intros q x. rewrite lookup_insert_Some. intros [[<- <-]|[Hne Hq]]; [simpl; lia|].
    by apply (rc_pos _ _ Hi q).
  - intros q x q' x'. rewrite !lookup_insert_Some.
    intros [[<- <-]|[Hne Hq]] Hin [[<- <-]|[Hne' Hq']]; simpl in *.
    + destruct Hfresh. set_solver.
    + by apply (Hrank q').
    + destruct Hfresh. apply elem_of_app. right. by apply (all_refs_owner st q x).
    + by apply (rc_rank _ _ Hi q x q' x').
Qed.

(** An object takes over a reference that the program held. *)
Lemma rc_inv_adopt own st p q rc v :
  rc_inv (q :: own) st -> st !! p = Some rc ->
  obj_refs v ≡ₚ q :: obj_refs (value rc) -> obj_rank v = obj_rank (value rc) ->
  (forall rc', st !! q = Some rc' -> (obj_rank (value rc') < obj_rank v)%nat) ->
  rc_inv own (<[p := mkRefCounted (counter rc) v]> st).
Proof.
  intros Hi Hp Hrefs Hrank Hq.
  assert (forall x, occ x (own ++ all_refs (<[p := mkRefCounted (counter rc) v]> st)) =
    occ x ((q :: own) ++ all_refs st)) as Hocc.
  { intros x. rewrite !occ_app, (occ_perm x _ _ (all_refs_insert st p rc _ Hp)),
      (occ_perm x _ _ (all_refs_delete st p rc Hp)). cbn [value].
    rewrite !occ_app, (occ_perm x _ _ Hrefs), !occ_cons. lia. }
  split.
  - intros x rx. rewrite Hocc, lookup_insert_Some. intros [[<- <-]|[Hne Hx]];
      [exact (rc_count _ _ Hi p rc Hp)|by apply (rc_count _ _ Hi)].
  - intros x. rewrite occ_pos, Hocc, <- occ_pos. intros Hx. apply (rc_live _ _ Hi) in Hx as [rx Ex].
    rewrite lookup_insert_is_Some'. eauto.
  - intros x rx. rewrite lookup_insert_Some. intros [[<- <-]|[Hne Hx]];
      [exact (rc_pos _ _ Hi p rc Hp)|by apply (rc_pos _ _ Hi x)].
  - assert (forall x rx, <[p := mkRefCounted (counter rc) v]> st !! x = Some rx ->
      exists y, st !! x = Some y /\ obj_rank (value rx) = obj_rank (value y)) as Hold.
    { intros x rx. rewrite lookup_insert_Some. intros [[<- <-]|[Hne Hx]]; eauto. }
    intros x rx y ry Hx Hin (ry' & Ey & ->)%Hold. apply lookup_insert_Some in Hx as [[<- <-]|[Hne Hx]].
    + cbn [value] in *. rewrite Hrefs in Hin. apply elem_of_cons in Hin as [->|Hin]; [by apply Hq|].
      rewrite Hrank. by apply (rc_rank _ _ Hi p rc y ry').
    + by apply (rc_rank _ _ Hi x rx y ry').
Qed.

(** Taking the cell of an object away with its last reference hands the
    references it owned to the program. *)
Lemma rc_inv_free own st p rc :
  rc_inv (p :: own) st -> st !! p = Some rc -> counter rc = 1 ->
  rc_inv (obj_refs (value rc) ++ own) (delete p st).
Proof.
  intros Hi Hp Hc. pose proof (all_refs_delete st p rc Hp) as Hall.
  assert (forall q, occ q ((p :: own) ++ all_refs st) = (if decide (p = q) then 1 else 0) +
    occ q ((obj_refs (value rc) ++ own) ++ all_refs (delete p st))) as Hocc.
  { intros q. rewrite <- app_comm_cons, occ_cons, !occ_app, (occ_perm q _ _ Hall), occ_app. lia. }
  pose proof (rc_count _ _ Hi p rc Hp) as Hp1. rewrite Hocc, decide_True in Hp1 by done.
  split.
  - intros q x. rewrite lookup_delete_Some. intros [Hne Hq].
    rewrite (rc_count _ _ Hi q x Hq), Hocc, decide_False by done. lia.
  - intros q Hq. destruct (decide (p = q)) as [->|Hne]; [apply occ_pos in Hq; lia|].
    rewrite lookup_delete_ne by done. apply (rc_live _ _ Hi). rewrite occ_pos in *.
    rewrite Hocc. case_decide; lia.
  - intros q x. rewrite lookup_delete_Some. intros [Hne Hq]. by apply (rc_pos _ _ Hi q).
  - intros q x q' x'. rewrite !lookup_delete_Some. intros [_ Hq] Hin [_ Hq'].
    by apply (rc_rank _ _ Hi q x q' x').
Qed.

Lemma survives_refl st : survives st st.
Proof. intros p rc E. eauto. Qed.

Lemma survives_trans st1 st2 st3 : survives st1 st2 -> survives st2 st3 -> survives st1 st3.
Proof. intros H1 H2 p rc (rc2 & E2 & ->)%H2. apply H1 in E2. exact E2. Qed.

Lemma survives_insert st p rc c :
  st !! p = Some rc -> survives st (<[p := mkRefCounted c (value rc)]> st).
Proof. intros Hp q x. rewrite lookup_insert_Some. intros [[<- <-]|[_ Hq]]; eauto. Qed.

Lemma survives_delete st p : survives st (delete p st).
Proof. intros q x. rewrite lookup_delete_Some. intros [_ Hq]. eauto. Qed.

(** Destroying objects removes the references they own. *)
Lemma all_refs_survives st st' : survives st st' -> (length (all_refs st') <= length (all_refs st))%nat.
Proof.
  revert st. induction st' as [|p rc' m Hp IH] using map_ind; intros st Hs.
  - unfold all_refs. rewrite map_to_list_empty. simpl. lia.
  - destruct (Hs p rc') as (rc & E & Hv); [apply lookup_insert_eq|].
    rewrite (all_refs_fresh m p rc' Hp), (all_refs_delete st p rc E), !length_app, Hv.
    assert (survives (delete p st) m) as Hs'; [|specialize (IH _ Hs'); lia].
    intros q rq Hq. assert (p <> q) by congruence. destruct (Hs q rq) as (r & Er & Hr); [by rewrite lookup_insert_ne|].
    exists r. by rewrite lookup_delete_ne.
Qed.

Lemma sref_clone_run st p rc :
  st !! p = Some rc -> 0 < counter rc < 2 ^ 64 - 1 ->
  sref_clone p st = Ret (p, <[p := mkRefCounted (counter rc + 1) (value rc)]> st).
Proof.
  intros Hp Hc. unfold sref_clone, bind, sref_inner, lift, set_counter. rewrite Hp.
  rewrite (proj2 (Z.ltb_lt _ _)), debug_assert_ok by lia. simpl. rewrite Hp.
  unfold wrap. by rewrite Z.mod_small by lia.
Qed.

Lemma sref_clone_spec own st p rc :
  rc_inv own st -> p ∈ own -> st !! p = Some rc -> counter rc < 2 ^ 64 - 1 ->
  rc_inv (p :: own) (<[p := mkRefCounted (counter rc + 1) (value rc)]> st).
Proof.
  intros Hi Hin Hp Hc. pose proof (rc_pos _ _ Hi p rc Hp).
  eapply rc_inv_update; try done; simpl; [lia| |].
  - rewrite occ_cons, decide_True by done. lia.
  - intros q Hne. by rewrite occ_cons, decide_False.
Qed.

Lemma drop_ref_shared fuel own st p rc :
  rc_inv (p :: own) st -> st !! p = Some rc -> counter rc <> 1 ->
  let st' := <[p := mkRefCounted (counter rc - 1) (value rc)]> st in
  drop_ref (S fuel) p st = Ret (tt, st') /\ rc_inv own st'.
Proof.
  intros Hi Hp Hc. pose proof (rc_pos _ _ Hi p rc Hp). split.
  - cbn [drop_ref]. unfold bind, sref_inner, lift, set_counter. rewrite Hp.
    rewrite (proj2 (Z.ltb_lt _ _)), debug_assert_ok, Hp by lia.
    rewrite (proj2 (Z.eqb_neq _ _)) by lia. unfold wrap. by rewrite Z.mod_small by lia.
  - eapply rc_inv_update; try done; simpl; [lia| |].
    + rewrite occ_cons, decide_True by done. lia.
    + intros q Hne. by rewrite occ_cons, decide_False.
Qed.

Lemma drop_ref_last fuel st p rc :
  st !! p = Some rc -> counter rc = 1 ->
  drop_ref (S fuel) p st = for_each (drop_ref fuel) (obj_refs (value rc)) (delete p st).
Proof.
  intros Hp Hc. cbn [drop_ref]. unfold bind, sref_inner, lift, set_counter. rewrite Hp.
  rewrite Hc, debug_assert_ok, Hp. simpl. by rewrite delete_insert_eq.
Qed.

Lemma depth_ok_survives fuel st st' l : depth_ok fuel st l -> survives st st' -> depth_ok fuel st' l.
Proof. intros Hd Hs p rc Hp (rc0 & E & ->)%Hs. by apply (Hd p). Qed.

Lemma drop_refs_spec fuel
  (IH : forall p own st, rc_inv (p :: own) st -> depth_ok fuel st [p] ->
    exists st', drop_ref fuel p st = Ret (tt, st') /\ rc_inv own st' /\ survives st st') l :
  forall own st, rc_inv (l ++ own) st -> depth_ok fuel st l ->
    exists st', for_each (drop_ref fuel) l st = Ret (tt, st') /\ rc_inv own st' /\ survives st st'.
Proof.
  induction l as [|q l IHl]; intros own st Hi Hd; [exists st; split; [done|split; [done|apply survives_refl]]|].
  destruct (IH q (l ++ own) st Hi) as (st1 & E1 & Hi1 & Hs1).
  { intros p rc Hp. apply Hd. set_solver. }
  destruct (IHl own st1 Hi1) as (st2 & E2 & Hi2 & Hs2).
  { eapply depth_ok_survives; [|done]. intros p rc Hp. apply Hd. set_solver. }
  exists st2. split; [|split; [done|by eapply survives_trans]].
  simpl. by rewrite (bind_run _ _ _ _ _ E1).
Qed.

Lemma drop_ref_spec fuel p own st :
  rc_inv (p :: own) st -> depth_ok fuel st [p] ->
  exists st', drop_ref fuel p st = Ret (tt, st') /\ rc_inv own st' /\ survives st st'.
Proof.
  revert p own st. induction fuel as [|fuel IH]; intros p own st Hi Hd;
    (destruct (rc_owned _ _ p Hi) as [rc Hp]; [set_solver|]).
  { pose proof (Hd p rc ltac:(set_solver) Hp). lia. }
  destruct (decide (counter rc = 1)) as [Hc|Hc].
  - rewrite (drop_ref_last fuel st p rc) by done.
    destruct (drop_refs_spec fuel IH (obj_refs (value rc)) own (delete p st))
      as (st' & E & Hi' & Hs'); [by apply rc_inv_free| |].
    + intros q rc' Hq. rewrite lookup_delete_Some. intros [_ Hq'].
      pose proof (rc_rank _ _ Hi p rc q rc' Hp Hq Hq'). pose proof (Hd p rc ltac:(set_solver) Hp). lia.
    + exists st'. split; [done|split; [done|]].
      eapply survives_trans; [apply survives_delete|done].
  - destruct (drop_ref_shared fuel own st p rc Hi Hp Hc) as [E Hi'].
    eexists. split; [exact E|split; [done|by apply survives_insert]].
Qed.

Lemma sref_drop_spec p own st :
  rc_inv (p :: own) st ->
  exists st', sref_drop p st = Ret (tt, st') /\ rc_inv own st' /\ survives st st'.
Proof.
  intros Hi. apply drop_ref_spec; [done|]. intros q rc _ _.
  pose proof (obj_rank_max (value rc)). lia.
Qed.

Lemma sref_drops_spec l own st :
  rc_inv (l ++ own) st ->
  exists st', for_each sref_drop l st = Ret (tt, st') /\ rc_inv own st' /\ survives st st'.
Proof.
  intros Hi. apply (drop_refs_spec (S max_rank)); [apply drop_ref_spec|done|].
  intros q rc _ _. pose proof (obj_rank_max (value rc)). lia.
Qed.

(** Out of memory: the references of the value are released. *)
Lemma sref_new_null v own st :
  rc_inv (obj_refs v ++ own) st ->
  exists st', sref_new None v st = Ret (Err OUT_OF_MEMORY, st') /\ rc_inv own st' /\ survives st st'.
Proof.
  intros Hi. destruct (sref_drops_spec _ own st Hi) as (st' & E & Hi').
  exists st'. split; [|done]. unfold sref_new. by rewrite (bind_run _ _ _ _ _ E).
Qed.

Lemma sref_reach_inv own st : sref_reach own st -> rc_inv own st.
Proof.
  induction 1 as [|own own' st _ IH E|own st p v st' _ IH Hp Hr E|own st p rc st' _ IH Hin Hp Hc E
                  |own st p st' _ IH E].
  - apply rc_inv_empty.
  - by eapply rc_inv_perm.
  - injection E as <-. by apply rc_inv_new.
  - pose proof (rc_pos _ _ IH p rc Hp). rewrite (sref_clone_run st p rc) in E by (done || lia).
    injection E as <-. by apply sref_clone_spec.
  - destruct (sref_drop_spec p own st IH) as (st2 & E2 & Hi & _). congruence.
Qed.

(** Without outside references nothing is alive: ownership cannot be cyclic. *)
Lemma rc_inv_no_leak st : rc_inv [] st -> st = ∅.
Proof.
  intros Hi. destruct (decide (st = ∅)) as [|Hne]; [done|exfalso].
  assert (forall n p rc, st !! p = Some rc -> (max_rank - obj_rank (value rc) < n)%nat -> False) as Hno.
  { induction n as [|n IHn]; intros p rc Hp Hn; [lia|].
    pose proof (rc_pos _ _ Hi p rc Hp) as Hpos. rewrite (rc_count _ _ Hi p rc Hp) in Hpos.
    destruct Hpos as [Hpos _]. apply occ_pos in Hpos. simpl in Hpos.
    apply all_refs_has_owner in Hpos as (q & rc' & Hq & Hin).
    apply (IHn q rc' Hq). pose proof (rc_rank _ _ Hi q rc' p rc Hq Hin Hp).
    pose proof (obj_rank_max (value rc')). lia. }
  apply map_choose in Hne as (p & rc & Hp). apply (Hno (S max_rank) p rc Hp). lia.
Qed.

(** A drop frees the object exactly when no other reference to it is left. *)
Lemma sref_drop_frees p own st :
  rc_inv (p :: own) st ->
  exists st', sref_drop p st = Ret (tt, st') /\ rc_inv own st' /\
    (st' !! p = None <-> occ p (own ++ all_refs st) = 0).
Proof.
  intros Hi. destruct (rc_owned _ _ p Hi) as [rc Hp]; [set_solver|].
  pose proof (rc_count _ _ Hi p rc Hp) as Hc.
  rewrite <- app_comm_cons, occ_cons, decide_True in Hc by done.
  destruct (sref_drop_spec p own st Hi) as (st' & E & Hi' & _). exists st'.
  split; [exact E|split; [done|]]. unfold sref_drop in E.
  destruct (decide (counter rc = 1)) as [H1|H1].
  - split; [intros _; lia|intros _].
    rewrite (drop_ref_last max_rank st p rc Hp H1) in E.
    destruct (drop_refs_spec max_rank (drop_ref_spec max_rank) (obj_refs (value rc)) own (delete p st))
      as (st2 & E2 & _ & Hs); [by apply rc_inv_free| |].
    + intros q rc' Hq. rewrite lookup_delete_Some. intros [_ Hq'].
      pose proof (rc_rank _ _ Hi p rc q rc' Hp Hq Hq'). pose proof (obj_rank_max (value rc)). lia.
    + rewrite E in E2. injection E2 as <-. destruct (st' !! p) as [x|] eqn:Ex; [|done].
      apply Hs in Ex as (? & Ex & _). by rewrite lookup_delete_eq in Ex.
  - destruct (drop_ref_shared max_rank own st p rc Hi Hp H1) as [E2 _].
    rewrite E in E2. injection E2 as ->. rewrite lookup_insert_eq. split; [done|lia].
Qed.

End OwnershipLemmas.

(** * Properties *)

(** C19: Reference counting is exact.  In every state that a sequence of [new],
    [clone] and [drop] calls leads to, each reference the program holds is to
    a live object whose counter is the number of references to it (held by the
    program or owned by live objects); dropping any of them succeeds, frees
    the object exactly when it was the last, and keeps the others usable; and
    once the program holds none, every object has been freed. *)
Theorem shared_ref_counts {P : Profile} {V : Type} `{Object V} (own : list Z) (st : RefStore V) :
  sref_reach own st ->
  (forall p, p ∈ own -> exists rc, st !! p = Some rc /\ counter rc = occ p (own ++ all_refs st)) /\
  (forall p own', own ≡ₚ p :: own' ->
    exists st', sref_drop p st = Ret (tt, st') /\ sref_reach own' st' /\
      (st' !! p = None <-> occ p (own' ++ all_refs st) = 0)) /\
  (own = [] -> st = ∅).
Proof.
  intros Hr. pose proof (sref_reach_inv own st Hr) as Hi. split; [|split].
  - intros p Hp. destruct (rc_owned _ _ p Hi Hp) as [rc E]. exists rc.
    split; [exact E|]. by apply (rc_count _ _ Hi).
  - intros p own' E. destruct (sref_drop_frees p own' st) as (st' & E' & _ & Hf).
    + by eapply rc_inv_perm.
    + exists st'. split; [exact E'|split; [|exact Hf]].
      eapply reach_drop; [|exact E']. by eapply reach_perm.
  - intros ->. by apply rc_inv_no_leak.
Qed.

(** Handles are checked capabilities.  The handle of a live object, used
    at the type it was made for, yields a counted reference to that very
    object if its rights include the requested action; any other type or
    action is refused, with the error that says why and no effect. *)
Theorem handle_checked {P : Profile} {L : RefLayout} {V : Type} `{Object V}
  (T T' : TypeId) (right action : HandleRight) (r : Z) (rc : RefCounted V) (st : RefStore V) :
  st !! r = Some rc -> 0 < counter rc < 2 ^ 64 - 1 ->
  exists h, into_handle T right r st = Ret (h, st) /\
    from_borrowed_handle T' h action st =
      (if negb (bool_decide (T = T')) then Ret (Err INVALID_TYPE, st)
       else if negb (right_contains right action) then Ret (Err NOT_ALLOWED, st)
       else Ret (Ok r, <[r := mkRefCounted (counter rc + 1) (value rc)]> st)) /\
    from_moved_handle T' h st =
      (if negb (bool_decide (T = T')) then Ret (Err INVALID_TYPE, st) else Ret (Ok r, st)).
Proof.
  intros Hr Hc. exists (mkHandle (r + value_offset T) T right). split.
  - unfold into_handle, sref_into_raw, sref_as_ptr, bind, sref_inner. by rewrite Hr.
  - unfold from_borrowed_handle, from_moved_handle, is_type, authorize, sref_clone_from_raw, sref_from_raw.
    simpl. destruct (decide (T = T')) as [<-|Hne]; [|by rewrite bool_decide_false].
    rewrite bool_decide_true, Z.add_simpl_r by done. simpl. split; [|done].
    destruct (right_contains right action); [|done]. simpl. unfold bind at 1.
    by rewrite (sref_clone_run st r rc).
Qed.

Section Witnesses.
#[local] Existing Instance dev.
#[local] Instance list_object : Object (list Z) :=
  {| obj_refs l := l; obj_rank l := (match l with [] => 0 | _ => 1 end)%nat;
     max_rank := 1; obj_rank_max l := ltac:(destruct l; lia) |}.
#[local] Instance example_layout : RefLayout := {| value_offset _ := 8 |}.

(** An object at 16 and one at 32 that owns it, both held by the program. *)
Definition example_store : RefStore (list Z) := {[ 16 := mkRefCounted 2 []; 32 := mkRefCounted 1 [16] ]}.

Lemma shared_ref_counts_witness :
  exists st', sref_drop 32 example_store = Ret (tt, st') /\ sref_reach [16] st' /\
    (st' !! 32 = None <-> occ 32 ([16] ++ all_refs example_store) = 0).
Proof.
  assert (sref_reach [32; 16] example_store) as Hr.
  { apply (reach_new [16] (<[16 := mkRefCounted 2 []]> ∅) 32 [16]); [|done| |done].
    - simpl. eapply (reach_clone [16] (<[16 := mkRefCounted 1 []]> ∅)); [|set_solver|reflexivity|done|reflexivity].
      by apply (reach_new [] ∅ 16 []); [apply reach_start|done|set_solver|].
    - intros q rc ->%list_elem_of_singleton. vm_compute. by intros [= <-]. }
  exact (proj1 (proj2 (shared_ref_counts [32; 16] example_store Hr)) 32 [16] (Permutation_refl _)).
Defined.

Lemma handle_checked_witness :
  exists h, into_handle ThreadType RIGHT_READ 32 example_store = Ret (h, example_store) /\
    from_borrowed_handle ThreadType h RIGHT_WRITE example_store = Ret (Err NOT_ALLOWED, example_store).
Proof.
  destruct (handle_checked ThreadType ThreadType RIGHT_READ RIGHT_WRITE 32 (mkRefCounted 1 [16]) example_store
    eq_refl ltac:(simpl; lia)) as (h & E1 & E2 & _).
  exists h. split; [exact E1|exact E2].
Defined.

End Witnesses.
