(* ===== verification/X64Context.v ===== *)
(** * arch/x64/thread.rs, syscall.rs, idt.rs: the saved context of a thread

    [ArchThread] is the [repr(C, packed)] structure of 22 machine words that
    holds a thread's registers while it is not running.  The kernel enters and
    leaves user mode in assembly that moves words between the processor and
    that structure; [exec] gives those instructions their meaning and the three
    programs ([interrupt_entry], [syscall_handler], [enter]) are transcribed
    line by line. *)

From S2P Require Import Prelude Bytes Api.

(** ** Segment selectors (gdt.rs) *)

Definition GDT_KERNEL_CS : Z := 8.
Definition GDT_USER_DS : Z := Z.lor (4 * 8) 3.
Definition GDT_USER_CS : Z := Z.lor (5 * 8) 3.

(** ** The structure *)

Record ArchThread : Set := mkArchThread {
  rip : Z; cs : Z; rflags : Z; rsp : Z; ss : Z;
  rax : Z; rbx : Z; rcx : Z; rdx : Z; rsi : Z; rdi : Z; rbp : Z;
  r8 : Z; r9 : Z; r10 : Z; r11 : Z; r12 : Z; r13 : Z; r14 : Z; r15 : Z;
  gsbase : Z; fsbase : Z
}.

Definition arch_thread_new : ArchThread :=
  mkArchThread 0 GDT_USER_CS 514 0 GDT_USER_DS 0 0 0 0 0 0 0 0 0 0 0 0 0 0 0 0 0.

(** Its words in memory, in the order of the fields. *)
Definition thread_words (t : ArchThread) : list Z :=
  [rip t; cs t; rflags t; rsp t; ss t;
   rax t; rbx t; rcx t; rdx t; rsi t; rdi t; rbp t;
   r8 t; r9 t; r10 t; r11 t; r12 t; r13 t; r14 t; r15 t; gsbase t; fsbase t].

Definition arch_read_context (t : ArchThread) (kind : ContextKind) (regs : ContextData) : ContextData :=
  match kind with
  | KindSyscallArgs =>
      of_syscall_args (mkSyscallArgs (rax t) (rdi t) (rsi t) (rdx t) (r10 t) (r8 t) (r9 t))
  | KindSysret => ctx_set regs 0 (rax t)
  | KindInitRegs => ctx_set (ctx_set regs 0 (rip t)) 1 (rsp t)
  | KindFsbase => ctx_set regs 0 (fsbase t)
  end.

Definition arch_write_context (t : ArchThread) (kind : ContextKind) (regs : ContextData)
  : outcome ArchThread :=
  match kind with
  | KindSyscallArgs =>
      let* n := ctx_word regs 0 in
      let* a0 := ctx_word regs 1 in
      let* a1 := ctx_word regs 2 in
      let* a2 := ctx_word regs 3 in
      let* a3 := ctx_word regs 4 in
      let* a4 := ctx_word regs 5 in
      let* a5 := ctx_word regs 6 in
      Ret (mkArchThread (rip t) (cs t) (rflags t) (rsp t) (ss t)
             n (rbx t) (rcx t) a2 a1 a0 (rbp t)
             a4 a5 a3 (r11 t) (r12 t) (r13 t) (r14 t) (r15 t) (gsbase t) (fsbase t))
  | KindSysret =>
      let* v := ctx_word regs 0 in
      Ret (mkArchThread (rip t) (cs t) (rflags t) (rsp t) (ss t)
             v (rbx t) (rcx t) (rdx t) (rsi t) (rdi t) (rbp t)
             (r8 t) (r9 t) (r10 t) (r11 t) (r12 t) (r13 t) (r14 t) (r15 t) (gsbase t) (fsbase t))
  | KindInitRegs =>
      let* p := ctx_word regs 0 in
      let* s := ctx_word regs 1 in
      Ret (mkArchThread p (cs t) (rflags t) s (ss t)
             (rax t) (rbx t) (rcx t) (rdx t) (rsi t) (rdi t) (rbp t)
             (r8 t) (r9 t) (r10 t) (r11 t) (r12 t) (r13 t) (r14 t) (r15 t) (gsbase t) (fsbase t))
  | KindFsbase =>
      let* b := ctx_word regs 0 in
      Ret (mkArchThread (rip t) (cs t) (rflags t) (rsp t) (ss t)
             (rax t) (rbx t) (rcx t) (rdx t) (rsi t) (rdi t) (rbp t)
             (r8 t) (r9 t) (r10 t) (r11 t) (r12 t) (r13 t) (r14 t) (r15 t) (gsbase t) b)
  end.

(** ** The processor *)

Inductive Reg : Set :=
| RAX | RBX | RCX | RDX | RSI | RDI | RBP | RSP
| R8 | R9 | R10 | R11 | R12 | R13 | R14 | R15.
#[global] Instance Reg_eq_dec : EqDecision Reg.
Proof. solve_decision. Defined.

(** The fields of the structure, and [offset_of!] in words. *)
Inductive Field : Set :=
| F_rip | F_cs | F_rflags | F_rsp | F_ss
| F_rax | F_rbx | F_rcx | F_rdx | F_rsi | F_rdi | F_rbp
| F_r8 | F_r9 | F_r10 | F_r11 | F_r12 | F_r13 | F_r14 | F_r15
| F_gsbase | F_fsbase.

Definition offset_of (f : Field) : nat :=
  match f with
  | F_rip => 0 | F_cs => 1 | F_rflags => 2 | F_rsp => 3 | F_ss => 4
  | F_rax => 5 | F_rbx => 6 | F_rcx => 7 | F_rdx => 8 | F_rsi => 9 | F_rdi => 10 | F_rbp => 11
  | F_r8 => 12 | F_r9 => 13 | F_r10 => 14 | F_r11 => 15 | F_r12 => 16 | F_r13 => 17
  | F_r14 => 18 | F_r15 => 19 | F_gsbase => 20 | F_fsbase => 21
  end.

(** The processor and the memory the entry code touches: the words of the
    current thread at [cur] (null when there is none), the two words of the
    per-CPU structure it uses, and the words of the interrupt stack above the
    stack pointer. *)
Record Cpu : Type := mkCpu {
  gpr : Reg -> Z;
  c_rip : Z; c_cs : Z; c_rflags : Z; c_ss : Z;
  gs_base : Z; kernel_gs_base : Z; fs_base_reg : Z;
  cur : Z;
  words : list Z;
  scratch : Z;
  kernel_rsp : Z;
  stack : list Z
}.

(** The instructions of the entry and exit code.  [gs:[...]] operands name the
    field of the per-CPU structure. *)
Inductive instr : Set :=
| Cli | Cld
| Swapgs
| SaveScratch (r : Reg)
| LoadScratch (r : Reg)
| LoadCurrent (r : Reg)
| LoadKernelRsp
| Mov (dst : Reg) (v : Z)
| Store (base : Reg) (f : Field) (r : Reg)
| Load (r base : Reg) (f : Field)
| Push (r : Reg)
| Pop (r : Reg)
| Wrgsbase (r : Reg)
| Wrfsbase (r : Reg)
| Iretq.

Definition set_reg (g : Reg -> Z) (r : Reg) (v : Z) : Reg -> Z :=
  fun r' => if decide (r = r') then v else g r'.

Definition with_gpr (c : Cpu) (g : Reg -> Z) : Cpu :=
  mkCpu g (c_rip c) (c_cs c) (c_rflags c) (c_ss c) (gs_base c) (kernel_gs_base c) (fs_base_reg c)
    (cur c) (words c) (scratch c) (kernel_rsp c) (stack c).

Definition with_bases (c : Cpu) (gs kgs fs : Z) : Cpu :=
  mkCpu (gpr c) (c_rip c) (c_cs c) (c_rflags c) (c_ss c) gs kgs fs
    (cur c) (words c) (scratch c) (kernel_rsp c) (stack c).

Definition with_mem (c : Cpu) (w : list Z) (s : Z) (stk : list Z) : Cpu :=
  mkCpu (gpr c) (c_rip c) (c_cs c) (c_rflags c) (c_ss c) (gs_base c) (kernel_gs_base c) (fs_base_reg c)
    (cur c) w s (kernel_rsp c) stk.

(** One instruction.  A memory operand must address the current thread. *)
Definition step_instr (i : instr) (c : Cpu) : outcome Cpu :=
  match i with
  | Cli | Cld => Ret c
  | Swapgs => Ret (with_bases c (kernel_gs_base c) (gs_base c) (fs_base_reg c))
  | SaveScratch r => Ret (with_mem c (words c) (gpr c r) (stack c))
  | LoadScratch r => Ret (with_gpr c (set_reg (gpr c) r (scratch c)))
  | LoadCurrent r => Ret (with_gpr c (set_reg (gpr c) r (cur c)))
  | LoadKernelRsp => Ret (with_gpr c (set_reg (gpr c) RSP (kernel_rsp c)))
  | Mov d v => Ret (with_gpr c (set_reg (gpr c) d v))
  | Store b f r =>
      if negb (cur c =? 0) && (gpr c b =? cur c)
      then Ret (with_mem c (<[offset_of f := gpr c r]> (words c)) (scratch c) (stack c))
      else Undef
  | Load r b f =>
      if negb (cur c =? 0) && (gpr c b =? cur c)
      then match words c !! offset_of f with
           | Some v => Ret (with_gpr c (set_reg (gpr c) r v))
           | None => Undef
           end
      else Undef
  | Push r => Ret (with_mem c (words c) (scratch c) (gpr c r :: stack c))
  | Pop r =>
      match stack c with
      | v :: s => Ret (with_mem (with_gpr c (set_reg (gpr c) r v)) (words c) (scratch c) s)
      | [] => Undef
      end
  | Wrgsbase r => Ret (with_bases c (gpr c r) (kernel_gs_base c) (fs_base_reg c))
  | Wrfsbase r => Ret (with_bases c (gs_base c) (kernel_gs_base c) (gpr c r))
  | Iretq =>
      if negb (cur c =? 0) && (gpr c RSP =? cur c)
      then match words c with
           | ip :: sel :: fl :: sp :: sse :: _ =>
               Ret (mkCpu (set_reg (gpr c) RSP sp) ip sel fl sse
                      (gs_base c) (kernel_gs_base c) (fs_base_reg c)
                      (cur c) (words c) (scratch c) (kernel_rsp c) (stack c))
           | _ => Undef
           end
      else Undef
  end.

Fixpoint exec (p : list instr) (c : Cpu) : outcome Cpu :=
  match p with
  | [] => Ret c
  | i :: p => let* c := step_instr i c in exec p c
  end.

(** ** The programs *)

Definition interrupt_entry : list instr :=
  [ Cli; Swapgs; Cld; Push RAX;
    LoadCurrent RAX;
    Store RAX F_rbx RBX; Store RAX F_rcx RCX; Store RAX F_rdx RDX; Store RAX F_rdi RDI;
    Store RAX F_rsi RSI; Store RAX F_rbp RBP; Store RAX F_r8 R8; Store RAX F_r9 R9;
    Store RAX F_r10 R10; Store RAX F_r11 R11; Store RAX F_r12 R12; Store RAX F_r13 R13;
    Store RAX F_r14 R14; Store RAX F_r15 R15;
    Pop RBX; Store RAX F_rax RBX;
    Pop RDI; Pop RSI;
    Pop RBX; Store RAX F_rip RBX;
    Pop RBX;
    Pop RBX; Store RAX F_rflags RBX;
    Pop RBX; Store RAX F_rsp RBX;
    Pop RBX ].

Definition syscall_handler : list instr :=
  [ Cli; Swapgs; Cld;
    SaveScratch RAX;
    LoadCurrent RAX;
    Store RAX F_rip RCX; Store RAX F_rflags R11;
    Store RAX F_rbx RBX; Store RAX F_rcx RCX; Store RAX F_rdx RDX; Store RAX F_rdi RDI;
    Store RAX F_rsi RSI; Store RAX F_rbp RBP; Store RAX F_r8 R8; Store RAX F_r9 R9;
    Store RAX F_r10 R10; Store RAX F_r11 R11; Store RAX F_r12 R12; Store RAX F_r13 R13;
    Store RAX F_r14 R14; Store RAX F_r15 R15; Store RAX F_rsp RSP;
    LoadScratch RDI; Store RAX F_rax RDI;
    LoadKernelRsp ].

Definition enter (thread : Z) : list instr :=
  [ Mov RSP thread;
    Swapgs;
    Load RAX RSP F_gsbase; Wrgsbase RAX;
    Load RAX RSP F_fsbase; Wrfsbase RAX;
    Load RAX RSP F_rax; Load RBX RSP F_rbx; Load RCX RSP F_rcx; Load RDX RSP F_rdx;
    Load RSI RSP F_rsi; Load RDI RSP F_rdi; Load RBP RSP F_rbp; Load R8 RSP F_r8;
    Load R9 RSP F_r9; Load R10 RSP F_r10; Load R11 RSP F_r11; Load R12 RSP F_r12;
    Load R13 RSP F_r13; Load R14 RSP F_r14; Load R15 RSP F_r15;
    Iretq ].

(** What the processor does on an interrupt through the IDT from user mode
    (vector [v], error code [e], handler on the IST stack): the stub pushes
    the error code and the vector on top of the hardware frame. *)
Definition raise_interrupt (v e stack_top handler : Z) (c : Cpu) : Cpu :=
  mkCpu (set_reg (gpr c) RSP stack_top) handler GDT_KERNEL_CS (c_rflags c) (c_ss c)
    (gs_base c) (kernel_gs_base c) (fs_base_reg c) (cur c) (words c) (scratch c) (kernel_rsp c)
    [v; e; c_rip c; c_cs c; c_rflags c; gpr c RSP; c_ss c].

(** What the [syscall] instruction does: the return address and the flags go
    to RCX and R11. *)
Definition raise_syscall (handler fmask : Z) (c : Cpu) : Cpu :=
  mkCpu (set_reg (set_reg (gpr c) RCX (c_rip c)) R11 (c_rflags c))
    handler GDT_KERNEL_CS (Z.land (c_rflags c) (unot 64 fmask)) (GDT_KERNEL_CS + 8)
    (gs_base c) (kernel_gs_base c) (fs_base_reg c) (cur c) (words c) (scratch c) (kernel_rsp c)
    (stack c).

(** A processor that runs the user thread saved at [cur]: the parts of the
    context that the entry code does not save agree with the structure. *)
Record runs_thread (t : ArchThread) (c : Cpu) : Prop := {
  rt_words : words c = thread_words t;
  rt_cur : cur c <> 0;
  rt_cs : c_cs c = cs t;
  rt_ss : c_ss c = ss t;
  rt_gs : gs_base c = gsbase t;
  rt_fs : fs_base_reg c = fsbase t
}.

(** What the kernel's Rust code may change between entry and exit without
    touching the saved context: general registers, flags, the stack. *)
Definition kernel_runs (g : Reg -> Z) (ip fl s : Z) (stk : list Z) (c : Cpu) : Cpu :=
  mkCpu g ip (c_cs c) fl (c_ss c) (gs_base c) (kernel_gs_base c) (fs_base_reg c)
    (cur c) (words c) s (kernel_rsp c) stk.

(** The same with the saved context replaced. *)
Definition with_thread (t : ArchThread) (c : Cpu) : Cpu :=
  mkCpu (gpr c) (c_rip c) (c_cs c) (c_rflags c) (c_ss c) (gs_base c) (kernel_gs_base c) (fs_base_reg c)
    (cur c) (thread_words t) (scratch c) (kernel_rsp c) (stack c).

(** The context of an interrupted or calling user program. *)
Definition saved (t : ArchThread) (c : Cpu) : ArchThread :=
  mkArchThread (c_rip c) (cs t) (c_rflags c) (gpr c RSP) (ss t)
    (gpr c RAX) (gpr c RBX) (gpr c RCX) (gpr c RDX) (gpr c RSI) (gpr c RDI) (gpr c RBP)
    (gpr c R8) (gpr c R9) (gpr c R10) (gpr c R11) (gpr c R12) (gpr c R13) (gpr c R14) (gpr c R15)
    (gsbase t) (fsbase t).

(** The registers a structure holds. *)
Definition saved_gpr (t : ArchThread) (r : Reg) : Z :=
  match r with
  | RAX => rax t | RBX => rbx t | RCX => rcx t | RDX => rdx t
  | RSI => rsi t | RDI => rdi t | RBP => rbp t | RSP => rsp t
  | R8 => r8 t | R9 => r9 t | R10 => r10 t | R11 => r11 t
  | R12 => r12 t | R13 => r13 t | R14 => r14 t | R15 => r15 t
  end.

(** * Lemmas *)

Lemma exec_cons i p c c' : step_instr i c = Ret c' -> exec (i :: p) c = exec p c'.
Proof. intros E. cbn [exec]. by rewrite E. Qed.

Lemma operand_ok (c : Cpu) b :
  cur c <> 0 -> gpr c b = cur c -> negb (cur c =? 0) && (gpr c b =? cur c) = true.
Proof. intros H ->. by rewrite (proj2 (Z.eqb_neq _ _) H), Z.eqb_refl. Qed.

Lemma exec_store p c b f r :
  cur c <> 0 -> gpr c b = cur c ->
  exec (Store b f r :: p) c =
  exec p (with_mem c (<[offset_of f := gpr c r]> (words c)) (scratch c) (stack c)).
Proof. intros H1 H2. apply exec_cons. cbn [step_instr]. by rewrite operand_ok. Qed.

Lemma exec_load p c r b f v :
  cur c <> 0 -> gpr c b = cur c -> words c !! offset_of f = Some v ->
  exec (Load r b f :: p) c = exec p (with_gpr c (set_reg (gpr c) r v)).
Proof. intros H1 H2 H3. apply exec_cons. cbn [step_instr]. by rewrite operand_ok, H3. Qed.

Lemma exec_iretq c ip sel fl sp sse w :
  cur c <> 0 -> gpr c RSP = cur c -> words c = ip :: sel :: fl :: sp :: sse :: w ->
  exec [Iretq] c =
  Ret (mkCpu (set_reg (gpr c) RSP sp) ip sel fl sse (gs_base c) (kernel_gs_base c) (fs_base_reg c)
         (cur c) (words c) (scratch c) (kernel_rsp c) (stack c)).
Proof. intros H1 H2 H3. cbn [exec step_instr]. by rewrite operand_ok, H3 by done. Qed.

(** Runs the next instruction of a program on a processor whose registers and
    memory are written out. *)
Ltac exec_simpl :=
  cbv beta iota zeta delta [with_gpr with_bases with_mem gpr words stack scratch offset_of cur kernel_rsp
    gs_base kernel_gs_base fs_base_reg c_rip c_cs c_rflags c_ss insert list_insert].

Ltac exec_step :=
  lazymatch goal with
  | |- context [exec [Iretq] ?c] =>
      lazymatch eval cbn in (words c) with
      | ?ip :: ?sel :: ?fl :: ?sp :: ?sse :: ?w =>
          rewrite (exec_iretq c ip sel fl sp sse w) by first [assumption|reflexivity]
      end
  | |- context [exec (Store ?b ?f ?r :: ?p) ?c] =>
      rewrite (exec_store p c b f r) by first [assumption|reflexivity]
  | |- context [exec (Load ?r ?b ?f :: ?p) ?c] =>
      lazymatch eval cbn in (words c !! offset_of f) with
      | Some ?v => rewrite (exec_load p c r b f v) by first [assumption|reflexivity]
      end
  | |- context [exec (?i :: ?p) ?c] =>
      lazymatch eval cbv beta iota delta [step_instr stack] in (step_instr i c) with
      | Ret ?c' => rewrite (exec_cons i p c c' eq_refl)
      end
  end; exec_simpl.

(** Entering a thread loads exactly the saved context. *)
Lemma enter_spec t c :
  words c = thread_words t -> cur c <> 0 ->
  exists c', exec (enter (cur c)) c = Ret c' /\
    (forall r, gpr c' r = saved_gpr t r) /\
    c_rip c' = rip t /\ c_cs c' = cs t /\ c_rflags c' = rflags t /\ c_ss c' = ss t /\
    gs_base c' = gsbase t /\ fs_base_reg c' = fsbase t /\ kernel_gs_base c' = gs_base c /\
    words c' = words c /\ cur c' = cur c /\ kernel_rsp c' = kernel_rsp c.
Proof.
  destruct c as [g ip sl fl sg gb kgb fb cu w sc kr stk]. exec_simpl. intros -> Hc.
  unfold enter, thread_words.
  eexists. split; [repeat exec_step; reflexivity|].
  split; [intros r; destruct r; vm_compute; reflexivity|]. vm_compute. repeat split.
Qed.

(** What the interrupt stub leaves in the structure and in the registers. *)
Lemma interrupt_entry_spec t c v e top h :
  runs_thread t c ->
  exists c', exec interrupt_entry (raise_interrupt v e top h c) = Ret c' /\
    words c' = thread_words (saved t c) /\ cur c' = cur c /\
    gpr c' RDI = v /\ gpr c' RSI = e /\
    gs_base c' = kernel_gs_base c /\ kernel_gs_base c' = gs_base c.
Proof.
  destruct c as [g ip sl fl sg gb kgb fb cu w sc kr stk].
  intros [Hw Hc Hcs Hss Hgs Hfs]. simpl in Hw, Hc, Hcs, Hss, Hgs, Hfs. subst.
  unfold interrupt_entry, raise_interrupt, thread_words. exec_simpl.
  eexists. split; [repeat exec_step; reflexivity|]. vm_compute. repeat split.
Qed.

Lemma syscall_handler_spec t c h fm :
  runs_thread t c ->
  exists c', exec syscall_handler (raise_syscall h fm c) = Ret c' /\
    words c' = thread_words (saved t (with_gpr c (set_reg (set_reg (gpr c) RCX (c_rip c)) R11 (c_rflags c)))) /\
    cur c' = cur c /\ gpr c' RSP = kernel_rsp c /\
    gs_base c' = kernel_gs_base c /\ kernel_gs_base c' = gs_base c.
Proof.
  destruct c as [g ip sl fl sg gb kgb fb cu w sc kr stk].
  intros [Hw Hc Hcs Hss Hgs Hfs]. simpl in Hw, Hc, Hcs, Hss, Hgs, Hfs. subst.
  unfold syscall_handler, raise_syscall, thread_words. exec_simpl.
  eexists. split; [repeat exec_step; reflexivity|]. vm_compute. repeat split.
Qed.

(** * Properties *)


(** C21: A system call reaches its handler with its arguments and returns its
    result.  After the [syscall] instruction the saved context reads as the
    call number and arguments; once a result is written, [enter] resumes the
    program after the call with RAX holding the result, RCX and R11 as the
    instruction leaves them, and every other register and base untouched. *)
Theorem syscall_context_roundtrip (t : ArchThread) (c : Cpu) (h fm result : Z) (regs : ContextData)
  (g : Reg -> Z) (ip fl sc : Z) (stk : list Z) :
  runs_thread t c ->
  exists c1 t1 t2 c2,
    exec syscall_handler (raise_syscall h fm c) = Ret c1 /\ words c1 = thread_words t1 /\
    arch_read_context t1 KindSyscallArgs regs =
      of_syscall_args (mkSyscallArgs (gpr c RAX) (gpr c RDI) (gpr c RSI) (gpr c RDX)
                         (gpr c R10) (gpr c R8) (gpr c R9)) /\
    arch_write_context t1 KindSysret (of_sysret (mkSysret result)) = Ret t2 /\
    exec (enter (cur c)) (with_thread t2 (kernel_runs g ip fl sc stk c1)) = Ret c2 /\
    gpr c2 RAX = result /\ gpr c2 RCX = c_rip c /\ gpr c2 R11 = c_rflags c /\
    (forall r, r <> RAX -> r <> RCX -> r <> R11 -> gpr c2 r = gpr c r) /\
    c_rip c2 = c_rip c /\ c_cs c2 = c_cs c /\ c_rflags c2 = c_rflags c /\ c_ss c2 = c_ss c /\
    gs_base c2 = gs_base c /\ kernel_gs_base c2 = kernel_gs_base c /\ fs_base_reg c2 = fs_base_reg c.
Proof.
  intros Hr. destruct (syscall_handler_spec t c h fm Hr) as (c1 & E1 & Hw & Hcur & Hsp & Hgs & Hkgs).
  set (t1 := saved t _) in Hw.
  assert (exists t2, arch_write_context t1 KindSysret (of_sysret (mkSysret result)) = Ret t2) as [t2 E2]
    by (eexists; reflexivity).
  destruct (enter_spec t2 (with_thread t2 (kernel_runs g ip fl sc stk c1)))
    as (c2 & E3 & Hg & Hip & Hcs & Hfl & Hss & Hgb & Hfb & Hk & _).
  { done. }
  { unfold with_thread, kernel_runs. cbn [cur]. rewrite Hcur. apply (rt_cur _ _ Hr). }
  assert (cur (with_thread t2 (kernel_runs g ip fl sc stk c1)) = cur c) as Ec by exact Hcur.
  rewrite Ec in E3. destruct Hr as [_ _ Rcs Rss Rgs Rfs].
  exists c1, t1, t2, c2. split; [exact E1|split; [exact Hw|]]. split; [reflexivity|].
  split; [exact E2|split; [exact E3|]]. injection E2 as <-.
  rewrite !Hg, Hip, Hcs, Hfl, Hss, Hgb, Hfb, Hk. unfold with_thread, kernel_runs. cbn [gs_base].
  rewrite Rcs, Rss, Rgs, Rfs, Hgs. repeat (split; [reflexivity|]).
  split; [intros r H1 H2 H3; rewrite Hg; by destruct r|]. done.
Qed.

(** Contexts round trip.  Writing a context and reading the same kind
    back returns what was written, for each kind and whatever the buffer of
    the reader held. *)
Theorem context_roundtrip (t : ArchThread) (d : ContextData)
  (a : SyscallArgs) (s : Sysret) (i : InitRegs) (f : FsBase) :
  length d = 7%nat ->
  (exists t', arch_write_context t KindSyscallArgs (of_syscall_args a) = Ret t' /\
    arch_read_context t' KindSyscallArgs d = of_syscall_args a) /\
  (exists t', arch_write_context t KindSysret (of_sysret s) = Ret t' /\
    ctx_word (arch_read_context t' KindSysret d) 0 = Ret (retval s)) /\
  (exists t', arch_write_context t KindInitRegs (of_init_regs i) = Ret t' /\
    ctx_word (arch_read_context t' KindInitRegs d) 0 = Ret (pc i) /\
    ctx_word (arch_read_context t' KindInitRegs d) 1 = Ret (sp i)) /\
  (exists t', arch_write_context t KindFsbase (of_fsbase f) = Ret t' /\
    ctx_word (arch_read_context t' KindFsbase d) 0 = Ret (fs_base f)).
Proof.
  intros Hd. do 7 (destruct d as [|? d]; [done|]). destruct d; [|done].
  split; [|split; [|split]]; eexists; (split; [reflexivity|]); [destruct a| | |]; repeat split.
Qed.

Section Witnesses.

Definition example_cpu : Cpu :=
  mkCpu (fun _ => 7) 4096 (cs arch_thread_new) 514 (ss arch_thread_new) 0 65536 0 256
    (thread_words arch_thread_new) 0 8192 [].

Lemma example_cpu_runs : runs_thread arch_thread_new example_cpu.
Proof. by split. Qed.


Lemma syscall_context_roundtrip_witness :
  exists c1, exec syscall_handler (raise_syscall 0 512 example_cpu) = Ret c1.
Proof.
  destruct (syscall_context_roundtrip arch_thread_new example_cpu 0 512 42 [] (fun _ => 0) 0 0 0 []
    example_cpu_runs) as (c1 & _ & _ & _ & E1 & _).
  exists c1. exact E1.
Defined.

Lemma context_roundtrip_witness :
  exists t', arch_write_context arch_thread_new KindFsbase (of_fsbase (mkFsBase 9)) = Ret t' /\
    ctx_word (arch_read_context t' KindFsbase (replicate 7 None)) 0 = Ret 9.
Proof.
  destruct (context_roundtrip arch_thread_new (replicate 7 None) SyscallArgs_zeroed Sysret_zeroed
    (mkInitRegs 0 0) (mkFsBase 9) eq_refl) as (_ & _ & _ & E). exact E.
Defined.

End Witnesses.
