(* ===== verification/Thread.v ===== *)
(** * kernel/src/thread.rs, scheduler.rs, syscall.rs: threads

    Threads, the run queue and the thread a CPU runs, over the store of
    reference-counted objects.  Server code that the kernel calls back into
    ([Upcall::invoke]) is a parameter.

    Two views of the thread state machine: the operations of the code, composed
    as one CPU runs them, with the invariant of the scheduler; and, in
    [Protocol], the same critical sections interleaved freely, as several CPUs
    may run them, with the guarantee about the [Terminated] upcall. *)

From S2P Require Import Prelude Bytes Api Bump Machine PageTable SharedRef X64Context.

Inductive State : Set := Runnable | Blocked | Terminated.
#[global] Instance State_eq_dec : EqDecision State.
Proof. solve_decision. Defined.

Inductive UpcallArg : Set := UpSyscall | UpTerminated.

(** An [Upcall] is known to the kernel by its context pointer. *)
Definition Upcall := Z.

Record Thread : Set := mkThread {
  t_arch : ArchThread;
  t_upcall : Upcall;
  t_vmspace : Z;
  t_state : State;
  in_upcalls : Z
}.

(** The reference-counted objects of the kernel. *)
Inductive KObject : Set :=
| OArea
| OSpace (arch : ArchVmSpace) (areas : list Z)
| OThread (t : Thread).

#[global] Instance KObject_object : Object KObject := {|
  obj_refs o := match o with OArea => [] | OSpace _ l => l | OThread t => [t_vmspace t] end;
  obj_rank o := match o with OArea => 0%nat | OSpace _ _ => 1%nat | OThread _ => 2%nat end;
  max_rank := 2;
  obj_rank_max o := ltac:(destruct o; lia)
|}.

(** [current] is [CpuVar::current_thread], a raw pointer or null; [cr3_reg]
    the processor's page-table register.  [ext] is the rest of the system, which
    threads do not touch but servers do when the kernel calls them. *)
Record Sys (X : Type) : Type := mkSys {
  store : RefStore KObject;
  runqueue : list Z;
  current : option Z;
  cr3_reg : Z;
  ext : X
}.
Arguments mkSys {X} _ _ _ _ _.
Arguments store {X} _.
Arguments runqueue {X} _.
Arguments current {X} _.
Arguments cr3_reg {X} _.
Arguments ext {X} _.

Definition set_store {X} (s : Sys X) (st : RefStore KObject) : Sys X :=
  mkSys st (runqueue s) (current s) (cr3_reg s) (ext s).
Definition set_runqueue {X} (s : Sys X) (q : list Z) : Sys X :=
  mkSys (store s) q (current s) (cr3_reg s) (ext s).
Definition set_current {X} (s : Sys X) (c : option Z) : Sys X :=
  mkSys (store s) (runqueue s) c (cr3_reg s) (ext s).
Definition set_cr3 {X} (s : Sys X) (v : Z) : Sys X := mkSys (store s) (runqueue s) (current s) v (ext s).

(** A thread for which an upcall may still be made: once the [Terminated] upcall
    is due, no other follows. *)
Definition active (t : Thread) : Prop := t_state t <> Terminated \/ 0 < in_upcalls t.

(** How the kernel changes a thread, as far as servers are concerned. *)
Definition thread_stays (t t' : Thread) : Prop :=
  t_upcall t' = t_upcall t /\ t_vmspace t' = t_vmspace t /\ (active t' -> active t).

(** What the rest of the system promises.  [ext_refs] are the references it
    holds (as handles).  Its invariant [ext_ok] survives the destruction of
    objects and what the kernel does to threads.  [ext_live x ctx r]: the data
    of the upcall [ctx] of thread [r] are in place, as they are for every thread
    that is still active. *)
Class KernelExt (X : Type) : Type := {
  ext_refs : X -> list Z;
  ext_ok : RefStore KObject -> X -> Prop;
  ext_live : X -> Upcall -> Z -> Prop;
  ext_ok_shrink st st' x : ext_ok st x ->
    (forall p c o, st' !! p = Some (mkRefCounted c o) -> exists c' o', st !! p = Some (mkRefCounted c' o') /\
      (o' = o \/ exists t t', o' = OThread t /\ o = OThread t' /\ thread_stays t t')) ->
    ext_ok st' x;
  ext_ok_live st x r c t : ext_ok st x -> st !! r = Some (mkRefCounted c (OThread t)) -> active t ->
    ext_live x (t_upcall t) r
}.

Section ThreadOps.
Context {P : Profile} {L : RefLayout} {X : Type}.
Abbreviation TM := (M (Sys X)).

Definition on_store {A} (m : M (RefStore KObject) A) : TM A :=
  fun s => match m (store s) with
           | Ret (a, st) => Ret (a, set_store s st)
           | Panic => Panic
           | Undef => Undef
           | Hang => Hang
           end.

(** Dereferencing a [SharedRef<Thread>] or [SharedRef<VmSpace>], and writing
    to the interior-mutable fields of a thread. *)
Definition thread_ref (r : Z) : TM Thread :=
  do* o := on_store (sref_deref r) in
  match o with
  | OThread t => ret t
  | _ => lift Undef
  end.

Definition space_arch (r : Z) : TM ArchVmSpace :=
  do* o := on_store (sref_deref r) in
  match o with
  | OSpace a _ => ret a
  | _ => lift Undef
  end.

Definition thread_put (r : Z) (t : Thread) : TM unit :=
  fun s => match store s !! r with
           | Some rc => Ret (tt, set_store s (<[r := mkRefCounted (counter rc) (OThread t)]> (store s)))
           | None => Undef
           end.

Definition set_mutable (t : Thread) (st : State) (n : Z) : Thread :=
  mkThread (t_arch t) (t_upcall t) (t_vmspace t) st n.

(** ** Scheduler *)

Definition sched_pop : TM (option Z) :=
  fun s => match runqueue s with
           | [] => Ret (None, s)
           | r :: q => Ret (Some r, set_runqueue s q)
           end.

(** [reserve] is the outcome of [try_reserve(1)]; on failure the reference
    passed in is dropped. *)
Definition push_back (reserve : bool) (thread : Z) : TM (result ErrorCode unit) :=
  if negb reserve then
    do* _ := on_store (sref_drop thread) in ret (Err OUT_OF_MEMORY)
  else fun s => Ret (Ok tt, set_runqueue s (runqueue s ++ [thread])).

Definition push_front (reserve : bool) (thread : Z) : TM (result ErrorCode unit) :=
  if negb reserve then
    do* _ := on_store (sref_drop thread) in ret (Err OUT_OF_MEMORY)
  else fun s => Ret (Ok tt, set_runqueue s (thread :: runqueue s)).

(** ** Thread *)

Definition thread_new (ptr : option Z) (vmspace : Z) (upcall : Upcall) : TM (result ErrorCode Z) :=
  on_store (sref_new ptr (OThread (mkThread arch_thread_new upcall vmspace Blocked 0))).

Definition is_runnable (r : Z) : TM bool :=
  do* t := thread_ref r in ret (bool_decide (t_state t = Runnable)).

Definition unblock (reserve : bool) (self : Z) : TM (result ErrorCode unit) :=
  do* t := thread_ref self in
  if negb (bool_decide (t_state t = Blocked)) then ret (Err INVALID_STATE)
  else
    do* r := on_store (sref_clone self) in
    do? _ := push_back reserve r in
    do* t := thread_ref self in
    do* _ := thread_put self (set_mutable t Runnable (in_upcalls t)) in
    ret (Ok tt).

Definition read_context (self : Z) (kind : ContextKind) (regs : ContextData)
  : TM (result ErrorCode ContextData) :=
  do* t := thread_ref self in
  if negb (bool_decide (t_state t = Blocked)) then ret (Err INVALID_STATE)
  else ret (Ok (arch_read_context (t_arch t) kind regs)).

Definition write_context (self : Z) (kind : ContextKind) (regs : ContextData)
  : TM (result ErrorCode unit) :=
  do* t := thread_ref self in
  if negb (bool_decide (t_state t = Blocked)) then ret (Err INVALID_STATE)
  else
    do* a := lift (arch_write_context (t_arch t) kind regs) in
    do* _ := thread_put self (mkThread a (t_upcall t) (t_vmspace t) (t_state t) (in_upcalls t)) in
    ret (Ok tt).

Definition Thread_DEFAULT_RIGHT : HandleRight := right_or RIGHT_READ RIGHT_WRITE.

(** The critical sections of [handle_syscall] and [terminate].  [enter_upcall]
    returns whether the upcall is to be made, the others whether the thread is
    to be reported as terminated. *)
Definition enter_upcall (t : Thread) : outcome (bool * Thread) :=
  if bool_decide (t_state t = Terminated) then Ret (false, t)
  else
    let* _ := rust_assert (bool_decide (t_state t = Runnable)) in
    let* n := usize_add (in_upcalls t) 1 in
    Ret (true, set_mutable t Blocked n).

Definition leave_upcall (t : Thread) : outcome (bool * Thread) :=
  let* _ := debug_assert (0 <? in_upcalls t) in
  let* n := usize_sub (in_upcalls t) 1 in
  Ret ((n =? 0) && bool_decide (t_state t = Terminated), set_mutable t (t_state t) n).

Definition request_terminate (t : Thread) : result ErrorCode (bool * Thread) :=
  if bool_decide (t_state t = Terminated) then Err INVALID_STATE
  else Ok (in_upcalls t =? 0, set_mutable t Terminated (in_upcalls t)).

(** [invoke ctx arg]: what the server does when the kernel calls it. *)
Context (invoke : Upcall -> UpcallArg -> TM unit).

(** The two blocks of [handle_syscall] that hold the lock. *)
Definition begin_upcall (self : Z) : TM bool :=
  do* t := thread_ref self in
  do* (go, t') := lift (enter_upcall t) in
  do* _ := thread_put self t' in
  ret go.

Definition end_upcall (self : Z) : TM bool :=
  do* t := thread_ref self in
  do* (terminate_now, t') := lift (leave_upcall t) in
  do* _ := thread_put self t' in
  ret terminate_now.

(** [self.upcall.invoke(arg)]. *)
Definition invoke_upcall (self : Z) (arg : UpcallArg) : TM unit :=
  do* t := thread_ref self in invoke (t_upcall t) arg.

Definition thread_handle_syscall (self : Z) : TM unit :=
  do* go := begin_upcall self in
  if negb go then ret tt
  else
    do* _ := invoke_upcall self UpSyscall in
    do* terminate_now := end_upcall self in
    if terminate_now then invoke_upcall self UpTerminated else ret tt.

Definition terminate (self : Z) : TM (result ErrorCode unit) :=
  do* t := thread_ref self in
  match request_terminate t with
  | Err e => ret (Err e)
  | Ok (terminate_now, t') =>
      do* _ := thread_put self t' in
      do* _ := (if terminate_now then invoke_upcall self UpTerminated else ret tt) in
      ret (Ok tt)
  end.

(** ** CurrentThread *)

Definition current_clear : TM unit :=
  do* s := get in
  do* _ := put (set_current s None) in
  match current s with
  | None => ret tt
  | Some old => on_store (sref_drop (sref_from_raw ThreadType old))
  end.

Definition current_thread : TM (option Z) :=
  do* s := get in
  match current s with
  | None => ret None
  | Some raw => do* r := on_store (sref_clone (sref_from_raw ThreadType raw)) in ret (Some r)
  end.

Definition current_update (next : Z) : TM unit :=
  do* new := on_store (sref_into_raw ThreadType next) in
  do* s := get in
  do* _ := put (set_current s (Some new)) in
  match current s with
  | None => ret tt
  | Some old => on_store (sref_drop (sref_from_raw ThreadType old))
  end.

(** [enter] up to the jump to user mode: the thread that then runs. *)
Definition current_enter (new_thread : Z) : TM Z :=
  do* t := thread_ref new_thread in
  do* arch := space_arch (t_vmspace t) in
  do* s := get in
  do* _ := put (set_cr3 s (fst (arch_switch arch (cr3_reg s)))) in
  do* _ := current_update new_thread in
  ret new_thread.

(** ** return_to_user *)

Fixpoint pick_next (fuel : nat) : TM (option Z) :=
  match fuel with
  | O => lift Hang
  | S fuel =>
      do* o := sched_pop in
      match o with
      | None => do* _ := current_clear in ret None
      | Some thread =>
          do* b := is_runnable thread in
          if b then ret (Some thread)
          else do* _ := on_store (sref_drop thread) in pick_next fuel
      end
  end.

(** The choice of the next thread; [None] is the idle loop.  The loop pops a
    thread per turn, so the length of the queue bounds it. *)
Definition schedule (reserve : bool) : TM (option Z) :=
  do* cur := current_thread in
  do* _ := match cur with
           | None => ret tt
           | Some c =>
               do* b := is_runnable c in
               if b then
                 do* r := push_front reserve c in
                 if is_err r then lift Panic else ret tt
               else on_store (sref_drop c)
           end in
  do* s := get in
  pick_next (S (length (runqueue s))).

(** [idle] of the x86-64 backend is [todo!()]. *)
Definition idle : outcome Z := Panic.

Definition return_to_user (reserve : bool) : TM Z :=
  do* next := schedule reserve in
  match next with
  | None => lift idle
  | Some t => current_enter t
  end.

Definition handle_syscall (reserve : bool) : TM Z :=
  do* cur := current_thread in
  match cur with
  | None => lift Panic
  | Some c =>
      do* _ := current_clear in
      do* _ := thread_handle_syscall c in
      do* _ := on_store (sref_drop c) in
      return_to_user reserve
  end.

End ThreadOps.

(** ** The scheduler invariant *)

Section SchedInv.
Context {L : RefLayout} {X : Type} `{KernelExt X}.

Definition thread_at (s : Sys X) (r : Z) (t : Thread) : Prop :=
  exists c, store s !! r = Some (mkRefCounted c (OThread t)).

Definition current_ref (s : Sys X) : list Z :=
  match current s with
  | Some raw => [sref_from_raw ThreadType raw]
  | None => []
  end.

(** [own]: the references held by handles and by kernel code on the stack.
    [run]: the threads outside the queue that may be runnable; in user mode,
    the current thread. *)
Record sys_inv (own run : list Z) (s : Sys X) : Prop := mkSysInv {
  si_rc : rc_inv (own ++ runqueue s ++ current_ref s) (store s);
  si_run : forall r, r ∈ run -> r ∈ own ++ current_ref s;
  si_nodup : NoDup (run ++ runqueue s);
  si_threads : forall r, r ∈ run ++ runqueue s ++ current_ref s -> exists t, thread_at s r t;
  si_runnable : forall r t, thread_at s r t -> t_state t = Runnable -> r ∈ run ++ runqueue s;
  si_blocked : forall r t, thread_at s r t -> t_state t = Blocked -> r ∉ run ++ runqueue s;
  si_space : forall r t, thread_at s r t -> exists c a l,
    store s !! t_vmspace t = Some (mkRefCounted c (OSpace a l));
  si_upcalls : forall r t, thread_at s r t -> 0 <= in_upcalls t;
  si_ext : ext_ok (store s) (ext s)
}.

(** The same, apart from [si_ext], as a test. *)
Definition sys_check (own run : list Z) (s : Sys X) : bool :=
  rc_check (own ++ runqueue s ++ current_ref s) (store s) &&
  forallb (fun r => bool_decide (r ∈ own ++ current_ref s)) run &&
  bool_decide (NoDup (run ++ runqueue s)) &&
  forallb (fun r => match store s !! r with
                    | Some (mkRefCounted _ (OThread _)) => true
                    | _ => false
                    end) (run ++ runqueue s ++ current_ref s) &&
  forallb (fun kv => match value kv.2 with
                     | OThread t =>
                         (if bool_decide (t_state t = Runnable)
                          then bool_decide (kv.1 ∈ run ++ runqueue s) else true) &&
                         (if bool_decide (t_state t = Blocked)
                          then bool_decide (kv.1 ∉ run ++ runqueue s) else true) &&
                         (0 <=? in_upcalls t) &&
                         match store s !! t_vmspace t with
                         | Some (mkRefCounted _ (OSpace _ _)) => true
                         | _ => false
                         end
                     | _ => true
                     end) (map_to_list (store s)).

Definition runnable (s : Sys X) (r : Z) : Prop := exists t, thread_at s r t /\ t_state t = Runnable.

(** What one operation leaves alone of the threads that others refer to:
    [in_upcalls], the upcall and the address space; and a terminated thread
    stays terminated. *)
Definition threads_kept (own : list Z) (s s' : Sys X) : Prop :=
  forall r t, r ∈ own -> thread_at s r t -> exists t', thread_at s' r t' /\
    in_upcalls t' = in_upcalls t /\ t_upcall t' = t_upcall t /\ t_vmspace t' = t_vmspace t /\
    (t_state t = Terminated -> t_state t' = Terminated).

(** How many references there are; no counter is larger. *)
Definition total_refs (own : list Z) (s : Sys X) : Z :=
  len (own ++ runqueue s ++ current_ref s) + len (all_refs (store s)).

(** When the kernel makes an upcall for thread [r].  [ready] is what the server
    expects of the thread in a system call. *)
Definition upcall_due (ready : Thread -> Prop) (s : Sys X) (r : Z) (ctx : Upcall) (arg : UpcallArg) : Prop :=
  ext_live (ext s) ctx r /\ exists t, thread_at s r t /\ t_upcall t = ctx /\
  match arg with
  | UpSyscall => t_state t = Blocked /\ 0 < in_upcalls t /\ ready t
  | UpTerminated => t_state t = Terminated /\ in_upcalls t = 0
  end.

(** What the kernel relies on of server code: called back with the scheduler in
    order, it returns with the scheduler in order.  [loc] are the references on
    the kernel's stack; servers hold others as handles, which they may create
    and destroy, and they do not touch the [in_upcalls] count of a thread that
    the kernel is handling.  [cost] bounds the number of references that one
    call creates. *)
Definition server_ok (cost : Z) (ready : Thread -> Prop) (invoke : Upcall -> UpcallArg -> M (Sys X) unit) : Prop :=
  forall ctx arg r loc s, sys_inv (loc ++ ext_refs (ext s)) [] s -> r ∈ loc -> upcall_due ready s r ctx arg ->
    total_refs (loc ++ ext_refs (ext s)) s + cost < 2 ^ 64 ->
    exists s', invoke ctx arg s = Ret (tt, s') /\ sys_inv (loc ++ ext_refs (ext s')) [] s' /\
      current s' = current s /\ threads_kept loc s s' /\
      total_refs (loc ++ ext_refs (ext s')) s' <= total_refs (loc ++ ext_refs (ext s)) s + cost.

(** The counter of the current thread has room for a temporary reference. *)
Definition current_room (s : Sys X) : Prop :=
  forall r rc, r ∈ current_ref s -> store s !! r = Some rc -> counter rc < 2 ^ 64 - 1.

End SchedInv.

(** ** The termination protocol, with the critical sections interleaved *)

Module Protocol.

(** A thread together with the CPUs that are handling it: [inside] of them are
    in the server's syscall handler, [pending] are about to report the thread
    as terminated, and [reported] reports have been made.  The report is where
    the server frees the data that its handlers use. *)
Record Proto : Set := mkProto {
  p_thread : Thread;
  inside : nat;
  pending : nat;
  reported : nat
}.

Definition start (arch : ArchThread) (upcall : Upcall) (vmspace : Z) : Proto :=
  mkProto (mkThread arch upcall vmspace Blocked 0) 0 0 0.

Definition add (b : bool) (n : nat) : nat := if b then S n else n.

Inductive step {P : Profile} : Proto -> Proto -> Prop :=
| step_syscall p t :
    Z.of_nat (inside p) < 2 ^ 64 - 1 -> enter_upcall (p_thread p) = Ret (true, t) ->
    step p (mkProto t (S (inside p)) (pending p) (reported p))
| step_syscall_late p t :
    enter_upcall (p_thread p) = Ret (false, t) ->
    step p (mkProto t (inside p) (pending p) (reported p))
| step_return p n b t :
    inside p = S n -> leave_upcall (p_thread p) = Ret (b, t) ->
    step p (mkProto t n (add b (pending p)) (reported p))
| step_terminate p b t :
    request_terminate (p_thread p) = Ok (b, t) ->
    step p (mkProto t (inside p) (add b (pending p)) (reported p))
| step_unblock p :
    t_state (p_thread p) = Blocked ->
    step p (mkProto (set_mutable (p_thread p) Runnable (in_upcalls (p_thread p)))
              (inside p) (pending p) (reported p))
| step_report p n :
    pending p = S n -> step p (mkProto (p_thread p) (inside p) n (S (reported p))).

Definition reachable {P : Profile} (p : Proto) : Prop :=
  exists arch upcall vmspace, rtc step (start arch upcall vmspace) p.

Record proto_inv (p : Proto) : Prop := {
  pi_count : in_upcalls (p_thread p) = Z.of_nat (inside p);
  pi_bound : Z.of_nat (inside p) < 2 ^ 64;
  pi_once : (pending p + reported p)%nat =
    add (bool_decide (t_state (p_thread p) = Terminated) && (inside p =? 0)%nat) 0
}.

End Protocol.

(** * Lemmas *)

Section SchedLemmas.
Context {P : Profile} {L : RefLayout} {X : Type} `{KernelExt X}.
Implicit Types (s : Sys X) (t : Thread).

Lemma ext_ok_survives st st' x : ext_ok st x -> survives st st' -> ext_ok st' x.
Proof.
  intros Hx Hs. apply (ext_ok_shrink st); [done|]. intros p c o E.
  apply Hs in E as ([c' v] & E & Hv). simpl in Hv. subst. exists c', v. auto.
Qed.

Lemma ext_ok_thread st x p c t t' :
  ext_ok st x -> st !! p = Some (mkRefCounted c (OThread t)) -> thread_stays t t' ->
  ext_ok (<[p := mkRefCounted c (OThread t')]> st) x.
Proof.
  intros Hx Hp Hst. apply (ext_ok_shrink st); [done|]. intros q c' o E.
  apply lookup_insert_Some in E as [[<- [= <- <-]]|[_ E]]; [|by exists c', o; auto].
  exists c, (OThread t). split; [done|]. right. eauto.
Qed.

Lemma on_store_run {A} (m : M (RefStore KObject) A) s a st :
  m (store s) = Ret (a, st) -> on_store m s = Ret (a, set_store s st).
Proof. intros E. unfold on_store. by rewrite E. Qed.

Lemma thread_ref_run s r t : thread_at s r t -> thread_ref r s = Ret (t, s).
Proof.
  intros [c E]. unfold thread_ref, bind, on_store, sref_deref, bind, sref_inner.
  rewrite E. by destruct s.
Qed.

Lemma space_arch_run s r c a l :
  store s !! r = Some (mkRefCounted c (OSpace a l)) -> space_arch r s = Ret (a, s).
Proof.
  intros E. unfold space_arch, bind, on_store, sref_deref, bind, sref_inner.
  rewrite E. by destruct s.
Qed.

Lemma is_runnable_run s r t :
  thread_at s r t -> is_runnable r s = Ret (bool_decide (t_state t = Runnable), s).
Proof. intros E. unfold is_runnable. by rewrite (bind_run _ _ _ _ _ (thread_ref_run s r t E)). Qed.

Lemma thread_at_inj s r t t' : thread_at s r t -> thread_at s r t' -> t = t'.
Proof. intros [c E] [c' E']. congruence. Qed.

(** Objects keep their value across [clone] and [drop]. *)
Lemma thread_at_survives s st r t :
  survives (store s) st -> thread_at (set_store s st) r t -> thread_at s r t.
Proof. intros Hs [c E]. apply Hs in E as ([c' v] & E & Hv). simpl in Hv. subst. by exists c'. Qed.

Lemma live_survives s st r t :
  survives (store s) st -> thread_at s r t -> is_Some (st !! r) -> thread_at (set_store s st) r t.
Proof.
  intros Hs [c E] [[c' v] E']. pose proof E' as E2. apply Hs in E2 as (rc & E2 & Hv).
  rewrite E in E2. injection E2 as <-. simpl in Hv. subst. by exists c'.
Qed.

Lemma sys_inv_survives own own' run s st :
  sys_inv own run s -> survives (store s) st ->
  rc_inv (own' ++ runqueue s ++ current_ref s) st ->
  (forall r, r ∈ run -> r ∈ own' ++ current_ref s) ->
  sys_inv own' run (set_store s st).
Proof.
  intros Hi Hs Hrc Hrun. constructor; try done.
  - apply (si_nodup _ _ _ Hi).
  - intros r Hr. destruct (si_threads _ _ _ Hi r Hr) as [t Ht]. exists t.
    apply live_survives; [done..|]. apply (rc_live _ _ Hrc). cbn in Hr. set_solver.
  - intros r t Ht. apply (si_runnable _ _ _ Hi r). by eapply thread_at_survives.
  - intros r t Ht. apply (si_blocked _ _ _ Hi r). by eapply thread_at_survives.
  - intros r t Ht. destruct (si_space _ _ _ Hi r t) as (c & a & l & E); [by eapply thread_at_survives|].
    destruct Ht as [ct Et]. simpl in Et.
    destruct (rc_live _ _ Hrc (t_vmspace t)) as [[c' v] E'].
    { apply elem_of_app. right. apply (all_refs_owner st r _ _ Et). by apply list_elem_of_here. }
    exists c', a, l. simpl. pose proof E' as E2. apply Hs in E2 as (rc & E2 & Hv).
    rewrite E in E2. injection E2 as <-. simpl in Hv. by subst.
  - intros r t Ht. apply (si_upcalls _ _ _ Hi r). by eapply thread_at_survives.
  - apply (ext_ok_survives (store s)); [apply (si_ext _ _ _ Hi)|done].
Qed.

Lemma sys_check_ok own run s : sys_check own run s = true -> ext_ok (store s) (ext s) -> sys_inv own run s.
Proof.
  intros Hcheck Hext. revert Hcheck.
  unfold sys_check. rewrite !andb_true_iff, !forallb_forall. intros [[[[Hrc Hrun] Hnd] Hth] Hall].
  assert (forall r t, thread_at s r t ->
    (t_state t = Runnable -> r ∈ run ++ runqueue s) /\ (t_state t = Blocked -> r ∉ run ++ runqueue s) /\
    0 <= in_upcalls t /\ exists c a l, store s !! t_vmspace t = Some (mkRefCounted c (OSpace a l))) as Ht.
  { intros r t [c E]. apply elem_of_map_to_list, list_elem_of_In, Hall in E. simpl in E.
    rewrite !andb_true_iff in E. destruct E as [[[E1 E2] E3%Z.leb_le] E4].
    split; [intros Hs; rewrite bool_decide_true in E1 by done; by apply bool_decide_eq_true in E1|].
    split; [intros Hs; rewrite bool_decide_true in E2 by done; by apply bool_decide_eq_true in E2|].
    split; [done|]. destruct (store s !! t_vmspace t) as [[c' [|a l|]]|]; try done. eauto. }
  constructor.
  - by apply rc_check_ok.
  - intros r Hr. by eapply bool_decide_eq_true, Hrun, list_elem_of_In.
  - by apply bool_decide_eq_true in Hnd.
  - intros r Hr. apply list_elem_of_In, Hth in Hr. unfold thread_at.
    destruct (store s !! r) as [[c' [| |t]]|]; try done. eauto.
  - intros r t Hr. by apply Ht.
  - intros r t Hr. by destruct (Ht r t Hr) as (_ & ? & _).
  - intros r t Hr. by destruct (Ht r t Hr) as (_ & _ & _ & ?).
  - intros r t Hr. by destruct (Ht r t Hr) as (_ & _ & ? & _).
  - done.
Qed.

(** References and queue entries change hands, threads do not change. *)
Lemma sys_inv_sched own run own' run' s q cur v :
  sys_inv own run s ->
  let s' := mkSys (store s) q cur v (ext s) in
  rc_inv (own' ++ q ++ current_ref s') (store s) ->
  NoDup (run' ++ q) ->
  (forall r, r ∈ run' -> r ∈ own' ++ current_ref s') ->
  (forall r, r ∈ current_ref s' -> exists t, thread_at s r t) ->
  (forall r, r ∈ run' ++ q -> r ∈ run ++ runqueue s) ->
  (forall r t, thread_at s r t -> t_state t = Runnable -> r ∈ run ++ runqueue s -> r ∈ run' ++ q) ->
  sys_inv own' run' s'.
Proof.
  intros Hi s' Hrc Hnd Hrun Hcur Hsub Hall. constructor; try done.
  - intros r Hr. rewrite app_assoc in Hr. apply elem_of_app in Hr as [Hr|Hr]; [|by apply Hcur].
    apply (si_threads _ _ _ Hi). apply Hsub in Hr. set_solver.
  - intros r t Ht Hs. apply (Hall r t); [done..|]. by apply (si_runnable _ _ _ Hi r t).
  - intros r t Ht Hs Hin. apply (si_blocked _ _ _ Hi r t); [done..|]. by apply Hsub.
  - apply (si_space _ _ _ Hi).
  - apply (si_upcalls _ _ _ Hi).
  - apply (si_ext _ _ _ Hi).
Qed.

(** One thread changes state. *)
Lemma sys_inv_put own run s r c t t' :
  sys_inv own run s -> store s !! r = Some (mkRefCounted c (OThread t)) ->
  t_vmspace t' = t_vmspace t -> 0 <= in_upcalls t' -> thread_stays t t' ->
  forall run', NoDup (run' ++ runqueue s) ->
  (forall x, x ∈ run' -> x ∈ own ++ current_ref s) ->
  (forall x, x <> r -> x ∈ run' ++ runqueue s <-> x ∈ run ++ runqueue s) ->
  (t_state t' = Runnable -> r ∈ run' ++ runqueue s) ->
  (t_state t' = Blocked -> r ∉ run' ++ runqueue s) ->
  sys_inv own run' (set_store s (<[r := mkRefCounted c (OThread t')]> (store s))).
Proof.
  intros Hi Hr Hvs Hup Hstay run' Hnd Hrun Hsame Hrn Hbl.
  assert (forall x tx, thread_at (set_store s (<[r := mkRefCounted c (OThread t')]> (store s))) x tx ->
    x = r /\ tx = t' \/ x <> r /\ thread_at s x tx) as Hcase.
  { intros x tx [cx E]. simpl in E. apply lookup_insert_Some in E as [[<- [= <- <-]]|[Hne E]].
    - by left. - right. split; [done|by exists cx]. }
  assert (forall x, x <> r -> forall tx, thread_at s x tx ->
    thread_at (set_store s (<[r := mkRefCounted c (OThread t')]> (store s))) x tx) as Hother.
  { intros x Hne tx [cx E]. exists cx. simpl. by rewrite lookup_insert_ne. }
  constructor; try done.
  - apply (rc_inv_mutate _ _ r (mkRefCounted c (OThread t))); [apply Hi|done| |done].
    simpl. by rewrite Hvs.
  - intros x Hx. destruct (decide (x = r)) as [->|Hne].
    + exists t', c. simpl. by rewrite lookup_insert_eq.
    + destruct (si_threads _ _ _ Hi x) as [tx Ht]; [|exists tx; by apply Hother].
      rewrite app_assoc in Hx |- *. apply elem_of_app in Hx as [Hx|Hx]; [|set_solver].
      apply elem_of_app. left. by apply Hsame.
  - intros x tx [[-> ->]|[Hne Ht]]%Hcase Hst; [auto|].
    apply Hsame; [done|]. by apply (si_runnable _ _ _ Hi x tx).
  - intros x tx [[-> ->]|[Hne Ht]]%Hcase Hst; [auto|]. cbn [runqueue set_store].
    rewrite Hsame by done. by apply (si_blocked _ _ _ Hi x tx).
  - intros x tx Ht. assert (exists y ty, thread_at s y ty /\ t_vmspace ty = t_vmspace tx) as (y & ty & Hy & Ev).
    { apply Hcase in Ht as [[-> ->]|[Hne Ht]]; [|by exists x, tx]. exists r, t. split; [by exists c|done]. }
    destruct (si_space _ _ _ Hi y ty Hy) as (c' & a & l & E). rewrite Ev in E.
    exists c', a, l. simpl. rewrite lookup_insert_ne; [done|]. intros Er. rewrite <- Er in E. congruence.
  - intros x tx [[-> ->]|[Hne Ht]]%Hcase; [done|]. by apply (si_upcalls _ _ _ Hi x tx).
  - apply (ext_ok_thread _ _ _ _ t); [apply Hi|done..].
Qed.

Lemma sys_drop own run s r :
  sys_inv (r :: own) run s -> (forall x, x ∈ run -> x ∈ own ++ current_ref s) ->
  exists st, on_store (sref_drop r) s = Ret (tt, set_store s st) /\ survives (store s) st /\
    sys_inv own run (set_store s st).
Proof.
  intros Hi Hrun. destruct (sref_drop_spec r (own ++ runqueue s ++ current_ref s) (store s))
    as (st & E & Hrc & Hs); [apply Hi|].
  exists st. split; [by apply on_store_run|split; [done|]]. by eapply sys_inv_survives.
Qed.

Lemma sys_clone own run s r rc :
  sys_inv own run s -> r ∈ own ++ runqueue s ++ current_ref s ->
  store s !! r = Some rc -> counter rc < 2 ^ 64 - 1 ->
  let st := <[r := mkRefCounted (counter rc + 1) (value rc)]> (store s) in
  on_store (sref_clone r) s = Ret (r, set_store s st) /\ survives (store s) st /\
  sys_inv (r :: own) run (set_store s st).
Proof.
  intros Hi Hin Hr Hc st. pose proof (si_rc _ _ _ Hi) as Hrc. pose proof (rc_pos _ _ Hrc r rc Hr).
  split; [by apply on_store_run, sref_clone_run; [|lia]|]. split; [by apply survives_insert|].
  apply (sys_inv_survives own); [done|by apply survives_insert| |].
  - by apply sref_clone_spec.
  - intros x Hx. pose proof (si_run _ _ _ Hi x Hx). set_solver.
Qed.

(** A thread that is not runnable need not be tracked. *)
Lemma sys_inv_forget own run s r t :
  sys_inv own (r :: run) s -> thread_at s r t -> t_state t <> Runnable -> sys_inv own run s.
Proof.
  intros Hi Ht Hst. pose proof (si_nodup _ _ _ Hi) as Hnd. destruct s as [st q cur v e].
  apply (sys_inv_sched own (r :: run) own run _ q cur v Hi); simpl in *.
  - apply Hi.
  - by apply NoDup_cons in Hnd as [_ ?].
  - intros x Hx. apply (si_run _ _ _ Hi). set_solver.
  - intros x Hx. apply (si_threads _ _ _ Hi). simpl. set_solver.
  - set_solver.
  - intros x tx Htx Hrn [->|Hx]%elem_of_cons; [|done].
    by rewrite (thread_at_inj _ _ _ _ Htx Ht) in Hrn.
Qed.

Lemma sys_inv_pop own s r q :
  sys_inv own [] s -> runqueue s = r :: q -> sys_inv (r :: own) [r] (set_runqueue s q).
Proof.
  intros Hi Hq. pose proof (si_nodup _ _ _ Hi) as Hnd. rewrite Hq in Hnd.
  apply (sys_inv_sched own [] (r :: own) [r] s q (current s) (cr3_reg s) Hi); simpl.
  - eapply rc_inv_perm; [|apply Hi]. rewrite Hq. simpl. symmetry. apply Permutation_middle.
  - done.
  - set_solver.
  - intros x Hx. apply (si_threads _ _ _ Hi). rewrite Hq. set_solver.
  - intros x Hx. rewrite Hq. set_solver.
  - intros x t _ _. rewrite Hq. set_solver.
Qed.

Lemma sys_inv_clear own run s raw :
  sys_inv own run s -> current s = Some raw ->
  (forall x, x ∈ run -> x ∈ own) ->
  sys_inv (sref_from_raw ThreadType raw :: own) run (set_current s None).
Proof.
  intros Hi Hc Hrun.
  apply (sys_inv_sched own run _ run s (runqueue s) None (cr3_reg s) Hi); simpl; rewrite ?app_nil_r; try done.
  - eapply rc_inv_perm; [|apply Hi]. unfold current_ref. rewrite Hc. simpl.
    by rewrite app_assoc, (Permutation_app_comm (own ++ _)).
  - apply Hi.
  - set_solver.
  - set_solver.
Qed.

Lemma current_clear_spec own run s :
  sys_inv own run s -> (forall x, x ∈ run -> x ∈ own) ->
  exists s', current_clear s = Ret (tt, s') /\ sys_inv own run s' /\ current s' = None /\
    runqueue s' = runqueue s /\ ext s' = ext s /\ cr3_reg s' = cr3_reg s /\ survives (store s) (store s').
Proof.
  intros Hi Hrun. unfold current_clear. rewrite bind_get. unfold bind, put.
  destruct (current s) as [raw|] eqn:Hc.
  - destruct (sys_drop own run (set_current s None) (sref_from_raw ThreadType raw))
      as (st & E & Hs & Hi'); [by apply sys_inv_clear|set_solver|].
    eexists. split; [exact E|]. done.
  - exists s. split; [by destruct s; simpl in *; subst|].
    split; [done|]. repeat (split; [done|]). apply survives_refl.
Qed.

Lemma pick_next_spec fuel own s :
  sys_inv own [] s -> (length (runqueue s) < fuel)%nat ->
  exists o s', pick_next fuel s = Ret (o, s') /\ survives (store s) (store s') /\
    cr3_reg s' = cr3_reg s /\
    match o with
    | Some r => sys_inv (r :: own) [r] s' /\ current s' = current s /\
        (exists t, thread_at s' r t /\ t_state t = Runnable) /\
        exists skipped, runqueue s = skipped ++ r :: runqueue s' /\
          forall x t, x ∈ skipped -> thread_at s x t -> t_state t <> Runnable
    | None => sys_inv own [] s' /\ current s' = None /\ runqueue s' = [] /\
        forall x t, x ∈ runqueue s -> thread_at s x t -> t_state t <> Runnable
    end.
Proof.
  revert s. induction fuel as [|fuel IH]; intros s Hi Hf; [lia|]. cbn [pick_next].
  unfold bind at 1, sched_pop. destruct (runqueue s) as [|r q] eqn:Hq.
  - destruct (current_clear_spec own [] s Hi) as (s' & E & Hi' & Hc & Hq' & _ & Hv & Hs); [set_solver|].
    rewrite (bind_run _ _ _ _ _ E). exists None, s'. split; [done|].
    split; [done|split; [done|]]. split; [done|split; [done|split; [congruence|set_solver]]].
  - pose proof (sys_inv_pop own s r q Hi Hq) as Hi1. set (s1 := set_runqueue s q) in *.
    destruct (si_threads _ _ _ Hi1 r) as [t Ht]; [set_solver|].
    rewrite (bind_run _ _ _ _ _ (is_runnable_run s1 r t Ht)).
    destruct (decide (t_state t = Runnable)) as [Hrn|Hnr].
    + rewrite bool_decide_true by done. exists (Some r), s1. split; [done|].
      split; [apply survives_refl|]. split; [done|split; [done|split; [done|split; [by exists t|]]]].
      exists []. split; [done|set_solver].
    + rewrite bool_decide_false by done.
      destruct (sys_drop own [] s1 r) as (st & E & Hs & Hi2);
        [by eapply sys_inv_forget|set_solver|].
      rewrite (bind_run _ _ _ _ _ E).
      destruct (IH (set_store s1 st) Hi2) as (o & s' & E' & Hs' & Hv & Ho); [simpl in *; lia|].
      exists o, s'. split; [done|]. split; [by eapply survives_trans|split; [done|]].
      assert (forall x tx, x ∈ q -> thread_at s x tx -> thread_at (set_store s1 st) x tx) as Hkeep.
      { intros x tx Hx Htx. apply (live_survives s1); [done..|].
        apply (rc_live _ _ (si_rc _ _ _ Hi2)). simpl. set_solver. }
      destruct o as [n|].
      * destruct Ho as (Hin & Hc & Htn & sk & Eq & Hsk). split; [done|split; [done|split; [done|]]].
        exists (r :: sk). simpl in Eq. split; [simpl; by rewrite Eq|].
        intros x tx [->|Hx]%elem_of_cons Htx.
        -- by rewrite (thread_at_inj _ _ _ _ Htx Ht).
        -- apply (Hsk x); [done|]. apply Hkeep; [rewrite Eq; set_solver|done].
      * destruct Ho as (Hin & Hc & Hq0 & Hno). split; [done|split; [done|split; [done|]]].
        intros x tx [->|Hx]%elem_of_cons Htx.
        -- by rewrite (thread_at_inj _ _ _ _ Htx Ht).
        -- apply (Hno x); [done|]. by apply Hkeep.
Qed.

Lemma sys_inv_switch own s r t raw :
  sys_inv (r :: own) [r] s -> thread_at s r t -> sref_from_raw ThreadType raw = r ->
  forall v, sys_inv (current_ref s ++ own) [r] (mkSys (store s) (runqueue s) (Some raw) v (ext s)).
Proof.
  intros Hi Ht <- v. apply (sys_inv_sched _ _ _ _ s _ _ _ Hi); simpl; try done.
  - eapply rc_inv_perm; [|apply Hi]. set (c := current_ref s). simpl.
    rewrite (Permutation_app_comm (c ++ own)), <- !app_assoc. simpl.
    rewrite <- (Permutation_middle (runqueue s)). apply perm_skip.
    by rewrite (Permutation_app_comm c), !app_assoc, (Permutation_app_comm own).
  - apply (si_nodup _ _ _ Hi).
  - unfold current_ref. simpl. set_solver.
  - unfold current_ref. simpl. intros x ->%list_elem_of_singleton. by exists t.
Qed.

Lemma current_update_spec own s r t :
  sys_inv (r :: own) [r] s -> thread_at s r t ->
  exists s', current_update r s = Ret (tt, s') /\ sys_inv own (current_ref s') s' /\
    current_ref s' = [r] /\ runqueue s' = runqueue s /\ survives (store s) (store s') /\
    cr3_reg s' = cr3_reg s.
Proof.
  intros Hi [ct Et].
  assert (sref_from_raw ThreadType (r + value_offset ThreadType) = r) as Eraw
    by (unfold sref_from_raw; lia).
  assert (on_store (sref_into_raw ThreadType r) s = Ret (r + value_offset ThreadType, s)) as Einto.
  { unfold on_store, sref_into_raw, sref_as_ptr, bind, sref_inner. rewrite Et. by destruct s. }
  pose proof (sys_inv_switch own s r t _ Hi (ex_intro _ ct Et) Eraw (cr3_reg s)) as Hi2.
  unfold current_update. rewrite (bind_run _ _ _ _ _ Einto), bind_get. unfold bind, put.
  set (s2 := set_current s _). fold s2 in Hi2. unfold current_ref at 1 in Hi2.
  destruct (current s) as [old|] eqn:Hc.
  - destruct (sys_drop own [r] s2 (sref_from_raw ThreadType old)) as (st & E & Hs & Hi3);
      [done|intros x ->%list_elem_of_singleton; unfold current_ref; simpl; rewrite Eraw; set_solver|].
    eexists. split; [exact E|]. unfold current_ref. simpl. by rewrite Eraw.
  - eexists. split; [done|]. unfold current_ref. simpl. rewrite Eraw.
    repeat (split; [done|]). split; [apply survives_refl|done].
Qed.

Lemma sys_inv_cr3 own run s v : sys_inv own run s -> sys_inv own run (set_cr3 s v).
Proof.
  intros Hi. apply (sys_inv_sched own run own run s (runqueue s) (current s) v Hi); simpl; try done;
    try apply Hi. intros r Hr. apply (si_threads _ _ _ Hi). unfold current_ref in *. set_solver.
Qed.

Lemma current_enter_spec own s r t :
  sys_inv (r :: own) [r] s -> thread_at s r t ->
  exists s', current_enter r s = Ret (r, s') /\ sys_inv own (current_ref s') s' /\
    current_ref s' = [r] /\ runqueue s' = runqueue s /\ survives (store s) (store s') /\
    exists c a l, store s !! t_vmspace t = Some (mkRefCounted c (OSpace a l)) /\ cr3_reg s' = cr3 a.
Proof.
  intros Hi Ht. destruct (si_space _ _ _ Hi r t Ht) as (c & a & l & Ha).
  unfold current_enter. rewrite (bind_run _ _ _ _ _ (thread_ref_run s r t Ht)).
  rewrite (bind_run _ _ _ _ _ (space_arch_run s _ c a l Ha)), bind_get.
  unfold bind at 1, put. set (s1 := set_cr3 s _).
  destruct (current_update_spec own s1 r t) as (s' & E & Hi' & Hc & Hq & Hs & Hv);
    [by apply sys_inv_cr3|done|].
  rewrite (bind_run _ _ _ _ _ E). exists s'. repeat (split; [done|]).
  exists c, a, l. split; [done|]. rewrite Hv. unfold s1, arch_switch. simpl. by case_Z.
Qed.

Lemma current_thread_spec own run s :
  sys_inv own run s -> current_room s ->
  exists o st, current_thread s = Ret (o, set_store s st) /\ survives (store s) st /\
    (forall x t, thread_at s x t -> thread_at (set_store s st) x t) /\
    option_list o = current_ref s /\ sys_inv (option_list o ++ own) run (set_store s st).
Proof.
  intros Hi Hroom. unfold current_thread. rewrite bind_get. unfold current_ref, current_room in *.
  destruct (current s) as [raw|] eqn:Hc.
  - remember (sref_from_raw ThreadType raw) as r eqn:Er.
    assert (r ∈ own ++ runqueue s ++ current_ref s) as Hin
      by (unfold current_ref; rewrite Hc, <- Er; set_solver).
    destruct (rc_owned _ _ r (si_rc _ _ _ Hi) Hin) as [rc Hr].
    assert (counter rc < 2 ^ 64 - 1) as Hlt by (apply (Hroom r); [unfold current_ref; rewrite Hc, <- Er; set_solver|done]).
    destruct (sys_clone own run s r rc Hi Hin Hr Hlt) as (E & Hs & Hi1).
    rewrite (bind_run _ _ _ _ _ E). eexists (Some r), _.
    split; [done|split; [done|]]. split; [|done].
    intros x t Ht. apply live_survives; [done..|]. destruct Ht as [ct Ex].
    rewrite lookup_insert_is_Some'. right. eauto.
  - exists None, (store s). split; [by destruct s|].
    split; [apply survives_refl|]. split; [by intros x t [ct E]; exists ct|].
    split; [done|]. by destruct s.
Qed.

(** [push_front] of the current thread. *)
Lemma sys_inv_push_front own s c :
  sys_inv (c :: own) [c] s -> sys_inv own [] (set_runqueue s (c :: runqueue s)).
Proof.
  intros Hi. apply (sys_inv_sched _ _ _ _ s _ _ _ Hi); simpl; try done.
  - eapply rc_inv_perm; [|apply Hi]. simpl. apply Permutation_middle.
  - apply (si_nodup _ _ _ Hi).
  - set_solver.
  - intros x Hx. apply (si_threads _ _ _ Hi). set_solver.
Qed.

(** The first half of [return_to_user]: the current thread goes back to the
    queue if it can still run. *)
Lemma requeue_spec own s :
  sys_inv own (current_ref s) s -> current_room s ->
  exists s1, sys_inv own [] s1 /\ current s1 = current s /\ cr3_reg s1 = cr3_reg s /\
    survives (store s) (store s1) /\
    (forall x t, x ∈ current_ref s ++ runqueue s -> thread_at s x t -> thread_at s1 x t) /\
    schedule true s = pick_next (S (length (runqueue s1))) s1 /\
    exists skipped, current_ref s ++ runqueue s = skipped ++ runqueue s1 /\
      forall x, x ∈ skipped -> ~ runnable s x.
Proof.
  intros Hi Hroom.
  destruct (current_thread_spec own _ s Hi Hroom) as (o & st & E & Hs & Hkeep & Ho & Hi1).
  unfold schedule. rewrite (bind_run _ _ _ _ _ E). set (s1 := set_store s st) in *.
  rewrite <- Ho in *. destruct o as [c|]; simpl option_list in *; simpl app in *.
  2: { rewrite bind_ret, bind_get. exists s1. repeat (split; [done|]).
       split; [by intros x t _; apply Hkeep|]. split; [done|]. exists []. set_solver. }
  destruct (si_threads _ _ _ Hi c) as [t Ht]; [set_solver|].
  pose proof (Hkeep c t Ht) as Ht1. unfold bind at 1.
  rewrite (bind_run _ _ _ _ _ (is_runnable_run s1 c t Ht1)).
  destruct (decide (t_state t = Runnable)) as [Hrn|Hnr].
  - rewrite bool_decide_true by done. unfold bind at 1, push_front. simpl.
    set (s2 := set_runqueue s1 (c :: runqueue s)). rewrite bind_get. exists s2.
    split; [exact (sys_inv_push_front own s1 c Hi1)|]. repeat (split; [done|]).
    split; [by intros x tx _; apply Hkeep|]. split; [done|]. exists []. set_solver.
  - rewrite bool_decide_false by done.
    destruct (sys_drop own [] s1 c) as (st2 & E2 & Hs2 & Hi2); [by eapply sys_inv_forget|set_solver|].
    rewrite E2, bind_get. exists (set_store s1 st2). split; [done|].
    repeat (split; [done|]). split; [by eapply survives_trans|]. split; [|split; [done|]].
    + intros x tx Hx Htx. apply live_survives; [done|by apply Hkeep|].
      apply (rc_live _ _ (si_rc _ _ _ Hi2)). rewrite !elem_of_app. left. right.
      change (current_ref (set_store s1 st2)) with (current_ref s). rewrite <- Ho. simpl. set_solver.
    + exists [c]. split; [done|]. intros x ->%list_elem_of_singleton (tx & Htx & Hrx).
      by rewrite (thread_at_inj _ _ _ _ Htx Ht) in Hrx.
Qed.

Lemma schedule_spec own s :
  sys_inv own (current_ref s) s -> current_room s ->
  exists o s', schedule true s = Ret (o, s') /\ survives (store s) (store s') /\
    match o with
    | Some r => sys_inv (r :: own) [r] s' /\ runnable s r /\ runnable s' r /\
        exists skipped, current_ref s ++ runqueue s = skipped ++ r :: runqueue s' /\
          forall x, x ∈ skipped -> ~ runnable s x
    | None => sys_inv own [] s' /\ current s' = None /\ runqueue s' = [] /\ forall x, ~ runnable s x
    end.
Proof.
  intros Hi Hroom.
  destruct (requeue_spec own s Hi Hroom) as (s1 & Hi1 & Hc & _ & Hs & Hkeep & E & sk & Eq & Hsk).
  destruct (pick_next_spec (S (length (runqueue s1))) own s1 Hi1) as (o & s' & E' & Hs' & _ & Ho); [lia|].
  assert (forall x, x ∈ runqueue s1 -> runnable s x -> runnable s1 x) as Hrun.
  { intros x Hx (t & Ht & Hst). exists t. split; [|done]. apply Hkeep; [rewrite Eq; set_solver|done]. }
  exists o, s'. rewrite E. split; [done|]. split; [by eapply survives_trans|].
  destruct o as [r|].
  - destruct Ho as (Hi' & _ & (t & Ht & Hst) & sk2 & Eq2 & Hsk2). split; [done|].
    assert (thread_at s r t) as Ht0.
    { destruct Ht as [ct Et]. apply Hs' in Et as (rc & Et & Hv). apply Hs in Et as ([c0 v] & Et & Hv0).
      exists c0. rewrite Et. simpl in *. by rewrite <- Hv0, <- Hv. }
    split; [by exists t|]. split; [by exists t|]. exists (sk ++ sk2).
    split; [by rewrite Eq, Eq2, app_assoc|].
    intros x [Hx|Hx]%elem_of_app; [by apply Hsk|]. intros Hr.
    destruct (Hrun x) as (tx & Htx & Hrx); [rewrite Eq2; set_solver|done|]. by apply (Hsk2 x tx).
  - destruct Ho as (Hi' & Hc' & Hq & Hno). split; [done|split; [done|split; [done|]]].
    intros x Hr. pose proof Hr as (t & Ht & Hst).
    pose proof (si_runnable _ _ _ Hi x t Ht Hst) as Hin. rewrite Eq in Hin.
    apply elem_of_app in Hin as [Hin|Hin]; [by apply (Hsk x)|].
    destruct (Hrun x Hin Hr) as (tx & Htx & Hrx). by apply (Hno x tx).
Qed.

(** [return_to_user] enters the first runnable thread, or idles. *)
Lemma return_to_user_spec own s :
  sys_inv own (current_ref s) s -> current_room s ->
  (forall x, ~ runnable s x) /\ return_to_user true s = Panic \/
  exists r t s' skipped, return_to_user true s = Ret (r, s') /\
    current_ref s ++ runqueue s = skipped ++ r :: runqueue s' /\
    thread_at s r t /\ t_state t = Runnable /\ (forall x, x ∈ skipped -> ~ runnable s x) /\
    sys_inv own (current_ref s') s' /\ current_ref s' = [r] /\ runnable s' r /\
    survives (store s) (store s') /\
    exists c a l, store s !! t_vmspace t = Some (mkRefCounted c (OSpace a l)) /\ cr3_reg s' = cr3 a.
Proof.
  intros Hi Hroom. destruct (schedule_spec own s Hi Hroom) as (o & s1 & E & Hs & Ho).
  unfold return_to_user. rewrite (bind_run _ _ _ _ _ E). destruct o as [r|].
  2: { left. split; [apply Ho|done]. }
  right. destruct Ho as (Hi1 & (t & Ht & Hst) & (t1 & Ht1 & Hst1) & sk & Eq & Hsk).
  destruct (current_enter_spec own s1 r t1 Hi1 Ht1) as (s2 & E2 & Hi2 & Hc & Hq & Hs2 & c & a & l & Ha & Hv).
  assert (t1 = t) as ->.
  { destruct Ht1 as [c1 E1]. apply Hs in E1 as ([c0 v] & E0 & Hv0). destruct Ht as [c' E']. simpl in *.
    congruence. }
  exists r, t, s2, sk. split; [done|]. rewrite Hq. repeat (split; [done|]). split.
  { exists t. split; [|done]. destruct (si_threads _ _ _ Hi2 r) as [t2 Ht2]; [rewrite Hc; set_solver|].
    destruct Ht2 as [c2 E3]. pose proof E3 as E4. apply Hs2 in E4 as ([c3 v] & E4 & Hv4).
    destruct Ht1 as [c1 E1]. exists c2. rewrite E3. simpl in *. congruence. }
  split; [by eapply survives_trans|].
  apply Hs in Ha as ([c0 v] & Ha0 & Hv0). exists c0, a, l. simpl in Hv0. subst. done.
Qed.

Lemma thread_put_run s r c t t' :
  store s !! r = Some (mkRefCounted c (OThread t)) ->
  thread_put r t' s = Ret (tt, set_store s (<[r := mkRefCounted c (OThread t')]> (store s))).
Proof. intros E. unfold thread_put. by rewrite E. Qed.

Lemma thread_at_put s r c t' x tx :
  thread_at (set_store s (<[r := mkRefCounted c (OThread t')]> (store s))) x tx <->
  x = r /\ tx = t' \/ x <> r /\ thread_at s x tx.
Proof.
  unfold thread_at. simpl. split.
  - intros [cx E]. apply lookup_insert_Some in E as [[<- [= <- <-]]|[Hne E]]; [by left|right; eauto].
  - intros [[-> ->]|[Hne [cx E]]]; [exists c; by rewrite lookup_insert_eq|].
    exists cx. by rewrite lookup_insert_ne.
Qed.

(** A change that leaves a thread where it is in the scheduler. *)
Lemma sys_inv_put_here own run s r c t t' :
  sys_inv own run s -> store s !! r = Some (mkRefCounted c (OThread t)) ->
  t_vmspace t' = t_vmspace t -> 0 <= in_upcalls t' -> thread_stays t t' ->
  t_state t' = t_state t \/ t_state t' = Terminated ->
  sys_inv own run (set_store s (<[r := mkRefCounted c (OThread t')]> (store s))).
Proof.
  intros Hi Hr Hv Hu Hstay Hst. assert (thread_at s r t) as Ht by (by exists c).
  apply (sys_inv_put own run s r c t t'); try done.
  - apply (si_nodup _ _ _ Hi).
  - apply (si_run _ _ _ Hi).
  - intros Hs. apply (si_runnable _ _ _ Hi r t Ht). destruct Hst; congruence.
  - intros Hs. apply (si_blocked _ _ _ Hi r t Ht). destruct Hst; congruence.
Qed.

(** A blocked thread becomes runnable at the end of the queue; the queue takes
    over a reference. *)
Lemma sys_inv_enqueue own run s r c t :
  sys_inv (r :: own) run s -> store s !! r = Some (mkRefCounted c (OThread t)) ->
  t_state t = Blocked -> (forall x, x ∈ run -> x ∈ own ++ current_ref s) ->
  let t' := set_mutable t Runnable (in_upcalls t) in
  sys_inv own run (mkSys (<[r := mkRefCounted c (OThread t')]> (store s)) (runqueue s ++ [r])
                     (current s) (cr3_reg s) (ext s)).
Proof.
  intros Hi Et Hb Hrun t'.
  assert (r ∉ run ++ runqueue s) as Hout by (apply (si_blocked _ _ _ Hi r t); [by exists c|done]).
  assert (sys_inv (r :: own) (r :: run) (set_store s (<[r := mkRefCounted c (OThread t')]> (store s)))) as Hi2.
  { apply (sys_inv_put (r :: own) run s r c t t'); try done.
    - apply (si_upcalls _ _ _ Hi r t). by exists c.
    - split_and!; [done..|]. intros _. left. congruence.
    - simpl. constructor; [done|]. apply (si_nodup _ _ _ Hi).
    - intros x. pose proof (si_run _ _ _ Hi x). set_solver.
    - set_solver.
    - set_solver. }
  apply (sys_inv_sched _ _ own run _ (runqueue s ++ [r]) (current s) (cr3_reg s) Hi2); simpl.
  - eapply rc_inv_perm; [|apply Hi2]. simpl.
    change (current_ref (mkSys _ _ (current s) _ _)) with (current_ref s).
    change (current_ref (set_store _ _)) with (current_ref s).
    rewrite <- (app_assoc (runqueue s)). simpl.
    by rewrite <- (Permutation_middle (runqueue s)), Permutation_middle.
  - rewrite app_assoc. apply NoDup_app. split; [apply Hi|]. split; [set_solver|]. apply NoDup_singleton.
  - done.
  - intros x Hx. apply (si_threads _ _ _ Hi2). simpl. set_solver.
  - set_solver.
  - set_solver.
Qed.

(** ** Operations that leave the rest of the system alone *)

Definition keeps_ext {A} (m : M (Sys X) A) : Prop := forall s a s', m s = Ret (a, s') -> ext s' = ext s.

Lemma keeps_ret {A} (a : A) : keeps_ext (ret a).
Proof. intros s b s' [= _ <-]. done. Qed.

Lemma keeps_lift {A} (m : outcome A) : keeps_ext (lift m).
Proof. intros s b s'. unfold lift. destruct m; try done. by intros [= _ <-]. Qed.

Lemma keeps_bind {A B} (m : M (Sys X) A) (k : A -> M (Sys X) B) :
  keeps_ext m -> (forall a, keeps_ext (k a)) -> keeps_ext (bind m k).
Proof.
  intros Hm Hk s b s'. unfold bind. destruct (m s) as [[a s1]| | |] eqn:E; try done. intros E'.
  rewrite (Hk _ _ _ _ E'). by apply (Hm _ _ _ E).
Qed.

Lemma keeps_get {B} (k : Sys X -> M (Sys X) B) :
  (forall s b s', k s s = Ret (b, s') -> ext s' = ext s) -> keeps_ext (bind get k).
Proof. intros Hk s b s'. rewrite bind_get. apply Hk. Qed.

Lemma keeps_on_store {A} (m : M (RefStore KObject) A) : keeps_ext (on_store m).
Proof. intros s a s'. unfold on_store. destruct (m (store s)) as [[b st]| | |]; try done. by intros [= _ <-]. Qed.

Lemma keeps_thread_ref r : keeps_ext (thread_ref r).
Proof. apply keeps_bind; [apply keeps_on_store|]. intros [| |t]; (apply keeps_ret || apply keeps_lift). Qed.

Lemma keeps_is_runnable r : keeps_ext (is_runnable r).
Proof. apply keeps_bind; [apply keeps_thread_ref|]. intros t. apply keeps_ret. Qed.

Hint Resolve keeps_ret keeps_lift keeps_bind keeps_on_store keeps_thread_ref keeps_is_runnable : core.

Lemma keeps_clear : keeps_ext current_clear.
Proof.
  apply keeps_get. intros s b s'. unfold bind, put. destruct (current s) as [r|]; [|by intros [= _ <-]].
  apply (keeps_on_store _ (set_current s None)).
Qed.

Lemma keeps_enter r : keeps_ext (current_enter r).
Proof.
  apply keeps_bind; [done|]. intros t. apply keeps_bind.
  { apply keeps_bind; [done|]. intros [| |]; auto. }
  intros a. apply keeps_get. intros s b s'. unfold bind at 1, put. intros E.
  refine (keeps_bind _ _ _ _ (set_cr3 s _) _ _ E); [|auto]. clear. apply keeps_bind; [done|]. intros raw.
  apply keeps_get. intros s b s'. unfold bind, put. destruct (current s) as [o|]; [|by intros [= _ <-]].
  apply (keeps_on_store _ (set_current s (Some raw))).
Qed.

Lemma keeps_pick_next fuel : keeps_ext (pick_next fuel).
Proof.
  induction fuel as [|fuel IH]; [apply keeps_lift|]. apply keeps_bind.
  { intros s a s'. unfold sched_pop. destruct (runqueue s); by intros [= _ <-]. }
  intros [r|]; apply keeps_bind; auto using keeps_clear. intros [|]; auto.
Qed.

Lemma keeps_return_to_user reserve : keeps_ext (return_to_user reserve).
Proof.
  apply keeps_bind; [|intros [r|]; auto using keeps_enter].
  apply keeps_bind.
  { apply keeps_get. intros s b s'. destruct (current s) as [raw|]; [|by intros [= _ <-]].
    apply keeps_bind; auto. }
  intros cur. apply keeps_bind; [|intros _; apply keeps_get; intros s b s'; apply keeps_pick_next].
  destruct cur as [c|]; [|auto]. apply keeps_bind; [done|]. intros [|]; [|auto].
  apply keeps_bind; [|intros r; destruct (is_err r); auto].
  unfold push_front. destruct reserve; cbn [negb]; [|auto]. intros s a s'. by intros [= _ <-].
Qed.

Lemma threads_kept_trans own s1 s2 s3 :
  threads_kept own s1 s2 -> threads_kept own s2 s3 -> threads_kept own s1 s3.
Proof.
  intros H12 H23 x t Hx Ht. destruct (H12 x t Hx Ht) as (t2 & Ht2 & E & Eu & Ev & Es).
  destruct (H23 x t2 Hx Ht2) as (t3 & Ht3 & E' & Eu' & Ev' & Es').
  exists t3. split; [done|]. split; [congruence|split; [congruence|split; [congruence|auto]]].
Qed.

(** ** Counting references *)

Lemma counter_le_total own run s r rc :
  sys_inv own run s -> store s !! r = Some rc -> counter rc <= total_refs own s.
Proof.
  intros Hi Hr. rewrite (rc_count _ _ (si_rc _ _ _ Hi) r rc Hr), occ_app. unfold total_refs, occ.
  pose proof (count_occ_bound Z.eq_dec r (own ++ runqueue s ++ current_ref s)).
  pose proof (count_occ_bound Z.eq_dec r (all_refs (store s))). lia.
Qed.

Lemma total_refs_survives own s st :
  survives (store s) st -> total_refs own (set_store s st) <= total_refs own s.
Proof. intros Hs. apply all_refs_survives in Hs. unfold total_refs, current_ref. simpl. lia. Qed.

Lemma total_refs_put own s r c t t' :
  store s !! r = Some (mkRefCounted c (OThread t)) ->
  total_refs own (set_store s (<[r := mkRefCounted c (OThread t')]> (store s))) = total_refs own s.
Proof.
  intros E. unfold total_refs, current_ref. cbn [store set_store runqueue current]. f_equal.
  rewrite (all_refs_insert _ _ _ _ E), (all_refs_delete _ _ _ E), !length_app. done.
Qed.

(** [unblock], with what it does to the objects that others refer to. *)
Lemma unblock_spec own run s r t :
  sys_inv own run s -> r ∈ own -> thread_at s r t ->
  (forall rc, store s !! r = Some rc -> counter rc < 2 ^ 64 - 1) ->
  forall reserve, exists s',
    unblock reserve r s = Ret ((if negb (bool_decide (t_state t = Blocked)) then Err INVALID_STATE
                                else if reserve then Ok tt else Err OUT_OF_MEMORY), s') /\
    sys_inv own run s' /\ current s' = current s /\ ext s' = ext s /\
    runqueue s' = runqueue s ++
      (if bool_decide (t_state t = Blocked) && reserve then [r] else []) /\
    total_refs own s' <= total_refs own s + 1 /\
    (forall x c o, x ∈ own ++ runqueue s ++ current_ref s -> store s !! x = Some (mkRefCounted c o) ->
      exists c', store s' !! x = Some (mkRefCounted c'
        (if bool_decide (x = r) && bool_decide (t_state t = Blocked) && reserve
         then OThread (set_mutable t Runnable (in_upcalls t)) else o))).
Proof.
  intros Hi Hin Ht Hroom reserve. unfold unblock. rewrite (bind_run _ _ _ _ _ (thread_ref_run s r t Ht)).
  destruct (decide (t_state t = Blocked)) as [Hb|Hb].
  2: { rewrite (bool_decide_eq_false_2 _ Hb). exists s. split; [done|]. split; [done|].
       split; [done|]. split; [done|]. rewrite app_nil_r. split; [done|]. split; [lia|]. intros x c o _ Hx.
       rewrite andb_false_r. eauto. }
  rewrite (bool_decide_eq_true_2 _ Hb). simpl. destruct Ht as [c Et].
  destruct (sys_clone own run s r _ Hi ltac:(set_solver) Et (Hroom _ Et)) as (E & Hs & Hi1).
  rewrite (bind_run _ _ _ _ _ E). clear E. cbn [counter value] in Hs, Hi1 |- *.
  pose proof (total_refs_survives own s _ Hs) as Hn. set (s1 := set_store s _) in *.
  assert (store s1 !! r = Some (mkRefCounted (c + 1) (OThread t))) as Et1 by apply lookup_insert_eq.
  assert (forall x cx o, store s !! x = Some (mkRefCounted cx o) -> exists c', store s1 !! x = Some (mkRefCounted c' o)) as Hkeep.
  { intros x cx o Ex. unfold s1. cbn [store set_store]. destruct (decide (x = r)) as [->|Hne].
    - rewrite lookup_insert_eq. rewrite Et in Ex. injection Ex as _ <-. eauto.
    - rewrite lookup_insert_ne by done. eauto. }
  unfold push_back. destruct reserve; simpl negb; cbv iota.
  - unfold bindr, bind at 1. cbv beta iota. set (s2 := set_runqueue s1 (runqueue s1 ++ [r])).
    rewrite (bind_run _ _ _ _ _ (thread_ref_run s2 r t (ex_intro _ _ Et1))).
    rewrite (bind_run _ _ _ _ _ (thread_put_run s2 r _ t _ Et1)).
    eexists. split; [done|]. split; [|split; [done|split; [done|split; [done|split]]]].
    + apply (sys_inv_enqueue own run s1 r (c + 1) t); try done. apply (si_run _ _ _ Hi).
    + rewrite (total_refs_put own s2 r _ t) by done. unfold total_refs in *. simpl in *.
      unfold current_ref in *. simpl in *. rewrite !length_app in *. simpl. lia.
    + intros x cx o _ Ex. cbn [store set_store]. destruct (decide (x = r)) as [->|Hne].
      * rewrite bool_decide_true, lookup_insert_eq by done. eauto.
      * rewrite bool_decide_false, lookup_insert_ne by done. by eapply Hkeep.
  - destruct (sys_drop own run s1 r) as (st2 & E2 & Hs2 & Hi2); [done|apply (si_run _ _ _ Hi)|].
    pose proof (total_refs_survives own s1 _ Hs2) as Hn2.
    unfold bindr. rewrite (bind_run _ _ _ (Err OUT_OF_MEMORY) (set_store s1 st2)).
    2: { by rewrite (bind_run _ _ _ _ _ E2). }
    eexists. split; [done|]. split; [done|split; [done|]]. rewrite app_nil_r. split; [done|]. split; [done|].
    split; [lia|]. intros x cx o Hx Ex. rewrite andb_false_r. destruct (Hkeep _ _ _ Ex) as [c1 E1].
    destruct (rc_live _ _ (si_rc _ _ _ Hi2) x) as [[c3 v] E3]; [set_solver|]. cbn [store set_store] in *.
    pose proof E3 as E4. apply Hs2 in E4 as (rc & E4 & Hv). rewrite E1 in E4. injection E4 as <-.
    simpl in Hv. subst. eauto.
Qed.

(** The references held on the kernel's stack and by servers. *)
Abbreviation held loc s := (loc ++ ext_refs (ext s)).
Abbreviation refs loc s := (total_refs (held loc s) s).

Lemma begin_upcall_spec own s c t :
  sys_inv own [c] s -> c ∈ own -> thread_at s c t -> in_upcalls t < 2 ^ 64 - 1 ->
  exists s', begin_upcall c s = Ret (bool_decide (t_state t = Runnable), s') /\
    sys_inv own [] s' /\ current s' = current s /\ ext s' = ext s /\ runqueue s' = runqueue s /\
    total_refs own s' = total_refs own s /\
    thread_at s' c (if bool_decide (t_state t = Runnable)
                    then set_mutable t Blocked (in_upcalls t + 1) else t).
Proof.
  intros Hi Hin Ht Hn. pose proof (si_upcalls _ _ _ Hi c t Ht) as Hn0.
  assert (t_state t <> Blocked) as Hnb.
  { intros Hb. apply (si_blocked _ _ _ Hi c t Ht Hb). set_solver. }
  destruct (id Ht) as [k Et]. unfold begin_upcall, enter_upcall.
  rewrite (bind_run _ _ _ _ _ (thread_ref_run s c t Ht)).
  destruct (t_state t) eqn:Hst; [|done|]; simpl bool_decide; cbv iota.
  - simpl rust_assert. cbn [obind]. rewrite usize_add_ok by lia. cbn [obind].
    rewrite bind_lift with (a := (true, set_mutable t Blocked (in_upcalls t + 1))) by done.
    rewrite (bind_run _ _ _ _ _ (thread_put_run s c k t _ Et)).
    pose proof (si_nodup _ _ _ Hi) as Hnd. simpl in Hnd. apply NoDup_cons in Hnd as [Hc Hnd].
    eexists. split; [done|]. split; [|split; [done|split; [done|split; [done|]]]].
    + apply (sys_inv_put own [c] s c k t); try done; [simpl; lia| |set_solver|set_solver].
      split_and!; [done..|]. intros _. left. congruence.
    + split; [by apply (total_refs_put own s c k t)|apply thread_at_put; by left].
  - rewrite bind_lift with (a := (false, t)) by done.
    rewrite (bind_run _ _ _ _ _ (thread_put_run s c k t t Et)). rewrite insert_id by done.
    exists s. destruct s. split; [done|]. split; [|done].
    eapply sys_inv_forget; [exact Hi|done|congruence].
Qed.

Lemma end_upcall_spec own s c t :
  sys_inv own [] s -> thread_at s c t -> 0 < in_upcalls t < 2 ^ 64 ->
  exists s', end_upcall c s = Ret ((in_upcalls t =? 1) && bool_decide (t_state t = Terminated), s') /\
    sys_inv own [] s' /\ current s' = current s /\ ext s' = ext s /\ runqueue s' = runqueue s /\
    total_refs own s' = total_refs own s /\
    thread_at s' c (set_mutable t (t_state t) (in_upcalls t - 1)).
Proof.
  intros Hi Ht Hn. unfold end_upcall. rewrite (bind_run _ _ _ _ _ (thread_ref_run s c t Ht)).
  unfold leave_upcall. rewrite (proj2 (Z.ltb_lt 0 _)), debug_assert_ok by lia. simpl.
  rewrite usize_sub_ok by lia. simpl. destruct Ht as [k Et].
  unfold bind at 1. simpl lift. cbv beta iota.
  rewrite (bind_run _ _ _ _ _ (thread_put_run s c k t _ Et)).
  eexists. split; [by replace (in_upcalls t =? 1) with (in_upcalls t - 1 =? 0) by lia|].
  split; [|split; [done|split; [done|split; [done|split; [by apply (total_refs_put own s c k t)|apply thread_at_put; by left]]]]].
  apply (sys_inv_put_here own [] s c k t); try done; [simpl; lia| |by left].
  split_and!; [done..|]. intros [?|?]; [by left|right; lia].
Qed.

Lemma active_live own run s c t : sys_inv own run s -> thread_at s c t -> active t -> ext_live (ext s) (t_upcall t) c.
Proof. intros Hi [k E]. apply (ext_ok_live (store s) _ _ k); [apply Hi|done]. Qed.

(** The kernel's part of a system call, before the thread's handler runs: the
    reference of the current thread becomes one on the stack. *)
(** [handle_syscall] up to the call of the scheduler. *)
Definition serve_current (invoke : Upcall -> UpcallArg -> M (Sys X) unit) : M (Sys X) unit :=
  do* cur := current_thread in
  match cur with
  | None => lift Panic
  | Some c =>
      do* _ := current_clear in
      do* _ := thread_handle_syscall invoke c in
      on_store (sref_drop c)
  end.

Lemma handle_syscall_serve invoke reserve s :
  handle_syscall invoke reserve s = (do* _ := serve_current invoke in return_to_user reserve) s.
Proof.
  unfold handle_syscall, serve_current, bind. destruct (current_thread s) as [[[c|] s1]| | |]; try done.
  destruct (current_clear s1) as [[[] s2]| | |]; try done. by destruct (thread_handle_syscall invoke c s2) as [[[] s3]| | |].
Qed.

Lemma handle_syscall_enter invoke s c t :
  sys_inv (ext_refs (ext s)) [c] s -> current_ref s = [c] -> thread_at s c t -> refs [] s + 1 < 2 ^ 64 ->
  exists s', serve_current invoke s = (do* _ := thread_handle_syscall invoke c in on_store (sref_drop c)) s' /\
    handle_syscall invoke true s =
      (do* _ := thread_handle_syscall invoke c in do* _ := on_store (sref_drop c) in return_to_user true) s' /\
    sys_inv (held [c] s') [c] s' /\ current s' = None /\ ext s' = ext s /\ runqueue s' = runqueue s /\ thread_at s' c t /\
    refs [c] s' <= refs [] s.
Proof.
  intros Hi Hcur Ht Hrefs. unfold handle_syscall, serve_current.
  assert (current_room s) as Hroom.
  { intros r rc _ Er. pose proof (counter_le_total _ _ _ _ _ Hi Er). simpl in Hrefs. lia. }
  destruct (current_thread_spec _ [c] s Hi Hroom) as (o & st & E & Hs & Hkeep & Ho & Hi1).
  rewrite !(bind_run _ _ _ _ _ E). rewrite Hcur in Ho. destruct o as [c'|]; [|done].
  simpl in Ho. injection Ho as ->. cbn [option_list] in Hi1.
  destruct (current_clear_spec (held [c] s) [c] (set_store s st) Hi1) as (s2 & E2 & Hi2 & Hc2 & Hq2 & Hx2 & _ & Hs2);
    [set_solver|].
  change (ext (set_store s st)) with (ext s) in Hx2.
  rewrite !(bind_run _ _ _ _ _ E2). exists s2. split; [done|]. split; [done|]. split; [by rewrite Hx2|]. split; [done|]. split; [done|]. split; [done|]. split.
  - destruct s2. apply (live_survives (set_store s st)); [done|by apply Hkeep|].
    apply (rc_live _ _ (si_rc _ _ _ Hi2)). set_solver.
  - apply all_refs_survives in Hs, Hs2. unfold total_refs. rewrite Hq2, Hx2, Hcur. unfold current_ref.
    rewrite Hc2. simpl in *. rewrite !length_app. simpl. lia.
Qed.

Section WithServer.
Context (cost : Z) (ready : Thread -> Prop) (invoke : Upcall -> UpcallArg -> M (Sys X) unit).
Context (Hcost : 0 <= cost) (Hserver : server_ok cost ready invoke).

Lemma invoke_upcall_spec loc s c t arg :
  sys_inv (held loc s) [] s -> c ∈ loc -> thread_at s c t -> upcall_due ready s c (t_upcall t) arg ->
  refs loc s + cost < 2 ^ 64 ->
  exists s', invoke_upcall invoke c arg s = Ret (tt, s') /\ sys_inv (held loc s') [] s' /\
    current s' = current s /\ threads_kept loc s s' /\ refs loc s' <= refs loc s + cost.
Proof.
  intros Hi Hin Ht Hd Hn. unfold invoke_upcall. rewrite (bind_run _ _ _ _ _ (thread_ref_run s c t Ht)).
  by apply (Hserver (t_upcall t) arg c loc s).
Qed.

(** The [handle_syscall] method on the thread that ran: it blocks, the server
    is called once, and the thread is reported if it was terminated
    meanwhile. *)
Lemma thread_handle_syscall_spec s c t :
  sys_inv (held [c] s) [c] s -> thread_at s c t -> in_upcalls t < 2 ^ 64 - 1 ->
  ready (set_mutable t Blocked (in_upcalls t + 1)) -> refs [c] s + 2 * cost < 2 ^ 64 ->
  exists s', thread_handle_syscall invoke c s = Ret (tt, s') /\ sys_inv (held [c] s') [] s' /\
    current s' = current s /\ refs [c] s' <= refs [c] s + 2 * cost.
Proof.
  intros Hi Ht Hn Hready Hrefs. pose proof (si_upcalls _ _ _ Hi c t Ht) as Hn0. unfold thread_handle_syscall.
  destruct (begin_upcall_spec _ s c t Hi) as (s1 & E1 & Hi1 & Hc1 & Hx1 & _ & Hr1 & Ht1); [set_solver|done..|].
  rewrite (bind_run _ _ _ _ _ E1). rewrite <- Hx1 in *. destruct (bool_decide _); cbn [negb].
  2: { exists s1. split; [done|]. split; [done|]. split; [done|lia]. }
  destruct (invoke_upcall_spec [c] s1 c (set_mutable t Blocked (in_upcalls t + 1)) UpSyscall Hi1) as (s2 & E2 & Hi2 & Hc2 & Hk2 & Hr2);
    [set_solver|exact Ht1| |lia|].
  { split; [apply (active_live _ _ _ _ _ Hi1 Ht1); by left|].
    eexists. split; [exact Ht1|]. split; [done|]. split; [done|]. split; [simpl; lia|done]. }
  rewrite (bind_run _ _ _ _ _ E2). destruct (Hk2 c _ ltac:(set_solver) Ht1) as (t2 & Ht2 & Hin2 & _).
  simpl in Hin2. destruct (end_upcall_spec _ s2 c t2 Hi2 Ht2) as (s3 & E3 & Hi3 & Hc3 & Hx3 & _ & Hr3 & Ht3); [lia|].
  rewrite (bind_run _ _ _ _ _ E3).
  assert (ext_live (ext s2) (t_upcall t2) c) as Hlive by (apply (active_live _ _ _ _ _ Hi2 Ht2); right; lia).
  rewrite <- Hx3 in *. destruct (_ && _) eqn:Hlast.
  - apply andb_true_iff in Hlast as [H1%Z.eqb_eq Hst%bool_decide_eq_true].
    destruct (invoke_upcall_spec [c] s3 c (set_mutable t2 (t_state t2) (in_upcalls t2 - 1)) UpTerminated Hi3) as (s4 & E4 & Hi4 & Hc4 & _ & Hr4);
      [set_solver|exact Ht3| |lia|].
    { split; [exact Hlive|]. eexists. split; [exact Ht3|]. split; [done|]. split; [done|simpl; lia]. }
    exists s4. split; [done|]. split; [done|]. split; [congruence|lia].
  - exists s3. split; [done|]. split; [done|]. split; [congruence|lia].
Qed.

(** System calls: what happens before the scheduler takes over. *)
Lemma handle_syscall_spec s c t :
  sys_inv (ext_refs (ext s)) [c] s -> current_ref s = [c] ->
  thread_at s c t -> in_upcalls t < 2 ^ 64 - 1 -> ready (set_mutable t Blocked (in_upcalls t + 1)) ->
  refs [] s + 2 * cost + 1 < 2 ^ 64 ->
  exists s', serve_current invoke s = Ret (tt, s') /\ sys_inv (ext_refs (ext s')) [] s' /\ current s' = None.
Proof.
  intros Hi Hcur Ht Hn Hready Hrefs.
  destruct (handle_syscall_enter invoke s c t Hi Hcur Ht) as (s2 & -> & _ & Hi2 & Hc2 & Hx2 & _ & Ht2 & Hr2); [lia|].
  destruct (thread_handle_syscall_spec s2 c t Hi2 Ht2 Hn Hready) as (s3 & E3 & Hi3 & Hc3 & Hr3); [lia|].
  rewrite (bind_run _ _ _ _ _ E3).
  destruct (sys_drop (ext_refs (ext s3)) [] s3 c Hi3) as (st4 & E4 & Hs4 & Hi4); [set_solver|].
  exists (set_store s3 st4). split; [exact E4|]. split; [done|]. simpl. congruence.
Qed.

Lemma terminate_spec loc s r t :
  sys_inv (held loc s) [] s -> r ∈ loc -> thread_at s r t -> refs loc s + cost < 2 ^ 64 ->
  exists s', terminate invoke r s =
    Ret ((if bool_decide (t_state t = Terminated) then Err INVALID_STATE else Ok tt), s') /\
    sys_inv (held loc s') [] s' /\ current s' = current s /\ threads_kept loc s s' /\
    refs loc s' <= refs loc s + cost /\ (t_state t = Terminated -> s' = s).
Proof.
  intros Hi Hin Ht Hn. unfold terminate. rewrite (bind_run _ _ _ _ _ (thread_ref_run s r t Ht)).
  unfold request_terminate. destruct (decide (t_state t = Terminated)) as [Hst|Hst].
  { rewrite bool_decide_true by done. exists s. split; [done|]. split; [done|].
    split; [done|]. split; [|split; [lia|done]]. intros x tx _ Hx. exists tx. done. }
  rewrite bool_decide_false by done. destruct (id Ht) as [k Et].
  rewrite (bind_run _ _ _ _ _ (thread_put_run s r k t _ Et)).
  set (t' := set_mutable t Terminated (in_upcalls t)).
  pose proof (total_refs_put (held loc s) s r k t t' Et) as Hr1. set (s1 := set_store s _) in *.
  assert (sys_inv (held loc s) [] s1) as Hi1.
  { apply (sys_inv_put_here _ [] s r k t t'); try done; [| |by right].
    - by apply (si_upcalls _ _ _ Hi r t).
    - split_and!; [done..|]. intros _. by left. }
  assert (threads_kept loc s s1) as Hk1.
  { intros x tx _ Hx. destruct (decide (x = r)) as [->|Hne].
    - rewrite (thread_at_inj _ _ _ _ Hx Ht). exists t'. split; [apply thread_at_put; by left|done].
    - exists tx. split; [apply thread_at_put; by right|done]. }
  destruct (in_upcalls t =? 0) eqn:H0.
  - assert (thread_at s1 r t') as Ht1 by (apply thread_at_put; by left).
    destruct (invoke_upcall_spec loc s1 r t' UpTerminated Hi1 Hin Ht1) as (s2 & E2 & Hi2 & Hc2 & Hk2 & Hr2);
      [|change (ext s1) with (ext s); lia|].
    { split; [apply (active_live _ _ _ _ _ Hi Ht); by left|].
      exists t'. split; [done|]. split; [done|]. split; [done|]. by apply Z.eqb_eq in H0. }
    rewrite (bind_run _ _ _ _ _ E2). exists s2. split; [done|split; [done|split; [done|]]].
    split; [|split; [change (ext s1) with (ext s) in Hr2; lia|done]].
    by apply (threads_kept_trans loc s s1).
  - rewrite bind_ret. exists s1. split; [done|]. split; [done|]. split; [done|]. split; [done|].
    split; [change (ext s1) with (ext s); lia|done].
Qed.

End WithServer.

End SchedLemmas.

(** * Termination *)

Section ProtocolLemmas.
Context {P : Profile}.
Import Protocol.

Lemma proto_step p p' : step p p' -> proto_inv p -> proto_inv p'.
Proof.
  intros Hst [Hc Hb Ho]. destruct p as [[a u v st n] ins pen rep]; simpl in *. subst n.
  inversion Hst as [p t Hlt E|p t E|p n b t Hn E|p b t E|p E|p n E]; subst; simpl in *.
  - unfold enter_upcall in E. simpl in E. destruct st; simpl in E; try done.
    rewrite usize_add_ok in E by lia. injection E as <-. split; simpl; [lia|lia|done].
  - unfold enter_upcall in E. simpl in E. destruct st; simpl in E; try done.
    + revert E. unfold usize_add, checked_at. by destruct ((0 <=? _) && _), overflow_checks.
    + injection E as <-. by split.
  - subst ins. unfold leave_upcall in E. simpl in E.
    rewrite (proj2 (Z.ltb_lt _ _)), debug_assert_ok in E by lia. simpl in E.
    rewrite usize_sub_ok in E by lia. injection E as <- <-. split; simpl; [lia|lia|].
    rewrite andb_false_r in Ho. simpl in Ho.
    replace (Z.of_nat (S n) - 1 =? 0) with (n =? 0)%nat.
    2: { destruct n; [done|]. symmetry. apply Z.eqb_neq. lia. }
    destruct (bool_decide _), (n =? 0)%nat; simpl in *; lia.
  - unfold request_terminate in E. simpl in E. destruct st; simpl in E; try done;
      injection E as <- <-; (split; simpl; [done|done|]); simpl in Ho;
      (replace (Z.of_nat ins =? 0) with (ins =? 0)%nat by (by destruct ins)); destruct (_ =? _)%nat; simpl; lia.
  - split; simpl; [done|done|]. by rewrite E in Ho.
  - split; simpl; [done|done|]. lia.
Qed.

Lemma reachable_proto p : reachable p -> proto_inv p.
Proof.
  intros (arch & u & v & Hr). assert (proto_inv (start arch u v)) as H0 by (by split).
  induction Hr as [|x y z Hxy _ IH]; [done|]. apply IH. by eapply proto_step.
Qed.

(** The server's handlers can always return, and then the report is made. *)
Lemma drain p :
  proto_inv p -> t_state (p_thread p) = Terminated ->
  exists p', rtc step p p' /\ inside p' = 0%nat /\ pending p' = 0%nat /\ reported p' = 1%nat.
Proof.
  remember (inside p) as n eqn:En. revert p En. induction n as [|n IH]; intros p En [Hc Hb Ho] Ht.
  - rewrite Ht, <- En in Ho. simpl in Ho.
    destruct (pending p) as [|[|k]] eqn:Ep; [| |lia].
    + exists p. split; [done|]. rewrite Ep. split; [done|split; [done|lia]].
    + eexists. split; [eapply rtc_once, step_report, Ep|]. simpl. split; [done|split; [done|lia]].
  - assert (exists b t, leave_upcall (p_thread p) = Ret (b, t) /\ t_state t = Terminated) as (b & t & E & Et).
    { unfold leave_upcall. rewrite (proj2 (Z.ltb_lt _ _)), debug_assert_ok by lia. simpl.
      rewrite usize_sub_ok by lia. eexists _, _. split; [done|]. done. }
    assert (step p (mkProto t n (add b (pending p)) (reported p))) as Hstep by (by apply step_return).
    destruct (IH (mkProto t n (add b (pending p)) (reported p))) as (p' & Hr & Hp');
      [done|by eapply proto_step|done|].
    exists p'. split; [|done]. by eapply rtc_l.
Qed.

End ProtocolLemmas.

(** * Properties *)

(** C22: A thread is reported as terminated exactly once, and never while the
    server may be using its data.  However the critical sections of system
    calls, [terminate] and [unblock] on several CPUs interleave: at most one
    [Terminated] upcall is made or about to be made; when it is, no syscall
    upcall is running, and no later one can start; a syscall upcall can always
    return; and once termination is requested the report can always be
    reached. *)
Theorem terminated_upcall_once {P : Profile} (p : Protocol.Proto) :
  Protocol.reachable p ->
  (Protocol.pending p + Protocol.reported p <= 1)%nat /\
  (0 < Protocol.pending p + Protocol.reported p -> Protocol.inside p = 0 /\
    exists t, enter_upcall (Protocol.p_thread p) = Ret (false, t))%nat /\
  (0 < Protocol.inside p -> exists b t, leave_upcall (Protocol.p_thread p) = Ret (b, t))%nat /\
  (t_state (Protocol.p_thread p) = Terminated -> exists p', rtc Protocol.step p p' /\
    Protocol.inside p' = 0%nat /\ Protocol.pending p' = 0%nat /\ Protocol.reported p' = 1%nat).
Proof.
  intros Hr. pose proof (reachable_proto p Hr) as Hi. destruct (id Hi) as [Hc Hb Ho].
  split; [rewrite Ho; destruct (_ && _); simpl; lia|]. split; [|split].
  - rewrite Ho. destruct (_ && _) eqn:E; simpl; [intros _|lia].
    apply andb_true_iff in E as [Et En]. apply bool_decide_eq_true in Et. apply Nat.eqb_eq in En.
    split; [done|]. exists (Protocol.p_thread p). unfold enter_upcall. by rewrite bool_decide_true.
  - intros Hn. unfold leave_upcall. rewrite (proj2 (Z.ltb_lt _ _)), debug_assert_ok by lia. simpl.
    rewrite usize_sub_ok by lia. eexists _, _. done.
  - by apply drain.
Qed.

(** [return_to_user] runs the first runnable thread: the current one if it
    can still run, otherwise the one that has waited longest.  It drops only
    threads that cannot run, loses no other, leaves the thread it picks as the
    current one with its address space active, and keeps the invariant that
    the runnable threads are exactly the queue and the current thread.  When
    no thread can run it reaches [idle]. *)
Theorem return_to_user_first_runnable {P : Profile} {L : RefLayout} {X : Type} `{KernelExt X}
    (own : list Z) (s : Sys X) :
  sys_inv own (current_ref s) s -> current_room s ->
  (forall x, ~ runnable s x) /\ return_to_user true s = Panic \/
  exists r t s' skipped, return_to_user true s = Ret (r, s') /\
    current_ref s ++ runqueue s = skipped ++ r :: runqueue s' /\
    thread_at s r t /\ t_state t = Runnable /\ (forall x, x ∈ skipped -> ~ runnable s x) /\
    sys_inv own (current_ref s') s' /\ current_ref s' = [r] /\
    exists c a l, store s !! t_vmspace t = Some (mkRefCounted c (OSpace a l)) /\ cr3_reg s' = cr3 a.
Proof.
  intros Hi Hroom. destruct (return_to_user_spec own s Hi Hroom)
    as [?|(r & t & s' & sk & E & Eq & Ht & Hst & Hsk & Hi' & Hc & _ & _ & Hcr)]; [by left|right].
  exists r, t, s', sk. repeat (split; [done|]). done.
Qed.

(** C23: A system call keeps the scheduler in order.  From user mode, with any
    server that respects the kernel's rules on threads that are [ready] for it,
    the call returns to user mode in a runnable thread with the invariant
    re-established; only if the server leaves nothing runnable does the kernel
    reach [idle].  The server is called only with upcalls that are due: a
    syscall upcall for a blocked thread, a [Terminated] upcall for a thread
    that no upcall is using, and its data for the thread still in place. *)
Theorem handle_syscall_keeps_scheduler {P : Profile} {L : RefLayout} {X : Type} `{KernelExt X}
  (cost : Z) (ready : Thread -> Prop) (invoke : Upcall -> UpcallArg -> M (Sys X) unit) (s : Sys X) (c : Z)
  (t : Thread) :
  0 <= cost -> server_ok cost ready invoke ->
  sys_inv (ext_refs (ext s)) (current_ref s) s -> current_ref s = [c] ->
  thread_at s c t -> in_upcalls t < 2 ^ 64 - 1 -> ready (set_mutable t Blocked (in_upcalls t + 1)) ->
  total_refs (ext_refs (ext s)) s + 2 * cost + 1 < 2 ^ 64 ->
  exists s1, serve_current invoke s = Ret (tt, s1) /\ sys_inv (ext_refs (ext s1)) [] s1 /\ current s1 = None /\
    ((forall x, ~ runnable s1 x) /\ handle_syscall invoke true s = Panic \/
     exists r s', handle_syscall invoke true s = Ret (r, s') /\
       sys_inv (ext_refs (ext s')) (current_ref s') s' /\ current_ref s' = [r] /\ runnable s' r).
Proof.
  intros H0 Hsrv Hi Hc Ht Hn Hready Hrefs. rewrite Hc in Hi.
  destruct (handle_syscall_spec cost ready invoke H0 Hsrv s c t Hi Hc Ht Hn Hready Hrefs) as (s1 & E & Hi1 & Hc1).
  assert (current_ref s1 = []) as Hcr by (unfold current_ref; by rewrite Hc1).
  exists s1. split; [done|]. split; [done|]. split; [done|].
  rewrite handle_syscall_serve, (bind_run _ _ _ _ _ E). destruct (return_to_user_spec (ext_refs (ext s1)) s1)
    as [[Hno Ep]|(r & t' & s' & sk & Er & _ & _ & _ & _ & Hi' & Hc' & Hr & _)].
  - by rewrite Hcr.
  - unfold current_room. rewrite Hcr. set_solver.
  - by left.
  - right. exists r, s'. by rewrite (keeps_return_to_user true s1 r s' Er).
Qed.

(** [unblock] resumes a blocked thread and nothing else.  The thread
    becomes runnable at the end of the queue, exactly once; a thread that is
    not blocked, or a queue that cannot grow, is an error that leaves every
    thread and the queue as they were. *)
Theorem unblock_correct {P : Profile} {L : RefLayout} {X : Type} `{KernelExt X}
    (own run : list Z) (s : Sys X) (r : Z) (t : Thread) (reserve : bool) :
  sys_inv own run s -> r ∈ own -> thread_at s r t ->
  (forall rc, store s !! r = Some rc -> counter rc < 2 ^ 64 - 1) ->
  exists s', 
    unblock reserve r s = Ret ((if negb (bool_decide (t_state t = Blocked)) then Err INVALID_STATE
                                else if reserve then Ok tt else Err OUT_OF_MEMORY), s') /\
    sys_inv own run s' /\ 
    runqueue s' = runqueue s ++ (if bool_decide (t_state t = Blocked) && reserve then [r] else []) /\
    (forall x tx, x ∈ own -> thread_at s x tx -> thread_at s' x
      (if bool_decide (x = r) && bool_decide (t_state t = Blocked) && reserve
       then set_mutable tx Runnable (in_upcalls tx) else tx)).
Proof.
  intros Hi Hin Ht Hroom. destruct (unblock_spec own run s r t Hi Hin Ht Hroom reserve)
    as (s' & E & Hi' & _ & _ & Hq & _ & Hk). exists s'. split; [done|]. split; [done|]. split; [done|].
  intros x tx Hx [c Ex]. destruct (Hk x c _ ltac:(set_solver) Ex) as [c' E']. exists c'. rewrite E'.
  destruct (decide (x = r)) as [->|Hne]; [|by rewrite bool_decide_false].
  destruct Ht as [c0 Et]. rewrite Et in Ex. injection Ex as _ <-.
  by destruct (bool_decide (r = r) && bool_decide (t_state t = Blocked) && reserve).
Qed.

Section Witnesses.
#[local] Existing Instance dev.
#[local] Instance layout : RefLayout := {| value_offset _ := 8 |}.
#[local] Instance handles_ext : KernelExt (list Z) :=
  {| ext_refs hs := hs; ext_ok _ _ := True; ext_live _ _ _ := True;
     ext_ok_shrink _ _ _ _ _ := I; ext_ok_live _ _ _ _ _ _ _ _ := I |}.

Definition example_thread (st : State) : KObject := OThread (mkThread arch_thread_new 0 32 st 0).

(** One address space with three threads: 64 is current, 96 and 128 queued. *)
Definition example_sys (s1 s2 s3 : State) : Sys (list Z) :=
  mkSys {[ 32 := mkRefCounted 3 (OSpace (mkArchVmSpace 4096 8192) []);
           64 := mkRefCounted 1 (example_thread s1);
           96 := mkRefCounted 1 (example_thread s2);
           128 := mkRefCounted 1 (example_thread s3) ]} [96; 128] (Some 72) 0 [].

(** A thread terminated while a server handles its system call. *)
Lemma terminated_upcall_once_witness :
  exists p, Protocol.reachable p /\ Protocol.inside p = 1%nat /\
    exists p', rtc Protocol.step p p' /\ Protocol.inside p' = 0%nat /\ Protocol.pending p' = 0%nat /\
      Protocol.reported p' = 1%nat.
Proof.
  set (p := Protocol.mkProto (mkThread arch_thread_new 0 32 Terminated 1) 1 0 0).
  assert (Protocol.reachable p) as Hr.
  { exists arch_thread_new, 0, 32. unfold Protocol.start.
    eapply rtc_l; [by apply Protocol.step_unblock|].
    eapply rtc_l; [by eapply Protocol.step_syscall|].
    eapply rtc_l; [by eapply Protocol.step_terminate|]. apply rtc_refl. }
  exists p. split; [exact Hr|]. split; [reflexivity|].
  apply (terminated_upcall_once p Hr). reflexivity.
Defined.

Lemma return_to_user_first_runnable_witness :
  exists s', return_to_user true (example_sys Terminated Terminated Runnable) = Ret (128, s').
Proof.
  destruct (return_to_user_first_runnable [] (example_sys Terminated Terminated Runnable))
    as [[_ E]|(r & t & s' & sk & E & _)].
  - apply sys_check_ok; [vm_compute; reflexivity|exact I].
  - intros r rc Hr E. apply list_elem_of_singleton in Hr as ->.
    assert (Some rc = Some (mkRefCounted 1 (example_thread Terminated))) as Ec by (rewrite <- E; reflexivity).
    injection Ec as ->. reflexivity.
  - exfalso. apply (f_equal (fun o => match o with Panic => true | _ => false end)) in E.
    vm_compute in E. discriminate E.
  - exists s'. assert (r = 128) as ->; [|exact E].
    apply (f_equal (fun o => match o with Ret (x, _) => x | _ => 0 end)) in E. vm_compute in E.
    symmetry. exact E.
Defined.

Lemma handle_syscall_keeps_scheduler_witness :
  exists r s', handle_syscall (fun _ _ => ret tt) true (example_sys Runnable Runnable Runnable) = Ret (r, s').
Proof.
  destruct (handle_syscall_keeps_scheduler 0 (fun _ => True) (fun _ _ => ret tt) (example_sys Runnable Runnable Runnable)
    64 (mkThread arch_thread_new 0 32 Runnable 0)) as (s1 & _ & _ & _ & [[_ E]|(r & s' & E & _)]).
  - done.
  - intros ctx arg r loc s Hi _ _ _. exists s. split; [reflexivity|]. split; [exact Hi|].
    split; [reflexivity|]. split; [|lia]. intros x t _ Ht. exists t. repeat split; done.
  - apply sys_check_ok; [vm_compute; reflexivity|exact I].
  - reflexivity.
  - exists 1. reflexivity.
  - reflexivity.
  - exact I.
  - vm_compute. reflexivity.
  - exfalso. apply (f_equal (fun o => match o with Panic => true | _ => false end)) in E.
    vm_compute in E. discriminate E.
  - exists r, s'. exact E.
Defined.

Lemma unblock_correct_witness :
  exists s', unblock true 64
    (mkSys {[ 32 := mkRefCounted 1 (OSpace (mkArchVmSpace 4096 8192) []);
              64 := mkRefCounted 1 (example_thread Blocked) ]} [] None 0 [64]) = Ret (Ok tt, s') /\
    runqueue s' = [64].
Proof.
  destruct (unblock_correct [64] [] (mkSys {[ 32 := mkRefCounted 1 (OSpace (mkArchVmSpace 4096 8192) []);
              64 := mkRefCounted 1 (example_thread Blocked) ]} [] None 0 [64]) 64
    (mkThread arch_thread_new 0 32 Blocked 0) true) as (s' & E & _ & Hq & _).
  - apply sys_check_ok; [vm_compute; reflexivity|exact I].
  - apply list_elem_of_here.
  - exists 1. reflexivity.
  - intros rc E.
    assert (Some rc = Some (mkRefCounted 1 (example_thread Blocked))) as Ec by (rewrite <- E; reflexivity).
    injection Ec as ->. reflexivity.
  - exists s'. split; [exact E|exact Hq].
Defined.

End Witnesses.
