(* ===== verification/StartInfo.v ===== *)
(** * libs/rust/ftl_api: the interface between the kernel and the servers

    [StartInfo] (start.rs) is the table of kernel calls a server is started
    with.  The server-side wrappers (vmspace.rs, vmarea.rs, thread.rs) are
    written against any such table; Server.v gives the kernel's. *)

From S2P Require Import Prelude Bytes Api Thread.

Record StartInfo (St : Type) : Type := mkStartInfo {
  si_malloc : Z -> M St (result ErrorCode Z);
  si_print : list Z -> M St unit;
  si_panic : M St unit;
  si_vmspace_create : M St (result ErrorCode Handle);
  si_vmarea_allocate : Z -> M St (result ErrorCode Handle);
  si_vmarea_write : Handle -> Z -> list Z -> M St (result ErrorCode unit);
  si_vmspace_map : Handle -> Handle -> Z -> PageAttrs -> M St (result ErrorCode unit);
  si_vmspace_read : Handle -> Z -> list Z -> M St (result ErrorCode unit * list Z);
  si_thread_create : Handle -> Upcall -> M St (result ErrorCode Handle);
  si_thread_get_context : Handle -> ContextKind -> ContextData -> M St (result ErrorCode ContextData);
  si_thread_set_context : Handle -> ContextKind -> ContextData -> M St (result ErrorCode unit);
  si_thread_unblock : Handle -> M St (result ErrorCode unit);
  si_thread_terminate : Handle -> M St (result ErrorCode unit);
  si_thread_destroy : Handle -> M St (result ErrorCode unit)
}.
Arguments mkStartInfo {St}.
Arguments si_malloc {St} _ _.
Arguments si_print {St} _ _.
Arguments si_panic {St} _.
Arguments si_vmspace_create {St} _.
Arguments si_vmarea_allocate {St} _ _.
Arguments si_vmarea_write {St} _ _ _ _.
Arguments si_vmspace_map {St} _ _ _ _ _.
Arguments si_vmspace_read {St} _ _ _ _.
Arguments si_thread_create {St} _ _ _.
Arguments si_thread_get_context {St} _ _ _ _.
Arguments si_thread_set_context {St} _ _ _ _.
Arguments si_thread_unblock {St} _ _.
Arguments si_thread_terminate {St} _ _.
Arguments si_thread_destroy {St} _ _.

(** ** start.rs and lib.rs *)

Section Start.
Context {P : Profile} {St : Type}.

(** The static [START_INFO] holds a pointer to a table, or null. *)
Definition start_info (START_INFO : option (StartInfo St)) : outcome (StartInfo St) :=
  let* _ := debug_assert (if START_INFO is Some _ then true else false) in
  match START_INFO with
  | Some info => Ret info
  | None => Undef
  end.

(** [spec_start] finds the static as [server_start] left it. *)
Record Spec : Type := mkSpec {
  spec_name : list Z;
  spec_start : option (StartInfo St) -> M St unit
}.

Definition server_start (SPEC : Spec) (start_info_ptr : StartInfo St) : M St unit :=
  spec_start SPEC (Some start_info_ptr).

(** The box with the server is leaked. *)
Definition start {R : Type} (ctor : M St R) : M St unit := do* _ := ctor in ret tt.

End Start.
