(* ===== verification/Server.v ===== *)
(** * kernel/src/server.rs: the kernel calls of servers

    The closures of [START_INFO], over the whole state of the kernel: memory
    areas and address spaces (VmSpace.v), reference-counted objects, threads and
    the run queue (Thread.v).  The theorems show that whatever calls servers
    make with the handles they were given, every part keeps its invariant and
    the parts stay consistent with each other. *)

From S2P Require Import Prelude Bytes Alignment Api Bump Machine Memory VmArea PageTable VmSpace SharedRef.
From S2P Require Import X64Context Thread StartInfo.

(** The rest of the kernel, beside threads: memory; the references that handles
    stand for, including handles that a server has dropped (a [Handle] has no
    [Drop]); what was sent to the serial port; and the servers' own memory. *)
Record Kernel (Mc Sv : Type) : Type := mkKernel {
  k_mem : KState Mc;
  k_issued : list Z;
  k_console : list Z;
  k_server : Sv
}.
Arguments mkKernel {Mc Sv} _ _ _ _.
Arguments k_mem {Mc Sv} _.
Arguments k_issued {Mc Sv} _.
Arguments k_console {Mc Sv} _.
Arguments k_server {Mc Sv} _.

(** A line feed is preceded by a carriage return. *)
Definition console_bytes (bytes : list Z) : list Z :=
  flat_map (fun byte => if byte =? 10 then [13; byte] else [byte]) bytes.

Fixpoint remove_first (r : Z) (l : list Z) : list Z :=
  match l with
  | [] => []
  | x :: l => if x =? r then l else x :: remove_first r l
  end.

Definition live_area (st : RefStore KObject) (p : Z) : bool :=
  match st !! p with Some (mkRefCounted _ OArea) => true | _ => false end.
Definition live_space (st : RefStore KObject) (p : Z) : bool :=
  match st !! p with Some (mkRefCounted _ (OSpace _ _)) => true | _ => false end.

(** The kernel's image, and the physical address of the static [BOOT_PDPT]. *)
Class BootPdpt : Set := { KERNEL_IMAGE : KernelImage }.
Definition BOOT_PDPT `{BootPdpt} : Z := KERNEL_IMAGE.

Section ServerCalls.
Context {P : Profile} {L : RefLayout} {B : BootPdpt} {Mc Sv : Type} `{Machine Mc}.
Abbreviation KS := (Sys (Kernel Mc Sv)).
Abbreviation KM := (M KS).

Definition set_ext (s : KS) (x : Kernel Mc Sv) : KS :=
  mkSys (store s) (runqueue s) (current s) (cr3_reg s) x.
Definition set_mem (x : Kernel Mc Sv) (k : KState Mc) : Kernel Mc Sv :=
  mkKernel k (k_issued x) (k_console x) (k_server x).
Definition set_issued (x : Kernel Mc Sv) (l : list Z) : Kernel Mc Sv :=
  mkKernel (k_mem x) l (k_console x) (k_server x).

Definition on_mem {A} (m : M (KState Mc) A) : KM A :=
  fun s => match m (k_mem (ext s)) with
           | Ret (a, k) => Ret (a, set_ext s (set_mem (ext s) k))
           | Panic => Panic
           | Undef => Undef
           | Hang => Hang
           end.

(** [arch::console_write], as the bytes that reach the serial port. *)
Definition console_write (bytes : list Z) : KM unit :=
  fun s => Ret (tt, set_ext s (mkKernel (k_mem (ext s)) (k_issued (ext s))
                      (k_console (ext s) ++ console_bytes bytes) (k_server (ext s)))).

Definition issue (r : Z) : KM unit :=
  fun s => Ret (tt, set_ext s (set_issued (ext s) (r :: k_issued (ext s)))).
Definition retire (r : Z) : KM unit :=
  fun s => Ret (tt, set_ext s (set_issued (ext s) (remove_first r (k_issued (ext s))))).

(** [SharedRef::into_handle]. *)
Definition give_handle (T : TypeId) (DEFAULT_RIGHT : HandleRight) (r : Z) : KM Handle :=
  do* h := on_store (into_handle T DEFAULT_RIGHT r) in
  do* _ := issue r in
  ret h.

(** A [SharedRef] borrowed from a handle for the length of a call: it is
    dropped when the closure returns. *)
Definition with_ref {A} (T : TypeId) (h : Handle) (action : HandleRight)
  (f : Z -> KM (result ErrorCode A)) : KM (result ErrorCode A) :=
  do? r := on_store (from_borrowed_handle T h action) in
  do* res := f r in
  do* _ := on_store (sref_drop r) in
  ret res.

(** The contents of objects that have been destroyed are gone: their addresses
    may be given to new objects. *)
Definition reap_mem (st : RefStore KObject) (k : KState Mc) : KState Mc :=
  mkKState (mkVmState (machine (vm k)) (filter (fun kv => live_area st kv.1 = true) (areas (vm k))))
    (filter (fun kv => live_space st kv.1 = true) (spaces k)).
Definition reap : KM unit :=
  fun s => Ret (tt, set_ext s (set_mem (ext s) (reap_mem (store s) (k_mem (ext s))))).

(** The references that a space owns, after a change of its mappings. *)
Definition record_refs (sid : Z) : KM unit :=
  fun s => match spaces (k_mem (ext s)) !! sid, store s !! sid with
           | Some sp, Some rc =>
               Ret (tt, set_store s (<[sid := mkRefCounted (counter rc)
                                        (OSpace (vs_arch sp) (m_vmarea <$> mappings sp))]> (store s)))
           | _, _ => Undef
           end.

(** [galloc], [try_reserve]: what the heap answers to a request for an object or
    for room in a container.  [invoke]: the servers' side of an upcall. *)
Context (galloc : RefStore KObject -> option Z) (try_reserve : RefStore KObject -> bool).
Context (invoke : Upcall -> UpcallArg -> KM unit).

Definition call_malloc (size : Z) : KM (result ErrorCode Z) :=
  do* o := on_mem (on_vm (on_machine (page_alloc size Dirty))) in
  do? paddr := ret (ok_or o OUT_OF_MEMORY) in
  ret (Ok (paddr2vaddr paddr)).

Definition call_print (bytes : list Z) : KM unit := console_write bytes.

Definition call_panic : KM unit := lift Panic.

Definition call_vmspace_create : KM (result ErrorCode Handle) :=
  do* _ := reap in
  do? vmspace := on_mem (vmspace_new (paddr2vaddr BOOT_PDPT)) in
  do* s := get in
  do? r := on_store (sref_new (galloc (store s)) (OSpace (vs_arch vmspace) [])) in
  do* _ := on_mem (space_put r vmspace) in
  do* h := give_handle VmSpaceType VmSpace_DEFAULT_RIGHT r in
  ret (Ok h).

Definition call_vmarea_allocate (len : Z) : KM (result ErrorCode Handle) :=
  do* _ := reap in
  do* s := get in
  do? id := on_mem (on_vm (new_anonymous (try_reserve (store s)) (galloc (store s)) len)) in
  do? r := on_store (sref_new (Some id) OArea) in
  do* h := give_handle VmAreaType VmArea_DEFAULT_RIGHT r in
  ret (Ok h).

Definition call_vmarea_write (vmarea : Handle) (offset : Z) (data : list Z) : KM (result ErrorCode unit) :=
  with_ref VmAreaType vmarea RIGHT_WRITE (fun r => on_mem (on_vm (vmarea_write r offset data))).

(** The mapping keeps the reference to the area; on failure it is dropped. *)
Definition call_vmspace_map (vmspace vmarea : Handle) (uaddr : Z) (attrs : PageAttrs)
  : KM (result ErrorCode unit) :=
  with_ref VmSpaceType vmspace RIGHT_MAP (fun sid =>
    do? id := on_store (from_borrowed_handle VmAreaType vmarea RIGHT_MAP) in
    do* s := get in
    do* res := on_mem (vmspace_map (try_reserve (store s)) sid id uaddr attrs) in
    do* _ := match res with
             | Ok _ => record_refs sid
             | Err _ => on_store (sref_drop id)
             end in
    ret res).

Definition call_vmspace_read (vmspace : Handle) (uaddr : Z) (buf : list Z)
  : KM (result ErrorCode unit * list Z) :=
  do* b := on_store (from_borrowed_handle VmSpaceType vmspace RIGHT_READ) in
  match b with
  | Err e => ret (Err e, buf)
  | Ok sid =>
      do* res := on_mem (vmspace_read_bytes sid uaddr buf) in
      do* _ := on_store (sref_drop sid) in
      ret res
  end.

(** The reference to the address space moves into the thread. *)
Definition call_thread_create (vmspace : Handle) (upcall : Upcall) : KM (result ErrorCode Handle) :=
  do? sid := on_store (from_borrowed_handle VmSpaceType vmspace RIGHT_MAP) in
  do* s := get in
  do? r := thread_new (galloc (store s)) sid upcall in
  do* h := give_handle ThreadType Thread_DEFAULT_RIGHT r in
  ret (Ok h).

Definition call_thread_get_context (thread : Handle) (kind : ContextKind) (regs : ContextData)
  : KM (result ErrorCode ContextData) :=
  with_ref ThreadType thread RIGHT_READ (fun r => read_context r kind regs).

Definition call_thread_set_context (thread : Handle) (kind : ContextKind) (regs : ContextData)
  : KM (result ErrorCode unit) :=
  with_ref ThreadType thread RIGHT_WRITE (fun r => write_context r kind regs).

Definition call_thread_unblock (thread : Handle) : KM (result ErrorCode unit) :=
  do* s := get in
  with_ref ThreadType thread RIGHT_WRITE (fun r => unblock (try_reserve (store s)) r).

Definition call_thread_terminate (thread : Handle) : KM (result ErrorCode unit) :=
  with_ref ThreadType thread RIGHT_WRITE (fun r => terminate invoke r).

Definition call_thread_destroy (thread : Handle) : KM (result ErrorCode unit) :=
  do? r := on_store (from_moved_handle ThreadType thread) in
  do* _ := retire r in
  do* _ := on_store (sref_drop r) in
  ret (Ok tt).

Definition START_INFO : StartInfo KS :=
  mkStartInfo call_malloc call_print call_panic call_vmspace_create call_vmarea_allocate
    call_vmarea_write call_vmspace_map call_vmspace_read call_thread_create
    call_thread_get_context call_thread_set_context call_thread_unblock
    call_thread_terminate call_thread_destroy.

End ServerCalls.

(** ** The invariant of the whole kernel *)

Definition obj_type (o : KObject) : TypeId :=
  match o with OArea => VmAreaType | OSpace _ _ => VmSpaceType | OThread _ => ThreadType end.

Section ServerInv.
Context {L : RefLayout} {B : BootPdpt} {Mc Sv : Type} `{Machine Mc}.

(** The objects and their contents: every live area and space has contents, and
    a space owns the areas that its mappings name. *)
Record linked (st : RefStore KObject) (k : KState Mc) : Prop := {
  lk_area p c : st !! p = Some (mkRefCounted c OArea) -> is_Some (areas (vm k) !! p);
  lk_space p c a l : st !! p = Some (mkRefCounted c (OSpace a l)) ->
    exists sp, spaces k !! p = Some sp /\ vs_arch sp = a /\ m_vmarea <$> mappings sp = l;
  lk_nonnull p rc : st !! p = Some rc -> 0 < p
}.

(** What the kernel relies on of its heap: a block is new, and not at zero. *)
Definition alloc_fresh (galloc : RefStore KObject -> option Z) : Prop :=
  forall st p, galloc st = Some p -> st !! p = None /\ 0 < p.

#[global] Program Instance kernel_ext : KernelExt (Kernel Mc Sv) := {|
  ext_refs x := k_issued x;
  ext_ok st x := ks_inv KERNEL_IMAGE (k_mem x) /\ linked st (k_mem x);
  ext_live _ _ _ := True
|}.
Next Obligation.
  intros st st' x [Hk [Ha Hs Hz]] Hsub. split; [done|]. split.
  - intros p c E. destruct (Hsub p c _ E) as (c' & o' & E' & [->|(t & t' & _ & ? & _)]); [|done]. by eapply Ha.
  - intros p c a l E. destruct (Hsub p c _ E) as (c' & o' & E' & [->|(t & t' & _ & ? & _)]); [|done]. by eapply Hs.
  - intros p [c o] E. destruct (Hsub p c o E) as (c' & o' & E' & _). by eapply Hz.
Qed.
Next Obligation. done. Qed.

(** [h] is a handle of the object at [r], which a server was given. *)
Definition handle_of (s : Sys (Kernel Mc Sv)) (h : Handle) (r : Z) (o : KObject) : Prop :=
  sref_from_raw (type_id h) (h_raw h) = r /\ r ∈ k_issued (ext s) /\
  (exists c, store s !! r = Some (mkRefCounted c o)) /\ obj_type o = type_id h.

End ServerInv.

(** ** Servers as sequences of kernel calls *)

Inductive ServerCall : Set :=
| CMalloc (size : Z)
| CPrint (bytes : list Z)
| CVmspaceCreate
| CVmareaAllocate (len : Z)
| CVmareaWrite (vmarea : Handle) (offset : Z) (data : list Z)
| CVmspaceMap (vmspace vmarea : Handle) (uaddr : Z) (attrs : PageAttrs)
| CVmspaceRead (vmspace : Handle) (uaddr : Z) (buf : list Z)
| CThreadCreate (vmspace : Handle) (upcall : Upcall)
| CThreadGetContext (thread : Handle) (kind : ContextKind) (regs : ContextData)
| CThreadSetContext (thread : Handle) (kind : ContextKind) (regs : ContextData)
| CThreadUnblock (thread : Handle)
| CThreadTerminate (thread : Handle)
| CThreadDestroy (thread : Handle).

Definition forget {St A} (m : M St A) : M St unit := do* _ := m in ret tt.

(** A call through the table, whatever it returns. *)
Definition make_call {St} (si : StartInfo St) (c : ServerCall) : M St unit :=
  match c with
  | CMalloc size => forget (si_malloc si size)
  | CPrint bytes => forget (si_print si bytes)
  | CVmspaceCreate => forget (si_vmspace_create si)
  | CVmareaAllocate n => forget (si_vmarea_allocate si n)
  | CVmareaWrite h offset data => forget (si_vmarea_write si h offset data)
  | CVmspaceMap h h' uaddr attrs => forget (si_vmspace_map si h h' uaddr attrs)
  | CVmspaceRead h uaddr buf => forget (si_vmspace_read si h uaddr buf)
  | CThreadCreate h upcall => forget (si_thread_create si h upcall)
  | CThreadGetContext h kind regs => forget (si_thread_get_context si h kind regs)
  | CThreadSetContext h kind regs => forget (si_thread_set_context si h kind regs)
  | CThreadUnblock h => forget (si_thread_unblock si h)
  | CThreadTerminate h => forget (si_thread_terminate si h)
  | CThreadDestroy h => forget (si_thread_destroy si h)
  end.

Section CallRules.
Context {L : RefLayout} {Mc Sv : Type} `{Machine Mc}.

(** What a server may ask for: with a handle it was given, of whatever type;
    with integers in the range of their type, bytes that are bytes, registers
    that are initialised; pages for [malloc]; a user address range to map. *)
Definition call_pre (s : Sys (Kernel Mc Sv)) (c : ServerCall) : Prop :=
  let held h := exists r o, handle_of s h r o in
  match c with
  | CMalloc size => 0 < size < 2 ^ 64 /\ size mod MIN_PAGE_SIZE = 0
  | CPrint _ | CVmspaceCreate => True
  | CVmareaAllocate n => 0 <= n < 2 ^ 64
  | CVmareaWrite h offset data => held h /\ 0 <= offset /\ bytes_ok data
  | CVmspaceMap h h' uaddr attrs => held h /\ held h' /\ 0 <= uaddr /\ attrs_built attrs /\
      forall id a, sref_from_raw VmAreaType (h_raw h') = id -> areas (vm (k_mem (ext s))) !! id = Some a ->
        uaddr + area_len a <= 2 ^ 47
  | CVmspaceRead h uaddr buf => held h /\ 0 <= uaddr < 2 ^ 64
  | CThreadCreate h _ | CThreadGetContext h _ _ | CThreadUnblock h | CThreadTerminate h
  | CThreadDestroy h => held h
  | CThreadSetContext h kind regs => held h /\ forall t, exists a, arch_write_context t kind regs = Ret a
  end.

(** A sequence of calls, each of which is allowed when it is made. *)
Inductive calls_ok (si : StartInfo (Sys (Kernel Mc Sv))) : Sys (Kernel Mc Sv) -> list ServerCall -> Prop :=
| calls_nil s : calls_ok si s []
| calls_cons s c cs : call_pre s c ->
    (forall s', make_call si c s = Ret (tt, s') -> calls_ok si s' cs) -> calls_ok si s (c :: cs).

End CallRules.

(** * Lemmas *)

(** ** Memory: what the other parts do to areas and address spaces *)

Section MemSteps.
Context {P : Profile} {Mc : Type} `{MachineLaws Mc}.
Implicit Types k : KState Mc.

(** A change of memory that leaves page tables alone. *)
Lemma stable_step bp k st :
  ks_inv bp k -> vm_inv st -> vm_extends (vm k) st ->
  (forall x, fixed bp x -> ram (machine st) x = kram k x) ->
  (forall sid sp x, spaces k !! sid = Some sp -> in_tables (kram k) (root_of sp) x ->
    ram (machine st) x = kram k x) ->
  ks_inv bp (mkKState st (spaces k)) /\
  forall sid sp va, spaces k !! sid = Some sp -> is_user va ->
    leaf_of (mkKState st (spaces k)) (root_of sp) va = leaf_of k (root_of sp) va.
Proof.
  intros Hi Hvm He Hbp Htab.
  assert (forall sid' sp, spaces k !! sid' = Some sp -> forall x,
    in_tables (kram k) (root_of sp) x \/ in_block bp MIN_PAGE_SIZE x -> ram (machine st) x = kram k x) as Hst.
  { intros sid' sp Hs x [Hx|Hx]; [by apply (Htab sid' sp)|apply Hbp; by left]. }
  assert (forall sid' sp va, spaces k !! sid' = Some sp -> is_user va ->
    leaf_of (mkKState st (spaces k)) (root_of sp) va = leaf_of k (root_of sp) va) as Hlf.
  { intros sid' sp va Hs Hu. eapply (stable_leaf (kavail k)); [by eapply (ks_pt _ _ Hi)|
      apply (ext_avail _ _ He)|by eapply Hst|by apply user_path_of|done]. }
  split; [|done]. eapply (ks_inv_step bp k _ None); try done.
  - intros sid' sp Hs. eapply stable_pt_inv; [by eapply (ks_pt _ _ Hi)|apply (ext_avail _ _ He)|by eapply Hst].
  - intros sid' sp x Hs Hx. left.
    by apply (stable_in_tables (kavail k) (avail (machine st)) (kram k) (ram (machine st)) (root_of sp) bp
      (ks_pt _ _ Hi _ _ Hs) (ext_avail _ _ He) (Hst _ _ Hs) x).
  - by left.
  - intros sid' sp Hs va e Hu Hl. by rewrite (Hlf sid').
  - intros sid' sp va e Hs Hu. rewrite (Hlf sid') by done. by left.
Qed.

(** [VmArea::write]. *)
Lemma vmarea_write_step bp k id a off data :
  ks_inv bp k -> areas (vm k) !! id = Some a -> bytes_ok data -> 0 <= off ->
  exists r st written, on_vm (vmarea_write id off data) k = Ret (r, mkKState st (spaces k)) /\
    ks_inv bp (mkKState st (spaces k)) /\ copied (vm k) id off written st /\ written `prefix_of` data /\
    match r with
    | Ok _ => off + len data <= area_len a /\ written = data
    | Err e => if off + len data <=? area_len a then e = OUT_OF_MEMORY else e = OUT_OF_BOUNDS /\ st = vm k
    end.
Proof.
  intros Hi Ha Hb Ho.
  destruct (vmarea_write_spec (vm k) id a off data) as (r & st & w & E & Hc & Hw & Hr);
    [apply (ks_vm _ _ Hi)|done..|].
  exists r, st, w. split; [by apply on_vm_run|]. split; [|done]. destruct Hc as [Hvm He Hf _].
  apply stable_step; try done.
  - intros x Hx. apply Hf; [by eapply (ks_fixed _ _ Hi)|]. intros Hbk.
    destruct (backing_new k (mkKState st (spaces k)) id x He Hbk) as [Hb'|Hav];
      [by eapply (ks_boot _ _ Hi)|by eapply (ks_fixed _ _ Hi)].
  - intros sid sp x Hs Hx. apply Hf; [by eapply in_tables_avail|]. intros Hbk.
    destruct (backing_new k (mkKState st (spaces k)) id x He Hbk) as [Hb'|Hav];
      [by eapply (ks_tables _ _ Hi)|by eapply in_tables_avail].
Qed.

(** The areas that a live space maps are live. *)
Lemma mapped_area_live st k own sid sp m :
  linked st k -> rc_inv own st -> spaces k !! sid = Some sp -> live_space st sid = true -> m ∈ mappings sp ->
  live_area st (m_vmarea m) = true.
Proof.
  intros Hl Hrc Hs Hlv Hm. unfold live_space in Hlv.
  destruct (st !! sid) as [[c [|a l|t]]|] eqn:E; try done.
  destruct (lk_space _ _ Hl sid c a l E) as (sp' & Hs' & _ & Hrefs). assert (sp' = sp) as -> by congruence.
  assert (m_vmarea m ∈ l) as Hin by (rewrite <- Hrefs; by apply list_elem_of_fmap_2).
  destruct (rc_live _ _ Hrc (m_vmarea m)) as [[c' o] E'].
  { apply elem_of_app. right. by apply (all_refs_owner st sid _ _ E). }
  pose proof (rc_rank _ _ Hrc sid _ _ _ E Hin E') as Hrank. unfold live_area. rewrite E'.
  destruct o; simpl in Hrank; [done|lia..].
Qed.

(** Available memory is taken and written. *)
Lemma machine_step bp k s' :
  ks_inv bp k -> machine_inv s' -> (forall x, avail s' x -> kavail k x) ->
  (forall x, ~ kavail k x -> ram s' x = kram k x) ->
  let k' := mkKState (mkVmState s' (areas (vm k))) (spaces k) in
  ks_inv bp k' /\ forall id x, content (vm k') id x = content (vm k) id x.
Proof.
  intros Hi Hs Hav Hram k'. pose proof (ks_vm _ _ Hi) as Hvm. split.
  - apply stable_step; [done|by apply vm_inv_machine| | |].
    + constructor; try done. intros id i p Hp. by left.
    + intros x Hx. apply Hram. by eapply (ks_fixed _ _ Hi).
    + intros sid sp x Hsp Hx. apply Hram. by eapply in_tables_avail.
  - intros id x. apply content_machine. intros y Hy. apply Hram. by eapply backing_owned.
Qed.

(** [PAGE_ALLOCATOR.alloc] for someone else. *)
Lemma page_alloc_step bp k n ty :
  ks_inv bp k -> 0 < n < 2 ^ 64 -> n mod MIN_PAGE_SIZE = 0 ->
  exists o k', on_vm (on_machine (page_alloc n ty)) k = Ret (o, k') /\
    ks_inv bp k' /\ spaces k' = spaces k /\ areas (vm k') = areas (vm k) /\
    (forall id x, content (vm k') id x = content (vm k) id x).
Proof.
  intros Hi Hn Hm. pose proof (ks_vm _ _ Hi) as Hvm.
  destruct (page_alloc_spec (machine (vm k)) n ty (vm_machine _ Hvm) Hn Hm) as (o & s' & E & Hs & Ho).
  assert ((forall x, avail s' x -> kavail k x) /\ forall x, ~ kavail k x -> ram s' x = kram k x) as [Hav Hram].
  { unfold alloc_post in Ho. destruct o as [p|]; [|subst s'; by split]. destruct Ho as (_ & Hin & Hout & Hr & _).
    split; [intros x Hx; by apply Hout|]. intros x Hx. apply Hr. intros Hb. by apply Hx, Hin. }
  exists o, (mkKState (mkVmState s' (areas (vm k))) (spaces k)).
  destruct (machine_step bp k s' Hi Hs Hav Hram) as [Hk Hc].
  split; [by apply on_vm_run, on_machine_run|]. done.
Qed.

(** An area without pages. *)
Lemma add_area_step bp k id n :
  ks_inv bp k -> areas (vm k) !! id = None -> 0 < n < 2 ^ 64 -> n mod MIN_PAGE_SIZE = 0 ->
  let a := mkVmArea (replicate (Z.to_nat (n / MIN_PAGE_SIZE)) None) Anonymous n in
  ks_inv bp (mkKState (mkVmState (machine (vm k)) (<[id := a]> (areas (vm k)))) (spaces k)).
Proof.
  intros Hi Hid Hn Hm a. destruct (fresh_area_inv (vm k) id n (ks_vm _ _ Hi) Hid Hn Hm) as [Hvm Hpg].
  assert (forall id' x, backing (mkVmState (machine (vm k)) (<[id := a]> (areas (vm k)))) id' x <->
    backing (vm k) id' x) as Hbk by (intros id' x; split; intros (i & p & Hp & Hx); exists i, p; split; [by apply Hpg|done|by apply Hpg|done]).
  destruct Hi as [_ H2 Hfx Hst H3 H4 H5 H6 H7 Hkt H8 H9 H10 H11]. constructor; try done.
  - intros sid sp id' x Hs Hx Hb%Hbk. by eapply H6.
  - intros id' x Hx Hb%Hbk. by eapply H7.
  - intros sid sp m Hs Hin. destruct (H10 sid sp m Hs Hin) as [M1 M2 (b & Hb & Hend & Hpm)].
    constructor; [done..|]. exists b. simpl. split; [rewrite lookup_insert_ne; [done|congruence]|].
    split; [done|]. intros i Hi'. destruct (Hpm i Hi') as (p & Hp & Hl). exists p. split; [by apply Hpg|done].
Qed.

(** Forgetting the contents of objects that are gone. *)
Lemma reap_step bp st k own :
  ks_inv bp k -> linked st k -> rc_inv own st ->
  ks_inv bp (reap_mem st k) /\ linked st (reap_mem st k) /\
  (forall p, live_area st p = true -> areas (vm (reap_mem st k)) !! p = areas (vm k) !! p) /\
  (forall p, live_space st p = true -> spaces (reap_mem st k) !! p = spaces k !! p).
Proof.
  intros Hi Hl Hrc. set (k' := reap_mem st k).
  assert (forall p a, areas (vm k') !! p = Some a <-> areas (vm k) !! p = Some a /\ live_area st p = true) as Hareas
    by (intros p a; apply map_lookup_filter_Some).
  assert (forall p sp, spaces k' !! p = Some sp <-> spaces k !! p = Some sp /\ live_space st p = true) as Hsp
    by (intros p sp; apply map_lookup_filter_Some).
  assert (forall p, live_area st p = true -> areas (vm k') !! p = areas (vm k) !! p) as Hla.
  { intros p Hp. apply option_eq. intros a. rewrite Hareas. naive_solver. }
  assert (forall p, live_space st p = true -> spaces k' !! p = spaces k !! p) as Hls.
  { intros p Hp. apply option_eq. intros a. rewrite Hsp. naive_solver. }
  assert (forall id i p, page_at (vm k') id i p -> page_at (vm k) id i p) as Hpg.
  { intros id i p (a & [Ha _]%Hareas & Hp). by exists a. }
  assert (forall id x, backing (vm k') id x -> backing (vm k) id x) as Hbk.
  { intros id x (i & p & Hp & Hx). exists i, p. auto. }
  split; [|split; [|done]].
  - pose proof Hi as [Hvm H2 Hfx Hst H3 H4 H5 H6 H7 Hkt H8 H9 H10 H11]. constructor; try done.
    + destruct Hvm as [V1 V2 V3 V4 V5 V6]. constructor; try done.
      * intros id a [Ha _]%Hareas. by eapply V2.
      * intros id i p Hp. by eapply V3, Hpg.
      * intros id i p Hp. by eapply V4, Hpg.
      * intros id i p x Hp. by eapply V5, Hpg.
      * intros id i id' i' p Hp Hp'. by eapply V6; apply Hpg.
    + intros sid sp [Hs _]%Hsp. by eapply H4.
    + intros sid sp [Hs _]%Hsp. by eapply H5.
    + intros sid sp id x [Hs _]%Hsp Hx Hb%Hbk. by eapply H6.
    + intros id x Hx Hb%Hbk. by eapply H7.
    + intros sid sp x [Hs _]%Hsp. by eapply Hkt.
    + intros sid sp sid' sp' x [Hs _]%Hsp [Hs' _]%Hsp. by eapply H8.
    + intros sid sp [Hs _]%Hsp. by eapply H9.
    + intros sid sp m [Hs Hlv]%Hsp Hin. destruct (H10 sid sp m Hs Hin) as [M1 M2 (b & Hb & Hend & Hpm)].
      assert (live_area st (m_vmarea m) = true) as Hma by (by eapply mapped_area_live).
      constructor; [done..|]. exists b. rewrite Hla by done. split; [done|]. split; [done|].
      intros i Hi'. destruct (Hpm i Hi') as (p & (a & Ha & Hp) & Hlf). exists p. split; [|done].
      exists a. by rewrite Hla.
    + intros sid sp va e [Hs _]%Hsp Hu He. apply (user_leaf_mono bp k); [done| |by apply (H11 sid sp va)].
      intros sid2 sp2 x [Hs2 _]%Hsp Ht. right. by exists sid2, sp2.
  - split.
    + intros p c E. rewrite Hla; [by eapply (lk_area _ _ Hl)|]. unfold live_area. by rewrite E.
    + intros p c a l E. rewrite Hls; [by eapply (lk_space _ _ Hl)|]. unfold live_space. by rewrite E.
    + apply (lk_nonnull _ _ Hl).
Qed.
End MemSteps.

(** ** The kernel's invariant through changes of the store *)

Section KernelSteps.
Context {P : Profile} {L : RefLayout} {B : BootPdpt} {Mc Sv : Type} `{MachineLaws Mc}.
Abbreviation KS := (Sys (Kernel Mc Sv)).
Implicit Types s : KS.

Definition obj_at s (p : Z) (o : KObject) : Prop := exists c, store s !! p = Some (mkRefCounted c o).

(** Between kernel calls: [loc] are the references on the kernel's stack. *)
Definition kinv (loc : list Z) s : Prop := sys_inv (loc ++ k_issued (ext s)) [] s.
Definition krefs (loc : list Z) s : Z := total_refs (loc ++ k_issued (ext s)) s.

(** What a kernel call may do to the threads that the kernel is working on; it
    creates at most [n] references. *)
Record kstep (n : Z) (loc : list Z) s s' : Prop := mkKstep {
  st_inv : kinv loc s';
  st_current : current s' = current s;
  st_threads : threads_kept loc s s';
  st_refs : krefs loc s' <= krefs loc s + n
}.

Lemma kstep_refl loc s : kinv loc s -> kstep 0 loc s s.
Proof. intros Hi. split; [done|done| |lia]. intros r t _ Ht. by exists t. Qed.

Lemma kstep_trans n1 n2 loc s1 s2 s3 : kstep n1 loc s1 s2 -> kstep n2 loc s2 s3 -> kstep (n1 + n2) loc s1 s3.
Proof.
  intros [_ C1 T1 R1] [I2 C2 T2 R2]. split; [done|congruence| |lia]. by eapply threads_kept_trans.
Qed.

Lemma kstep_weaken n n' loc s1 s2 : n <= n' -> kstep n loc s1 s2 -> kstep n' loc s1 s2.
Proof. intros Hn [I C T R]. split; try done. lia. Qed.

Lemma sys_inv_set_ext own s x :
  sys_inv own [] s -> ext_ok (store s) x -> sys_inv own [] (set_ext s x).
Proof. intros [H1 H2 H3 H4 H5 H6 H7 H8 _] Hx. by constructor. Qed.

Lemma sys_inv_perm own own' run s : own ≡ₚ own' -> sys_inv own run s -> sys_inv own' run s.
Proof.
  intros Ep [H1 H2 H3 H4 H5 H6 H7 H8 H9]. constructor; try done.
  - eapply rc_inv_perm; [|exact H1]. by rewrite Ep.
  - intros r Hr. rewrite <- Ep. by apply H2.
Qed.

(** Memory changes, and the objects stay. *)
Lemma mem_step loc s k' :
  kinv loc s -> ks_inv KERNEL_IMAGE k' -> linked (store s) k' ->
  kstep 0 loc s (set_ext s (set_mem (ext s) k')).
Proof.
  intros Hi Hk Hl. split; [|done| |rewrite Z.add_0_r; apply Z.eq_le_incl; reflexivity].
  - by apply sys_inv_set_ext.
  - intros r t _ Ht. by exists t.
Qed.

Lemma on_mem_run {A} (m : M (KState Mc) A) s a k' :
  m (k_mem (ext s)) = Ret (a, k') -> on_mem m s = Ret (a, set_ext s (set_mem (ext s) k')).
Proof. unfold on_mem. by intros ->. Qed.

Lemma linked_same (st : RefStore KObject) (k k' : KState Mc) :
  linked st k -> spaces k' = spaces k ->
  (forall p, is_Some (areas (vm k) !! p) -> is_Some (areas (vm k') !! p)) -> linked st k'.
Proof.
  intros [Ha Hs Hz] Es Hareas. split.
  - intros p c E. by eapply Hareas, Ha.
  - intros p c a l E. rewrite Es. by eapply Hs.
  - exact Hz.
Qed.

Lemma nonnull_insert (st : RefStore KObject) (k : KState Mc) p rc :
  linked st k -> 0 < p -> forall q r, <[p := rc]> st !! q = Some r -> 0 < q.
Proof. intros Hl Hp q r [[<- _]|[_ E]]%lookup_insert_Some; [done|]. by eapply (lk_nonnull _ _ Hl). Qed.

Lemma extends_live (v v' : VmState Mc) p :
  vm_extends v v' -> is_Some (areas v !! p) -> is_Some (areas v' !! p).
Proof. intros He [a Ha]. destruct (extends_area v v' p a He Ha) as (a' & Ha' & _). eauto. Qed.

(** A new object. *)
Lemma sys_inv_new own s p v :
  sys_inv (obj_refs v ++ own) [] s -> store s !! p = None ->
  (forall q rc, q ∈ obj_refs v -> store s !! q = Some rc -> (obj_rank (value rc) < obj_rank v)%nat) ->
  (forall t, v = OThread t -> t_state t = Blocked /\ 0 <= in_upcalls t /\
    exists c a l, store s !! t_vmspace t = Some (mkRefCounted c (OSpace a l))) ->
  ext_ok (<[p := RefCounted_new v]> (store s)) (ext s) ->
  sys_inv (p :: own) [] (set_store s (<[p := RefCounted_new v]> (store s))).
Proof.
  intros Hi Hp Hrank Hth Hx.
  assert (forall r t, thread_at (set_store s (<[p := RefCounted_new v]> (store s))) r t ->
    r = p /\ v = OThread t \/ r <> p /\ thread_at s r t) as Hcase.
  { intros r t [c E]. simpl in E. apply lookup_insert_Some in E as [[<- E]|[Hne E]].
    - left. by inversion E.
    - right. split; [done|by exists c]. }
  constructor; try done.
  - cbn [store set_store runqueue current_ref current]. apply (rc_inv_new (own ++ runqueue s ++ current_ref s)); [|done..].
    rewrite app_assoc. apply Hi.
  - by intros r ?%not_elem_of_nil.
  - apply (si_nodup _ _ _ Hi).
  - intros r Hr. destruct (si_threads _ _ _ Hi r Hr) as [t [c E]]. exists t, c. simpl.
    rewrite lookup_insert_ne; [done|]. intros ->. congruence.
  - intros r t [[-> ->]|[Hne Ht]]%Hcase Hst; [by destruct (Hth t eq_refl) as [? _]; congruence|].
    by apply (si_runnable _ _ _ Hi r t).
  - intros r t [[-> ->]|[Hne Ht]]%Hcase Hst Hin; [|by apply (si_blocked _ _ _ Hi r t)].
    simpl in Hin. destruct (si_threads _ _ _ Hi p) as [t' [c E]]; [set_solver|congruence].
  - intros r t Ht. assert (exists c a l, store s !! t_vmspace t = Some (mkRefCounted c (OSpace a l))) as (c & a & l & E).
    { apply Hcase in Ht as [[-> ->]|[Hne Ht]]; [by apply Hth|by apply (si_space _ _ _ Hi r)]. }
    exists c, a, l. simpl. rewrite lookup_insert_ne; [done|]. intros Ep. rewrite Ep in Hp. congruence.
  - intros r t [[-> ->]|[Hne Ht]]%Hcase; [by apply Hth|by apply (si_upcalls _ _ _ Hi r)].
Qed.

(** ** Borrowing from a handle *)

Definition objs_kept (l : list Z) s s' : Prop := forall p o, p ∈ l -> obj_at s p o -> obj_at s' p o.

Lemma objs_threads l s s' : objs_kept l s s' -> threads_kept l s s'.
Proof. intros Hk r t Hr Ht. exists t. split; [by apply (Hk r (OThread t))|done]. Qed.

Lemma drop_local loc s r :
  kinv (r :: loc) s ->
  exists st, on_store (sref_drop r) s = Ret (tt, set_store s st) /\ kinv loc (set_store s st) /\
    krefs loc (set_store s st) + 1 <= krefs (r :: loc) s /\
    objs_kept (loc ++ k_issued (ext s) ++ runqueue s ++ current_ref s) s (set_store s st).
Proof.
  intros Hi. destruct (sys_drop (loc ++ k_issued (ext s)) [] s r Hi) as (st & E & Hs & Hi'); [set_solver|].
  exists st. split; [done|]. split; [done|]. split.
  - apply all_refs_survives in Hs. unfold krefs, total_refs, current_ref. simpl. lia.
  - intros p o Hp [c Ep]. destruct (rc_live _ _ (si_rc _ _ _ Hi') p) as [[c' v] E'].
    { cbn [store set_store runqueue ext] in *. set_solver. }
    cbn [store set_store] in E'. pose proof E' as E2. apply Hs in E2 as (rc & E2 & Hv).
    rewrite Ep in E2. injection E2 as <-. simpl in Hv. subst. by exists c'.
Qed.

Lemma borrow_spec loc s h r o T action :
  kinv loc s -> krefs loc s + 1 < 2 ^ 64 -> handle_of s h r o ->
  exists s1, on_store (from_borrowed_handle T h action) s =
    Ret (if negb (is_type h T) then Err INVALID_TYPE
         else if negb (authorize h action) then Err NOT_ALLOWED else Ok r, s1) /\
    if is_type h T && authorize h action then
      kinv (r :: loc) s1 /\ krefs (r :: loc) s1 = krefs loc s + 1 /\ (exists st, s1 = set_store s st) /\
      (forall p o', obj_at s1 p o' <-> obj_at s p o')
    else s1 = s.
Proof.
  intros Hi Hn (Hraw & Hin & [c Er] & Hty). unfold from_borrowed_handle.
  destruct (is_type h T) eqn:HT; cbn [negb andb]; [|exists s; by destruct s].
  destruct (authorize h action); cbn [negb]; [|exists s; by destruct s].
  unfold is_type in HT. apply bool_decide_eq_true in HT. rewrite HT in Hraw.
  unfold sref_clone_from_raw. rewrite Hraw. pose proof (counter_le_total _ _ _ _ _ Hi Er) as Hc.
  cbn [counter] in Hc. unfold krefs in Hn.
  destruct (sys_clone _ [] s r _ Hi ltac:(set_solver) Er) as (E & Hs & Hi1); [simpl; lia|].
  cbn [counter value] in *. exists (set_store s (<[r := mkRefCounted (c + 1) o]> (store s))). split.
  { unfold on_store in *. unfold bind. destruct (sref_clone r (store s)) as [[r' st]| | |]; try done.
    unfold ret. congruence. }
  split; [exact Hi1|]. split; [|split; [by eexists|]].
  - unfold krefs, total_refs. cbn [store set_store ext runqueue]. rewrite (all_refs_same _ _ _ _ Er) by done.
    change (current_ref (set_store s _)) with (current_ref s). simpl. lia.
  - intros p o'. unfold obj_at. cbn [store set_store]. split; intros [c' E'].
    + apply lookup_insert_Some in E' as [[<- [= _ <-]]|[_ E']]; eauto.
    + destruct (decide (p = r)) as [->|Hne].
      * rewrite Er in E'. injection E' as _ <-. eexists. by rewrite lookup_insert_eq.
      * exists c'. by rewrite lookup_insert_ne.
Qed.

(** A call on one borrowed reference. *)
Lemma with_ref_spec {A} n loc s h r o T action (f : Z -> M KS (result ErrorCode A)) Q :
  kinv loc s -> 0 <= n -> krefs loc s + n + 1 < 2 ^ 64 -> handle_of s h r o ->
  (forall s1, is_type h T = true -> kinv (r :: loc) s1 -> krefs (r :: loc) s1 = krefs loc s + 1 ->
    (exists st, s1 = set_store s st) -> (forall p o', obj_at s1 p o' <-> obj_at s p o') ->
    exists a s2, f r s1 = Ret (a, s2) /\ kstep n (r :: loc) s1 s2 /\ Q a s2) ->
  exists a s', with_ref T h action f s = Ret (a, s') /\ kstep n loc s s' /\
    if negb (is_type h T) then a = Err INVALID_TYPE /\ s' = s
    else if negb (authorize h action) then a = Err NOT_ALLOWED /\ s' = s
    else exists s2 st, Q a s2 /\ s' = set_store s2 st /\
      objs_kept (loc ++ k_issued (ext s2) ++ runqueue s2 ++ current_ref s) s2 s'.
Proof.
  intros Hi Hn Hr Hh Hf. unfold with_ref.
  destruct (borrow_spec loc s h r o T action Hi ltac:(lia) Hh) as (s1 & E & Hs1). unfold bindr.
  rewrite (bind_run _ _ _ _ _ E). pose proof (kstep_refl loc s Hi) as Hrefl.
  destruct (is_type h T) eqn:HT; cbn [negb andb] in *.
  2: { subst s1. eexists _, s. split; [done|]. split; [|done]. destruct Hrefl. split; try done. lia. }
  destruct (authorize h action); cbn [negb] in *.
  2: { subst s1. eexists _, s. split; [done|]. split; [|done]. destruct Hrefl. split; try done. lia. }
  destruct Hs1 as (Hi1 & Hr1 & Hst & Hobj).
  destruct (Hf s1 eq_refl Hi1 Hr1 Hst Hobj) as (a & s2 & E2 & [I2 C2 T2 R2] & HQ).
  rewrite (bind_run _ _ _ _ _ E2). destruct (drop_local loc s2 r I2) as (st & E3 & I3 & R3 & K3).
  rewrite (bind_run _ _ _ _ _ E3). exists a, (set_store s2 st). split; [done|]. destruct Hst as [st1 ->].
  assert (current_ref s2 = current_ref s) as Hcr by (unfold current_ref; by rewrite C2). rewrite Hcr in K3.
  split; [|by exists s2, st]. split; [done|done| |lia].
  eapply (threads_kept_trans loc _ s2).
  - intros x t Hx Ht. destruct (T2 x t) as (t' & ? & ?); [set_solver|by apply Hobj|by exists t'].
  - apply objs_threads. intros p o' Hp. apply K3. set_solver.
Qed.

(** ** The calls *)

Lemma kinv_mem loc s : kinv loc s -> ks_inv KERNEL_IMAGE (k_mem (ext s)) /\ linked (store s) (k_mem (ext s)).
Proof. intros Hi. apply (si_ext _ _ _ Hi). Qed.

Lemma call_malloc_spec loc s size :
  kinv loc s -> 0 < size < 2 ^ 64 -> size mod MIN_PAGE_SIZE = 0 ->
  exists r k', call_malloc size s = Ret (r, set_ext s (set_mem (ext s) k')) /\
    kstep 0 loc s (set_ext s (set_mem (ext s) k')).
Proof.
  intros Hi Hn Hm. destruct (kinv_mem loc s Hi) as [Hk Hl].
  destruct (page_alloc_step KERNEL_IMAGE _ size Dirty Hk Hn Hm) as (o & k' & E & Hk' & Hs & Ha & _).
  unfold call_malloc. rewrite (bind_run _ _ _ _ _ (on_mem_run _ _ _ _ E)).
  assert (kstep 0 loc s (set_ext s (set_mem (ext s) k'))) as Hst.
  { apply mem_step; [done..|]. apply (linked_same _ (k_mem (ext s))); [done..|]. by rewrite Ha. }
  destruct o as [p|]; eexists _, k'; (split; [reflexivity|done]).
Qed.

Lemma call_print_spec loc s bytes :
  kinv loc s ->
  exists s', call_print bytes s = Ret (tt, s') /\ kstep 0 loc s s' /\ store s' = store s /\
    runqueue s' = runqueue s /\ k_mem (ext s') = k_mem (ext s) /\ k_issued (ext s') = k_issued (ext s) /\
    k_server (ext s') = k_server (ext s) /\ k_console (ext s') = k_console (ext s) ++ console_bytes bytes.
Proof.
  intros Hi. eexists. split; [reflexivity|]. split; [|done]. split.
  - by apply sys_inv_set_ext, (si_ext _ _ _ Hi).
  - done.
  - intros r t _ Ht. by exists t.
  - rewrite Z.add_0_r. apply Z.eq_le_incl. reflexivity.
Qed.

(** The live areas and spaces are as they were. *)
Record mem_kept (st : RefStore KObject) (k k' : KState Mc) : Prop := mkMemKept {
  mk_len p : live_area st p = true -> area_len <$> areas (vm k') !! p = area_len <$> areas (vm k) !! p;
  mk_content p x : live_area st p = true -> content (vm k') p x = content (vm k) p x;
  mk_space p : live_space st p = true -> spaces k' !! p = spaces k !! p
}.

Lemma mem_kept_trans st k1 k2 k3 : mem_kept st k1 k2 -> mem_kept st k2 k3 -> mem_kept st k1 k3.
Proof. intros [H1 H2 H3] [K1 K2 K3]. split; intros; [rewrite K1|rewrite K2|rewrite K3]; auto. Qed.

Lemma reap_spec loc s :
  kinv loc s ->
  exists k', reap s = Ret (tt, set_ext s (set_mem (ext s) k')) /\
    kstep 0 loc s (set_ext s (set_mem (ext s) k')) /\
    (forall p, store s !! p = None -> areas (vm k') !! p = None /\ spaces k' !! p = None) /\
    mem_kept (store s) (k_mem (ext s)) k'.
Proof.
  intros Hi. destruct (kinv_mem loc s Hi) as [Hk Hl]. eexists. split; [reflexivity|].
  destruct (reap_step KERNEL_IMAGE (store s) _ _ Hk Hl (si_rc _ _ _ Hi)) as (Hk' & Hl' & Ha & Hs).
  split; [by apply mem_step|]. split.
  - intros p Hp.
    split; apply map_lookup_filter_None; right; intros x _; simpl; unfold live_area, live_space; by rewrite Hp.
  - split; [| |done]; intros p.
    + intros Hp. by rewrite Ha.
    + intros x Hp. unfold content. by rewrite Ha.
Qed.

(** A fresh object, and the handle that the server gets for it. *)
Lemma give_new_spec loc s p o T right :
  kinv (obj_refs o ++ loc) s -> store s !! p = None ->
  (forall q rc, q ∈ obj_refs o -> store s !! q = Some rc -> (obj_rank (value rc) < obj_rank o)%nat) ->
  (forall t, o = OThread t -> t_state t = Blocked /\ 0 <= in_upcalls t /\
    exists c a l, store s !! t_vmspace t = Some (mkRefCounted c (OSpace a l))) ->
  linked (<[p := RefCounted_new o]> (store s)) (k_mem (ext s)) -> obj_type o = T ->
  let s1 := set_store s (<[p := RefCounted_new o]> (store s)) in
  exists h s', give_handle T right p s1 = Ret (h, s') /\ kinv loc s' /\ current s' = current s /\
    krefs loc s' = krefs (obj_refs o ++ loc) s + 1 /\
    handle_of s' h p o /\ h_right h = right /\ ext s' = set_issued (ext s) (p :: k_issued (ext s)) /\
    store s' = <[p := RefCounted_new o]> (store s) /\ runqueue s' = runqueue s.
Proof.
  intros Hi Hp Hrank Hth Hl HT s1. destruct (kinv_mem _ s Hi) as [Hk _].
  assert (sys_inv (p :: loc ++ k_issued (ext s)) [] s1) as Hi1.
  { apply sys_inv_new; try done. by rewrite app_assoc. }
  unfold give_handle, into_handle, sref_into_raw, sref_as_ptr.
  rewrite (bind_run _ _ s1 (mkHandle (p + value_offset T) T right) s1).
  2: { unfold on_store, bind, sref_inner. cbn [store s1 set_store]. rewrite lookup_insert_eq. done. }
  rewrite (bind_run _ _ _ _ _ (eq_refl : issue p s1 = Ret (tt, _))).
  eexists _, _. split; [reflexivity|]. split; [|split; [done|split; [|split]]].
  - apply (sys_inv_set_ext _ s1); [|by split]. eapply sys_inv_perm; [|exact Hi1]. cbn [ext set_ext k_issued set_issued].
    apply Permutation_middle.
  - unfold krefs, total_refs. cbn [store set_ext set_store s1 ext k_issued set_issued runqueue].
    rewrite (all_refs_fresh _ _ _ Hp). change (current_ref (set_ext s1 _)) with (current_ref s).
    rewrite !length_app. simpl. rewrite ?length_app. lia.
  - split; [unfold sref_from_raw; simpl; lia|]. split; [apply list_elem_of_here|]. split; [|done].
    eexists. cbn [store set_ext set_store s1]. by rewrite lookup_insert_eq.
  - done.
Qed.

(** From the memory change to the handle. *)
Lemma give_new_step loc s s3 s' p o :
  store s !! p = None -> store s3 = store s -> current s3 = current s -> kstep 0 loc s s3 ->
  obj_refs o = [] -> kinv loc s' -> current s' = current s3 -> krefs loc s' = krefs (obj_refs o ++ loc) s3 + 1 ->
  store s' = <[p := RefCounted_new o]> (store s3) -> kstep 1 loc s s'.
Proof.
  intros Hp Es Ec [_ _ _ R] Ho Hi' Hc Hr Hst. split; [done|congruence| |].
  - intros r t _ [c Ht]. exists t. split; [|done]. exists c. rewrite Hst, Es, lookup_insert_ne; [done|congruence].
  - rewrite Hr, Ho. simpl. lia.
Qed.

Lemma new_objs s s' p o :
  store s !! p = None -> store s' = <[p := RefCounted_new o]> (store s) ->
  forall q o', obj_at s q o' -> obj_at s' q o'.
Proof. intros Hp Hst q o' [c E]. exists c. rewrite Hst, lookup_insert_ne; [done|congruence]. Qed.

Lemma new_run s p v :
  on_store (sref_new (Some p) v) s = Ret (Ok p, set_store s (<[p := RefCounted_new v]> (store s))).
Proof. reflexivity. Qed.

Section WithHeap.
Context (galloc : RefStore KObject -> option Z) (try_reserve : RefStore KObject -> bool).
(** The heap never hands out memory that is in use. *)
Context (Hgalloc : alloc_fresh galloc).

Lemma call_vmspace_create_spec loc s :
  kinv loc s ->
  exists r s', call_vmspace_create galloc s = Ret (r, s') /\ kstep 1 loc s s' /\ runqueue s' = runqueue s /\
    k_console (ext s') = k_console (ext s) /\ k_server (ext s') = k_server (ext s) /\
    (forall p o, obj_at s p o -> obj_at s' p o) /\
    mem_kept (store s) (k_mem (ext s)) (k_mem (ext s')) /\
    match r with
    | Ok h => exists p a sp, handle_of s' h p (OSpace a []) /\ h_right h = VmSpace_DEFAULT_RIGHT /\
        store s !! p = None /\ spaces (k_mem (ext s')) !! p = Some sp /\ mappings sp = [] /\
        k_issued (ext s') = p :: k_issued (ext s)
    | Err e => e = OUT_OF_MEMORY /\ k_issued (ext s') = k_issued (ext s)
    end.
Proof.
  intros Hi. unfold call_vmspace_create.
  destruct (reap_spec loc s Hi) as (k1 & E1 & St1 & Hnone & Hkept).
  rewrite (bind_run _ _ _ _ _ E1). set (s1 := set_ext s (set_mem (ext s) k1)) in *.
  destruct (kinv_mem loc s1 (st_inv _ _ _ _ St1)) as [Hk Hl].
  destruct (vmspace_new_spec KERNEL_IMAGE k1 Hk) as (r & k2 & E & Hr).
  unfold bindr at 1. rewrite (bind_run _ _ _ _ _ (on_mem_run _ s1 _ _ E)).
  destruct r as [sp|e].
  2: { destruct Hr as [-> ->]. eexists _, s1. split; [reflexivity|]. split; [|done]. by apply (kstep_weaken 0). }
  destruct Hr as (Hm & _ & Hcont & Ha & Hs & Hk2 & Hadd). rewrite bind_get. unfold bindr.
  assert (mem_kept (store s) k1 k2) as Hkept2 by (split; intros; [by rewrite Ha|done|by rewrite Hs]).
  pose proof (mem_kept_trans _ _ _ _ Hkept Hkept2) as Hkept3.
  cbn [store set_ext s1]. destruct (galloc (store s)) as [p|] eqn:Hg.
  2: { cbn [sref_new]. eexists _, (set_ext s1 (set_mem (ext s1) k2)). split; [reflexivity|]. split; [|done].
       apply (kstep_weaken 0); [lia|]. apply (kstep_trans 0 0 _ _ s1); [done|]. apply mem_step; [apply St1|done|].
       apply (linked_same _ k1); [done..|]. by rewrite Ha. }
  destruct (Hgalloc _ _ Hg) as [Hp Hp0]. destruct (Hnone p Hp) as [_ Hpn].
  set (k3 := mkKState (vm k2) (<[p := sp]> (spaces k1))).
  set (s3 := set_ext s1 (set_mem (ext s1) k3)).
  assert (linked (store s) k3) as Hl3.
  { split.
    - intros q c E'. simpl. rewrite Ha. by eapply (lk_area _ _ Hl).
    - intros q c a l E'. simpl. rewrite lookup_insert_ne by congruence. by eapply (lk_space _ _ Hl).
    - apply (lk_nonnull _ _ Hl). }
  assert (kstep 0 loc s1 s3) as St3 by (apply mem_step; [apply St1|apply Hadd|done]).
  destruct (give_new_spec loc s3 p (OSpace (vs_arch sp) []) VmSpaceType VmSpace_DEFAULT_RIGHT)
    as (h & s' & E' & Hi' & Hc' & Hr' & Hh & Hright & Hx & Hst & Hq).
  { apply St3. } { done. } { set_solver. } { done. }
  { split.
    - intros q c E'. apply lookup_insert_Some in E' as [[_ ?]|[_ E']]; [done|by eapply (lk_area _ _ Hl3)].
    - intros q c a l E'. apply lookup_insert_Some in E' as [[<- E']|[_ E']]; [|by eapply (lk_space _ _ Hl3)].
      exists sp. simpl. rewrite lookup_insert_eq, Hm. inversion E'. done.
    - by apply (nonnull_insert _ k3). }
  { done. }
  exists (Ok h), s'. split.
  { rewrite (bind_run _ _ _ _ _ (new_run _ p (OSpace (vs_arch sp) []))).
    rewrite (bind_run _ _ _ tt (set_store s3 (<[p := RefCounted_new (OSpace (vs_arch sp) [])]> (store s3)))).
    - by rewrite (bind_run _ _ _ _ _ E').
    - unfold s3, k3. rewrite <- Hs. reflexivity. }
  split; [|split; [done|rewrite Hx; split; [done|split; [done|split]]]].
  - apply (give_new_step loc s s3 s' p (OSpace (vs_arch sp) [])); try done. by apply (kstep_trans 0 0 _ _ s1).
  - by apply (new_objs s s' p (OSpace (vs_arch sp) [])).
  - split; [|exists p, (vs_arch sp), sp].
    + apply (mem_kept_trans _ _ _ _ Hkept3). split; try done. intros q Hq'. simpl. rewrite Hs.
      rewrite lookup_insert_ne; [done|]. intros <-. unfold live_space in Hq'. by rewrite Hp in Hq'.
    + split; [done|]. split; [done|]. split; [done|].
      cbn [k_mem set_issued ext set_ext s3 set_mem k3 spaces]. rewrite lookup_insert_eq. done.
Qed.

Lemma call_vmarea_allocate_spec loc s n :
  kinv loc s -> 0 <= n < 2 ^ 64 ->
  exists r s', call_vmarea_allocate galloc try_reserve n s = Ret (r, s') /\ kstep 1 loc s s' /\
    runqueue s' = runqueue s /\ k_console (ext s') = k_console (ext s) /\ k_server (ext s') = k_server (ext s) /\
    (forall p o, obj_at s p o -> obj_at s' p o) /\
    mem_kept (store s) (k_mem (ext s)) (k_mem (ext s')) /\
    match r with
    | Ok h => exists p a, handle_of s' h p OArea /\ h_right h = VmArea_DEFAULT_RIGHT /\
        store s !! p = None /\ areas (vm (k_mem (ext s'))) !! p = Some a /\ area_len a = n /\
        (forall x, content (vm (k_mem (ext s'))) p x = 0) /\
        k_issued (ext s') = p :: k_issued (ext s) /\ 0 < n /\ n mod MIN_PAGE_SIZE = 0
    | Err e => (e = OUT_OF_MEMORY \/ e = INVALID_ARG /\ (n = 0 \/ n mod MIN_PAGE_SIZE <> 0)) /\
        k_issued (ext s') = k_issued (ext s)
    end.
Proof.
  intros Hi Hn. unfold call_vmarea_allocate.
  destruct (reap_spec loc s Hi) as (k1 & E1 & St1 & Hnone & Hkept).
  rewrite (bind_run _ _ _ _ _ E1). set (s1 := set_ext s (set_mem (ext s) k1)) in *. rewrite bind_get.
  destruct (kinv_mem loc s1 (st_inv _ _ _ _ St1)) as [Hk Hl].
  assert (forall e, e = OUT_OF_MEMORY \/ e = INVALID_ARG /\ (n = 0 \/ n mod MIN_PAGE_SIZE <> 0) ->
    kstep 1 loc s s1 /\ runqueue s1 = runqueue s /\ k_console (ext s1) = k_console (ext s) /\
    k_server (ext s1) = k_server (ext s) /\ (forall p o, obj_at s p o -> obj_at s1 p o) /\
    mem_kept (store s) (k_mem (ext s)) (k_mem (ext s1)) /\
    (e = OUT_OF_MEMORY \/ e = INVALID_ARG /\ (n = 0 \/ n mod MIN_PAGE_SIZE <> 0)) /\
    k_issued (ext s1) = k_issued (ext s)) as Hfail.
  { intros e He. split; [by apply (kstep_weaken 0)|done]. }
  change (store s1) with (store s). unfold bindr at 1.
  assert (forall b o r k', new_anonymous b o n (vm k1) = Ret (r, k') ->
    on_mem (on_vm (new_anonymous b o n)) s1 = Ret (r, set_ext s1 (set_mem (ext s1) (mkKState k' (spaces k1))))) as Hrun.
  { intros b o r k' E. by apply on_mem_run, on_vm_run. }
  assert (set_ext s1 (set_mem (ext s1) (mkKState (vm k1) (spaces k1))) = s1) as Hsame by (by destruct k1).
  destruct ((n =? 0) || negb (n mod MIN_PAGE_SIZE =? 0)) eqn:Hbad.
  { rewrite (bind_run _ _ _ _ _ (Hrun _ _ _ _ (new_anonymous_bad _ _ _ _ Hbad))). rewrite Hsame.
    exists (Err INVALID_ARG), s1. split; [done|].
    apply Hfail. right. split; [done|]. apply orb_true_iff in Hbad as [?|?]; simpl_bool; lia. }
  simpl_bool. pose proof (new_anonymous_valid (vm k1) (try_reserve (store s)) (galloc (store s)) n
    ltac:(lia) ltac:(done)) as Hnew.
  destruct (try_reserve (store s)); cbn [negb] in Hnew.
  2: { rewrite (bind_run _ _ _ _ _ (Hrun _ _ _ _ Hnew)), Hsame.
       exists (Err OUT_OF_MEMORY), s1. split; [done|]. apply Hfail. by left. }
  destruct (galloc (store s)) as [p|] eqn:Hg.
  2: { rewrite (bind_run _ _ _ _ _ (Hrun _ _ _ _ Hnew)), Hsame.
       exists (Err OUT_OF_MEMORY), s1. split; [done|]. apply Hfail. by left. }
  rewrite (bind_run _ _ _ _ _ (Hrun _ _ _ _ Hnew)).
  destruct (Hgalloc _ _ Hg) as [Hp Hp0]. destruct (Hnone p Hp) as [Hpn _].
  set (a := mkVmArea (replicate (Z.to_nat (n / MIN_PAGE_SIZE)) None) Anonymous n).
  pose proof (add_area_step KERNEL_IMAGE k1 p n Hk Hpn ltac:(lia) ltac:(done)) as Hk3.
  cbn zeta in Hk3. fold a in Hk3.
  set (k3 := mkKState (mkVmState (machine (vm k1)) (<[p := a]> (areas (vm k1)))) (spaces k1)) in *.
  set (s3 := set_ext s1 (set_mem (ext s1) k3)).
  assert (linked (store s) k3) as Hl3.
  { apply (linked_same _ k1); [done..|]. intros q [b Hb]. simpl. rewrite lookup_insert_is_Some'. eauto. }
  assert (kstep 0 loc s1 s3) as St3 by (apply mem_step; [apply St1|done|done]).
  destruct (give_new_spec loc s3 p OArea VmAreaType VmArea_DEFAULT_RIGHT)
    as (h & s' & E' & Hi' & Hc' & Hr' & Hh & Hright & Hx & Hst & Hq).
  { apply St3. } { done. } { set_solver. } { done. }
  { split.
    - intros q c E'. apply lookup_insert_Some in E' as [[<- _]|[_ E']]; [|by eapply (lk_area _ _ Hl3)].
      simpl. rewrite lookup_insert_eq. eauto.
    - intros q c b l E'. apply lookup_insert_Some in E' as [[_ ?]|[_ E']]; [done|by eapply (lk_space _ _ Hl3)].
    - by apply (nonnull_insert _ k3). }
  { done. }
  exists (Ok h), s'. split.
  { unfold bindr. rewrite (bind_run _ _ _ _ _ (new_run s3 p OArea)).
    by rewrite (bind_run _ _ _ _ _ E'). }
  split; [|split; [done|rewrite Hx; split; [done|split; [done|split]]]].
  - apply (give_new_step loc s s3 s' p OArea); try done. by apply (kstep_trans 0 0 _ _ s1).
  - by apply (new_objs s s' p OArea).
  - assert (forall q, live_area (store s) q = true -> q <> p) as Hne.
    { intros q Hq' ->. unfold live_area in Hq'. by rewrite Hp in Hq'. }
    split; [|exists p, a].
    + apply (mem_kept_trans _ _ _ _ Hkept). split; [| |done].
      * intros q ?%Hne. simpl. by rewrite lookup_insert_ne.
      * intros q x ?%Hne. unfold content; simpl. by rewrite lookup_insert_ne.
    + split; [done|]. split; [done|]. split; [done|]. simpl. rewrite lookup_insert_eq.
      split; [done|]. split; [done|]. split; [|split; [done|lia]].
      intros x. unfold content; simpl. rewrite lookup_insert_eq. simpl. destruct (_ && _); [|done].
      destruct (replicate _ _ !! _) as [[q|]|] eqn:Hq'; [|done..]. by apply lookup_replicate in Hq' as [? _].
Qed.

Lemma handle_type s h r o T : handle_of s h r o -> is_type h T = true -> obj_type o = T.
Proof. intros (_ & _ & _ & Ht) E. unfold is_type in E. apply bool_decide_eq_true in E. congruence. Qed.

(** What a call on a handle leaves alone. *)
Definition rest_same s s' : Prop :=
  k_issued (ext s') = k_issued (ext s) /\ k_console (ext s') = k_console (ext s) /\
  k_server (ext s') = k_server (ext s).

Lemma call_vmarea_write_spec loc s h id o off data :
  kinv loc s -> krefs loc s + 1 < 2 ^ 64 -> handle_of s h id o -> bytes_ok data -> 0 <= off ->
  exists r s', call_vmarea_write h off data s = Ret (r, s') /\ kstep 0 loc s s' /\
    runqueue s' = runqueue s /\ rest_same s s' /\
    objs_kept (loc ++ k_issued (ext s) ++ runqueue s ++ current_ref s) s s' /\
    if negb (is_type h VmAreaType) then r = Err INVALID_TYPE /\ s' = s
    else if negb (authorize h RIGHT_WRITE) then r = Err NOT_ALLOWED /\ s' = s
    else exists a written, areas (vm (k_mem (ext s))) !! id = Some a /\
      spaces (k_mem (ext s')) = spaces (k_mem (ext s)) /\
      copied (vm (k_mem (ext s))) id off written (vm (k_mem (ext s'))) /\ written `prefix_of` data /\
      match r with
      | Ok _ => off + len data <= area_len a /\ written = data
      | Err e => if off + len data <=? area_len a then e = OUT_OF_MEMORY else e = OUT_OF_BOUNDS
      end.
Proof.
  intros Hi Hn Hh Hb Ho. destruct (kinv_mem loc s Hi) as [Hk Hl].
  destruct (with_ref_spec 0 loc s h id o VmAreaType RIGHT_WRITE
    (fun r => on_mem (on_vm (vmarea_write r off data)))
    (fun r s2 => exists st1 k', s2 = set_ext (set_store s st1) (set_mem (ext s) k') /\
      (forall p o', obj_at s p o' -> obj_at s2 p o') /\ exists a written, areas (vm (k_mem (ext s))) !! id = Some a /\
      spaces k' = spaces (k_mem (ext s)) /\
      copied (vm (k_mem (ext s))) id off written (vm k') /\ written `prefix_of` data /\
      match r with
      | Ok _ => off + len data <= area_len a /\ written = data
      | Err e => if off + len data <=? area_len a then e = OUT_OF_MEMORY else e = OUT_OF_BOUNDS
      end)) as (r & s' & E & St & Hr); [done|lia|lia|done| |].
  - intros s1 HT Hi1 Hr1 [st1 ->] Hobj. pose proof (handle_type _ _ _ _ _ Hh HT) as Hoa.
    destruct o; try done. destruct Hh as (_ & _ & [c Eid] & _).
    destruct (lk_area _ _ Hl id c Eid) as [a Ha].
    destruct (vmarea_write_step KERNEL_IMAGE (k_mem (ext s)) id a off data) as (r & st & w & Er & Hk' & Hc & Hw & Hres);
      [done..|].
    exists r, (set_ext (set_store s st1) (set_mem (ext s) (mkKState st (spaces (k_mem (ext s)))))).
    split; [by apply (on_mem_run _ (set_store s st1))|]. split.
    + apply (mem_step (id :: loc) (set_store s st1)); [done|done|]. destruct (kinv_mem _ _ Hi1) as [_ Hl1].
      apply (linked_same _ (k_mem (ext s))); [done..|]. intros p Hp. eapply extends_live; [apply Hc|done].
    + exists st1, (mkKState st (spaces (k_mem (ext s)))). split; [done|]. split; [by intros p o' Ho'; apply Hobj|].
      exists a, w. split; [done|]. split; [done|]. split; [done|]. split; [done|].
      destruct r; [done|]. destruct (_ <=? _); [done|by destruct Hres].
  - exists r, s'. split; [exact E|]. split; [done|].
    destruct (negb (is_type h VmAreaType)) eqn:HT; [destruct Hr as [-> ->]; by repeat split; intros p o' _|].
    destruct (negb (authorize h RIGHT_WRITE)); [destruct Hr as [-> ->]; by repeat split; intros p o' _|].
    destruct Hr as (s2 & st & (st1 & k' & -> & Hobj & Hres) & -> & Hkept). split; [done|]. split; [by repeat split|].
    split; [|exact Hres]. intros p o' Hp Ho'. apply Hkept; [done|]. by apply Hobj.
Qed.

(** A space takes over the reference to an area. *)
Lemma sys_inv_adopt own s x p q c a l l' :
  sys_inv (q :: own) [] s -> store s !! p = Some (mkRefCounted c (OSpace a l)) -> l' ≡ₚ q :: l ->
  obj_at s q OArea -> ext_ok (<[p := mkRefCounted c (OSpace a l')]> (store s)) x ->
  sys_inv own [] (set_ext (set_store s (<[p := mkRefCounted c (OSpace a l')]> (store s))) x).
Proof.
  intros Hi Hp Hl [cq Hq] Hx. set (s' := set_ext _ x).
  assert (forall r t, thread_at s' r t <-> thread_at s r t) as Hth.
  { intros r t. unfold thread_at, s'. cbn [store set_ext set_store]. split; intros [ct E].
    - apply lookup_insert_Some in E as [[_ ?]|[_ E]]; [done|by exists ct].
    - exists ct. rewrite lookup_insert_ne; [done|congruence]. }
  constructor; try done.
  - apply (rc_inv_adopt _ _ p q (mkRefCounted c (OSpace a l))); [apply (si_rc _ _ _ Hi)|done..|].
    intros rc' E. rewrite Hq in E. injection E as <-. simpl. lia.
  - by intros r ?%not_elem_of_nil.
  - apply (si_nodup _ _ _ Hi).
  - intros r Hr. destruct (si_threads _ _ _ Hi r Hr) as [t Ht]. exists t. by apply Hth.
  - intros r t Ht%Hth. by apply (si_runnable _ _ _ Hi r).
  - intros r t Ht%Hth. by apply (si_blocked _ _ _ Hi r).
  - intros r t Ht%Hth. destruct (si_space _ _ _ Hi r t Ht) as (c' & a' & l0 & E).
    unfold s'. cbn [store set_ext set_store]. destruct (decide (p = t_vmspace t)) as [<-|Hne].
    + rewrite lookup_insert_eq. eauto.
    + rewrite lookup_insert_ne by done. eauto.
  - intros r t Ht%Hth. by apply (si_upcalls _ _ _ Hi r).
Qed.

Lemma insert_mapping_refs m l : m_vmarea <$> insert_mapping m l ≡ₚ m_vmarea m :: (m_vmarea <$> l).
Proof.
  unfold insert_mapping. set (n := partition_point _ _). rewrite fmap_app, fmap_cons.
  replace (m_vmarea <$> l) with (m_vmarea <$> (take n l ++ drop n l)) by (by rewrite take_drop).
  rewrite fmap_app. symmetry. apply Permutation_middle.
Qed.

(** Recording the mapping moves the borrowed reference into the space. *)
Lemma adopt_step loc s k' sid sp m id c :
  kinv (id :: sid :: loc) s ->
  store s !! sid = Some (mkRefCounted c (OSpace (vs_arch sp) (m_vmarea <$> mappings sp))) -> obj_at s id OArea ->
  spaces k' = <[sid := mkVmSpace (vs_arch sp) (insert_mapping m (mappings sp))]> (spaces (k_mem (ext s))) ->
  m_vmarea m = id -> ks_inv KERNEL_IMAGE k' ->
  (forall p, is_Some (areas (vm (k_mem (ext s))) !! p) -> is_Some (areas (vm k') !! p)) ->
  exists s', record_refs sid (set_ext s (set_mem (ext s) k')) = Ret (tt, s') /\
    kinv (sid :: loc) s' /\ krefs (sid :: loc) s' = krefs (id :: sid :: loc) s /\ current s' = current s /\
    runqueue s' = runqueue s /\ ext s' = set_mem (ext s) k' /\
    (forall p o, p <> sid -> obj_at s p o -> obj_at s' p o) /\
    obj_at s' sid (OSpace (vs_arch sp) (m_vmarea <$> insert_mapping m (mappings sp))).
Proof.
  intros Hi Ec Hid Esp Hm Hk' Hlive. destruct (kinv_mem _ _ Hi) as [_ Hl].
  set (l' := m_vmarea <$> insert_mapping m (mappings sp)).
  assert (l' ≡ₚ id :: (m_vmarea <$> mappings sp)) as Hperm by (rewrite <- Hm; apply insert_mapping_refs).
  exists (set_ext (set_store s (<[sid := mkRefCounted c (OSpace (vs_arch sp) l')]> (store s))) (set_mem (ext s) k')).
  split.
  { unfold record_refs. cbn [ext set_ext k_mem set_mem store]. rewrite Esp, lookup_insert_eq, Ec. done. }
  split.
  { apply (sys_inv_adopt (sid :: loc ++ k_issued (ext s)) s _ sid id c _ (m_vmarea <$> mappings sp)); try done.
    split; [done|]. split.
    - intros p c' E. apply lookup_insert_Some in E as [[_ ?]|[_ E]]; [done|]. by eapply Hlive, (lk_area _ _ Hl).
    - intros p c' a l E. cbn [k_mem set_mem]. rewrite Esp. apply lookup_insert_Some in E as [[<- E]|[Hne E]].
      + rewrite lookup_insert_eq. injection E as _ <- <-. eauto.
      + rewrite lookup_insert_ne by done. by eapply (lk_space _ _ Hl).
    - apply (nonnull_insert _ (k_mem (ext s))); [done|]. by eapply (lk_nonnull _ _ Hl). }
  split.
  { unfold krefs, total_refs. cbn [store set_ext set_store ext k_issued set_mem runqueue].
    rewrite (all_refs_insert _ _ _ _ Ec), (all_refs_delete _ _ _ Ec). cbn [value obj_refs KObject_object].
    rewrite !length_app, (Permutation_length Hperm).
    change (current_ref (set_ext _ _)) with (current_ref s). cbn [app length]. rewrite ?length_app. lia. }
  split; [done|]. split; [done|]. split; [done|]. split.
  - intros p o Hne [cp Ep]. exists cp. cbn [store set_ext set_store]. by rewrite lookup_insert_ne.
  - exists c. cbn [store set_ext set_store]. by rewrite lookup_insert_eq.
Qed.

(** The body of [vmspace_map], once the space is borrowed. *)
Lemma map_body_spec loc s h id o sid sp uaddr attrs :
  kinv (sid :: loc) s -> krefs (sid :: loc) s + 1 < 2 ^ 64 -> handle_of s h id o ->
  obj_at s sid (OSpace (vs_arch sp) (m_vmarea <$> mappings sp)) -> spaces (k_mem (ext s)) !! sid = Some sp ->
  0 <= uaddr -> 0 <= attrs < 8 ->
  (forall a, o = OArea -> areas (vm (k_mem (ext s))) !! id = Some a -> uaddr + area_len a <= 2 ^ 47) ->
  exists r s', (do? id := on_store (from_borrowed_handle VmAreaType h RIGHT_MAP) in
      do* s := get in
      do* res := on_mem (vmspace_map (try_reserve (store s)) sid id uaddr attrs) in
      do* _ := match res with
               | Ok _ => record_refs sid
               | Err _ => on_store (sref_drop id)
               end in
      ret res) s = Ret (r, s') /\ kstep 1 (sid :: loc) s s' /\ runqueue s' = runqueue s /\ rest_same s s' /\
    (forall p o', p <> sid -> p ∈ loc ++ k_issued (ext s) ++ runqueue s ++ current_ref s -> obj_at s p o' -> obj_at s' p o') /\
    (exists sp', spaces (k_mem (ext s')) !! sid = Some sp' /\
      obj_at s' sid (OSpace (vs_arch sp') (m_vmarea <$> mappings sp'))) /\
    if negb (is_type h VmAreaType) then r = Err INVALID_TYPE /\ s' = s
    else if negb (authorize h RIGHT_MAP) then r = Err NOT_ALLOWED /\ s' = s
    else exists a, areas (vm (k_mem (ext s))) !! id = Some a /\
      vmspace_map_post KERNEL_IMAGE (k_mem (ext s)) sid sp id a uaddr attrs r (k_mem (ext s')).
Proof.
  clear galloc Hgalloc.
  intros Hi Hn Hh Hsid Hsp Hu Hat Hrange.
  destruct (borrow_spec (sid :: loc) s h id o VmAreaType RIGHT_MAP Hi Hn Hh) as (s1 & E & Hs1).
  unfold bindr at 1. rewrite (bind_run _ _ _ _ _ E).
  assert (forall r, kstep 1 (sid :: loc) s s /\ runqueue s = runqueue s /\ rest_same s s /\
    (forall p o', p <> sid -> p ∈ loc ++ k_issued (ext s) ++ runqueue s ++ current_ref s -> obj_at s p o' -> obj_at s p o') /\
    (exists sp', spaces (k_mem (ext s)) !! sid = Some sp' /\
      obj_at s sid (OSpace (vs_arch sp') (m_vmarea <$> mappings sp'))) /\ (r : result ErrorCode unit) = r /\ s = s) as Hsame.
  { intros r. split; [by apply (kstep_weaken 0), kstep_refl|]. repeat (split; [done|]). split; [by exists sp|done]. }
  destruct (is_type h VmAreaType) eqn:HT; cbn [negb andb] in *; [|subst s1; eexists _, s; split; [done|apply Hsame]].
  destruct (authorize h RIGHT_MAP); cbn [negb] in *; [|subst s1; eexists _, s; split; [done|apply Hsame]]. clear Hsame.
  pose proof (handle_type _ _ _ _ _ Hh HT) as Hoa. destruct o; try done.
  destruct Hs1 as (Hi1 & Hr1 & [st1 ->] & Hobj). rewrite bind_get.
  destruct (kinv_mem _ _ Hi1) as [Hk Hl]. change (ext (set_store s st1)) with (ext s) in *.
  destruct (proj2 (Hobj id OArea) (proj1 (proj2 (proj2 Hh)))) as [cid Eid].
  destruct (lk_area _ _ Hl id _ Eid) as [a Ha].
  destruct (vmspace_map_spec KERNEL_IMAGE (k_mem (ext s)) (try_reserve (store (set_store s st1))) sid sp id a uaddr attrs)
    as (r & k' & Em & Hpost); [done..|by apply Hrange|done|].
  rewrite (bind_run _ _ _ _ _ (on_mem_run _ (set_store s st1) _ _ Em)).
  change (ext (set_store s st1)) with (ext s). set (s1 := set_store s st1) in *.
  pose proof Hpost as (Hk' & He & _ & _ & Hr). pose proof (fun p => extends_live _ _ p He) as Hlive.
  destruct r as [[]|e].
  - destruct Hr as (Esp & _). destruct (proj2 (Hobj sid _) Hsid) as [c Ec].
    destruct (adopt_step loc s1 k' sid sp _ id c Hi1 Ec (ex_intro _ _ Eid) Esp eq_refl Hk' Hlive)
      as (s' & E' & I' & R' & C' & Hq & Hx & Hoth & Hnew).
    rewrite (bind_run _ _ _ _ _ E'). exists (Ok tt), s'. split; [done|]. split; [split; [done|done| |lia]|].
    { intros r t Hr [ct Et]. exists t. split; [|done]. apply (Hoth r (OThread t)); [|by apply Hobj; exists ct].
      intros ->. destruct Hsid as [c' Ec']. congruence. }
    split; [done|]. unfold rest_same. rewrite Hx. split; [done|].
    split; [intros p o' Hne _ Ho'; apply Hoth; [done|by apply Hobj]|]. split; [|by exists a].
    eexists. split; [cbn [k_mem set_mem]; rewrite Esp; apply lookup_insert_eq|exact Hnew].
  - destruct Hr as (Esp & _).
    assert (kstep 0 (id :: sid :: loc) s1 (set_ext s1 (set_mem (ext s) k'))) as St.
    { apply (mem_step _ s1); [done|done|]. by apply (linked_same _ (k_mem (ext s))). }
    destruct (drop_local (sid :: loc) _ id (st_inv _ _ _ _ St)) as (st3 & E3 & I3 & R3 & K3).
    rewrite (bind_run _ _ _ _ _ E3). eexists (Err e), _. split; [done|].
    assert (objs_kept (sid :: loc ++ k_issued (ext s) ++ runqueue s ++ current_ref s) s (set_store (set_ext s1 (set_mem (ext s) k')) st3)) as K4.
    { intros p o' Hp Ho'. apply K3; [done|]. by apply Hobj. }
    split; [|split; [done|split; [done|split; [|split; [exists sp|by exists a]]]]].
    + destruct St as [_ _ _ R]. split; [done|done| |lia]. apply objs_threads. intros p o' Hp. apply K4. set_solver.
    + intros p o' _ Hp. apply K4. set_solver.
    + split; [by rewrite <- Hsp, <- Esp|]. apply K4; [set_solver|done].
Qed.

(** The errors of the checks on a handle; [Q] if it passes them. *)
Definition checked {A S} (h : Handle) (T : TypeId) (action : HandleRight) (r : result ErrorCode A) (s s' : S) (Q : Prop)
  : Prop :=
  if negb (is_type h T) then r = Err INVALID_TYPE /\ s' = s
  else if negb (authorize h action) then r = Err NOT_ALLOWED /\ s' = s
  else Q.

Lemma space_of loc s h sid o :
  kinv loc s -> handle_of s h sid o -> is_type h VmSpaceType = true ->
  exists sp, spaces (k_mem (ext s)) !! sid = Some sp /\ o = OSpace (vs_arch sp) (m_vmarea <$> mappings sp).
Proof.
  intros Hi Hh HT. pose proof (handle_type _ _ _ _ _ Hh HT) as Ho. destruct o as [|a l|]; try done.
  destruct Hh as (_ & _ & [c Ec] & _). destruct (kinv_mem _ _ Hi) as [_ Hl].
  destruct (lk_space _ _ Hl sid c a l Ec) as (sp & Hsp & <- & <-). by exists sp.
Qed.

Lemma call_vmspace_map_spec loc s hs sid os ha id oa uaddr attrs :
  kinv loc s -> krefs loc s + 2 < 2 ^ 64 -> handle_of s hs sid os -> handle_of s ha id oa ->
  0 <= uaddr -> 0 <= attrs < 8 ->
  (forall a, oa = OArea -> areas (vm (k_mem (ext s))) !! id = Some a -> uaddr + area_len a <= 2 ^ 47) ->
  exists r s', call_vmspace_map try_reserve hs ha uaddr attrs s = Ret (r, s') /\ kstep 1 loc s s' /\
    runqueue s' = runqueue s /\ rest_same s s' /\
    (forall p o', p <> sid -> p ∈ loc ++ k_issued (ext s) ++ runqueue s ++ current_ref s -> obj_at s p o' -> obj_at s' p o') /\
    (exists o', obj_at s' sid o' /\ obj_type o' = obj_type os) /\
    checked hs VmSpaceType RIGHT_MAP r s s'
      (checked ha VmAreaType RIGHT_MAP r (ext s) (ext s')
        (exists sp a, spaces (k_mem (ext s)) !! sid = Some sp /\ areas (vm (k_mem (ext s))) !! id = Some a /\
          vmspace_map_post KERNEL_IMAGE (k_mem (ext s)) sid sp id a uaddr attrs r (k_mem (ext s')))).
Proof.
  clear galloc Hgalloc.
  intros Hi Hn Hh Hha Hu Hat Hrange.
  destruct (with_ref_spec 1 loc s hs sid os VmSpaceType RIGHT_MAP
    (fun sid => do? id := on_store (from_borrowed_handle VmAreaType ha RIGHT_MAP) in
      do* s := get in
      do* res := on_mem (vmspace_map (try_reserve (store s)) sid id uaddr attrs) in
      do* _ := match res with
               | Ok _ => record_refs sid
               | Err _ => on_store (sref_drop id)
               end in
      ret res)
    (fun r s2 => runqueue s2 = runqueue s /\ rest_same s s2 /\
      (forall p o', p <> sid -> p ∈ loc ++ k_issued (ext s) ++ runqueue s ++ current_ref s -> obj_at s p o' -> obj_at s2 p o') /\
      (exists a l, obj_at s2 sid (OSpace a l)) /\
      checked ha VmAreaType RIGHT_MAP r (ext s) (ext s2)
        (exists sp a, spaces (k_mem (ext s)) !! sid = Some sp /\ areas (vm (k_mem (ext s))) !! id = Some a /\
          vmspace_map_post KERNEL_IMAGE (k_mem (ext s)) sid sp id a uaddr attrs r (k_mem (ext s2)))))
    as (r & s' & E & St & Hr); [done|lia|lia|done| |].
  - intros s1 HT Hi1 Hr1 [st1 ->] Hobj. destruct (space_of loc s hs sid os Hi Hh HT) as (sp & Hsp & ->).
    destruct (map_body_spec loc (set_store s st1) ha id oa sid sp uaddr attrs)
      as (r & s2 & E & St & Hq & Hrest & Hoth & (sp' & Hsp' & Hnew) & Hres); try done.
    + lia.
    + destruct Hha as (Hraw & Hin & Hoa & Hty). split; [done|]. split; [done|]. split; [by apply Hobj|done].
    + by apply Hobj, Hh.
    + exists r, s2. split; [exact E|]. split; [done|]. split; [done|]. split; [done|]. split; [|split].
      * intros p o' Hne Hp Ho'. apply Hoth; [done|done|by apply Hobj].
      * eauto.
      * unfold checked. destruct (negb (is_type ha VmAreaType)); [destruct Hres as [-> ->]; done|].
        destruct (negb (authorize ha RIGHT_MAP)); [destruct Hres as [-> ->]; done|]. destruct Hres as (a & Ha & Hp). by exists sp, a.
  - exists r, s'. split; [exact E|]. split; [done|]. unfold checked at 1.
    assert (runqueue s = runqueue s /\ rest_same s s /\
      (forall p o', p <> sid -> p ∈ loc ++ k_issued (ext s) ++ runqueue s ++ current_ref s -> obj_at s p o' -> obj_at s p o') /\
      exists o', obj_at s sid o' /\ obj_type o' = obj_type os) as Hsame.
    { split; [done|]. split; [done|]. split; [done|]. exists os. split; [apply Hh|done]. }
    destruct (negb (is_type hs VmSpaceType)) eqn:HT; [destruct Hr as [-> ->]; destruct Hsame as (? & ? & ? & ?); by split_and!|].
    destruct (negb (authorize hs RIGHT_MAP)); [destruct Hr as [-> ->]; destruct Hsame as (? & ? & ? & ?); by split_and!|]. clear Hsame.
    destruct Hr as (s2 & st & (Hq & Hrest & Hoth & (a & l & Hnew) & Hres) & -> & Hkept).
    pose proof Hrest as (Hiss & _). split; [done|]. split; [done|]. rewrite Hiss, Hq in Hkept. split; [|split; [|exact Hres]].
    + intros p o' Hne Hp Ho'. apply Hkept; [done|]. by apply Hoth.
    + exists (OSpace a l). split; [apply Hkept; [|done]|].
      * destruct Hh as (_ & Hin & _). set_solver.
      * apply negb_false_iff in HT. destruct (space_of loc s hs sid os Hi Hh HT) as (sp & _ & ->). done.
Qed.

Lemma read_bytes_total bp k sid sp uaddr buf :
  ks_inv bp k -> spaces k !! sid = Some sp -> 0 <= uaddr < 2 ^ 64 ->
  exists r k' bs, vmspace_read_bytes sid uaddr buf k = Ret ((r, bs ++ drop (length bs) buf), k') /\
    ks_inv bp k' /\ ks_grows sid (fun _ => False) k k' /\ (length bs <= length buf)%nat /\
    (uaddr + len buf < 2 ^ 64 -> exists iter, iter `suffix_of` mappings sp /\ (buf <> [] -> is_err r = false -> iter <> []) /\
      read_result k sp iter uaddr buf r bs) /\
    (2 ^ 64 <= uaddr + len buf -> r = Err OUT_OF_BOUNDS /\ bs = []).
Proof.
  intros Hi Hs Hu. destruct (Z.ltb_spec (uaddr + len buf) (2 ^ 64)) as [Hlt|Hge].
  - destruct (read_bytes_spec bp k sid sp uaddr buf) as (r & k' & bs & E & Hi' & Hg & iter & Hsuf & Hnil & Hres);
      [done..|lia|lia|].
    exists r, k', bs. split; [done|]. split; [done|]. split; [done|]. split; [apply Hres|]. split; [|lia].
    intros _. by exists iter.
  - exists (Err OUT_OF_BOUNDS), k, []. split.
    { unfold vmspace_read_bytes. destruct buf as [|b buf]; [simpl in Hge; lia|]. unfold UAddr_add.
      destruct (checked_add_spec 64 uaddr (len (b :: buf))) as [[_ ?]|[-> _]]; [lia|done]. }
    split; [done|]. split; [apply ks_grows_refl|]. simpl. split; [lia|]. split; [lia|done].
Qed.

Lemma call_vmspace_read_spec loc s h sid o uaddr buf :
  kinv loc s -> krefs loc s + 1 < 2 ^ 64 -> handle_of s h sid o -> 0 <= uaddr < 2 ^ 64 ->
  exists r buf' s', call_vmspace_read h uaddr buf s = Ret ((r, buf'), s') /\ kstep 0 loc s s' /\
    runqueue s' = runqueue s /\ rest_same s s' /\
    objs_kept (loc ++ k_issued (ext s) ++ runqueue s ++ current_ref s) s s' /\
    spaces (k_mem (ext s')) = spaces (k_mem (ext s)) /\
    (forall id x, content (vm (k_mem (ext s'))) id x = content (vm (k_mem (ext s))) id x) /\
    length buf' = length buf /\
    checked h VmSpaceType RIGHT_READ r (s, buf) (s', buf')
      (exists sp bs, spaces (k_mem (ext s)) !! sid = Some sp /\ buf' = bs ++ drop (length bs) buf /\
        (uaddr + len buf < 2 ^ 64 -> exists iter, iter `suffix_of` mappings sp /\ (buf <> [] -> is_err r = false -> iter <> []) /\
          read_result (k_mem (ext s)) sp iter uaddr buf r bs) /\
        (2 ^ 64 <= uaddr + len buf -> r = Err OUT_OF_BOUNDS /\ bs = [])).
Proof.
  clear galloc try_reserve Hgalloc.
  intros Hi Hn Hh Hu. unfold call_vmspace_read, checked.
  destruct (borrow_spec loc s h sid o VmSpaceType RIGHT_READ Hi Hn Hh) as (s1 & E & Hs1).
  rewrite (bind_run _ _ _ _ _ E).
  assert (kstep 0 loc s s /\ runqueue s = runqueue s /\ rest_same s s /\
    objs_kept (loc ++ k_issued (ext s) ++ runqueue s ++ current_ref s) s s) as (? & ? & ? & ?).
  { split; [by apply kstep_refl|]. split; [done|]. split; [done|]. by intros p o' _. }
  destruct (is_type h VmSpaceType) eqn:HT; cbn [negb andb] in *; [|subst s1; eexists _, buf, s; by split_and!].
  destruct (authorize h RIGHT_READ); cbn [negb] in *; [|subst s1; eexists _, buf, s; by split_and!].
  destruct Hs1 as (Hi1 & Hr1 & [st1 ->] & Hobj). destruct (space_of loc s h sid o Hi Hh HT) as (sp & Hsp & ->).
  destruct (kinv_mem _ _ Hi) as [Hk _]. destruct (kinv_mem _ _ Hi1) as [_ Hl1].
  destruct (read_bytes_total KERNEL_IMAGE _ sid sp uaddr buf Hk Hsp Hu) as (r & k' & bs & Er & Hk' & Hg & Hbs & Hres).
  rewrite (bind_run _ _ _ _ _ (on_mem_run _ (set_store s st1) _ _ Er)).
  assert (kstep 0 (sid :: loc) (set_store s st1) (set_ext (set_store s st1) (set_mem (ext s) k'))) as St.
  { apply (mem_step _ (set_store s st1)); [done|done|]. apply (linked_same _ (k_mem (ext s))); [done|apply Hg|].
    intros p Hp. eapply extends_live; [apply Hg|done]. }
  destruct (drop_local loc _ sid (st_inv _ _ _ _ St)) as (st3 & E3 & I3 & R3 & K3).
  rewrite (bind_run _ _ _ _ _ E3). eexists r, _, _. split; [reflexivity|].
  assert (objs_kept (loc ++ k_issued (ext s) ++ runqueue s ++ current_ref s) s
    (set_store (set_ext (set_store s st1) (set_mem (ext s) k')) st3)) as K4.
  { intros p o' Hp Ho'. apply K3; [done|]. by apply Hobj. }
  split; [destruct St as [_ _ _ R]; split; [done|done| |lia]|].
  { apply objs_threads. intros p o' Hp. apply K4. set_solver. }
  split; [done|]. split; [done|]. split; [done|]. split; [apply Hg|]. split; [apply Hg|].
  split; [rewrite length_app, length_drop; lia|]. by exists sp, bs.
Qed.

Lemma call_thread_create_spec loc s h sid o upcall :
  kinv loc s -> krefs loc s + 2 < 2 ^ 64 -> handle_of s h sid o ->
  exists r s', call_thread_create galloc h upcall s = Ret (r, s') /\ kstep 2 loc s s' /\
    runqueue s' = runqueue s /\ k_console (ext s') = k_console (ext s) /\ k_server (ext s') = k_server (ext s) /\
    k_mem (ext s') = k_mem (ext s) /\ objs_kept (loc ++ k_issued (ext s) ++ runqueue s ++ current_ref s) s s' /\
    match r with
    | Ok th => exists p, is_type h VmSpaceType = true /\ authorize h RIGHT_MAP = true /\
        handle_of s' th p (OThread (mkThread arch_thread_new upcall sid Blocked 0)) /\
        h_right th = Thread_DEFAULT_RIGHT /\ store s !! p = None /\
        k_issued (ext s') = p :: k_issued (ext s)
    | Err e => k_issued (ext s') = k_issued (ext s) /\
        if negb (is_type h VmSpaceType) then e = INVALID_TYPE
        else if negb (authorize h RIGHT_MAP) then e = NOT_ALLOWED else e = OUT_OF_MEMORY
    end.
Proof.
  intros Hi Hn Hh. unfold call_thread_create.
  destruct (borrow_spec loc s h sid o VmSpaceType RIGHT_MAP Hi ltac:(lia) Hh) as (s1 & E & Hs1).
  unfold bindr at 1. rewrite (bind_run _ _ _ _ _ E).
  assert (kstep 2 loc s s /\ objs_kept (loc ++ k_issued (ext s) ++ runqueue s ++ current_ref s) s s) as (? & ?).
  { split; [by apply (kstep_weaken 0), kstep_refl|]. by intros p o' _. }
  destruct (is_type h VmSpaceType) eqn:HT; cbn [negb andb] in *; [|subst s1; eexists _, s; by split_and!].
  destruct (authorize h RIGHT_MAP); cbn [negb] in *; [|subst s1; eexists _, s; by split_and!].
  destruct Hs1 as (Hi1 & Hr1 & [st1 ->] & Hobj). destruct (space_of loc s h sid o Hi Hh HT) as (sp & Hsp & ->).
  rewrite bind_get. unfold bindr, thread_new. set (t := mkThread arch_thread_new upcall sid Blocked 0).
  destruct (galloc (store (set_store s st1))) as [p|] eqn:Hg.
  2: { destruct (drop_local loc _ sid Hi1) as (st3 & E3 & I3 & R3 & K3).
       assert (objs_kept (loc ++ k_issued (ext s) ++ runqueue s ++ current_ref s) s (set_store (set_store s st1) st3)) as K4.
       { intros p o' Hp Ho'. apply K3; [done|]. by apply Hobj. }
       rewrite (bind_run _ _ _ (Err OUT_OF_MEMORY) (set_store (set_store s st1) st3)).
       2: { unfold on_store in *. cbn [sref_new obj_refs KObject_object t t_vmspace for_each]. unfold bind.
            destruct (sref_drop sid _) as [[u st]| | |]; try done. cbn. unfold ret. congruence. }
       eexists _, _. split; [reflexivity|]. split; [|done]. split; [done|done| |lia].
       apply objs_threads. intros p o' Hp. apply K4. set_solver. }
  destruct (Hgalloc _ _ Hg) as [Hp Hp0]. destruct (kinv_mem _ _ Hi1) as [_ Hl1].
  destruct (proj2 (Hobj sid _) (proj1 (proj2 (proj2 Hh)))) as [c Ec].
  destruct (give_new_spec loc (set_store s st1) p (OThread t) ThreadType Thread_DEFAULT_RIGHT)
    as (th & s' & E' & Hi' & Hc' & Hr' & Hth & Hright & Hx & Hst & Hq); try done.
  { intros q rc ->%list_elem_of_singleton Eq. simpl t_vmspace in Eq. rewrite Ec in Eq. injection Eq as <-. simpl. lia. }
  { intros t' [= <-]. split; [done|]. split; [done|]. by exists c, (vs_arch sp), (m_vmarea <$> mappings sp). }
  { split; [intros q cq..|by apply (nonnull_insert _ (k_mem (ext s)))].
    - intros Eq. apply lookup_insert_Some in Eq as [[_ ?]|[_ Eq]]; [done|by eapply (lk_area _ _ Hl1)].
    - intros a l Eq. apply lookup_insert_Some in Eq as [[_ ?]|[_ Eq]]; [done|by eapply (lk_space _ _ Hl1)]. }
  rewrite (bind_run _ _ _ _ _ (new_run _ p (OThread t))), (bind_run _ _ _ _ _ E').
  assert (forall q o', obj_at s q o' -> obj_at s' q o') as Hk.
  { intros q o' Ho'. apply (new_objs (set_store s st1) s' p (OThread t)); [done|done|by apply Hobj]. }
  eexists (Ok th), s'. split; [reflexivity|]. rewrite Hx. split; [split; [done|done| |]|].
  - apply objs_threads. by intros q o' _; apply Hk.
  - rewrite Hr'. cbn [obj_refs KObject_object t t_vmspace app]. lia.
  - split; [done|]. split; [done|]. split; [done|]. split; [done|]. split; [by intros q o' _; apply Hk|].
    exists p. split_and!; try done. destruct (store s !! p) as [[cp op]|] eqn:Ep; [|done].
    destruct (proj2 (Hobj p op) (ex_intro _ cp Ep)) as [c' Ep']. congruence.
Qed.

Lemma thread_of s h r o : handle_of s h r o -> is_type h ThreadType = true -> exists t, o = OThread t /\ thread_at s r t.
Proof.
  intros Hh HT. pose proof (handle_type _ _ _ _ _ Hh HT) as Ho. destruct o as [| |t]; try done.
  exists t. split; [done|apply Hh].
Qed.

Lemma call_thread_get_context_spec loc s h r o kind regs :
  kinv loc s -> krefs loc s + 1 < 2 ^ 64 -> handle_of s h r o ->
  exists res s', call_thread_get_context h kind regs s = Ret (res, s') /\ kstep 0 loc s s' /\
    runqueue s' = runqueue s /\ ext s' = ext s /\ objs_kept (loc ++ k_issued (ext s) ++ runqueue s ++ current_ref s) s s' /\
    checked h ThreadType RIGHT_READ res s s' (exists t, o = OThread t /\
      res = if bool_decide (t_state t = Blocked) then Ok (arch_read_context (t_arch t) kind regs) else Err INVALID_STATE).
Proof.
  intros Hi Hn Hh. unfold checked.
  destruct (with_ref_spec 0 loc s h r o ThreadType RIGHT_READ (fun r => read_context r kind regs)
    (fun res s2 => exists st t, s2 = set_store s st /\ (forall p o', obj_at s p o' -> obj_at s2 p o') /\ o = OThread t /\
      res = if bool_decide (t_state t = Blocked) then Ok (arch_read_context (t_arch t) kind regs) else Err INVALID_STATE))
    as (res & s' & E & St & Hr); [done|lia|lia|done| |].
  - intros s1 HT Hi1 Hr1 [st1 ->] Hobj. destruct (thread_of _ _ _ _ Hh HT) as (t & -> & Ht).
    assert (thread_at (set_store s st1) r t) as Ht1 by (by apply (Hobj r (OThread t))).
    exists (if bool_decide (t_state t = Blocked) then Ok (arch_read_context (t_arch t) kind regs)
            else Err INVALID_STATE), (set_store s st1). split.
    { unfold read_context. rewrite (bind_run _ _ _ _ _ (thread_ref_run _ r t Ht1)).
      by destruct (bool_decide (t_state t = Blocked)). }
    split; [by apply kstep_refl|]. exists st1, t. split; [done|]. by split; [intros p o' Ho'; apply Hobj|].
  - exists res, s'. split; [exact E|]. split; [done|].
    destruct (negb (is_type h ThreadType)); [destruct Hr as [-> ->]; by repeat split; intros p o' _|].
    destruct (negb (authorize h RIGHT_READ)); [destruct Hr as [-> ->]; by repeat split; intros p o' _|].
    destruct Hr as (s2 & st & (st1 & t & -> & Hobj & -> & Hres) & -> & Hkept). split; [done|]. split; [done|].
    split; [|by exists t]. intros p o' Hp Ho'. apply Hkept; [done|]. by apply Hobj.
Qed.

(** A change of the saved registers. *)
Definition with_arch (t : Thread) (a : ArchThread) : Thread :=
  mkThread a (t_upcall t) (t_vmspace t) (t_state t) (in_upcalls t).

Lemma write_context_step loc s r t kind regs a :
  kinv loc s -> thread_at s r t -> arch_write_context (t_arch t) kind regs = Ret a ->
  exists s', write_context r kind regs s =
      Ret (if bool_decide (t_state t = Blocked) then Ok tt else Err INVALID_STATE, s') /\
    kstep 0 loc s s' /\ runqueue s' = runqueue s /\ ext s' = ext s /\
    (forall p o, obj_at s p o -> obj_at s' p
      (if bool_decide (p = r) && bool_decide (t_state t = Blocked) then OThread (with_arch t a) else o)).
Proof.
  intros Hi Ht Ha. unfold write_context. rewrite (bind_run _ _ _ _ _ (thread_ref_run s r t Ht)).
  destruct (decide (t_state t = Blocked)) as [Hb|Hb].
  2: { rewrite (bool_decide_eq_false_2 _ Hb). exists s. split; [done|]. split; [by apply kstep_refl|].
       split; [done|]. split; [done|]. intros p o. by rewrite andb_false_r. }
  rewrite (bool_decide_eq_true_2 _ Hb). cbn [negb]. rewrite (bind_lift _ _ _ _ Ha).
  destruct (id Ht) as [c Et]. rewrite (bind_run _ _ _ _ _ (thread_put_run s r c t _ Et)).
  fold (with_arch t a). eexists. split; [reflexivity|].
  assert (forall p o, obj_at s p o -> obj_at (set_store s (<[r := mkRefCounted c (OThread (with_arch t a))]> (store s))) p
    (if bool_decide (p = r) && true then OThread (with_arch t a) else o)) as Hobj.
  { intros p o [cp Ep]. unfold obj_at. cbn [store set_store]. destruct (decide (p = r)) as [->|Hne].
    - rewrite bool_decide_true, lookup_insert_eq by done. eauto.
    - rewrite bool_decide_false, lookup_insert_ne by done. eauto. }
  split; [|done]. split; [|done| |].
  - apply (sys_inv_put_here _ [] s r c t); try done; [|by left]. exact (si_upcalls _ _ _ Hi r t Ht).
  - intros x tx _ Hx. destruct (decide (x = r)) as [->|Hne].
    + rewrite (thread_at_inj _ _ _ _ Hx Ht). exists (with_arch t a). split; [|done].
      pose proof (Hobj r _ Ht) as Hr. by rewrite bool_decide_true in Hr.
    + exists tx. split; [|done]. pose proof (Hobj x _ Hx) as Hr. by rewrite bool_decide_false in Hr.
  - unfold krefs. cbn [ext set_store]. rewrite (total_refs_put _ s r c t) by done. lia.
Qed.

Lemma call_thread_set_context_spec loc s h r o kind regs :
  kinv loc s -> krefs loc s + 1 < 2 ^ 64 -> handle_of s h r o ->
  (forall t, exists a, arch_write_context t kind regs = Ret a) ->
  exists res s', call_thread_set_context h kind regs s = Ret (res, s') /\ kstep 0 loc s s' /\
    runqueue s' = runqueue s /\ ext s' = ext s /\
    checked h ThreadType RIGHT_WRITE res s s' (exists t a, o = OThread t /\
      arch_write_context (t_arch t) kind regs = Ret a /\
      res = (if bool_decide (t_state t = Blocked) then Ok tt else Err INVALID_STATE) /\
      forall p o', p ∈ loc ++ k_issued (ext s) ++ runqueue s ++ current_ref s -> obj_at s p o' -> obj_at s' p
        (if bool_decide (p = r) && bool_decide (t_state t = Blocked) then OThread (with_arch t a) else o')).
Proof.
  intros Hi Hn Hh Hregs. unfold checked.
  destruct (with_ref_spec 0 loc s h r o ThreadType RIGHT_WRITE (fun r => write_context r kind regs)
    (fun res s2 => runqueue s2 = runqueue s /\ ext s2 = ext s /\ exists t a, o = OThread t /\
      arch_write_context (t_arch t) kind regs = Ret a /\
      res = (if bool_decide (t_state t = Blocked) then Ok tt else Err INVALID_STATE) /\
      forall p o', obj_at s p o' -> obj_at s2 p
        (if bool_decide (p = r) && bool_decide (t_state t = Blocked) then OThread (with_arch t a) else o')))
    as (res & s' & E & St & Hr); [done|lia|lia|done| |].
  - intros s1 HT Hi1 Hr1 [st1 ->] Hobj. destruct (thread_of _ _ _ _ Hh HT) as (t & -> & Ht).
    assert (thread_at (set_store s st1) r t) as Ht1 by (by apply (Hobj r (OThread t))).
    destruct (Hregs (t_arch t)) as [a Ha].
    destruct (write_context_step (r :: loc) _ r t kind regs a Hi1 Ht1 Ha) as (s2 & E & St & Hq & Hx & Hk).
    eexists _, s2. split; [exact E|]. split; [done|]. split; [done|]. split; [done|].
    exists t, a. split; [done|]. split; [done|]. split; [done|]. intros p o' Ho'. by apply Hk, Hobj.
  - exists res, s'. split; [exact E|]. split; [done|].
    destruct (negb (is_type h ThreadType)); [destruct Hr as [-> ->]; done|].
    destruct (negb (authorize h RIGHT_WRITE)); [destruct Hr as [-> ->]; done|].
    destruct Hr as (s2 & st & (Hq & Hx & t & a & -> & Ha & Hres & Hobj) & -> & Hkept). split; [done|]. split; [done|].
    exists t, a. split; [done|]. split; [done|]. split; [done|]. intros p o' Hp Ho'.
    rewrite Hx, Hq in Hkept. apply Hkept; [done|]. by apply Hobj.
Qed.

Lemma call_thread_unblock_spec loc s h r o :
  kinv loc s -> krefs loc s + 2 < 2 ^ 64 -> handle_of s h r o ->
  exists res s', call_thread_unblock try_reserve h s = Ret (res, s') /\ kstep 1 loc s s' /\ ext s' = ext s /\
    checked h ThreadType RIGHT_WRITE res s s' (exists t, o = OThread t /\
      let go := bool_decide (t_state t = Blocked) && try_reserve (store s) in
      res = (if negb (bool_decide (t_state t = Blocked)) then Err INVALID_STATE
             else if try_reserve (store s) then Ok tt else Err OUT_OF_MEMORY) /\
      runqueue s' = runqueue s ++ (if go then [r] else []) /\
      forall p o', p ∈ loc ++ k_issued (ext s) ++ runqueue s ++ current_ref s -> obj_at s p o' -> obj_at s' p
        (if bool_decide (p = r) && go then OThread (set_mutable t Runnable (in_upcalls t)) else o')).
Proof.
  clear galloc Hgalloc.
  intros Hi Hn Hh. unfold checked, call_thread_unblock. rewrite bind_get.
  destruct (with_ref_spec 1 loc s h r o ThreadType RIGHT_WRITE (fun r => unblock (try_reserve (store s)) r)
    (fun res s2 => ext s2 = ext s /\ exists t, o = OThread t /\
      let go := bool_decide (t_state t = Blocked) && try_reserve (store s) in
      res = (if negb (bool_decide (t_state t = Blocked)) then Err INVALID_STATE
             else if try_reserve (store s) then Ok tt else Err OUT_OF_MEMORY) /\
      runqueue s2 = runqueue s ++ (if go then [r] else []) /\
      forall p o', p ∈ loc ++ k_issued (ext s) ++ runqueue s ++ current_ref s -> obj_at s p o' -> obj_at s2 p
        (if bool_decide (p = r) && go then OThread (set_mutable t Runnable (in_upcalls t)) else o')))
    as (res & s' & E & St & Hr); [done|lia|lia|done| |].
  - intros s1 HT Hi1 Hr1 [st1 ->] Hobj. destruct (thread_of _ _ _ _ Hh HT) as (t & -> & Ht).
    assert (thread_at (set_store s st1) r t) as Ht1 by (by apply (Hobj r (OThread t))).
    destruct (unblock_spec ((r :: loc) ++ k_issued (ext s)) [] (set_store s st1) r t Hi1) with (reserve := try_reserve (store s))
      as (s2 & E & I2 & C2 & X2 & Q2 & R2 & K2); [set_solver|done| |].
    { intros rc Erc. pose proof (counter_le_total _ _ _ _ _ Hi1 Erc). unfold krefs in *.
      change (ext (set_store s st1)) with (ext s) in *. lia. }
    eexists _, s2. split; [exact E|]. split; [|split; [done|]].
    + split; [unfold kinv; by rewrite X2|done| |unfold krefs; rewrite X2; exact R2].
      intros x tx Hx [cx Ex]. destruct (K2 x cx _ ltac:(set_solver) Ex) as [c' E'].
      destruct (bool_decide (x = r) && bool_decide (t_state t = Blocked) && try_reserve (store s)) eqn:Hgo.
      * apply andb_true_iff in Hgo as [[->%bool_decide_eq_true Hbl]%andb_true_iff _].
        rewrite (thread_at_inj _ _ _ _ (ex_intro _ cx Ex) Ht1). eexists. split; [by exists c'|].
        apply bool_decide_eq_true in Hbl. split_and!; try done. congruence.
      * exists tx. split; [by exists c'|done].
    + exists t. split; [done|]. split; [done|]. split; [done|].
      intros p o' Hp Ho'. apply Hobj in Ho' as [cp Ep]. destruct (K2 p cp _ ltac:(set_solver) Ep) as [c' E'].
      exists c'. by rewrite andb_assoc.
  - exists res, s'. split; [exact E|]. split; [done|].
    destruct (negb (is_type h ThreadType)); [destruct Hr as [-> ->]; done|].
    destruct (negb (authorize h RIGHT_WRITE)); [destruct Hr as [-> ->]; done|].
    destruct Hr as (s2 & st & (Hx & t & -> & Hres & Hq & Hobj) & -> & Hkept). split; [done|].
    exists t. split; [done|]. split; [done|]. split; [done|]. intros p o' Hp Ho'.
    apply Hkept; [rewrite Hx, Hq; set_solver|]. by apply Hobj.
Qed.

Lemma call_thread_terminate_spec cost ready invoke loc s h r o :
  0 <= cost -> server_ok cost ready invoke ->
  kinv loc s -> krefs loc s + cost + 1 < 2 ^ 64 -> handle_of s h r o ->
  exists res s', call_thread_terminate invoke h s = Ret (res, s') /\ kstep cost loc s s' /\
    checked h ThreadType RIGHT_WRITE res s s' (exists t, o = OThread t /\
      res = if bool_decide (t_state t = Terminated) then Err INVALID_STATE else Ok tt).
Proof.
  intros H0' Hsrv Hi Hn Hh. unfold checked.
  destruct (with_ref_spec cost loc s h r o ThreadType RIGHT_WRITE (fun r => terminate invoke r)
    (fun res s2 => exists t, o = OThread t /\
      res = if bool_decide (t_state t = Terminated) then Err INVALID_STATE else Ok tt))
    as (res & s' & E & St & Hr); [done|lia|lia|done| |].
  - intros s1 HT Hi1 Hr1 [st1 ->] Hobj. destruct (thread_of _ _ _ _ Hh HT) as (t & -> & Ht).
    assert (thread_at (set_store s st1) r t) as Ht1 by (by apply (Hobj r (OThread t))).
    destruct (terminate_spec cost ready invoke H0' Hsrv (r :: loc) (set_store s st1) r t Hi1 ltac:(set_solver) Ht1)
      as (s2 & E & I2 & C2 & K2 & R2 & _); [change (krefs (r :: loc) (set_store s st1) + cost < 2 ^ 64); lia|].
    eexists _, s2. split; [exact E|]. split; [by split|]. by exists t.
  - exists res, s'. split; [exact E|]. split; [done|].
    destruct (negb (is_type h ThreadType)); [done|]. destruct (negb (authorize h RIGHT_WRITE)); [done|].
    by destruct Hr as (s2 & st & Hres & _).
Qed.

(** Terminating a thread that an upcall is using: nothing is called back. *)
Lemma terminate_busy_step invoke loc s r t :
  kinv loc s -> thread_at s r t -> t_state t <> Terminated -> 0 < in_upcalls t ->
  exists s', terminate invoke r s = Ret (Ok tt, s') /\ kstep 0 loc s s' /\ runqueue s' = runqueue s /\ ext s' = ext s /\
    (forall p o, obj_at s p o -> obj_at s' p
      (if bool_decide (p = r) then OThread (set_mutable t Terminated (in_upcalls t)) else o)).
Proof.
  intros Hi Ht Hst Hup. unfold terminate, request_terminate. rewrite (bind_run _ _ _ _ _ (thread_ref_run s r t Ht)).
  rewrite bool_decide_false by done. destruct (id Ht) as [c Et].
  rewrite (bind_run _ _ _ _ _ (thread_put_run s r c t _ Et)), (proj2 (Z.eqb_neq _ _)), bind_ret by lia.
  set (t' := set_mutable t Terminated (in_upcalls t)). eexists. split; [reflexivity|].
  assert (forall p o, obj_at s p o -> obj_at (set_store s (<[r := mkRefCounted c (OThread t')]> (store s))) p
    (if bool_decide (p = r) then OThread t' else o)) as Hobj.
  { intros p o [cp Ep]. unfold obj_at. cbn [store set_store]. destruct (decide (p = r)) as [->|Hne].
    - rewrite bool_decide_true, lookup_insert_eq by done. eauto.
    - rewrite bool_decide_false, lookup_insert_ne by done. eauto. }
  split; [|done]. split; [|done| |].
  - apply (sys_inv_put_here _ [] s r c t); try done; [| |by right].
    + exact (si_upcalls _ _ _ Hi r t Ht).
    + split_and!; [done..|]. intros _. by left.
  - intros x tx _ Hx. pose proof (Hobj x _ Hx) as Hx'. destruct (decide (x = r)) as [->|Hne].
    + rewrite (thread_at_inj _ _ _ _ Hx Ht). rewrite bool_decide_true in Hx' by done. by exists t'.
    + rewrite bool_decide_false in Hx' by done. by exists tx.
  - unfold krefs. cbn [ext set_store]. rewrite (total_refs_put _ s r c t) by done. lia.
Qed.

Lemma call_thread_terminate_busy_spec invoke loc s h r t :
  kinv loc s -> krefs loc s + 1 < 2 ^ 64 -> handle_of s h r (OThread t) -> authorize h RIGHT_WRITE = true ->
  t_state t <> Terminated -> 0 < in_upcalls t ->
  exists s', call_thread_terminate invoke h s = Ret (Ok tt, s') /\ kstep 0 loc s s' /\
    runqueue s' = runqueue s /\ ext s' = ext s /\
    (forall p o, p ∈ loc ++ k_issued (ext s) ++ runqueue s ++ current_ref s -> obj_at s p o -> obj_at s' p
      (if bool_decide (p = r) then OThread (set_mutable t Terminated (in_upcalls t)) else o)).
Proof.
  intros Hi Hn Hh Ha Hst Hup.
  destruct (with_ref_spec 0 loc s h r (OThread t) ThreadType RIGHT_WRITE (fun r => terminate invoke r)
    (fun res s2 => res = Ok tt /\ runqueue s2 = runqueue s /\ ext s2 = ext s /\ forall p o, obj_at s p o ->
      obj_at s2 p (if bool_decide (p = r) then OThread (set_mutable t Terminated (in_upcalls t)) else o)))
    as (res & s' & E & St & Hr); [done|lia|lia|done| |].
  - intros s1 _ Hi1 _ [st1 ->] Hobj.
    destruct (terminate_busy_step invoke (r :: loc) (set_store s st1) r t) as (s2 & E & St & Hq & Hx & Hk); [done| |done..|].
    { apply (Hobj r (OThread t)). apply Hh. }
    exists (Ok tt), s2. split; [done|]. split; [done|]. split; [done|]. split; [done|]. split; [done|].
    intros p o Ho. by apply Hk, Hobj.
  - assert (is_type h ThreadType = true) as HT by (apply bool_decide_eq_true; symmetry; apply Hh).
    rewrite HT, Ha in Hr. cbn [negb] in Hr. destruct Hr as (s2 & st & (-> & Hq & Hx & Hobj) & -> & Hkept).
    eexists. split; [exact E|]. split; [done|]. split; [done|]. split; [done|]. intros p o Hp Ho.
    apply Hkept; [by rewrite Hx, Hq|by apply Hobj].
Qed.

Lemma remove_first_perm r l : r ∈ l -> l ≡ₚ r :: remove_first r l.
Proof.
  clear galloc try_reserve Hgalloc.
  induction l as [|x l IH]; [by intros ?%not_elem_of_nil|]. simpl. intros Hr.
  destruct (Z.eqb_spec x r) as [->|Hne]; [done|].
  rewrite IH at 1 by set_solver. apply perm_swap.
Qed.

Lemma call_thread_destroy_spec loc s h r o :
  kinv loc s -> handle_of s h r o ->
  exists s', call_thread_destroy h s = Ret (if is_type h ThreadType then Ok tt else Err INVALID_TYPE, s') /\
    kstep 0 loc s s' /\ runqueue s' = runqueue s /\ k_mem (ext s') = k_mem (ext s) /\
    k_console (ext s') = k_console (ext s) /\ k_server (ext s') = k_server (ext s) /\
    k_issued (ext s') = (if is_type h ThreadType then remove_first r (k_issued (ext s)) else k_issued (ext s)) /\
    objs_kept (loc ++ k_issued (ext s') ++ runqueue s ++ current_ref s) s s'.
Proof.
  clear galloc try_reserve Hgalloc.
  intros Hi Hh. unfold call_thread_destroy, bindr, from_moved_handle.
  destruct (is_type h ThreadType) eqn:HT; cbn [negb].
  2: { exists s. split; [by destruct s|]. split; [by apply kstep_refl|]. repeat (split; [done|]). by intros p o' _. }
  rewrite (bind_run _ _ s (Ok r) s).
  2: { destruct Hh as (Hraw & _). unfold is_type in HT. apply bool_decide_eq_true in HT.
       rewrite HT in Hraw. unfold on_store, ret. rewrite Hraw. by destruct s. }
  rewrite (bind_run _ _ s tt (set_ext s (set_issued (ext s) (remove_first r (k_issued (ext s)))))) by reflexivity.
  set (s1 := set_ext s _). pose proof Hh as (_ & Hin & _). pose proof (remove_first_perm r _ Hin) as Hperm.
  assert (kinv (r :: loc) s1) as Hi1.
  { apply (sys_inv_set_ext _ s); [|apply (si_ext _ _ _ Hi)]. eapply sys_inv_perm; [|exact Hi].
    cbn [ext set_ext k_issued set_issued]. rewrite Hperm at 1. symmetry. apply Permutation_middle. }
  assert (krefs (r :: loc) s1 = krefs loc s) as Hr1.
  { unfold krefs, total_refs. cbn [ext set_ext k_issued set_issued store s1 runqueue].
    change (current_ref s1) with (current_ref s). rewrite !length_app. cbn [length].
    rewrite (Permutation_length Hperm). cbn [length]. lia. }
  destruct (drop_local loc s1 r Hi1) as (st & E3 & I3 & R3 & K3).
  rewrite (bind_run _ _ _ _ _ E3). eexists. split; [reflexivity|]. split; [split; [done|done| |lia]|].
  - apply (objs_threads loc s1). intros p o' Hp. apply K3. set_solver.
  - repeat (split; [done|]). exact K3.
Qed.

(** ** Any call *)

Lemma forget_run {A} (m : M KS A) s a s' : m s = Ret (a, s') -> forget m s = Ret (tt, s').
Proof. intros E. unfold forget. by rewrite (bind_run _ _ _ _ _ E). Qed.

Section AnyCall.
Context (cost : Z) (ready : Thread -> Prop) (invoke : Upcall -> UpcallArg -> M KS unit).
Context (Hcost : 0 <= cost) (Hserver : server_ok cost ready invoke).

Lemma make_call_spec loc s c :
  kinv loc s -> krefs loc s + cost + 2 < 2 ^ 64 -> call_pre s c ->
  exists s', make_call (START_INFO galloc try_reserve invoke) c s = Ret (tt, s') /\ kstep (cost + 2) loc s s'.
Proof.
  intros Hi Hn Hpre.
  assert (forall A (m : M KS A) n, n <= cost + 2 -> (exists a s', m s = Ret (a, s') /\ kstep n loc s s') ->
    exists s', forget m s = Ret (tt, s') /\ kstep (cost + 2) loc s s') as Hwrap.
  { intros A m n Hle (a & s' & E & St). exists s'. split; [by eapply forget_run|by apply (kstep_weaken n)]. }
  destruct c; cbn [make_call START_INFO si_malloc si_print si_vmspace_create si_vmarea_allocate si_vmarea_write
    si_vmspace_map si_vmspace_read si_thread_create si_thread_get_context si_thread_set_context si_thread_unblock
    si_thread_terminate si_thread_destroy]; cbn [call_pre] in Hpre.
  - destruct (call_malloc_spec loc s size Hi) as (r & k & E & St); [apply Hpre..|]. apply (Hwrap _ _ 0); [lia|]. eauto.
  - destruct (call_print_spec loc s bytes Hi) as (s' & E & St & _). apply (Hwrap _ _ 0); [lia|]. eauto.
  - destruct (call_vmspace_create_spec loc s Hi) as (r & s' & E & St & _). apply (Hwrap _ _ 1); [lia|]. eauto.
  - destruct (call_vmarea_allocate_spec loc s len Hi Hpre) as (r & s' & E & St & _). apply (Hwrap _ _ 1); [lia|]. eauto.
  - destruct Hpre as ((r & o & Hh) & Ho & Hb).
    destruct (call_vmarea_write_spec loc s vmarea r o offset data Hi ltac:(lia) Hh Hb Ho) as (x & s' & E & St & _).
    apply (Hwrap _ _ 0); [lia|]. eauto.
  - destruct Hpre as ((r & o & Hh) & (r' & o' & Hh') & Hu & Hat & Hr).
    destruct (call_vmspace_map_spec loc s vmspace r o vmarea r' o' uaddr attrs Hi ltac:(lia) Hh Hh' Hu)
      as (x & s' & E & St & _); [by apply attrs_built_bound| |apply (Hwrap _ _ 1); [lia|]; eauto].
    intros a -> Ha. apply (Hr r' a); [|done]. destruct Hh' as (Hraw & _ & _ & Ht). by rewrite <- Ht in Hraw.
  - destruct Hpre as ((r & o & Hh) & Hu).
    destruct (call_vmspace_read_spec loc s vmspace r o uaddr buf Hi ltac:(lia) Hh Hu) as (x & y & s' & E & St & _).
    apply (Hwrap _ _ 0); [lia|]. eauto.
  - destruct Hpre as (r & o & Hh).
    destruct (call_thread_create_spec loc s vmspace r o upcall Hi ltac:(lia) Hh) as (x & s' & E & St & _).
    apply (Hwrap _ _ 2); [lia|]. eauto.
  - destruct Hpre as (r & o & Hh).
    destruct (call_thread_get_context_spec loc s thread r o kind regs Hi ltac:(lia) Hh) as (x & s' & E & St & _).
    apply (Hwrap _ _ 0); [lia|]. eauto.
  - destruct Hpre as ((r & o & Hh) & Hregs).
    destruct (call_thread_set_context_spec loc s thread r o kind regs Hi ltac:(lia) Hh Hregs) as (x & s' & E & St & _).
    apply (Hwrap _ _ 0); [lia|]. eauto.
  - destruct Hpre as (r & o & Hh).
    destruct (call_thread_unblock_spec loc s thread r o Hi ltac:(lia) Hh) as (x & s' & E & St & _).
    apply (Hwrap _ _ 1); [lia|]. eauto.
  - destruct Hpre as (r & o & Hh).
    destruct (call_thread_terminate_spec cost ready invoke loc s thread r o Hcost Hserver Hi ltac:(lia) Hh) as (x & s' & E & St & _).
    apply (Hwrap _ _ cost); [lia|]. eauto.
  - destruct Hpre as (r & o & Hh).
    destruct (call_thread_destroy_spec loc s thread r o Hi Hh) as (s' & E & St & _).
    apply (Hwrap _ _ 0); [lia|]. eauto.
Qed.

Lemma make_calls_spec cs : forall loc s,
  kinv loc s -> krefs loc s + (cost + 2) * len cs < 2 ^ 64 ->
  calls_ok (START_INFO galloc try_reserve invoke) s cs ->
  exists s', for_each (make_call (START_INFO galloc try_reserve invoke)) cs s = Ret (tt, s') /\
    kstep ((cost + 2) * len cs) loc s s'.
Proof.
  induction cs as [|c cs IH]; intros loc s Hi Hn Hok.
  - exists s. split; [done|]. apply (kstep_weaken 0); [simpl; lia|by apply kstep_refl].
  - inversion Hok as [|? ? ? Hpre Hrest]; subst. cbn [length] in Hn. rewrite Nat2Z.inj_succ in Hn.
    destruct (make_call_spec loc s c Hi ltac:(nia) Hpre) as (s1 & E & St).
    destruct (IH loc s1) as (s2 & E2 & St2); [apply St|destruct St; nia|by apply Hrest|].
    exists s2. split; [cbn [for_each]; by rewrite (bind_run _ _ _ _ _ E)|].
    cbn [length]. rewrite Nat2Z.inj_succ. replace (_ * Z.succ _) with ((cost + 2) + (cost + 2) * len cs) by lia.
    by eapply kstep_trans.
Qed.

End AnyCall.

End WithHeap.
End KernelSteps.

(** * Theorems *)

Section Theorems.
Context {P : Profile} {L : RefLayout} {B : BootPdpt} {Mc Sv : Type} `{MachineLaws Mc}.

(** C5: The kernel survives its servers.  Whatever kernel calls a server makes
    through [START_INFO], in whatever order, with the handles that it was given
    (of any type and rights) and arguments in range, every one of them returns:
    none panics, touches freed memory or hangs.  Afterwards every reference
    count is exact again, the areas, address spaces and page tables are those
    of live objects and separate from each other, the current thread is the
    same, and at most [cost + 2] references were made per call, where [cost]
    bounds those of an upcall. *)
Theorem start_info_calls_safe (galloc : RefStore KObject -> option Z) (try_reserve : RefStore KObject -> bool)
    (cost : Z) (ready : Thread -> Prop) (invoke : Upcall -> UpcallArg -> M (Sys (Kernel Mc Sv)) unit)
    (s : Sys (Kernel Mc Sv)) (cs : list ServerCall) :
  alloc_fresh galloc -> 0 <= cost -> server_ok cost ready invoke ->
  kinv [] s -> krefs [] s + (cost + 2) * len cs < 2 ^ 64 ->
  calls_ok (START_INFO galloc try_reserve invoke) s cs ->
  exists s', for_each (make_call (START_INFO galloc try_reserve invoke)) cs s = Ret (tt, s') /\
    kinv [] s' /\ current s' = current s /\ krefs [] s' <= krefs [] s + (cost + 2) * len cs.
Proof.
  intros Hg Hc Hsv Hi Hn Hok.
  destruct (make_calls_spec galloc try_reserve Hg cost ready invoke Hc Hsv cs [] s Hi Hn Hok) as (s' & E & [? ? _ ?]).
  by exists s'.
Qed.

End Theorems.

(** ** Witness: a server with a handle to an area of one page *)

Section Witness.
#[local] Existing Instance dev.
#[local] Instance server_layout : RefLayout := {| value_offset _ := 8 |}.
#[local] Instance server_pdpt : BootPdpt := {| KERNEL_IMAGE := example_image |}.

Definition example_server_sys : Sys (Kernel Phys unit) :=
  mkSys {[ 0x5000 := mkRefCounted 1 OArea ]} [] None 0 (mkKernel example_kernel_state [0x5000] [] tt).

Definition example_handle : Handle := mkHandle (0x5000 + 8) VmAreaType VmArea_DEFAULT_RIGHT.

Lemma example_server_inv : kinv [] example_server_sys.
Proof.
  apply sys_check_ok; [vm_compute; reflexivity|]. split; [apply example_kernel_inv|]. split.
  - intros p c E. cbn [example_server_sys store] in E. apply lookup_singleton_Some in E as [<- _]. exists page_area. reflexivity.
  - intros p c a l E. cbn [example_server_sys store] in E. apply lookup_singleton_Some in E as [_ [=]].
  - intros p rc E. cbn [example_server_sys store] in E. apply lookup_singleton_Some in E as [<- _]. reflexivity.
Qed.

Lemma start_info_calls_safe_witness :
  exists s', for_each (make_call (START_INFO (fun st => if st !! 0x6000 is Some _ then None else Some 0x6000) (fun _ => true)
      (fun _ _ => ret tt)))
    [CVmareaWrite example_handle 16 [1; 2; 3]; CVmspaceCreate; CPrint [104; 105]] example_server_sys = Ret (tt, s') /\
    kinv [] s'.
Proof.
  destruct (start_info_calls_safe (fun st => if st !! 0x6000 is Some _ then None else Some 0x6000) (fun _ => true)
    0 (fun _ => True) (fun _ _ => ret tt) example_server_sys
    [CVmareaWrite example_handle 16 [1; 2; 3]; CVmspaceCreate; CPrint [104; 105]]) as (s' & E & Hi & _).
  - intros st p. destruct (st !! 0x6000) eqn:E; intros [= <-]. split; [exact E|reflexivity].
  - lia.
  - intros ctx arg x loc s Hi _ _ _. exists s. split; [reflexivity|]. split; [exact Hi|].
    split; [reflexivity|]. split; [|lia]. intros r t _ Ht. exists t. repeat split; done.
  - apply example_server_inv.
  - vm_compute. reflexivity.
  - apply calls_cons.
    + split; [|split; [lia|]].
      * exists 0x5000, OArea. split; [reflexivity|]. split; [apply list_elem_of_here|].
        split; [exists 1; reflexivity|reflexivity].
      * repeat constructor; lia.
    + intros s1 _. apply calls_cons; [exact I|]. intros s2 _. apply calls_cons; [exact I|].
      intros s3 _. apply calls_nil.
  - exists s'. split; [exact E|exact Hi].
Defined.

End Witness.
