(* ===== verification/ServerApi.v ===== *)
(** * libs/rust/ftl_api: the server's side of kernel calls and upcalls

    The wrappers that servers use (vmspace.rs, vmarea.rs, thread.rs), the data
    that an upcall finds (upcall.rs) and the printing macros (print.rs), written
    against any table of kernel calls. *)

From Stdlib Require Import String.
From S2P Require Import Prelude Bytes Api Bump Machine Memory VmArea PageTable VmSpace SharedRef X64Context Thread.
From S2P Require Import Text StartInfo Server.

(** [UserData<Arc<Thread>, H>]: [ud_object] is the address of the [Arc]. *)
Record UserData (H : Type) : Type := mkUserData { ud_object : Z; ud_handler : H }.
Arguments mkUserData {H} _ _.
Arguments ud_object {H} _.
Arguments ud_handler {H} _.

(** The memory of a server: the boxes that upcall contexts point to, which are
    allocated before they are initialised ([None]); the [Arc<Thread>]s, with
    their strong counts; and what the server itself keeps. *)
Record ApiMem (H Sv : Type) : Type := mkApiMem {
  user_data : gmap Z (option (UserData H));
  thread_arcs : gmap Z (Z * Handle);
  server_data : Sv
}.
Arguments mkApiMem {H Sv} _ _ _.
Arguments user_data {H Sv} _.
Arguments thread_arcs {H Sv} _.
Arguments server_data {H Sv} _.

(** [impl Handler for H]. *)
Record Handler (H St : Type) : Type := mkHandler {
  h_syscall : H -> Handle -> M St unit;
  h_terminated : H -> Handle -> M St unit
}.
Arguments mkHandler {H St} _ _.
Arguments h_syscall {H St} _ _ _.
Arguments h_terminated {H St} _ _ _.

Section ServerApi.
Context {Mc H Sv : Type}.
Abbreviation St := (Sys (Kernel Mc (ApiMem H Sv))).
Abbreviation SM := (M St).

Definition server_mem (s : St) : ApiMem H Sv := k_server (ext s).
Definition set_server (s : St) (m : ApiMem H Sv) : St :=
  set_ext s (mkKernel (k_mem (ext s)) (k_issued (ext s)) (k_console (ext s)) m).

Definition mem_get : SM (ApiMem H Sv) := fun s => Ret (server_mem s, s).
Definition mem_put (m : ApiMem H Sv) : SM unit := fun s => Ret (tt, set_server s m).

Definition put_user_data (ptr : Z) (u : option (UserData H)) : SM unit :=
  do* m := mem_get in
  mem_put (mkApiMem (<[ptr := u]> (user_data m)) (thread_arcs m) (server_data m)).
Definition free_user_data (ptr : Z) : SM unit :=
  do* m := mem_get in
  mem_put (mkApiMem (delete ptr (user_data m)) (thread_arcs m) (server_data m)).
Definition put_arc (ptr : Z) (a : Z * Handle) : SM unit :=
  do* m := mem_get in
  mem_put (mkApiMem (user_data m) (<[ptr := a]> (thread_arcs m)) (server_data m)).
Definition free_arc (ptr : Z) : SM unit :=
  do* m := mem_get in
  mem_put (mkApiMem (user_data m) (delete ptr (thread_arcs m)) (server_data m)).

(** [si]: the table the server was started with.  [FTL_LOG_PREFIX]: set when
    the server is built.  [box]: the address that the server's heap gives to a
    new box; when memory runs out, [Box::new] aborts. *)
Context (si : StartInfo St) (FTL_LOG_PREFIX : list Z) (box : ApiMem H Sv -> option Z).

Definition box_new : SM Z :=
  do* m := mem_get in
  match box m with
  | Some p => ret p
  | None => lift Panic
  end.

(** ** print.rs.  The macros write the pieces of a line one after the other. *)

Definition print_str (s : list Z) : SM unit := si_print si s.
Definition println (text : list Z) : SM unit := print_str (FTL_LOG_PREFIX ++ text ++ [10]).
Definition ESC (s : string) : list Z := 27 :: str s.
Definition server_write_str (s : list Z) : SM unit := print_str s.
Definition info (text : list Z) : SM unit := println text.
Definition warn (text : list Z) : SM unit := println (ESC "[33mWARN" ++ ESC "[0m " ++ text).
Definition error (text : list Z) : SM unit := println (ESC "[31mERROR" ++ ESC "[0m " ++ text).
Definition trace (text : list Z) : SM unit := println text.

(** panic.rs; [text] is the [PanicInfo].  The loop at the end does not end. *)
Definition server_panic (text : list Z) : SM unit :=
  do* _ := error (str "server panic: " ++ text) in
  do* _ := si_panic si in
  lift Hang.

(** ** vmspace.rs and vmarea.rs.  The structs only hold a handle. *)

Definition VmSpace_create : SM (result ErrorCode Handle) := si_vmspace_create si.
Definition VmSpace_map (self vmarea : Handle) (uaddr : Z) (attrs : PageAttrs) : SM (result ErrorCode unit) :=
  si_vmspace_map si self vmarea uaddr attrs.
Definition VmSpace_read_bytes (self : Handle) (uaddr : Z) (buf : list Z) : SM (result ErrorCode unit * list Z) :=
  si_vmspace_read si self uaddr buf.
Definition VmArea_allocate (len : Z) : SM (result ErrorCode Handle) := si_vmarea_allocate si len.
Definition VmArea_write (self : Handle) (offset : Z) (data : list Z) : SM (result ErrorCode unit) :=
  si_vmarea_write si self offset data.

(** ** thread.rs *)

Definition Thread_get_context (self : Handle) (kind : ContextKind) (regs : ContextData)
  : SM (result ErrorCode ContextData) := si_thread_get_context si self kind regs.
Definition Thread_set_context (self : Handle) (kind : ContextKind) (regs : ContextData) : SM (result ErrorCode unit) :=
  si_thread_set_context si self kind regs.
Definition Thread_unblock (self : Handle) : SM (result ErrorCode unit) := si_thread_unblock si self.
Definition Thread_terminate (self : Handle) : SM (result ErrorCode unit) := si_thread_terminate si self.

(** [Drop for Thread]. *)
Definition Thread_drop (self : Handle) : SM unit :=
  do* r := si_thread_destroy si self in
  match r with
  | Ok _ => ret tt
  | Err err => error (str "failed to destroy thread: " ++ error_debug err)
  end.

(** [Arc<Thread>]: [clone] aborts when the count would not fit in [isize]; the
    last [drop] drops the thread. *)
Definition arc_new (handle : Handle) : SM Z :=
  do* p := box_new in
  do* _ := put_arc p (1, handle) in
  ret p.
Definition arc_get (p : Z) : SM (Z * Handle) :=
  do* m := mem_get in
  match thread_arcs m !! p with
  | Some a => ret a
  | None => lift Undef
  end.
Definition arc_clone (p : Z) : SM Z :=
  do* (n, handle) := arc_get p in
  if 2 ^ 63 <=? n then lift Panic
  else do* _ := put_arc p (n + 1, handle) in ret p.
Definition arc_drop (p : Z) : SM unit :=
  do* (n, handle) := arc_get p in
  if n =? 1 then
    do* _ := Thread_drop handle in free_arc p
  else put_arc p (n - 1, handle).

(** ** upcall.rs *)

Definition UserData_borrow (ctx : Z) : SM (UserData H) :=
  do* m := mem_get in
  match user_data m !! ctx with
  | Some (Some u) => ret u
  | _ => lift Undef
  end.

Definition UserData_reclaim (ctx : Z) : SM (UserData H) :=
  do* u := UserData_borrow ctx in
  do* _ := free_user_data ctx in
  ret u.

(** [Upcall::new]: the object is created with a pointer to data that are filled
    in afterwards. *)
Definition Upcall_new (handler : H) (ctor : Upcall -> SM (result ErrorCode Z)) : SM (result ErrorCode Z) :=
  do* ptr := box_new in
  do* _ := put_user_data ptr None in
  do* r := ctor ptr in
  match r with
  | Err err => do* _ := free_user_data ptr in ret (Err err)
  | Ok ctx =>
      do* object := arc_clone ctx in
      do* _ := put_user_data ptr (Some (mkUserData object handler)) in
      ret (Ok ctx)
  end.

Definition Thread_create (vmspace : Handle) (handler : H) : SM (result ErrorCode Z) :=
  Upcall_new handler (fun upcall =>
    do? handle := si_thread_create si vmspace upcall in
    do* p := arc_new handle in
    ret (Ok p)).

(** [upcall_entry::<H>], which [Upcall::invoke] calls.  The data of a [Terminated]
    upcall are dropped when the handler returns. *)
Definition upcall_entry (handler : Handler H St) (ctx : Upcall) (arg : UpcallArg) : SM unit :=
  match arg with
  | UpSyscall =>
      do* user_data := UserData_borrow ctx in
      do* (_, thread) := arc_get (ud_object user_data) in
      h_syscall handler (ud_handler user_data) thread
  | UpTerminated =>
      do* user_data := UserData_reclaim ctx in
      do* (_, thread) := arc_get (ud_object user_data) in
      do* _ := h_terminated handler (ud_handler user_data) thread in
      arc_drop (ud_object user_data)
  end.

(** * Lemmas *)

Lemma borrow_run (s : St) ctx u : user_data (server_mem s) !! ctx = Some (Some u) -> UserData_borrow ctx s = Ret (u, s).
Proof. intros E. unfold UserData_borrow, bind, mem_get. by rewrite E. Qed.

Lemma arc_get_run (s : St) p a : thread_arcs (server_mem s) !! p = Some a -> arc_get p s = Ret (a, s).
Proof. intros E. unfold arc_get, bind, mem_get. by rewrite E. Qed.

End ServerApi.

Section ServerSteps.
Context {P : Profile} {L : RefLayout} {B : BootPdpt} {Mc H Sv : Type} `{MachineLaws Mc}.
Abbreviation St := (Sys (Kernel Mc (ApiMem H Sv))).
Implicit Types s : St.

(** A panic of a server is a panic of the kernel. *)
Lemma server_panic_stops galloc try_reserve invoke prefix text s :
  server_panic (START_INFO galloc try_reserve invoke) prefix text s = Panic.
Proof. done. Qed.

(** The server changes its own memory. *)
Lemma set_server_step loc s m : kinv loc s -> kstep 0 loc s (set_server s m).
Proof.
  intros Hi. split.
  - by apply sys_inv_set_ext, (si_ext _ _ _ Hi).
  - done.
  - intros r t _ Ht. by exists t.
  - rewrite Z.add_0_r. apply Z.eq_le_incl. reflexivity.
Qed.

Lemma remove_first_other x r l : x ∈ l -> x <> r -> x ∈ remove_first r l.
Proof.
  intros Hx Hne. induction l as [|y l IH]; [by apply not_elem_of_nil in Hx|]. simpl.
  destruct (Z.eqb_spec y r) as [->|]; set_solver.
Qed.

Lemma remove_first_sub x r l : x ∈ remove_first r l -> x ∈ l.
Proof.
  induction l as [|y l IH]; [done|]. simpl. destruct (y =? r); set_solver.
Qed.

Section Dropping.
Context (galloc : RefStore KObject -> option Z) (try_reserve : RefStore KObject -> bool).
Context (invoke : Upcall -> UpcallArg -> M St unit) (FTL_LOG_PREFIX : list Z).
Abbreviation si := (START_INFO galloc try_reserve invoke).

(** Dropping an [Arc<Thread>]: the last drop destroys the handle. *)
Lemma arc_drop_spec loc s p n h r t :
  kinv loc s -> thread_arcs (server_mem s) !! p = Some (n, h) -> handle_of s h r (OThread t) ->
  exists s', arc_drop si FTL_LOG_PREFIX p s = Ret (tt, s') /\ kstep 0 loc s s' /\ runqueue s' = runqueue s /\
    k_issued (ext s') = (if n =? 1 then remove_first r (k_issued (ext s)) else k_issued (ext s)) /\
    server_mem s' = mkApiMem (user_data (server_mem s))
      (if n =? 1 then delete p (thread_arcs (server_mem s)) else <[p := (n - 1, h)]> (thread_arcs (server_mem s)))
      (server_data (server_mem s)) /\ k_console (ext s') = k_console (ext s) /\
    objs_kept (loc ++ k_issued (ext s') ++ runqueue s ++ current_ref s) s s'.
Proof.
  intros Hi Hp Hh. unfold arc_drop. rewrite (bind_run _ _ _ _ _ (arc_get_run s p _ Hp)).
  assert (is_type h ThreadType = true) as HT by (apply bool_decide_eq_true; symmetry; apply Hh).
  destruct (n =? 1).
  - destruct (call_thread_destroy_spec loc s h r (OThread t) Hi Hh) as (s1 & E & St & Hq & Hm & Hcon & Hsv & Hiss & Hobj).
    rewrite HT in E, Hiss. unfold Thread_drop.
    rewrite (bind_run _ _ _ tt s1) by (by rewrite (bind_run _ _ _ _ _ (E : si_thread_destroy si h s = _))).
    unfold free_arc. rewrite (bind_run mem_get _ s1 (server_mem s1) s1 eq_refl).
    assert (server_mem s1 = server_mem s) as Hsm by exact Hsv. rewrite Hsm.
    eexists. split; [reflexivity|]. split; [change 0 with (0 + 0); eapply kstep_trans; [exact St|apply set_server_step, St]|].
    split; [done|]. split; [done|]. split; [done|]. split; [done|]. exact Hobj.
  - unfold put_arc. rewrite (bind_run mem_get _ s (server_mem s) s eq_refl). eexists. split; [reflexivity|].
    split; [by apply set_server_step|]. split; [done|]. split; [done|]. split; [done|]. split; [done|]. by intros x o _.
Qed.

End Dropping.
End ServerSteps.
