(* ===== verification/Lx.v ===== *)
(** * servers/lx: Linux system calls

    The handlers of syscall.rs and errno.rs, and the upcall handler of
    process.rs that calls them.  Theorems about what a Linux program observes
    of a system call, and that the server keeps the rules of the kernel. *)

From Stdlib Require Import String.
From S2P Require Import Prelude Bytes Alignment Api Bump Machine Memory VmArea PageTable VmSpace SharedRef.
From S2P Require Import X64Context Thread Text StartInfo Server ServerApi.

(** ** errno.rs *)

Definition Errno := Z.
Definition EBADF : Errno := 9.
Definition EFAULT : Errno := 14.
Definition EINVAL : Errno := 22.
Definition ENOSYS : Errno := 38.
Definition to_retval (e : Errno) : Z := - e.

(** ** process.rs: data.  [p_threads] are the [Weak<Thread>]s. *)

Record Process : Set := mkProcess { p_vmspace : Handle; p_threads : list Z }.

(** [tc_process] is the address of the [Arc<Process>].  Processes are kept for
    ever by [Server::processes], so their counts are left out. *)
Record ThreadContext : Set := mkThreadContext { tc_process : Z }.

Record LxServer : Set := mkLxServer { lx_processes : gmap Z Process }.

(** ** syscall.rs *)

Definition SYS_WRITE : Z := 1.
Definition SYS_WRITEV : Z := 20.
Definition SYS_ARCH_PRCTL : Z := 158.
Definition SYS_EXIT : Z := 60.
Definition SYS_SET_TID_ADDRESS : Z := 218.
Definition SYS_EXIT_GROUP : Z := 231.
Definition ARCH_SET_FS : Z := 0x1002.

Record Iovec : Set := mkIovec { iov_base : Z; iov_len : Z }.

Inductive SyscallOutput : Set :=
| Done (r : result Errno Z)
| Exit.

(** [as isize] and [as usize]. *)
Definition as_isize (x : Z) : Z := to_signed 64 x.
Definition as_usize (x : Z) : Z := wrap 64 x.

Definition isize_add {P : Profile} (a b : Z) : outcome Z :=
  let r := a + b in
  if (- 2 ^ 63 <=? r) && (r <? 2 ^ 63) then Ret r
  else if overflow_checks then Panic else Ret (to_signed 64 (wrap 64 r)).

(** An array of [Iovec]s as bytes. *)
Fixpoint iovecs_of (n : nat) (bytes : list Z) : list Iovec :=
  match n with
  | O => []
  | S n => mkIovec (le_val (take 8 bytes)) (le_val (take 8 (drop 8 bytes))) :: iovecs_of n (drop 16 bytes)
  end.

Section Syscalls.
Context {P : Profile} {Mc : Type}.
Abbreviation LxMem := (ApiMem ThreadContext LxServer).
Abbreviation St := (Sys (Kernel Mc LxMem)).
Abbreviation SM := (M St).
Context (si : StartInfo St) (FTL_LOG_PREFIX : list Z).

Definition expect {A} (m : SM (result ErrorCode A)) : SM A :=
  do* r := m in
  match r with
  | Ok a => ret a
  | Err _ => lift Panic
  end.

(** The line that [sys_write] logs for a chunk. *)
Definition write_text (chunk : list Z) : list Z :=
  str "write: " ++ trim_ascii_end (if utf8_valid chunk then chunk else str "invalid utf8").

(** The loop of [sys_write].  Each turn takes up to 256 bytes. *)
Fixpoint write_chunks (fuel : nat) (vmspace : Handle) (uaddr remaining : Z) (chunk : list Z) : SM (result Errno unit) :=
  if remaining <=? 0 then ret (Ok tt)
  else match fuel with
       | O => lift Hang
       | S fuel =>
           let n := Z.min remaining (len chunk) in
           do* (r, buf) := VmSpace_read_bytes si vmspace uaddr (take (Z.to_nat n) chunk) in
           if is_err r then ret (Err EFAULT)
           else
             do* _ := info si FTL_LOG_PREFIX (write_text buf) in
             do* uaddr := lift (usize_add uaddr n) in
             do* remaining := lift (usize_sub remaining n) in
             write_chunks fuel vmspace uaddr remaining (buf ++ drop (Z.to_nat n) chunk)
       end.

Definition sys_write (process : Process) (fd uaddr count : Z) : SM (result Errno Z) :=
  if negb (fd =? 1) && negb (fd =? 2) then ret (Err EBADF)
  else
    let remaining := as_usize count in
    do? _ := write_chunks (Z.to_nat (remaining / 256 + 1)) (p_vmspace process) (as_usize uaddr) remaining
               (replicate 256 0) in
    ret (Ok count).

Fixpoint write_iovecs (process : Process) (fd total : Z) (iovecs : list Iovec) : SM (result Errno Z) :=
  match iovecs with
  | [] => ret (Ok total)
  | iovec :: iovecs =>
      do? n := sys_write process fd (as_isize (iov_base iovec)) (as_isize (iov_len iovec)) in
      do* total := lift (isize_add total n) in
      write_iovecs process fd total iovecs
  end.

(** [from_raw_parts_mut] on the array of 16 entries is only defined within it. *)
Definition sys_writev (process : Process) (fd iov_uaddr iovcnt : Z) : SM (result Errno Z) :=
  if negb (fd =? 1) && negb (fd =? 2) then ret (Err EBADF)
  else if 16 <? iovcnt then ret (Err EINVAL)
  else
    let iovecs_buf := replicate 256 0 in
    do* size := lift (usize_mul (as_usize iovcnt) 16) in
    if 256 <? size then lift Undef
    else
      do* (r, bytes) := VmSpace_read_bytes si (p_vmspace process) (as_usize iov_uaddr)
                          (take (Z.to_nat size) iovecs_buf) in
      if is_err r then ret (Err EFAULT)
      else
        do* iovecs := lift (slice_index (iovecs_of 16 (bytes ++ drop (Z.to_nat size) iovecs_buf)) 0 (as_usize iovcnt)) in
        write_iovecs process fd 0 iovecs.

Definition sys_arch_prctl (thread : Handle) (code addr : Z) : SM (result Errno Z) :=
  if code =? ARCH_SET_FS then
    do* r := Thread_set_context si thread KindFsbase (of_fsbase (mkFsBase (as_usize addr))) in
    if is_err r then ret (Err EINVAL) else ret (Ok 0)
  else ret (Err ENOSYS).

Definition lx_handle_syscall (process : Process) (thread : Handle) (args : SyscallArgs) : SM SyscallOutput :=
  if (sa_n args =? SYS_EXIT) || (sa_n args =? SYS_EXIT_GROUP) then
    do* _ := info si FTL_LOG_PREFIX (str "exited with code " ++ fmt_i32 (to_signed 32 (wrap 32 (arg0 args)))) in
    do* _ := expect (Thread_terminate si thread) in
    ret Exit
  else
    do* retval :=
      (if sa_n args =? SYS_WRITE then sys_write process (arg0 args) (as_isize (arg1 args)) (as_isize (arg2 args))
       else if sa_n args =? SYS_WRITEV then sys_writev process (arg0 args) (as_isize (arg1 args)) (as_isize (arg2 args))
       else if sa_n args =? SYS_ARCH_PRCTL then sys_arch_prctl thread (as_isize (arg0 args)) (as_isize (arg1 args))
       else if sa_n args =? SYS_SET_TID_ADDRESS then ret (Ok 1000)
       else
         do* _ := warn si FTL_LOG_PREFIX (str "unimplemented syscall: nr=" ++ fmt_hex_u64 (sa_n args)) in
         ret (Err ENOSYS)) in
    ret (Done retval).

(** ** process.rs: [impl Handler for ThreadContext] *)

(** [regs.syscall_args], a read of the union. *)
Definition read_syscall_args (regs : ContextData) : outcome SyscallArgs :=
  let* n := ctx_word regs 0 in
  let* a0 := ctx_word regs 1 in
  let* a1 := ctx_word regs 2 in
  let* a2 := ctx_word regs 3 in
  let* a3 := ctx_word regs 4 in
  let* a4 := ctx_word regs 5 in
  let* a5 := ctx_word regs 6 in
  Ret (mkSyscallArgs n a0 a1 a2 a3 a4 a5).

Definition process_of (self : ThreadContext) : SM Process :=
  do* m := mem_get in
  match lx_processes (server_data m) !! tc_process self with
  | Some p => ret p
  | None => lift Undef
  end.

Definition syscall (self : ThreadContext) (thread : Handle) : SM unit :=
  do* regs := expect (Thread_get_context si thread KindSyscallArgs (of_syscall_args SyscallArgs_zeroed)) in
  do* args := lift (read_syscall_args regs) in
  do* process := process_of self in
  do* out := lx_handle_syscall process thread args in
  match out with
  | Exit => ret tt
  | Done result =>
      let retval := match result with Ok v => v | Err e => to_retval e end in
      do* _ := expect (Thread_set_context si thread KindSysret (of_sysret (mkSysret (as_usize retval)))) in
      expect (Thread_unblock si thread)
  end.

Definition terminated (self : ThreadContext) (thread : Handle) : SM unit := ret tt.

Definition lx_handler : Handler ThreadContext St := mkHandler syscall terminated.

End Syscalls.

(** ** The kernel with this server.  A kernel call that the server makes may lead
    to another upcall, one level deeper. *)

Section System.
Context {P : Profile} {L : RefLayout} {B : BootPdpt} {Mc : Type} `{Machine Mc}.
Abbreviation KS := (Sys (Kernel Mc (ApiMem ThreadContext LxServer))).
Context (galloc : RefStore KObject -> option Z) (try_reserve : RefStore KObject -> bool) (FTL_LOG_PREFIX : list Z).

Fixpoint lx_invoke (depth : nat) (ctx : Upcall) (arg : UpcallArg) : M KS unit :=
  match depth with
  | O => lift Hang
  | S depth =>
      let si := START_INFO galloc try_reserve (lx_invoke depth) in
      upcall_entry si FTL_LOG_PREFIX (lx_handler si FTL_LOG_PREFIX) ctx arg
  end.

End System.

(** * What a program sees of its memory *)

Section UserView.
Context {Mc Sv : Type} `{Machine Mc}.

(** The byte of address space [sid] at [va]. *)
Definition user_byte (s : Sys (Kernel Mc Sv)) (sid va b : Z) : Prop :=
  exists sp, spaces (k_mem (ext s)) !! sid = Some sp /\ space_byte (k_mem (ext s)) sp va b.
Definition mapped (s : Sys (Kernel Mc Sv)) (sid va : Z) : Prop := exists b, user_byte s sid va b.
Definition user_bytes (s : Sys (Kernel Mc Sv)) (sid va : Z) (bs : list Z) : Prop :=
  forall (i : nat) b, bs !! i = Some b -> user_byte s sid (va + Z.of_nat i) b.

End UserView.

(** The lines that appear on the console when a program writes [bytes]: one per
    256 bytes. *)
Inductive write_log (prefix : list Z) : list Z -> list Z -> Prop :=
| wl_nil : write_log prefix [] []
| wl_chunk c rest out :
    (0 < length c <= 256)%nat -> (rest <> [] -> length c = 256%nat) -> write_log prefix rest out ->
    write_log prefix (c ++ rest) (console_bytes (prefix ++ write_text c ++ [10]) ++ out).

Inductive writev_log (prefix : list Z) : list (list Z) -> list Z -> Prop :=
| wv_nil : writev_log prefix [] []
| wv_cons d ds out out' : write_log prefix d out -> writev_log prefix ds out' -> writev_log prefix (d :: ds) (out ++ out').

Definition total_len (datas : list (list Z)) : Z := foldr (fun d n => len d + n) 0 datas.

(** The system calls of Linux that the server implements.  [syscall_effect]: with
    arguments [args] and registers [a], a program whose address space is [sid]
    gets [res], its registers (other than the result) become [a'], and [out]
    appears on the console. *)
Section Meaning.
Context {Mc Sv : Type} `{Machine Mc} (prefix : list Z).

Definition bad_fd (fd : Z) : bool := negb (fd =? 1) && negb (fd =? 2).
Definition is_exit (args : SyscallArgs) : bool := (sa_n args =? SYS_EXIT) || (sa_n args =? SYS_EXIT_GROUP).

(** The entries of an array and the bytes that they point to. *)
Definition iov_data (s : Sys (Kernel Mc Sv)) (sid : Z) (iovecs : list Iovec) (datas : list (list Z)) : Prop :=
  Forall2 (fun iov d => 0 <= iov_base iov < 2 ^ 64 /\ 0 <= iov_len iov < 2 ^ 63 /\
    user_bytes s sid (iov_base iov) d /\ len d = iov_len iov) iovecs datas.

Definition line (text : list Z) : list Z := console_bytes (prefix ++ text ++ [10]).

Definition write_effect (s : Sys (Kernel Mc Sv)) (sid : Z) (args : SyscallArgs) (res : result Errno Z) (out : list Z)
  : Prop :=
  if bad_fd (arg0 args) then res = Err EBADF /\ out = []
  else
    match res with Ok v => v = as_isize (arg2 args) /\ 0 <= v | Err e => e = EFAULT end /\
    (forall bs, user_bytes s sid (arg1 args) bs -> len bs = as_isize (arg2 args) ->
      res = Ok (len bs) /\ write_log prefix bs out).

Definition writev_effect (s : Sys (Kernel Mc Sv)) (sid : Z) (args : SyscallArgs) (res : result Errno Z) (out : list Z)
  : Prop :=
  if bad_fd (arg0 args) then res = Err EBADF /\ out = []
  else if 16 <? as_isize (arg2 args) then res = Err EINVAL /\ out = []
  else
    match res with Ok v => 0 <= v | Err e => e = EFAULT end /\
    (forall ibytes datas, user_bytes s sid (arg1 args) ibytes -> len ibytes = 16 * as_isize (arg2 args) ->
      iov_data s sid (iovecs_of (Z.to_nat (as_isize (arg2 args))) ibytes) datas ->
      res = Ok (total_len datas) /\ writev_log prefix datas out).

Definition syscall_effect (s : Sys (Kernel Mc Sv)) (sid : Z) (args : SyscallArgs) (a : ArchThread)
  (res : result Errno Z) (a' : ArchThread) (out : list Z) : Prop :=
  if sa_n args =? SYS_WRITE then a' = a /\ write_effect s sid args res out
  else if sa_n args =? SYS_WRITEV then a' = a /\ writev_effect s sid args res out
  else if sa_n args =? SYS_ARCH_PRCTL then out = [] /\
    if as_isize (arg0 args) =? ARCH_SET_FS
    then res = Ok 0 /\ arch_write_context a KindFsbase (of_fsbase (mkFsBase (arg1 args))) = Ret a'
    else res = Err ENOSYS /\ a' = a
  else if sa_n args =? SYS_SET_TID_ADDRESS then res = Ok 1000 /\ a' = a /\ out = []
  else res = Err ENOSYS /\ a' = a /\
    out = line (ESC "[33mWARN" ++ ESC "[0m " ++ str "unimplemented syscall: nr=" ++ fmt_hex_u64 (sa_n args)).

(** The arguments a thread passes to a system call. *)
Definition args_of (a : ArchThread) : SyscallArgs := mkSyscallArgs (rax a) (rdi a) (rsi a) (rdx a) (r10 a) (r8 a) (r9 a).

(** Registers hold 64-bit values, and the call is not [writev] with a negative
    number of entries, which the server does not survive. *)
Definition syscall_ready (t : Thread) : Prop :=
  let a := args_of (t_arch t) in
  0 <= sa_n a < 2 ^ 64 /\ 0 <= arg0 a < 2 ^ 64 /\ 0 <= arg1 a < 2 ^ 64 /\ 0 <= arg2 a < 2 ^ 64 /\
  ~ (sa_n a = SYS_WRITEV /\ bad_fd (arg0 a) = false /\ as_isize (arg2 a) < 0).

End Meaning.

(** ** The invariant of the server, at upcall boundaries *)

Section LxInv.
Context {L : RefLayout} {B : BootPdpt} {Mc : Type} `{Machine Mc}.
Abbreviation LxKernel := (Kernel Mc (ApiMem ThreadContext LxServer)).

Definition space_of_process (process : Process) : Z := sref_from_raw VmSpaceType (h_raw (p_vmspace process)).

(** The data of the upcall [ctx] of thread [r] are in place. *)
Definition live_data (x : LxKernel) (ctx : Upcall) (r : Z) : Prop :=
  exists u n h process, user_data (k_server x) !! ctx = Some (Some u) /\
    thread_arcs (k_server x) !! ud_object u = Some (n, h) /\ 1 <= n /\
    type_id h = ThreadType /\ h_right h = Thread_DEFAULT_RIGHT /\ sref_from_raw ThreadType (h_raw h) = r /\
    r ∈ k_issued x /\ lx_processes (server_data (k_server x)) !! tc_process (ud_handler u) = Some process.

(** Every thread that may still make an upcall has its data and runs in the
    address space of its process, and the handles of the processes are to live
    address spaces. *)
Record lx_inv (st : RefStore KObject) (x : LxKernel) : Prop := mkLxInv {
  lxi_threads r c t : st !! r = Some (mkRefCounted c (OThread t)) -> active t -> live_data x (t_upcall t) r;
  lxi_vmspace r c t u process : st !! r = Some (mkRefCounted c (OThread t)) -> active t ->
    user_data (k_server x) !! t_upcall t = Some (Some u) ->
    lx_processes (server_data (k_server x)) !! tc_process (ud_handler u) = Some process ->
    t_vmspace t = space_of_process process;
  lxi_spaces pid process : lx_processes (server_data (k_server x)) !! pid = Some process ->
    type_id (p_vmspace process) = VmSpaceType /\ h_right (p_vmspace process) = VmSpace_DEFAULT_RIGHT /\
    space_of_process process ∈ k_issued x /\
    forall c o, st !! space_of_process process = Some (mkRefCounted c o) -> obj_type o = VmSpaceType
}.

Program Definition lx_ext : KernelExt LxKernel := {|
  ext_refs x := k_issued x;
  ext_ok st x := @ext_ok _ kernel_ext st x /\ lx_inv st x;
  ext_live x ctx r := live_data x ctx r
|}.
Next Obligation.
  intros st st' x [Hk [Ht Hv Hs]] Hsub. split; [by eapply ext_ok_shrink|]. split.
  - intros r c t E Ha. destruct (Hsub r c _ E) as (c' & o & E' & [->|(t0 & t1 & -> & [= <-] & Hu & _ & Hact)]).
    + by eapply Ht.
    + rewrite Hu. eapply Ht; [exact E'|auto].
  - intros r c t u process E Ha. destruct (Hsub r c _ E) as (c' & o & E' & [->|(t0 & t1 & -> & [= <-] & Hu & -> & Hact)]).
    + by eapply Hv.
    + rewrite Hu. eapply Hv; [exact E'|auto].
  - intros pid process Hp. destruct (Hs pid process Hp) as (? & ? & ? & Hty). split_and!; try done. intros c o E.
    destruct (Hsub _ c _ E) as (c' & o' & E' & [->|(t0 & t1 & -> & -> & _)]); [by eapply Hty|].
    pose proof (Hty _ _ E'). done.
Qed.
Next Obligation. intros st x r c t [_ Hx] E Ha. by eapply (lxi_threads _ _ Hx). Qed.

End LxInv.

(** * Lemmas *)

Lemma as_isize_range x : - 2 ^ 63 <= as_isize x < 2 ^ 63.
Proof.
  unfold as_isize, to_signed, wrap. pose proof (Z.mod_pos_bound x (2 ^ 64) ltac:(lia)).
  change (2 ^ (64 - 1)) with (2 ^ 63). destruct (Z.ltb_spec (x mod 2 ^ 64) (2 ^ 63)); lia.
Qed.

Lemma as_usize_range x : 0 <= as_usize x < 2 ^ 64.
Proof. apply Z.mod_pos_bound. lia. Qed.

Lemma as_usize_isize x : 0 <= x < 2 ^ 64 -> as_usize (as_isize x) = x.
Proof.
  intros Hx. unfold as_usize, as_isize, to_signed, wrap. rewrite (Z.mod_small x) by lia.
  destruct (x <? 2 ^ (64 - 1)); [by apply Z.mod_small|]. rewrite Zminus_mod, Z.mod_same, Z.sub_0_r, Z.mod_mod by lia.
  by apply Z.mod_small.
Qed.

Lemma as_usize_nonneg x : 0 <= x < 2 ^ 63 -> as_usize x = x.
Proof. intros Hx. apply Z.mod_small. lia. Qed.

Lemma as_usize_neg x : - 2 ^ 63 <= x < 0 -> as_usize x = x + 2 ^ 64.
Proof.
  intros Hx. unfold as_usize, wrap. rewrite <- (Z.mod_add _ 1) by lia. rewrite Z.mul_1_l. apply Z.mod_small. lia.
Qed.

Lemma as_isize_small x : 0 <= x < 2 ^ 63 -> as_isize x = x.
Proof.
  intros Hx. unfold as_isize, to_signed, wrap. rewrite Z.mod_small by lia. by rewrite (proj2 (Z.ltb_lt _ _)) by lia.
Qed.

Lemma length_iovecs n bytes : length (iovecs_of n bytes) = n.
Proof. revert bytes. induction n as [|n IH]; intros bytes; [done|]. simpl. by rewrite IH. Qed.

Lemma iovecs_take n m bytes : (n <= m)%nat -> take n (iovecs_of m bytes) = iovecs_of n bytes.
Proof.
  revert m bytes. induction n as [|n IH]; intros [|m] bytes Hle; try done; try lia. simpl. f_equal. apply IH. lia.
Qed.

Lemma iovecs_app n bytes rest : length bytes = (16 * n)%nat -> iovecs_of n (bytes ++ rest) = iovecs_of n bytes.
Proof.
  revert bytes. induction n as [|n IH]; intros bytes Hl; [done|]. cbn [iovecs_of].
  rewrite !drop_app_le, !take_app_le by (rewrite ?length_drop; lia). f_equal. apply IH. rewrite length_drop. lia.
Qed.

Section QuietSteps.
Context {P : Profile} {L : RefLayout} {B : BootPdpt} {Mc Sv : Type} `{MachineLaws Mc}.
Abbreviation KS := (Sys (Kernel Mc Sv)).
Implicit Types s : KS.

Abbreviation roots loc s := (loc ++ k_issued (ext s) ++ runqueue s ++ current_ref s).

(** A step that changes nothing but the console. *)
Record quiet (loc : list Z) s s' : Prop := mkQuiet {
  q_step : kstep 0 loc s s';
  q_queue : runqueue s' = runqueue s;
  q_issued : k_issued (ext s') = k_issued (ext s);
  q_server : k_server (ext s') = k_server (ext s);
  q_objs : objs_kept (roots loc s) s s';
  q_spaces : spaces (k_mem (ext s')) = spaces (k_mem (ext s));
  q_content id x : content (vm (k_mem (ext s'))) id x = content (vm (k_mem (ext s))) id x
}.

Lemma quiet_refl loc s : kinv loc s -> quiet loc s s.
Proof. intros Hi. split; try done; [by apply kstep_refl|by intros p o _]. Qed.

Lemma same_roots n loc s s' :
  kstep n loc s s' -> runqueue s' = runqueue s -> k_issued (ext s') = k_issued (ext s) -> roots loc s' = roots loc s.
Proof. intros [_ Hc _ _] Hq Hs. unfold current_ref. by rewrite Hc, Hq, Hs. Qed.

Lemma quiet_trans loc s1 s2 s3 : quiet loc s1 s2 -> quiet loc s2 s3 -> quiet loc s1 s3.
Proof.
  intros [K1 Q1 I1 V1 O1 S1 C1] [K2 Q2 I2 V2 O2 S2 C2].
  rewrite (same_roots _ _ _ _ K1 Q1 I1) in O2.
  split; [by apply (kstep_trans 0 0 _ _ s2)|congruence..| |congruence|].
  - intros p o Hp Ho. by apply O2, O1.
  - intros id x. by rewrite C2.
Qed.

Lemma quiet_inv loc s s' : quiet loc s s' -> kinv loc s'.
Proof. intros Hq. apply Hq. Qed.

Lemma quiet_refs loc s s' : quiet loc s s' -> krefs loc s' <= krefs loc s.
Proof. intros [[_ _ _ R] _ _ _ _ _ _]. lia. Qed.

Lemma quiet_handle loc s s' h r o : quiet loc s s' -> handle_of s h r o -> handle_of s' h r o.
Proof.
  intros Hq (Hraw & Hin & Ho & Ht). split; [done|]. rewrite (q_issued _ _ _ Hq). split; [done|]. split; [|done].
  apply (q_objs _ _ _ Hq); [set_solver|done].
Qed.

Lemma quiet_user loc s s' sid va b : quiet loc s s' -> user_byte s' sid va b <-> user_byte s sid va b.
Proof.
  intros Hq. unfold user_byte, space_byte. rewrite (q_spaces _ _ _ Hq).
  split; intros (sp & Hs & m & Hm & Hc & <-); exists sp; (split; [done|]); exists m; (split; [done|]); split; try done;
    by rewrite (q_content _ _ _ Hq).
Qed.

Lemma quiet_mapped loc s s' sid va : quiet loc s s' -> mapped s' sid va <-> mapped s sid va.
Proof. intros Hq. unfold mapped. split; intros [b Hb]; exists b; by apply (quiet_user _ _ _ _ _ _ Hq). Qed.

Lemma quiet_bytes loc s s' sid va bs : quiet loc s s' -> user_bytes s sid va bs -> user_bytes s' sid va bs.
Proof. intros Hq Hb i b Hi. apply (quiet_user _ _ _ _ _ _ Hq). by apply Hb. Qed.

Lemma user_bytes_app s sid va bs bs' :
  user_bytes s sid va (bs ++ bs') -> user_bytes s sid va bs /\ user_bytes s sid (va + len bs) bs'.
Proof.
  intros Hb. split; intros i b Hi.
  - apply Hb. by apply lookup_app_l_Some.
  - rewrite <- Z.add_assoc, <- Nat2Z.inj_add. apply Hb. by rewrite lookup_app_r, Nat.add_comm, Nat.add_sub by lia.
Qed.

(** Memory that a program sees is below the canonical hole. *)
Lemma mapped_bound loc s sid va : kinv loc s -> mapped s sid va -> 0 <= va < 2 ^ 47.
Proof.
  intros Hi (b & sp & Hs & m & Hm & Hc & _). destruct (kinv_mem _ _ Hi) as [Hk _].
  destruct (ks_maps _ _ Hk sid sp m Hs Hm) as [(? & _ & ?) _ _]. unfold map_covers in Hc. lia.
Qed.

Lemma user_byte_inj loc s sid va b b' : kinv loc s -> user_byte s sid va b -> user_byte s sid va b' -> b = b'.
Proof.
  intros Hi (sp & Hs & m & Hm & Hc & <-) (sp' & Hs' & m' & Hm' & Hc' & <-). rewrite Hs in Hs'. injection Hs' as <-.
  destruct (kinv_mem _ _ Hi) as [Hk _]. pose proof (ks_sorted _ _ Hk sid sp Hs) as Hsort.
  assert (m = m') as <-; [|done]. unfold map_covers in *.
  apply list_elem_of_lookup in Hm as [i Hm], Hm' as [j Hm'].
  destruct (lt_eq_lt_dec i j) as [[Hlt| ->]|Hlt]; [|congruence|].
  - pose proof (StronglySorted_lookup _ _ _ _ _ _ Hsort Hlt Hm Hm') as Hle. simpl in Hle. lia.
  - pose proof (StronglySorted_lookup _ _ _ _ _ _ Hsort Hlt Hm' Hm) as Hle. simpl in Hle. lia.
Qed.

Lemma user_bytes_inj loc s sid va bs bs' :
  kinv loc s -> user_bytes s sid va bs -> user_bytes s sid va bs' -> length bs = length bs' -> bs = bs'.
Proof.
  intros Hi Hb Hb' Hl. apply list_eq. intros i. destruct (bs !! i) as [b|] eqn:E.
  - destruct (lookup_lt_is_Some_2 bs' i) as [b' E']; [rewrite <- Hl; by eapply lookup_lt_Some|].
    rewrite E'. f_equal. by eapply (user_byte_inj loc s); [|apply Hb|apply Hb'].
  - symmetry. apply lookup_ge_None. rewrite <- Hl. by apply lookup_ge_None.
Qed.

(** Nothing is mapped behind the end of the last mapping. *)
Lemma past_last (l iter : list Mapping) x :
  StronglySorted (fun a b => m_end a <= m_start b) l -> Forall (fun m => m_start m <= m_end m) l ->
  iter `suffix_of` l -> iter <> [] -> Forall (fun m => m_end m <= x) iter -> Forall (fun m => m_end m <= x) l.
Proof.
  intros Hs Hne [pre ->] Hi Hx. apply Forall_app. split; [|done]. destruct iter as [|m rest]; [done|].
  apply Forall_forall. intros m' Hm'. apply Forall_cons in Hx as [Hx _]. apply Forall_app in Hne as [_ [Hm _]%Forall_cons].
  apply StronglySorted_app in Hs as (Hs & _). specialize (Hs m' m Hm' ltac:(set_solver)). simpl in Hs. lia.
Qed.

(** A handle to the address space of a process. *)
Definition space_handle s (h : Handle) (sid : Z) : Prop :=
  (exists o, handle_of s h sid o) /\ type_id h = VmSpaceType /\ h_right h = VmSpace_DEFAULT_RIGHT.

Lemma quiet_space_handle loc s s' h sid : quiet loc s s' -> space_handle s h sid -> space_handle s' h sid.
Proof. intros Hq ([o Ho] & ?). split; [|done]. exists o. by eapply quiet_handle. Qed.

(** [VmSpace::read_bytes] in terms of what the program sees. *)
Lemma read_user loc s h sid uaddr buf :
  kinv loc s -> krefs loc s + 1 < 2 ^ 64 -> space_handle s h sid -> 0 <= uaddr < 2 ^ 64 ->
  exists r bs s', call_vmspace_read h uaddr buf s = Ret ((r, bs ++ drop (length bs) buf), s') /\
    quiet loc s s' /\ k_console (ext s') = k_console (ext s) /\ (length bs <= length buf)%nat /\
    match r with
    | Ok _ => (buf <> [] -> bs <> []) /\ user_bytes s sid uaddr bs /\
        (length bs = length buf \/ forall va, uaddr + len bs <= va -> ~ mapped s sid va)
    | Err _ => exists i, 0 <= i < len buf /\ ~ mapped s sid (uaddr + i)
    end.
Proof.
  intros Hi Hn ([o Hh] & Hty & Hright) Hu.
  destruct (call_vmspace_read_spec loc s h sid o uaddr buf Hi Hn Hh Hu)
    as (r & buf' & s' & E & St & Hq & (Hiss & Hcon & Hsv) & Hobj & Hsp & Hct & Hlen & Hr).
  unfold checked, is_type, authorize in Hr. rewrite Hright, bool_decide_true in Hr by done.
  change (right_contains VmSpace_DEFAULT_RIGHT RIGHT_READ) with true in Hr. cbn [negb] in Hr.
  destruct Hr as (sp & bs & Hs & -> & Hr & Hover). destruct (kinv_mem _ _ Hi) as [Hk _].
  assert (forall va m, m ∈ mappings sp -> map_covers m va -> 0 <= va < 2 ^ 47) as Hlow.
  { intros va m Hm Hc. destruct (ks_maps _ _ Hk sid sp m Hs Hm) as [(? & _ & ?) _ _]. unfold map_covers in Hc. lia. }
  assert (forall va, (forall m, m ∈ mappings sp -> ~ map_covers m va) -> ~ mapped s sid va) as Hout.
  { intros va Hva (b & sp' & Hs' & m & Hm & Hc & _). rewrite Hs in Hs'. injection Hs' as <-. by eapply Hva. }
  exists r, bs, s'. split; [exact E|]. split; [by split|]. split; [done|].
  destruct (Z.ltb_spec (uaddr + len buf) (2 ^ 64)) as [Hlt|Hge].
  2: { destruct (Hover Hge) as [-> ->]. split; [simpl; lia|]. exists (2 ^ 64 - 1 - uaddr). split; [lia|].
       apply Hout. intros m Hm Hc%Hlow; [lia|done]. }
  destruct (Hr Hlt) as (iter & Hsuf & Hiter & Hl & Hb & Hres). split; [done|]. destruct r as [u|e].
  - destruct Hres as [Hfull Hne]. split; [intros Hbuf; apply Hne; [by apply Hiter|done]|]. split.
    { intros i b Hi'. exists sp. split; [done|]. by apply Hb. }
    destruct Hfull as [?|Hend]; [by left|]. destruct buf as [|b0 buf0] eqn:Hbuf; [left; simpl in *; lia|right].
    rewrite <- Hbuf in *. specialize (Hiter ltac:(by rewrite Hbuf) eq_refl). intros va Hva. apply Hout. intros m Hm Hc.
    assert (Forall (fun m => m_end m <= uaddr + len bs) (mappings sp)) as Hall.
    { eapply past_last; [by apply (ks_sorted _ _ Hk sid)| |done..]. eapply Forall_impl; [by eapply mapping_nonempty|].
      simpl. lia. }
    rewrite Forall_forall in Hall. specialize (Hall m Hm). unfold map_covers in Hc. lia.
  - destruct Hres as (_ & Hlt' & Hgap). exists (len bs). split; [lia|]. by apply Hout.
Qed.

End QuietSteps.

Section Changes.
Context {P : Profile} {L : RefLayout} {B : BootPdpt} {Mc : Type} `{MachineLaws Mc}.
Abbreviation KS := (Sys (Kernel Mc (ApiMem ThreadContext LxServer))).
Implicit Types s : KS.

Abbreviation roots loc s := (loc ++ k_issued (ext s) ++ runqueue s ++ current_ref s).

(** One thread changes, [q] is queued, and memory and handles stay. *)
Record changed (n : Z) (loc q : list Z) s s' (r : Z) (t' : Thread) : Prop := mkChanged {
  c_step : kstep n loc s s';
  c_queue : runqueue s' = runqueue s ++ q;
  c_issued : k_issued (ext s') = k_issued (ext s);
  c_server : k_server (ext s') = k_server (ext s);
  c_objs p o : p ∈ roots loc s -> obj_at s p o -> obj_at s' p (if bool_decide (p = r) then OThread t' else o);
  c_spaces : spaces (k_mem (ext s')) = spaces (k_mem (ext s));
  c_content id x : content (vm (k_mem (ext s'))) id x = content (vm (k_mem (ext s))) id x
}.

Lemma changed_trans n1 n2 loc q s1 s2 s3 r t1 t2 :
  changed n1 loc [] s1 s2 r t1 -> changed n2 loc q s2 s3 r t2 -> changed (n1 + n2) loc q s1 s3 r t2.
Proof.
  intros [K1 Q1 I1 V1 O1 S1 C1] [K2 Q2 I2 V2 O2 S2 C2]. rewrite app_nil_r in Q1.
  split; [by eapply kstep_trans|congruence..| |congruence|].
  - intros p o Hp Ho. rewrite (same_roots _ _ _ _ K1 Q1 I1) in O2. pose proof (O2 p _ Hp (O1 p o Hp Ho)) as Ho2.
    by destruct (bool_decide (p = r)).
  - intros id x. by rewrite C2.
Qed.

Lemma obj_at_inj s p o o' : obj_at s p o -> obj_at s p o' -> o = o'.
Proof. intros [c E] [c' E']. congruence. Qed.

Lemma quiet_changed loc s s' r t : quiet loc s s' -> thread_at s r t -> changed 0 loc [] s s' r t.
Proof.
  intros [K Q I V O S C] Ht. split; try done; [by rewrite app_nil_r|]. intros p o Hp Ho.
  destruct (decide (p = r)) as [->|Hne]; [|rewrite bool_decide_false by done; by apply O].
  rewrite bool_decide_true by done. rewrite (obj_at_inj s r (OThread t) o Ht Ho). by apply O.
Qed.

(** The thread whose system call is being handled. *)
Record in_syscall (loc : list Z) s (r : Z) (t : Thread) (h : Handle) (process : Process) (sid : Z) : Prop := mkInSyscall {
  is_inv : kinv loc s;
  is_room : krefs loc s + 2 < 2 ^ 64;
  is_thread : handle_of s h r (OThread t);
  is_right : h_right h = Thread_DEFAULT_RIGHT;
  is_blocked : t_state t = Blocked;
  is_busy : 0 < in_upcalls t;
  is_space : space_handle s (p_vmspace process) sid
}.

Lemma in_syscall_changed loc s s' r t t' h process sid :
  in_syscall loc s r t h process sid -> changed 0 loc [] s s' r t' -> t_state t' = Blocked -> 0 < in_upcalls t' ->
  in_syscall loc s' r t' h process sid.
Proof.
  intros [Hi Hn (Hraw & Hin & Ho & Hty) Hr Hb Hu Hsp] [[Ki _ _ Kr] Q I V O S C] Hb' Hu'. split; try done; [lia| |].
  - split; [done|]. rewrite I. split; [done|]. split; [|done].
    pose proof (O r _ ltac:(set_solver) Ho) as Ho'. by rewrite bool_decide_true in Ho'.
  - destruct Hsp as ([o (Hraw' & Hin' & Ho' & Hty')] & Hsp). split; [|done].
    pose proof (O sid _ ltac:(set_solver) Ho') as Ho2. destruct (decide (sid = r)) as [->|Hne].
    + pose proof (obj_at_inj s r _ _ Ho Ho') as <-. rewrite bool_decide_true in Ho2 by done.
      exists (OThread t'). split; [done|]. rewrite I. by split.
    + rewrite bool_decide_false in Ho2 by done. exists o. split; [done|]. rewrite I. by split.
Qed.

Lemma thread_roots loc s p t : kinv loc s -> thread_at s p t -> p ∈ roots loc s.
Proof.
  intros Hi [c E]. pose proof (si_rc _ _ _ Hi) as Hrc. pose proof (rc_pos _ _ Hrc p _ E) as Hpos.
  rewrite (rc_count _ _ Hrc p _ E) in Hpos. assert (0 < occ p ((loc ++ k_issued (ext s)) ++ runqueue s ++ current_ref s) +
    occ p (all_refs (store s))) as Hocc by (rewrite <- occ_app; lia).
  destruct (decide (p ∈ all_refs (store s))) as [Hin|Hout].
  - exfalso. apply all_refs_has_owner in Hin as (q & rc & Hq & Hp).
    pose proof (rc_rank _ _ Hrc q rc p _ Hq Hp E) as Hrank. pose proof (obj_rank_max (value rc)). simpl in *. lia.
  - rewrite (occ_absent _ _ Hout), Z.add_0_r in Hocc. apply occ_pos in Hocc. by rewrite <- app_assoc in Hocc.
Qed.

Lemma obj_live loc s p : kinv loc s -> p ∈ roots loc s -> exists o, obj_at s p o.
Proof.
  intros Hi Hp. destruct (rc_live _ _ (si_rc _ _ _ Hi) p) as [[c o] E]; [set_solver|]. by exists o, c.
Qed.

Lemma lx_inv_split own s : @sys_inv L _ lx_ext own [] s <-> @sys_inv L _ kernel_ext own [] s /\ lx_inv (store s) (ext s).
Proof.
  split.
  - intros [? ? ? ? ? ? ? ? [? ?]]. split; [by constructor|done].
  - intros [[? ? ? ? ? ? ? ? ?] ?]. by constructor.
Qed.

(** The handles of the thread and of the process that an upcall is about. *)
Lemma upcall_handles loc s ctx r t :
  kinv loc s -> krefs loc s + 2 < 2 ^ 64 -> lx_inv (store s) (ext s) -> live_data (ext s) ctx r -> thread_at s r t ->
  exists u n h process, user_data (server_mem s) !! ctx = Some (Some u) /\
    thread_arcs (server_mem s) !! ud_object u = Some (n, h) /\ 1 <= n /\
    lx_processes (server_data (server_mem s)) !! tc_process (ud_handler u) = Some process /\
    handle_of s h r (OThread t) /\ h_right h = Thread_DEFAULT_RIGHT /\
    space_handle s (p_vmspace process) (space_of_process process).
Proof.
  intros Hi Hn Hlx (u & n & h & process & Hu & Ha & Hn1 & Hty & Hr & Hraw & Hin & Hp) Ht.
  exists u, n, h, process. do 4 (split; [done|]). split; [by split; [rewrite Hty|rewrite Hty]|]. split; [done|].
  destruct (lxi_spaces _ _ Hlx _ _ Hp) as (Hty' & Hr' & Hin' & Hobj).
  destruct (obj_live loc s (space_of_process process) Hi) as [o Ho]; [set_solver|].
  split; [|done]. exists o. split; [by rewrite Hty'|]. split; [done|]. split; [done|].
  rewrite Hty'. destruct Ho as [c E]. by eapply Hobj.
Qed.

Lemma changed_others n loc q s s' r t' p tp :
  kinv loc s -> changed n loc q s s' r t' -> r ∈ loc -> (forall x, x ∈ q -> x = r) -> p <> r ->
  thread_at s' p tp <-> thread_at s p tp.
Proof.
  intros Hi [[Ki Kc Kt Kr] Q I V O S C] Hr Hq Hne. split; intros Ht.
  - assert (p ∈ roots loc s') as Hp by (by eapply thread_roots).
    unfold current_ref in Hp. rewrite I, Q, Kc in Hp. fold (current_ref s) in Hp.
    destruct (obj_live loc s p Hi) as [o Ho]; [set_solver|]. pose proof (O p o ltac:(set_solver) Ho) as Ho2.
    rewrite bool_decide_false in Ho2 by done. by rewrite <- (obj_at_inj s' p (OThread tp) o Ht Ho2) in Ho.
  - pose proof (O p (OThread tp) ltac:(by eapply thread_roots) Ht) as Ho. by rewrite bool_decide_false in Ho.
Qed.

Lemma changed_user n loc q s s' r t' sid va b :
  changed n loc q s s' r t' -> user_byte s' sid va b <-> user_byte s sid va b.
Proof.
  intros [_ _ _ _ _ Hs Hc]. unfold user_byte, space_byte. rewrite Hs.
  split; intros (sp & Hsp & m & Hm & Hcov & <-); exists sp; (split; [done|]); exists m; (split; [done|]); split; try done;
    by rewrite Hc.
Qed.

Lemma syscall_effect_ext prefix s s' sid args a res a' out :
  ext s' = ext s -> syscall_effect prefix s' sid args a res a' out -> syscall_effect prefix s sid args a res a' out.
Proof.
  intros Hx. unfold syscall_effect, write_effect, writev_effect, iov_data, user_bytes, user_byte. by rewrite Hx.
Qed.

Lemma live_data_same (x x' : Kernel Mc (ApiMem ThreadContext LxServer)) ctx r :
  k_issued x' = k_issued x -> k_server x' = k_server x -> live_data x ctx r -> live_data x' ctx r.
Proof. unfold live_data. by intros -> ->. Qed.

Lemma lx_inv_changed n loc q s s' r t t' :
  kinv loc s -> lx_inv (store s) (ext s) -> changed n loc q s s' r t' -> r ∈ loc -> (forall x, x ∈ q -> x = r) ->
  thread_at s r t -> thread_stays t t' -> lx_inv (store s') (ext s').
Proof.
  intros Hi Hlx [[Ki Kc Kt Kr] Q I V O S C] Hr Hq Ht (Hup & Hvs & Hact).
  assert (forall p o', p ∈ loc ++ k_issued (ext s) -> obj_at s' p o' ->
    p = r /\ o' = OThread t' \/ p <> r /\ obj_at s p o') as Hback.
  { intros p o' Hp Ho'. destruct (obj_live loc s p Hi) as [o Ho]; [set_solver|].
    pose proof (O p o ltac:(set_solver) Ho) as Ho2. pose proof (obj_at_inj _ _ _ _ Ho' Ho2) as ->.
    destruct (decide (p = r)) as [->|Hne]; [left; by rewrite bool_decide_true|right; by rewrite bool_decide_false]. }
  assert (forall p c tp, store s' !! p = Some (mkRefCounted c (OThread tp)) -> active tp -> exists c0 t0,
    store s !! p = Some (mkRefCounted c0 (OThread t0)) /\ active t0 /\ t_upcall t0 = t_upcall tp /\
    t_vmspace t0 = t_vmspace tp) as Hth.
  { intros p c tp E Ha.
    assert (p ∈ roots loc s') as Hp by (eapply thread_roots; [exact Ki|by exists c]).
    unfold current_ref in Hp. rewrite I, Q, Kc in Hp. fold (current_ref s) in Hp.
    destruct (obj_live loc s p Hi) as [o Ho]; [set_solver|].
    pose proof (O p o ltac:(set_solver) Ho) as Ho2.
    pose proof (obj_at_inj s' p (OThread tp) _ ltac:(by exists c) Ho2) as Htp.
    destruct (decide (p = r)) as [->|Hne].
    - rewrite bool_decide_true in Htp by done. injection Htp as ->. destruct Ht as [c' Et]. exists c', t. auto.
    - rewrite bool_decide_false in Htp by done. subst o. destruct Ho as [c' Eo]. exists c', tp. auto. }
  split.
  - intros p c tp E Ha. apply (live_data_same (ext s)); [done..|]. destruct (Hth p c tp E Ha) as (c0 & t0 & E0 & Ha0 & <- & _).
    by eapply (lxi_threads _ _ Hlx).
  - intros p c tp u process E Ha. destruct (Hth p c tp E Ha) as (c0 & t0 & E0 & Ha0 & <- & <-). rewrite V.
    by eapply (lxi_vmspace _ _ Hlx).
  - intros pid process Hp. rewrite V in Hp. destruct (lxi_spaces _ _ Hlx _ _ Hp) as (? & ? & Hin & Hty).
    rewrite I. split_and!; try done. intros c o E.
    destruct (Hback (space_of_process process) o ltac:(set_solver) ltac:(by exists c)) as [[Hv ->]|[_ [c' Eo]]]; [|by eapply Hty].
    rewrite Hv in Hty. destruct Ht as [c' Et]. by pose proof (Hty _ _ Et).
Qed.

(** The invariant without the data of a thread that is no longer active. *)
Lemma lx_inv_without loc s s2 r t ctx u n h :
  kinv loc s -> lx_inv (store s) (ext s) -> kinv loc s2 -> thread_at s r t -> ~ active t ->
  user_data (server_mem s) !! ctx = Some (Some u) -> thread_arcs (server_mem s) !! ud_object u = Some (n, h) ->
  sref_from_raw ThreadType (h_raw h) = r ->
  runqueue s2 = runqueue s -> current s2 = current s ->
  (forall x, x ∈ k_issued (ext s2) -> x ∈ k_issued (ext s)) ->
  (forall x, x ∈ k_issued (ext s) -> x <> r -> x ∈ k_issued (ext s2)) ->
  objs_kept (loc ++ k_issued (ext s2) ++ runqueue s ++ current_ref s) s s2 ->
  user_data (server_mem s2) = delete ctx (user_data (server_mem s)) ->
  (forall p, p <> ud_object u -> thread_arcs (server_mem s2) !! p = thread_arcs (server_mem s) !! p) ->
  server_data (server_mem s2) = server_data (server_mem s) -> lx_inv (store s2) (ext s2).
Proof.
  intros Hi Hlx Hi2 [ct Et] Hdead Hud Harc Hraw Hq Hc Hsub Hoth Hobj Hud2 Harc2 Hsd.
  assert (forall p o, p ∈ loc ++ k_issued (ext s2) ++ runqueue s ++ current_ref s -> obj_at s2 p o -> obj_at s p o) as Hback.
  { intros p o Hp Ho. destruct (obj_live loc s p Hi) as [o0 Ho0]; [set_solver|].
    by rewrite (obj_at_inj s2 p o o0 Ho (Hobj p o0 Hp Ho0)). }
  assert (forall p c tp, store s2 !! p = Some (mkRefCounted c (OThread tp)) -> active tp -> p <> r /\ exists c',
    store s !! p = Some (mkRefCounted c' (OThread tp))) as Hth.
  { intros p c tp E Ha. assert (p ∈ roots loc s2) as Hp by (eapply thread_roots; [exact Hi2|by exists c]).
    unfold current_ref in Hp. rewrite Hq, Hc in Hp. fold (current_ref s) in Hp.
    destruct (Hback p (OThread tp) Hp ltac:(by exists c)) as [c' E']. split; [|by exists c'].
    intros ->. rewrite Et in E'. injection E' as _ ->. done. }
  assert (forall p c tp, store s !! p = Some (mkRefCounted c (OThread tp)) -> active tp -> p <> r -> t_upcall tp <> ctx) as Hctx.
  { intros p c tp E Ha Hne Hup. destruct (lxi_threads _ _ Hlx p c tp E Ha) as (u' & n' & h' & _ & Hu' & Ha' & _ & _ & _ & Hr' & _).
    rewrite Hup in Hu'. pose proof (eq_trans (eq_sym Hud) Hu') as [= <-].
    pose proof (eq_trans (eq_sym Harc) Ha') as [= <- <-]. congruence. }
  split.
  - intros p c tp E Ha. destruct (Hth p c tp E Ha) as (Hne & c' & E').
    destruct (lxi_threads _ _ Hlx p c' tp E' Ha) as (u' & n' & h' & pr & Hu' & Ha' & Hn' & Hty & Hri & Hr' & Hin & Hpr).
    exists u', n', h', pr. fold (server_mem s2). rewrite Hud2, lookup_delete_ne by (by apply not_eq_sym, (Hctx p c' tp)).
    rewrite Harc2, Hsd; [split_and!; try done; auto|].
    intros Eo. unfold server_mem in *. rewrite Eo, Harc in Ha'. injection Ha' as <- <-. congruence.
  - intros p c tp u' pr E Ha. destruct (Hth p c tp E Ha) as (Hne & c' & E'). fold (server_mem s2).
    rewrite Hud2, Hsd, lookup_delete_ne by (by apply not_eq_sym, (Hctx p c' tp)). by eapply (lxi_vmspace _ _ Hlx).
  - intros pid pr Hpr. fold (server_mem s2) in Hpr. rewrite Hsd in Hpr.
    destruct (lxi_spaces _ _ Hlx pid pr Hpr) as (? & ? & Hin & Hty). split_and!; try done.
    + apply Hoth; [done|]. intros Ev. rewrite Ev in Hty. by pose proof (Hty _ _ Et).
    + intros c o E. assert (space_of_process pr ∈ k_issued (ext s2)) as Hin2.
      { apply Hoth; [done|]. intros Ev. rewrite Ev in Hty. by pose proof (Hty _ _ Et). }
      destruct (Hback (space_of_process pr) o ltac:(set_solver) (ex_intro _ c E)) as [c' E']. by eapply Hty.
Qed.

End Changes.

Section LxSteps.
Context {P : Profile} {L : RefLayout} {B : BootPdpt} {Mc : Type} `{MachineLaws Mc}.
Context (galloc : RefStore KObject -> option Z) (try_reserve : RefStore KObject -> bool).
Abbreviation KS := (Sys (Kernel Mc (ApiMem ThreadContext LxServer))).
Context (invoke : Upcall -> UpcallArg -> M KS unit) (FTL_LOG_PREFIX : list Z).
Abbreviation si := (START_INFO galloc try_reserve invoke).
Implicit Types s : KS.

Abbreviation line := (line FTL_LOG_PREFIX).

Lemma print_quiet loc s text :
  kinv loc s -> exists s', info si FTL_LOG_PREFIX text s = Ret (tt, s') /\ quiet loc s s' /\
    k_console (ext s') = k_console (ext s) ++ line text.
Proof.
  intros Hi. destruct (call_print_spec loc s (FTL_LOG_PREFIX ++ text ++ [10]) Hi)
    as (s' & E & St & Hst & Hq & Hm & Hiss & Hsv & Hc).
  exists s'. split; [exact E|]. split; [|done]. split; try done; [|by rewrite Hm..].
  intros p o _ [c Ho]. exists c. by rewrite Hst.
Qed.

(** A read of a range that is mapped returns what is there. *)
Lemma read_all loc s sid uaddr buf bs ibytes :
  kinv loc s -> user_bytes s sid uaddr bs -> (length bs <= length buf)%nat ->
  length bs = length buf \/ (forall va, uaddr + len bs <= va -> ~ mapped s sid va) ->
  user_bytes s sid uaddr ibytes -> length ibytes = length buf -> bs ++ drop (length bs) buf = ibytes.
Proof.
  intros Hi Hb Hle Hend Hib Hl.
  assert (length bs = length buf) as Hfull.
  { destruct Hend as [?|Hgap]; [done|]. destruct (decide (length bs < length buf)%nat) as [Hlt|]; [|lia].
    destruct (lookup_lt_is_Some_2 ibytes (length bs)) as [b Hbs]; [lia|].
    exfalso. apply (Hgap (uaddr + len bs)); [lia|]. exists b. by apply Hib. }
  rewrite drop_ge, app_nil_r by lia. apply (user_bytes_inj loc s sid uaddr); [done..|]. lia.
Qed.

(** What [sys_write] needs of the state. *)
Definition can_read loc s (h : Handle) (sid : Z) : Prop :=
  kinv loc s /\ krefs loc s + 1 < 2 ^ 64 /\ space_handle s h sid.

Lemma can_read_quiet loc s s' h sid : quiet loc s s' -> can_read loc s h sid -> can_read loc s' h sid.
Proof.
  intros Hq (Hi & Hn & Hh). pose proof (quiet_refs _ _ _ Hq). split; [by eapply quiet_inv|].
  split; [lia|]. by eapply quiet_space_handle.
Qed.

(** The loop of [sys_write].  On success the lines printed are those of the
    bytes the program has there, and the range ends within 256 bytes of the
    user half; on failure some byte of it is not mapped. *)
Lemma write_chunks_spec loc h sid fuel : forall s uaddr remaining chunk,
  can_read loc s h sid -> 0 <= uaddr < 2 ^ 64 -> 0 <= remaining < 2 ^ 64 ->
  remaining <= 256 * Z.of_nat fuel -> length chunk = 256%nat ->
  exists r out s', write_chunks si FTL_LOG_PREFIX fuel h uaddr remaining chunk s = Ret (r, s') /\ quiet loc s s' /\
    k_console (ext s') = k_console (ext s) ++ out /\
    match r with
    | Ok _ => (0 < remaining -> uaddr + remaining < 2 ^ 47 + 256) /\
        forall bs, user_bytes s sid uaddr bs -> len bs = remaining -> write_log FTL_LOG_PREFIX bs out
    | Err e => e = EFAULT /\ exists i, 0 <= i < remaining /\ ~ mapped s sid (uaddr + i)
    end.
Proof.
  induction fuel as [|fuel IH]; intros s uaddr remaining chunk Hc Hu Hrem Hfuel Hch; cbn [write_chunks];
    destruct (Z.leb_spec remaining 0); try lia.
  1, 2: exists (Ok tt), [], s; split; [done|]; split; [apply quiet_refl, Hc|]; split; [by rewrite app_nil_r|];
    split; [lia|]; intros [|b bs] _ Hl; [constructor|simpl in Hl; lia].
  rewrite Hch. set (n := Z.min remaining 256). pose proof Hc as (Hi & Hn & Hh).
  assert (length (take (Z.to_nat n) chunk) = Z.to_nat n) as Htk by (rewrite length_take; lia).
  destruct (read_user loc s h sid uaddr (take (Z.to_nat n) chunk)) as (r & bs & s1 & E & Hq1 & Hcon1 & Hl & Hr);
    [done..|].
  change (Z.of_nat 256) with 256. fold n. rewrite (bind_run _ _ _ _ _ E). destruct r as [u|e]; cbn [is_err].
  2: { exists (Err EFAULT), [], s1. split; [done|]. split; [done|]. split; [by rewrite app_nil_r|]. split; [done|].
       destruct Hr as (i & Hi' & Hun). exists i. split; [lia|done]. }
  destruct Hr as (Hne & Hbs & Hend).
  assert (bs <> []) as Hbs0 by (apply Hne; intros Hnil; rewrite Hnil in Htk; simpl in Htk; lia). set (buf := bs ++ drop (length bs) (take (Z.to_nat n) chunk)) in *.
  assert (0 <= uaddr < 2 ^ 47) as Hlow.
  { destruct bs as [|b bs]; [done|]. apply (mapped_bound loc s sid); [done|]. exists b.
    rewrite <- (Z.add_0_r uaddr). by apply (Hbs 0%nat). }
  assert (length buf = Z.to_nat n) as Hbl by (unfold buf; rewrite length_app, length_drop; lia).
  destruct (print_quiet loc s1 (write_text buf)) as (s2 & E2 & Hq2 & Hcon2); [by eapply quiet_inv|].
  rewrite (bind_run _ _ _ _ _ E2). pose proof (quiet_trans _ _ _ _ Hq1 Hq2) as Hq12.
  rewrite (bind_lift _ _ _ (uaddr + n)) by (apply usize_add_ok; lia).
  rewrite (bind_lift _ _ _ (remaining - n)) by (apply usize_sub_ok; lia).
  destruct (IH s2 (uaddr + n) (remaining - n) (buf ++ drop (Z.to_nat n) chunk)) as (r & out & s3 & E3 & Hq3 & Hcon3 & Hr);
    [by eapply can_read_quiet|lia|lia|lia|rewrite length_app, length_drop; lia|].
  rewrite E3. exists r, (line (write_text buf) ++ out), s3. split; [done|]. split; [by eapply quiet_trans|].
  split; [by rewrite Hcon3, Hcon2, Hcon1, app_assoc|]. destruct r as [u'|e].
  - destruct Hr as [Hbound Hlog]. split; [intros _; destruct (Z.ltb_spec 0 (remaining - n)); lia|].
    intros bs0 Hu0 Hl0. rewrite <- (take_drop (Z.to_nat n) bs0) in Hu0 |- *.
    apply user_bytes_app in Hu0 as [Hb1 Hb2]. rewrite length_take in Hb2.
    assert (buf = take (Z.to_nat n) bs0) as ->.
    { apply (read_all loc s sid uaddr (take (Z.to_nat n) chunk)); try done. rewrite length_take. lia. }
    apply wl_chunk.
    + rewrite length_take. lia.
    + intros Hd. rewrite length_take. destruct (decide (drop (Z.to_nat n) bs0 = [])) as [|Hd']; [done|].
      assert (length (drop (Z.to_nat n) bs0) <> 0%nat) as Hd0 by (by intros ?%length_zero_iff_nil).
      rewrite length_drop in Hd0. lia.
    + apply Hlog; [|rewrite length_drop; lia]. eapply quiet_bytes; [exact Hq12|].
      replace (uaddr + n) with (uaddr + Z.of_nat (Z.to_nat n `min` length bs0)) by lia. done.
  - destruct Hr as (-> & i & Hi' & Hun). split; [done|]. exists (n + i). split; [lia|].
    rewrite Z.add_assoc. by rewrite <- (quiet_mapped _ _ _ _ _ Hq12).
Qed.

Lemma sys_write_spec loc s process sid fd uaddr count :
  can_read loc s (p_vmspace process) sid -> - 2 ^ 63 <= count < 2 ^ 63 ->
  exists r out s', sys_write si FTL_LOG_PREFIX process fd uaddr count s = Ret (r, s') /\ quiet loc s s' /\
    k_console (ext s') = k_console (ext s) ++ out /\
    if negb (fd =? 1) && negb (fd =? 2) then r = Err EBADF /\ out = []
    else
      match r with Ok v => v = count /\ 0 <= count < 2 ^ 47 + 256 | Err e => e = EFAULT end /\
      (forall bs, user_bytes s sid (as_usize uaddr) bs -> len bs = count ->
        r = Ok count /\ write_log FTL_LOG_PREFIX bs out).
Proof.
  intros Hc Hcount. unfold sys_write. destruct (negb (fd =? 1) && negb (fd =? 2)).
  { exists (Err EBADF), [], s. split; [done|]. split; [apply quiet_refl, Hc|]. by rewrite app_nil_r. }
  pose proof (as_usize_range count) as Hrem. pose proof (as_usize_range uaddr) as Hu.
  assert (as_usize count <= 256 * Z.of_nat (Z.to_nat (as_usize count / 256 + 1))) as Hfuel.
  { pose proof (Z.div_mod (as_usize count) 256 ltac:(lia)). pose proof (Z.mod_pos_bound (as_usize count) 256 ltac:(lia)).
    pose proof (Z.div_pos (as_usize count) 256 ltac:(lia) ltac:(lia)). lia. }
  destruct (write_chunks_spec loc (p_vmspace process) sid _ s (as_usize uaddr) (as_usize count) (replicate 256 0)
    Hc Hu Hrem Hfuel (length_replicate _ _)) as (r & out & s' & E & Hq & Hcon & Hr).
  unfold bindr. rewrite (bind_run _ _ _ _ _ E). destruct r as [u|e].
  - exists (Ok count), out, s'. split; [done|]. split; [done|]. split; [done|]. destruct Hr as [Hbound Hlog].
    assert (0 <= count < 2 ^ 47 + 256) as Hc0.
    { destruct (Z.ltb_spec count 0).
      - rewrite as_usize_neg in Hbound by lia. lia.
      - rewrite as_usize_nonneg in Hbound by lia. destruct (Z.eqb_spec count 0); lia. }
    split; [done|]. intros bs Hbs Hl. split; [done|]. apply Hlog; [done|]. rewrite as_usize_nonneg by lia. done.
  - destruct Hr as (-> & i & Hi & Hun). exists (Err EFAULT), out, s'. split; [done|]. split; [done|]. split; [done|].
    split; [done|]. intros bs Hbs Hl. exfalso. apply Hun. rewrite as_usize_nonneg in Hi by lia.
    destruct (lookup_lt_is_Some_2 bs (Z.to_nat i)) as [b Hb]; [lia|]. exists b.
    replace i with (Z.of_nat (Z.to_nat i)) by lia. by apply Hbs.
Qed.

Lemma iov_data_quiet loc s s' sid iovecs datas : quiet loc s s' -> iov_data s sid iovecs datas -> iov_data s' sid iovecs datas.
Proof.
  intros Hq Hd. eapply Forall2_impl; [exact Hd|]. intros iov d (? & ? & Hb & ?). do 2 (split; [done|]). split; [by eapply quiet_bytes|done].
Qed.

Lemma isize_add_ok a b : - 2 ^ 63 <= a + b < 2 ^ 63 -> isize_add a b = Ret (a + b).
Proof.
  intros Hab. unfold isize_add. by rewrite (proj2 (Z.leb_le _ _)), (proj2 (Z.ltb_lt _ _)) by lia.
Qed.

Lemma write_iovecs_spec loc process sid fd iovecs : forall s total,
  negb (fd =? 1) && negb (fd =? 2) = false ->
  can_read loc s (p_vmspace process) sid -> 0 <= total -> total + (2 ^ 47 + 256) * len iovecs < 2 ^ 63 ->
  exists r out s', write_iovecs si FTL_LOG_PREFIX process fd total iovecs s = Ret (r, s') /\ quiet loc s s' /\
    k_console (ext s') = k_console (ext s) ++ out /\
    match r with Ok v => 0 <= v < 2 ^ 63 | Err e => e = EFAULT end /\
    (forall datas, iov_data s sid iovecs datas -> r = Ok (total + total_len datas) /\ writev_log FTL_LOG_PREFIX datas out).
Proof.
  induction iovecs as [|iov iovecs IH]; intros s total Hfd Hc H0' Hsum; cbn [write_iovecs].
  { exists (Ok total), [], s. split; [done|]. split; [apply quiet_refl, Hc|]. split; [by rewrite app_nil_r|].
    split; [simpl in Hsum; lia|]. intros datas Hd. inversion Hd; subst. rewrite Z.add_0_r. split; [done|constructor]. }
  cbn [length] in Hsum. rewrite Nat2Z.inj_succ in Hsum.
  destruct (sys_write_spec loc s process sid fd (as_isize (iov_base iov)) (as_isize (iov_len iov)) Hc (as_isize_range _))
    as (r & out & s1 & E & Hq & Hcon & Hr). rewrite Hfd in Hr. destruct Hr as [Hr Hdata].
  unfold bindr. rewrite (bind_run _ _ _ _ _ E). destruct r as [n|e].
  2: { exists (Err e), out, s1. split; [done|]. split; [done|]. split; [done|]. split; [done|]. intros datas Hd.
       inversion Hd as [|? d ? ds (Hb & Hl & Hu & Hlen) Hds]; subst.
       destruct (Hdata d) as [? _]; [by rewrite as_usize_isize by lia|by rewrite as_isize_small by lia|done]. }
  destruct Hr as [-> Hn]. rewrite (bind_lift _ _ _ (total + as_isize (iov_len iov))) by (apply isize_add_ok; nia).
  destruct (IH s1 (total + as_isize (iov_len iov))) as (r & out' & s2 & E2 & Hq2 & Hcon2 & Hr & Hdata2);
    [done|by eapply can_read_quiet|lia|lia|].
  exists r, (out ++ out'), s2. split; [done|]. split; [by eapply quiet_trans|].
  split; [by rewrite Hcon2, Hcon, app_assoc|]. split; [done|]. intros datas Hd.
  inversion Hd as [|? d ? ds (Hb & Hl & Hu & Hlen) Hds]; subst.
  destruct (Hdata d) as [_ Hlog]; [by rewrite as_usize_isize by lia|by rewrite as_isize_small by lia|].
  destruct (Hdata2 ds) as [-> Hlogs]; [by eapply iov_data_quiet|].
  split; [|by constructor]. simpl. rewrite Hlen, as_isize_small, Z.add_assoc by lia. done.
Qed.

Lemma sys_writev_spec loc s process sid fd iov_uaddr iovcnt :
  can_read loc s (p_vmspace process) sid -> 0 <= iovcnt < 2 ^ 63 ->
  exists r out s', sys_writev si FTL_LOG_PREFIX process fd iov_uaddr iovcnt s = Ret (r, s') /\ quiet loc s s' /\
    k_console (ext s') = k_console (ext s) ++ out /\
    if negb (fd =? 1) && negb (fd =? 2) then r = Err EBADF /\ out = []
    else if 16 <? iovcnt then r = Err EINVAL /\ out = []
    else
      match r with Ok v => 0 <= v < 2 ^ 63 | Err e => e = EFAULT end /\
      (forall ibytes datas, user_bytes s sid (as_usize iov_uaddr) ibytes -> len ibytes = 16 * iovcnt ->
        iov_data s sid (iovecs_of (Z.to_nat iovcnt) ibytes) datas ->
        r = Ok (total_len datas) /\ writev_log FTL_LOG_PREFIX datas out).
Proof.
  intros Hc Hcnt. unfold sys_writev. pose proof Hc as (Hi & Hn & Hh). pose proof (quiet_refl loc s Hi) as Hrefl.
  destruct (negb (fd =? 1) && negb (fd =? 2)) eqn:Hfd.
  { exists (Err EBADF), [], s. by rewrite app_nil_r. }
  destruct (Z.ltb_spec 16 iovcnt).
  { exists (Err EINVAL), [], s. by rewrite app_nil_r. }
  rewrite as_usize_nonneg by lia. rewrite (bind_lift _ _ _ (iovcnt * 16)) by (apply usize_mul_ok; lia).
  rewrite (proj2 (Z.ltb_ge 256 _)) by lia. set (k := Z.to_nat (iovcnt * 16)).
  assert (length (take k (replicate 256 0)) = k) as Hk by (rewrite length_take, length_replicate; lia).
  destruct (read_user loc s (p_vmspace process) sid (as_usize iov_uaddr) (take k (replicate 256 0)))
    as (r & bs & s1 & E & Hq & Hcon & Hl & Hr); [done..|apply as_usize_range|].
  rewrite (bind_run _ _ _ _ _ E). destruct r as [u|e]; cbn [is_err].
  2: { exists (Err EFAULT), [], s1. split; [done|]. split; [done|]. split; [by rewrite app_nil_r|]. split; [done|].
       intros ibytes datas Hib Hil. destruct Hr as (i & Hi' & Hun). exfalso. apply Hun.
       destruct (lookup_lt_is_Some_2 ibytes (Z.to_nat i)) as [b Hb]; [lia|]. exists b.
       replace i with (Z.of_nat (Z.to_nat i)) by lia. by apply Hib. }
  destruct Hr as (_ & Hbs & Hend). set (bytes := bs ++ drop (length bs) (take k (replicate 256 0))) in *.
  assert (length bytes = (16 * Z.to_nat iovcnt)%nat) as Hbl by (unfold bytes; rewrite length_app, length_drop; lia).
  rewrite (bind_lift _ _ _ (iovecs_of (Z.to_nat iovcnt) bytes)).
  2: { unfold slice_index. rewrite slice_get_ok by (rewrite ?length_iovecs; lia).
       rewrite drop_0, Z.sub_0_r, iovecs_take, iovecs_app by lia. done. }
  destruct (write_iovecs_spec loc process sid fd (iovecs_of (Z.to_nat iovcnt) bytes) s1 0)
    as (r & out & s2 & E2 & Hq2 & Hcon2 & Hr & Hdata); [done|by eapply can_read_quiet|lia|rewrite length_iovecs; lia|].
  exists r, out, s2. split; [done|]. split; [by eapply quiet_trans|]. split; [by rewrite Hcon2, Hcon|].
  split; [done|]. intros ibytes datas Hib Hil Hd. apply (Hdata datas). eapply iov_data_quiet; [exact Hq|].
  replace bytes with ibytes; [done|]. symmetry.
  apply (read_all loc s sid (as_usize iov_uaddr)); try done. rewrite Hk. lia.
Qed.

(** ** The upcall *)

Lemma thread_checked (h : Handle) s r t :
  handle_of s h r (OThread t) -> h_right h = Thread_DEFAULT_RIGHT ->
  is_type h ThreadType = true /\ authorize h RIGHT_READ = true /\ authorize h RIGHT_WRITE = true.
Proof.
  intros (_ & _ & _ & Ht) Hr. unfold authorize. rewrite Hr. split; [|done]. by apply bool_decide_eq_true.
Qed.

Lemma set_context_changed loc s r t h process sid kind regs a :
  in_syscall loc s r t h process sid -> arch_write_context (t_arch t) kind regs = Ret a ->
  (forall t, exists a, arch_write_context t kind regs = Ret a) ->
  exists s', Thread_set_context si h kind regs s = Ret (Ok tt, s') /\ changed 0 loc [] s s' r (with_arch t a) /\
    k_console (ext s') = k_console (ext s).
Proof.
  intros [Hi Hn Hh Hr Hb Hu Hsp] Ha Hregs. destruct (thread_checked h s r t Hh Hr) as (HT & _ & HW).
  destruct (call_thread_set_context_spec loc s h r (OThread t) kind regs Hi ltac:(lia) Hh Hregs)
    as (res & s' & E & St & Hq & Hx & Hres). unfold checked in Hres. rewrite HT, HW in Hres. cbn [negb] in Hres.
  destruct Hres as (t0 & a0 & [= <-] & Ha0 & -> & Hobj). rewrite Ha in Ha0. injection Ha0 as <-.
  rewrite bool_decide_true in Hobj, E by done. exists s'. split; [exact E|]. split; [|by rewrite Hx].
  split; try done; try (by rewrite Hx); [by rewrite app_nil_r|]. intros p o Hp Ho.
  pose proof (Hobj p o Hp Ho) as Ho'. by rewrite andb_true_r in Ho'.
Qed.

Lemma lx_handle_syscall_spec loc s r t h process sid :
  in_syscall loc s r t h process sid -> syscall_ready t ->
  exists o out s' t', lx_handle_syscall si FTL_LOG_PREFIX process h (args_of (t_arch t)) s = Ret (o, s') /\
    changed 0 loc [] s s' r t' /\ k_console (ext s') = k_console (ext s) ++ out /\
    match o with
    | Exit => is_exit (args_of (t_arch t)) = true /\ t' = set_mutable t Terminated (in_upcalls t) /\
        out = line (str "exited with code " ++ fmt_i32 (to_signed 32 (wrap 32 (rdi (t_arch t)))))
    | Done res => is_exit (args_of (t_arch t)) = false /\ exists a', t' = with_arch t a' /\
        syscall_effect FTL_LOG_PREFIX s sid (args_of (t_arch t)) (t_arch t) res a' out
    end.
Proof.
  intros Hs (R0 & R1 & R2 & R3 & Hwv). pose proof Hs as [Hi Hn Hh Hr Hb Hu Hsp]. set (args := args_of (t_arch t)) in *.
  assert (thread_at s r t) as Ht by apply Hh. unfold lx_handle_syscall. fold (is_exit args).
  assert (can_read loc s (p_vmspace process) sid) as Hc by (split; [done|split; [lia|done]]).
  assert (forall res out s', quiet loc s s' -> syscall_effect FTL_LOG_PREFIX s sid args (t_arch t) res (t_arch t) out ->
    changed 0 loc [] s s' r t /\ exists a', t = with_arch t a' /\
      syscall_effect FTL_LOG_PREFIX s sid args (t_arch t) res a' out) as Hquiet.
  { intros res out s' Hq He. split; [by apply quiet_changed|]. exists (t_arch t). split; [by destruct t|done]. }
  destruct (is_exit args).
  { destruct (print_quiet loc s (str "exited with code " ++ fmt_i32 (to_signed 32 (wrap 32 (arg0 args)))) Hi)
      as (s1 & E1 & Hq1 & Hc1). rewrite (bind_run _ _ _ _ _ E1).
    pose proof (quiet_refs _ _ _ Hq1). destruct (thread_checked h s r t Hh Hr) as (_ & _ & HW).
    destruct (call_thread_terminate_busy_spec invoke loc s1 h r t) as (s2 & E2 & St & Hq & Hx & Hobj);
      [by eapply quiet_inv|lia|by eapply quiet_handle|done|congruence|done|].
    unfold expect. rewrite (bind_run _ _ _ tt s2) by (by rewrite (bind_run _ _ _ _ _ E2)).
    eexists Exit, _, s2, _. split; [reflexivity|]. split; [|split; [by rewrite Hx|done]].
    change 0 with (0 + 0). eapply changed_trans; [by apply quiet_changed|].
    split; try done; try (by rewrite Hx). by rewrite app_nil_r. }
  unfold syscall_effect in *. destruct (sa_n args =? SYS_WRITE).
  { destruct (sys_write_spec loc s process sid (arg0 args) (as_isize (arg1 args)) (as_isize (arg2 args)) Hc (as_isize_range _))
      as (res & out & s' & E & Hq & Hcon & He). rewrite (bind_run _ _ _ _ _ E). exists (Done res), out, s', t.
    split; [done|]. destruct (Hquiet res out s') as [? ?]; [done| |done]. split; [done|].
    unfold write_effect, bad_fd. destruct (negb (arg0 args =? 1) && negb (arg0 args =? 2)); [done|].
    rewrite as_usize_isize in He by done. destruct He as [Hres Hdata]. split; [destruct res; [split; [|lia]|]; tauto|].
    intros bs Hbs Hl. rewrite Hl. by apply Hdata. }
  destruct (Z.eqb_spec (sa_n args) SYS_WRITEV) as [Hw|_].
  { unfold writev_effect in *. destruct (bad_fd (arg0 args)) eqn:Hfd.
    { unfold sys_writev. fold (bad_fd (arg0 args)). rewrite Hfd, bind_ret. exists (Done (Err EBADF)), [], s, t.
      split; [done|]. destruct (Hquiet (Err EBADF) [] s) as [? ?]; [by apply quiet_refl|done|]. by rewrite app_nil_r. }
    assert (0 <= as_isize (arg2 args)) as H0' by (apply Z.nlt_ge; intros ?; by apply Hwv).
    pose proof (as_isize_range (arg2 args)).
    destruct (sys_writev_spec loc s process sid (arg0 args) (as_isize (arg1 args)) (as_isize (arg2 args)) Hc ltac:(lia))
      as (res & out & s' & E & Hq & Hcon & He). rewrite (bind_run _ _ _ _ _ E). exists (Done res), out, s', t.
    split; [done|]. destruct (Hquiet res out s') as [? ?]; [done| |done]. split; [done|].
    fold (bad_fd (arg0 args)) in He. rewrite Hfd, as_usize_isize in He by done.
    destruct (16 <? as_isize (arg2 args)); [done|]. destruct He as [Hres Hdata]. split; [destruct res; [lia|done]|done]. }
  destruct (sa_n args =? SYS_ARCH_PRCTL).
  { unfold sys_arch_prctl. destruct (as_isize (arg0 args) =? ARCH_SET_FS).
    - rewrite as_usize_isize by done.
      destruct (set_context_changed loc s r t h process sid KindFsbase (of_fsbase (mkFsBase (arg1 args))) _ Hs eq_refl)
        as (s' & E & Hch & Hcon); [by eexists|].
      rewrite (bind_run _ _ _ (Ok 0) s') by (by rewrite (bind_run _ _ _ _ _ E)).
      eexists (Done (Ok 0)), [], s', _. split; [reflexivity|]. split; [done|]. split; [by rewrite app_nil_r|].
      split; [done|]. eexists. split; [done|]. done.
    - rewrite bind_ret. exists (Done (Err ENOSYS)), [], s, t. split; [done|].
      destruct (Hquiet (Err ENOSYS) [] s) as [? ?]; [by apply quiet_refl|done|]. by rewrite app_nil_r. }
  destruct (sa_n args =? SYS_SET_TID_ADDRESS).
  { rewrite bind_ret. exists (Done (Ok 1000)), [], s, t. split; [done|].
    destruct (Hquiet (Ok 1000) [] s) as [? ?]; [by apply quiet_refl|done|]. by rewrite app_nil_r. }
  destruct (print_quiet loc s (ESC "[33mWARN" ++ ESC "[0m " ++ str "unimplemented syscall: nr=" ++ fmt_hex_u64 (sa_n args)) Hi)
    as (s1 & E1 & Hq1 & Hc1). rewrite (bind_run _ _ _ (Err ENOSYS) s1) by (by rewrite (bind_run _ _ _ _ _ E1)).
  eexists (Done (Err ENOSYS)), _, s1, t. split; [reflexivity|].
  destruct (Hquiet (Err ENOSYS) _ s1 Hq1 (conj eq_refl (conj eq_refl eq_refl))) as [? ?]. done.
Qed.

Lemma unblock_changed loc s r t h process sid :
  in_syscall loc s r t h process sid -> try_reserve (store s) = true ->
  exists s', Thread_unblock si h s = Ret (Ok tt, s') /\
    changed 1 loc [r] s s' r (set_mutable t Runnable (in_upcalls t)) /\ k_console (ext s') = k_console (ext s).
Proof.
  intros [Hi Hn Hh Hr Hb Hu Hsp] Hres. destruct (thread_checked h s r t Hh Hr) as (HT & _ & HW).
  destruct (call_thread_unblock_spec try_reserve loc s h r (OThread t) Hi Hn Hh) as (res & s' & E & St & Hx & Hck).
  unfold checked in Hck. rewrite HT, HW in Hck. cbn [negb] in Hck. destruct Hck as (t0 & [= <-] & -> & Hq & Hobj).
  rewrite Hres, bool_decide_true in Hq, Hobj, E by done. exists s'. split; [exact E|]. split; [|by rewrite Hx].
  split; try done; try (by rewrite Hx). intros p o Hp Ho. pose proof (Hobj p o Hp Ho) as Ho'.
  by rewrite andb_true_r in Ho'.
Qed.

Lemma get_context_quiet loc s r t h process sid :
  in_syscall loc s r t h process sid ->
  exists s', Thread_get_context si h KindSyscallArgs (of_syscall_args SyscallArgs_zeroed) s =
      Ret (Ok (of_syscall_args (args_of (t_arch t))), s') /\ quiet loc s s' /\ k_console (ext s') = k_console (ext s).
Proof.
  intros [Hi Hn Hh Hr Hb Hu Hsp]. destruct (thread_checked h s r t Hh Hr) as (HT & HR & _).
  destruct (call_thread_get_context_spec loc s h r (OThread t) KindSyscallArgs (of_syscall_args SyscallArgs_zeroed)
    Hi ltac:(lia) Hh) as (res & s' & E & St & Hq & Hx & Hobj & Hck).
  unfold checked in Hck. rewrite HT, HR in Hck. cbn [negb] in Hck. destruct Hck as (t0 & [= <-] & ->).
  rewrite bool_decide_true in E by done. exists s'. split; [exact E|]. split; [|by rewrite Hx].
  split; try done; by rewrite Hx.
Qed.

Lemma syscall_effect_quiet loc s s' sid args a res a' out :
  quiet loc s s' -> syscall_effect FTL_LOG_PREFIX s' sid args a res a' out ->
  syscall_effect FTL_LOG_PREFIX s sid args a res a' out.
Proof.
  intros Hq. unfold syscall_effect. destruct (sa_n args =? SYS_WRITE).
  { intros [-> He]. split; [done|]. unfold write_effect in *. destruct (bad_fd (arg0 args)); [done|].
    destruct He as [? Hd]. split; [done|]. intros bs Hbs. apply Hd. by eapply quiet_bytes. }
  destruct (sa_n args =? SYS_WRITEV); [|done].
  intros [-> He]. split; [done|]. unfold writev_effect in *. destruct (bad_fd (arg0 args)); [done|].
  destruct (16 <? as_isize (arg2 args)); [done|]. destruct He as [? Hd]. split; [done|]. intros ibytes datas Hib Hl Hdata.
  apply (Hd ibytes datas); [by eapply quiet_bytes|done|by eapply iov_data_quiet].
Qed.

(** A system call as the server handles it: the thread ends, or it is runnable
    again with the result in its register. *)
Lemma syscall_spec loc s r t h self process sid :
  (forall st, try_reserve st = true) ->
  in_syscall loc s r t h process sid -> syscall_ready t ->
  lx_processes (server_data (server_mem s)) !! tc_process self = Some process ->
  exists q out s' t', syscall si FTL_LOG_PREFIX self h s = Ret (tt, s') /\ changed 1 loc q s s' r t' /\
    k_console (ext s') = k_console (ext s) ++ out /\
    if is_exit (args_of (t_arch t)) then
      q = [] /\ t' = set_mutable t Terminated (in_upcalls t) /\
      out = line (str "exited with code " ++ fmt_i32 (to_signed 32 (wrap 32 (rdi (t_arch t)))))
    else
      q = [r] /\ exists res a1 a2, syscall_effect FTL_LOG_PREFIX s sid (args_of (t_arch t)) (t_arch t) res a1 out /\
        arch_write_context a1 KindSysret
          (of_sysret (mkSysret (as_usize (match res with Ok v => v | Err e => to_retval e end)))) = Ret a2 /\
        t' = set_mutable (with_arch t a2) Runnable (in_upcalls t).
Proof.
  intros Hres Hs Hready Hproc. pose proof (is_thread _ _ _ _ _ _ _ Hs) as Hh. unfold syscall.
  assert (thread_at s r t) as Ht by apply Hh.
  destruct (get_context_quiet loc s r t h process sid Hs) as (s1 & E1 & Hq1 & Hc1).
  rewrite (bind_run _ _ _ (of_syscall_args (args_of (t_arch t))) s1) by
    (unfold expect; by rewrite (bind_run _ _ _ _ _ E1)).
  rewrite (bind_lift _ _ _ (args_of (t_arch t))) by done.
  rewrite (bind_run _ _ _ process s1).
  2: { unfold process_of, mem_get, bind, server_mem. rewrite (q_server _ _ _ Hq1).
       unfold server_mem in Hproc. by rewrite Hproc. }
  assert (in_syscall loc s1 r t h process sid) as Hs1.
  { eapply in_syscall_changed; [exact Hs|by apply quiet_changed|apply Hs..]. }
  destruct (lx_handle_syscall_spec loc s1 r t h process sid Hs1 Hready) as (o & out & s2 & t2 & E2 & Hch & Hc2 & Ho).
  rewrite (bind_run _ _ _ _ _ E2).
  pose proof (changed_trans _ _ _ _ _ _ _ _ _ _ (quiet_changed _ _ _ _ _ Hq1 Ht) Hch) as Hch2. rewrite Z.add_0_l in Hch2.
  destruct o as [res|].
  2: { destruct Ho as (-> & -> & ->). eexists [], _, s2, _. split; [reflexivity|]. split; [|by rewrite Hc2, Hc1].
       destruct Hch2 as [K ? ? ? ? ? ?]. split; try done. by apply (kstep_weaken 0). }
  destruct Ho as (-> & a1 & -> & He). set (v := match res with Ok v => v | Err e => to_retval e end).
  assert (in_syscall loc s2 r (with_arch t a1) h process sid) as Hs2 by (eapply in_syscall_changed; [exact Hs|done|apply Hs..]).
  destruct (set_context_changed loc s2 r _ h process sid KindSysret (of_sysret (mkSysret (as_usize v))) _ Hs2 eq_refl)
    as (s3 & E3 & Hch3 & Hc3); [by eexists|].
  unfold expect at 1. rewrite (bind_run _ _ _ tt s3) by (by rewrite (bind_run _ _ _ _ _ E3)).
  assert (in_syscall loc s3 r _ h process sid) as Hs3 by (eapply in_syscall_changed; [exact Hs2|exact Hch3|apply Hs..]).
  destruct (unblock_changed loc s3 r _ h process sid Hs3 (Hres _)) as (s4 & E4 & Hch4 & Hc4).
  eexists [r], out, s4, _. split; [unfold expect; rewrite (bind_run _ _ _ _ _ E4); reflexivity|].
  split; [change 1 with (0 + (0 + 1)); eapply changed_trans; [exact Hch2|eapply changed_trans; [exact Hch3|exact Hch4]]|].
  split; [by rewrite Hc4, Hc3, Hc2, Hc1|]. split; [done|]. eexists res, a1, _.
  split; [by eapply syscall_effect_quiet|]. split; [reflexivity|]. done.
Qed.

(** ** The rules of the kernel *)

(** The syscall upcall. *)
Lemma lx_syscall_upcall loc s r t ctx :
  (forall st, try_reserve st = true) -> kinv loc s -> lx_inv (store s) (ext s) -> krefs loc s + 2 < 2 ^ 64 ->
  thread_at s r t -> t_upcall t = ctx -> t_state t = Blocked -> 0 < in_upcalls t -> syscall_ready t ->
  exists q out s' t', upcall_entry si FTL_LOG_PREFIX (lx_handler si FTL_LOG_PREFIX) ctx UpSyscall s = Ret (tt, s') /\
    changed 1 loc q s s' r t' /\ k_console (ext s') = k_console (ext s) ++ out /\
    if is_exit (args_of (t_arch t)) then
      q = [] /\ t' = set_mutable t Terminated (in_upcalls t) /\
      out = line (str "exited with code " ++ fmt_i32 (to_signed 32 (wrap 32 (rdi (t_arch t)))))
    else
      q = [r] /\ exists res a1 a2, syscall_effect FTL_LOG_PREFIX s (t_vmspace t) (args_of (t_arch t)) (t_arch t) res a1 out /\
        arch_write_context a1 KindSysret
          (of_sysret (mkSysret (as_usize (match res with Ok v => v | Err e => to_retval e end)))) = Ret a2 /\
        t' = set_mutable (with_arch t a2) Runnable (in_upcalls t).
Proof.
  intros Hres Hi Hlx Hn Ht <- Hb Hu Hready.
  assert (active t) as Hact by (left; congruence). destruct (id Ht) as [c Et].
  pose proof (lxi_threads _ _ Hlx _ _ _ Et Hact) as Hlive. set (ctx := t_upcall t) in *.
  destruct (upcall_handles loc s ctx r t Hi Hn Hlx Hlive Ht) as (u & n & h & process & Hud & Harc & _ & Hp & Hh & Hright & Hsp).
  assert (in_syscall loc s r t h process (space_of_process process)) as Hs by (by split).
  destruct (syscall_spec loc s r t h (ud_handler u) process _ Hres Hs Hready Hp) as (q & out & s' & t' & E & Hch & Hc & Hend).
  rewrite (lxi_vmspace _ _ Hlx _ _ _ _ _ Et Hact Hud Hp). exists q, out, s', t'. split; [|done].
  unfold upcall_entry. rewrite (bind_run _ _ _ _ _ (borrow_run s _ u Hud)).
  rewrite (bind_run _ _ _ _ _ (arc_get_run s _ _ Harc)). exact E.
Qed.

(** The upcall that ends a thread: its data are freed. *)
Lemma lx_terminated_upcall loc s r t ctx :
  kinv loc s -> lx_inv (store s) (ext s) -> krefs loc s + 2 < 2 ^ 64 -> r ∈ loc ->
  thread_at s r t -> live_data (ext s) ctx r -> ~ active t ->
  exists s', upcall_entry si FTL_LOG_PREFIX (lx_handler si FTL_LOG_PREFIX) ctx UpTerminated s = Ret (tt, s') /\
    kstep 0 loc s s' /\ lx_inv (store s') (ext s') /\ runqueue s' = runqueue s /\
    user_data (server_mem s') = delete ctx (user_data (server_mem s)) /\ k_console (ext s') = k_console (ext s).
Proof.
  intros Hi Hlx Hn Hr Ht Hlive Hdead.
  destruct (upcall_handles loc s ctx r t Hi Hn Hlx Hlive Ht) as (u & n & h & process & Hud & Harc & _ & Hp & Hh & Hright & _).
  unfold upcall_entry, UserData_reclaim. set (s1 := set_server s (mkApiMem (delete ctx (user_data (server_mem s)))
    (thread_arcs (server_mem s)) (server_data (server_mem s)))).
  rewrite (bind_run _ _ s u s1).
  2: { rewrite (bind_run _ _ _ _ _ (borrow_run s _ u Hud)). reflexivity. }
  rewrite (bind_run _ _ _ _ _ (arc_get_run s1 _ _ Harc)). cbn [lx_handler h_terminated]. unfold terminated. rewrite bind_ret.
  pose proof (set_server_step loc s (server_mem s1) Hi) as St1.
  destruct (arc_drop_spec galloc try_reserve invoke FTL_LOG_PREFIX loc s1 (ud_object u) n h r t) as (s2 & E & St2 & Hq & Hiss & Hsv & Hcon & Hobj);
    [apply St1|done|exact Hh|].
  exists s2. split; [exact E|]. split; [change 0 with (0 + 0); eapply kstep_trans; [exact St1|exact St2]|].
  split; [|split; [done|split; [by rewrite Hsv|done]]]. destruct Hlive as (u0 & n0 & h0 & p0 & Hud0 & Harc0 & _ & _ & _ & Hraw & _).
  change (user_data (server_mem s) !! ctx = Some (Some u0)) in Hud0. rewrite Hud in Hud0. injection Hud0 as <-.
  change (thread_arcs (server_mem s) !! ud_object u = Some (n0, h0)) in Harc0. rewrite Harc in Harc0. injection Harc0 as <- <-.
  destruct St2 as [Ki2 Kc2 _ _]. apply (lx_inv_without loc s s2 r t ctx u n h); try done.
  - rewrite Hiss. destruct (n =? 1); [|done]. intros x Hx. by eapply remove_first_sub.
  - rewrite Hiss. destruct (n =? 1); [|done]. intros x Hx Hne. by apply remove_first_other.
  - by rewrite Hsv.
  - intros p Hne. rewrite Hsv. simpl. destruct (n =? 1); [by rewrite lookup_delete_ne|by rewrite lookup_insert_ne].
  - by rewrite Hsv.
Qed.

End LxSteps.

(** * Theorems *)

Section Theorems.
Context {P : Profile} {L : RefLayout} {B : BootPdpt} {Mc : Type} `{MachineLaws Mc}.
Abbreviation KS := (Sys (Kernel Mc (ApiMem ThreadContext LxServer))).
Implicit Types s : KS.

Lemma lx_server_ok galloc try_reserve prefix depth :
  (forall st, try_reserve st = true) ->
  @server_ok L _ lx_ext 2 syscall_ready (lx_invoke galloc try_reserve prefix (S depth)).
Proof.
  intros Hres ctx arg r loc s Hi Hr [Hlive (t & Ht & Hctx & Hst)] Hn.
  apply lx_inv_split in Hi as [Hi Hlx]. cbn [lx_invoke]. destruct arg.
  - destruct Hst as (Hb & Hu & Hready).
    destruct (lx_syscall_upcall galloc try_reserve (lx_invoke galloc try_reserve prefix depth) prefix loc s r t ctx)
      as (q & out & s' & t' & E & Hch & _ & Hend); [done..|].
    exists s'. split; [exact E|]. destruct (id Hch) as [[Ki Kc Kt Kr] _ _ _ _ _ _].
    split; [apply lx_inv_split; split; [done|]|split; [done|split; [done|]]].
    2: { change (krefs loc s' <= krefs loc s + 2). lia. }
    eapply lx_inv_changed; [exact Hi|done|exact Hch|done| |exact Ht|].
    + destruct (is_exit _); destruct Hend as [-> _]; set_solver.
    + destruct (is_exit _); [destruct Hend as (_ & -> & _)|destruct Hend as (_ & res & a1 & a2 & _ & _ & ->)];
        (split_and!; [done..|]); intros _; left; congruence.
  - destruct Hst as [Hst Hu].
    destruct (lx_terminated_upcall galloc try_reserve (lx_invoke galloc try_reserve prefix depth) prefix loc s r t ctx)
      as (s' & E & [Ki Kc Kt Kr] & Hlx' & _); [done..| |].
    { intros [?|?]; [done|lia]. }
    exists s'. split; [exact E|]. split; [by apply lx_inv_split|]. split; [done|]. split; [done|].
    change (krefs loc s' <= krefs loc s + 2). lia.
Qed.


(** A system call up to the end of the server's handler: [t1] is the thread as
    the server left it. *)
Lemma lx_enter galloc try_reserve prefix depth s c t :
  (forall st, try_reserve st = true) ->
  @sys_inv L _ lx_ext (k_issued (ext s)) [c] s -> current_ref s = [c] -> thread_at s c t -> t_state t = Runnable ->
  in_upcalls t < 2 ^ 64 - 1 -> syscall_ready t -> total_refs (k_issued (ext s)) s + 5 < 2 ^ 64 ->
  let invoke := lx_invoke galloc try_reserve prefix (S depth) in
  let a := t_arch t in
  exists q out s1 t1, handle_syscall invoke true s =
      (do* terminate_now := end_upcall c in
       do* _ := (if terminate_now then invoke_upcall invoke c UpTerminated else ret tt) in
       do* _ := on_store (sref_drop c) in return_to_user true) s1 /\
    @sys_inv L _ lx_ext ([c] ++ k_issued (ext s1)) [] s1 /\ current s1 = None /\ thread_at s1 c t1 /\
    krefs [c] s1 <= total_refs (k_issued (ext s)) s + 1 /\ k_server (ext s1) = k_server (ext s) /\
    runqueue s1 = runqueue s ++ q /\
    (forall sid va b, user_byte s1 sid va b <-> user_byte s sid va b) /\
    k_console (ext s1) = k_console (ext s) ++ out /\
    if is_exit (args_of a) then
      q = [] /\ t1 = set_mutable t Terminated (in_upcalls t + 1) /\
      out = line prefix (str "exited with code " ++ fmt_i32 (to_signed 32 (wrap 32 (rdi a))))
    else
      q = [c] /\ exists res a1 a2, syscall_effect prefix s (t_vmspace t) (args_of a) a res a1 out /\
        arch_write_context a1 KindSysret
          (of_sysret (mkSysret (as_usize (match res with Ok v => v | Err e => to_retval e end)))) = Ret a2 /\
        t1 = set_mutable (with_arch t a2) Runnable (in_upcalls t + 1).
Proof.
  intros Hres Hi Hcur Ht Hrun Hn Hready Hrefs invoke a.
  pose proof (lx_server_ok galloc try_reserve prefix depth Hres) as Hsrv.
  pose proof (si_upcalls _ _ _ Hi c t Ht) as Hn0.
  destruct (@handle_syscall_enter _ _ _ lx_ext invoke s c t Hi Hcur Ht) as (s2 & _ & -> & Hi2 & Hc2 & Hx2 & Hq2 & Ht2 & Hr2);
    [change (total_refs (k_issued (ext s)) s + 1 < 2 ^ 64); lia|].
  destruct (@begin_upcall_spec _ _ _ lx_ext _ s2 c t Hi2) as (s3 & E3 & Hi3 & Hc3 & Hx3 & Hq3 & Hr3 & Ht3); [set_solver|done..|].
  rewrite bool_decide_true in E3, Ht3 by done. set (tb := set_mutable t Blocked (in_upcalls t + 1)) in *.
  cbn [ext_refs lx_ext] in *. rewrite <- Hx3 in Hi3. apply lx_inv_split in Hi3 as [Hk3 Hlx3].
  assert (krefs [c] s3 <= total_refs (k_issued (ext s)) s) as Hrefs3.
  { unfold krefs. rewrite Hx3, Hr3. exact Hr2. }
  destruct (lx_syscall_upcall galloc try_reserve (lx_invoke galloc try_reserve prefix depth) prefix [c] s3 c tb (t_upcall t))
    as (q & out & s4 & t4 & E4 & Hch & Hcon & Hend); [done..|lia|done|done|done|simpl; lia|done|].
  assert (thread_at s4 c t4) as Ht4.
  { pose proof (c_objs _ _ _ _ _ _ _ Hch c (OThread tb) ltac:(set_solver) Ht3) as Ho. by rewrite bool_decide_true in Ho. }
  assert (lx_inv (store s4) (ext s4)) as Hlx4.
  { eapply lx_inv_changed; [exact Hk3|done|exact Hch|set_solver| |exact Ht3|].
    - destruct (is_exit _); destruct Hend as [-> _]; set_solver.
    - destruct (is_exit _); [destruct Hend as (_ & -> & _)|destruct Hend as (_ & res & a1 & a2 & _ & _ & ->)];
        (split_and!; [done..|]); intros _; left; done. }
  destruct (id Hch) as [[Ki Kc _ Kr] Q _ V _ _ _]. exists q, out, s4, t4. split.
  { unfold thread_handle_syscall. rewrite bind_assoc, (bind_run _ _ _ _ _ E3). cbn [negb].
    rewrite bind_assoc, (bind_run _ _ s3 tt s4); [by rewrite bind_assoc|].
    unfold invoke_upcall. by rewrite (bind_run _ _ _ _ _ (thread_ref_run s3 c tb Ht3)). }
  split; [by apply lx_inv_split|]. split; [congruence|]. split; [done|]. split; [lia|].
  split; [congruence|]. split; [congruence|].
  split; [|split; [by rewrite Hcon, Hx3, Hx2|]].
  - intros sid va b. rewrite (changed_user _ _ _ _ _ _ _ sid va b Hch). unfold user_byte. by rewrite Hx3, Hx2.
  - destruct (is_exit _); [done|]. destruct Hend as (-> & res & a1 & a2 & He & Ha & ->). split; [done|].
    exists res, a1, a2. split; [|done]. eapply syscall_effect_ext; [|exact He]. congruence.
Qed.

(** The same up to the scheduler, for a call other than [exit]. *)
Lemma lx_served galloc try_reserve prefix depth s c t :
  (forall st, try_reserve st = true) ->
  @sys_inv L _ lx_ext (k_issued (ext s)) [c] s -> current_ref s = [c] -> thread_at s c t -> t_state t = Runnable ->
  in_upcalls t < 2 ^ 64 - 1 -> syscall_ready t -> is_exit (args_of (t_arch t)) = false ->
  total_refs (k_issued (ext s)) s + 5 < 2 ^ 64 ->
  exists s' out res a1 a2, handle_syscall (lx_invoke galloc try_reserve prefix (S depth)) true s = return_to_user true s' /\
    @sys_inv L _ lx_ext (k_issued (ext s')) [] s' /\ current s' = None /\ runqueue s' = runqueue s ++ [c] /\
    thread_at s' c (set_mutable (with_arch t a2) Runnable (in_upcalls t)) /\
    total_refs (k_issued (ext s')) s' <= total_refs (k_issued (ext s)) s /\
    (forall sid va b, user_byte s' sid va b <-> user_byte s sid va b) /\
    k_console (ext s') = k_console (ext s) ++ out /\
    syscall_effect prefix s (t_vmspace t) (args_of (t_arch t)) (t_arch t) res a1 out /\
    arch_write_context a1 KindSysret
      (of_sysret (mkSysret (as_usize (match res with Ok v => v | Err e => to_retval e end)))) = Ret a2.
Proof.
  intros Hres Hi Hcur Ht Hrun Hn Hready Hexit Hrefs. pose proof (si_upcalls _ _ _ Hi c t Ht) as Hn0.
  destruct (lx_enter galloc try_reserve prefix depth s c t) as (q & out & s1 & t1 & -> & Hi1 & Hc1 & Ht1 & Hr1 & _ & Hq & Hu & Hcon & Hend);
    [done..|]. rewrite Hexit in Hend. destruct Hend as (-> & res & a1 & a2 & He & Ha & ->).
  destruct (@end_upcall_spec _ _ _ lx_ext _ s1 c _ Hi1 Ht1) as (s2 & E2 & Hi2 & Hc2 & Hx2 & Hq2 & Hr2 & Ht2); [simpl; lia|].
  rewrite bool_decide_false, andb_false_r in E2 by done. rewrite (bind_run _ _ _ _ _ E2), bind_ret. cbn [t_state set_mutable in_upcalls] in Ht2.
  rewrite Z.add_simpl_r in Ht2. set (t2 := set_mutable _ Runnable (in_upcalls t)) in Ht2.
  destruct (@sys_drop _ _ _ lx_ext (k_issued (ext s1)) [] s2 c Hi2) as (st & E3 & Hs & Hi3); [set_solver|].
  rewrite (bind_run _ _ _ _ _ E3). exists (set_store s2 st), out, res, a1, a2.
  change (ext (set_store s2 st)) with (ext s2). rewrite Hx2. split; [done|]. split; [done|]. split; [simpl; congruence|].
  split; [simpl; congruence|]. split.
  { apply live_survives; [done..|]. apply (rc_live _ _ (si_rc _ _ _ Hi3)). cbn [runqueue set_store]. rewrite Hq2, Hq. set_solver. }
  split; [|split; [|done]].
  - pose proof (total_refs_survives (k_issued (ext s1)) s2 st Hs). unfold krefs, total_refs in *. simpl length in *. lia.
  - intros sid va b. unfold user_byte. change (ext (set_store s2 st)) with (ext s2). rewrite Hx2. apply Hu.
Qed.

(** The space of the running thread is the one that the processor uses. *)
Definition in_space s (t : Thread) : Prop :=
  exists sp, spaces (k_mem (ext s)) !! t_vmspace t = Some sp /\ cr3_reg s = root_of sp.

(** [return_to_user] when [c] can run. *)
Lemma lx_return own s c t :
  @sys_inv L _ lx_ext own (current_ref s) s -> current_room s -> c ∈ current_ref s ++ runqueue s ->
  thread_at s c t -> t_state t = Runnable ->
  exists r tr s' skipped, return_to_user true s = Ret (r, s') /\ current_ref s ++ runqueue s = skipped ++ r :: runqueue s' /\
    @sys_inv L _ lx_ext own (current_ref s') s' /\ current_ref s' = [r] /\ (c = r \/ c ∈ runqueue s') /\
    thread_at s' c t /\ thread_at s' r tr /\ ext s' = ext s /\ total_refs own s' <= total_refs own s /\ in_space s' tr.
Proof.
  intros Hi Hroom Hin Ht Hrun.
  destruct (@return_to_user_spec _ _ _ lx_ext own s) as [[Hno _]|(r & tr & s' & sk & E & Eq & Htr & _ & Hsk & Hi' & Hc' & (tr' & Htr' & _) & Hs & n & a & l & Ha & Hcr3)];
    [done..|by exfalso; apply (Hno c); exists t|].
  pose proof (keeps_return_to_user true s r s' E) as Hx.
  assert (tr' = tr) as -> by (destruct Htr' as [k' E1], Htr as [k'' E2]; apply Hs in E1 as ([] & E1 & Ev); simpl in Ev; congruence).
  exists r, tr, s', sk. split; [done|]. split; [done|]. split; [done|]. split; [done|].
  assert (c = r \/ c ∈ runqueue s') as Hin'.
  { rewrite Eq in Hin. apply elem_of_app in Hin as [Hin|[->|Hin]%elem_of_cons]; [|by left|by right]. exfalso. apply (Hsk c Hin). by exists t. }
  split; [done|]. split; [|split; [done|split; [done|split]]].
  - assert (is_Some (store s' !! c)) as Hlive.
    { apply (rc_live _ _ (si_rc _ _ _ Hi')). rewrite Hc'. destruct Hin' as [->|Hq]; set_solver. }
    destruct s'. exact (live_survives s _ c t Hs Ht Hlive).
  - apply all_refs_survives in Hs. apply (f_equal length) in Eq. unfold total_refs. rewrite Hc'. rewrite !length_app in *. simpl in *. lia.
  - destruct (si_ext _ _ _ Hi) as [[_ Hl] _]. destruct (lk_space _ _ Hl _ _ _ _ Ha) as (sp & Hsp & Har & _).
    exists sp. rewrite Hx. split; [done|]. unfold root_of. by rewrite Har.
Qed.


(** [exit] ends the thread and frees its data.  The kernel calls the
    server once for the system call and once to report the thread as
    terminated; then the scheduler picks another thread.  The exit code is on
    the console, the thread cannot run again, the server's data for it are
    freed, those of other threads are kept, and every part of the system is in
    order. *)
Theorem linux_exit_ends galloc try_reserve prefix depth s (c : Z) (t : Thread) :
  (forall st, try_reserve st = true) ->
  @sys_inv L _ lx_ext (k_issued (ext s)) [c] s -> current_ref s = [c] -> thread_at s c t -> t_state t = Runnable ->
  in_upcalls t = 0 -> syscall_ready t -> is_exit (args_of (t_arch t)) = true ->
  total_refs (k_issued (ext s)) s + 5 < 2 ^ 64 ->
  exists s1, handle_syscall (lx_invoke galloc try_reserve prefix (S depth)) true s = return_to_user true s1 /\
    @sys_inv L _ lx_ext (k_issued (ext s1)) [] s1 /\ current s1 = None /\ ~ runnable s1 c /\ runqueue s1 = runqueue s /\
    user_data (server_mem s1) = delete (t_upcall t) (user_data (server_mem s)) /\
    k_console (ext s1) = k_console (ext s) ++
      line prefix (str "exited with code " ++ fmt_i32 (to_signed 32 (wrap 32 (rdi (t_arch t))))).
Proof.
  intros Hres Hi Hcur Ht Hrun Hn Hready Hexit Hrefs.
  destruct (lx_enter galloc try_reserve prefix depth s c t) as (q & out & s1 & t1 & -> & Hi1 & Hc1 & Ht1 & Hr1 & Hsv & Hq & Hu & Hcon & Hend);
    [done..|lia|done|done|]. rewrite Hexit in Hend. destruct Hend as (-> & -> & ->).
  destruct (@end_upcall_spec _ _ _ lx_ext _ s1 c _ Hi1 Ht1) as (s2 & E2 & Hi2 & Hc2 & Hx2 & Hq2 & Hr2 & Ht2); [simpl; lia|].
  cbn [in_upcalls t_state set_mutable] in *. rewrite Hn, bool_decide_true in E2 by done.
  change ((0 + 1 =? 1) && true) with true in E2.
  rewrite (bind_run _ _ _ _ _ E2). rewrite <- Hx2 in Hi2. apply lx_inv_split in Hi2 as [Hk2 Hlx2]. set (t2 := set_mutable _ _ _) in Ht2.
  assert (live_data (ext s2) (t_upcall t) c) as Hlive.
  { rewrite Hx2. apply lx_inv_split in Hi1 as [_ Hlx1]. destruct Ht1 as [c1 E1].
    apply (lxi_threads _ _ Hlx1 c c1 _ E1). right. simpl. lia. }
  assert (krefs [c] s2 + 2 < 2 ^ 64) as Hroom.
  { unfold krefs. rewrite Hx2, Hr2. change (krefs [c] s1 + 2 < 2 ^ 64). lia. }
  destruct (lx_terminated_upcall galloc try_reserve (lx_invoke galloc try_reserve prefix depth) prefix [c] s2 c t2 (t_upcall t))
    as (s3 & E3 & St3 & Hlx3 & Hq3 & Hud3 & Hcon3); [done..|set_solver|done|done| |].
  { intros [?|Hin]; [done|]. simpl in Hin. lia. }
  rewrite (bind_run _ _ s2 tt s3).
  2: { unfold invoke_upcall. by rewrite (bind_run _ _ _ _ _ (thread_ref_run s2 c t2 Ht2)). }
  destruct St3 as [Ki Kc Kt Kr].
  destruct (@sys_drop _ _ _ lx_ext (k_issued (ext s3)) [] s3 c) as (st & E4 & Hs & Hi4);
    [by apply lx_inv_split|set_solver|].
  rewrite (bind_run _ _ _ _ _ E4). exists (set_store s3 st). split; [done|]. split; [done|]. split; [simpl; congruence|].
  split; [|split; [|split]].
  - intros (t4 & [c4 E5] & Hst). destruct (Kt c t2 ltac:(set_solver) Ht2) as (t3 & [c3 Et3] & _ & _ & _ & Hterm).
    cbn [store set_store] in E5. apply Hs in E5 as ([c5 v] & E5 & Hv). rewrite Et3 in E5. injection E5 as _ <-. simpl in Hv.
    injection Hv as <-. rewrite Hterm in Hst; done.
  - cbn [runqueue set_store]. by rewrite Hq3, Hq2, Hq, app_nil_r.
  - change (server_mem (set_store s3 st)) with (server_mem s3). rewrite Hud3. unfold server_mem. by rewrite Hx2, Hsv.
  - change (ext (set_store s3 st)) with (ext s3). by rewrite Hcon3, Hx2.
Qed.

End Theorems.

(** C18: [writev] with a negative number of entries breaks the server, and with it
    the kernel it is linked into: built with overflow checks it panics; without
    them it makes a slice that is not in bounds of its array. *)
Theorem writev_negative_iovcnt {Mc : Type} (si : StartInfo (Sys (Kernel Mc (ApiMem ThreadContext LxServer))))
    (prefix : list Z) (process : Process) (fd uaddr iovcnt : Z) (s : Sys (Kernel Mc (ApiMem ThreadContext LxServer))) :
  bad_fd fd = false -> - 2 ^ 63 <= iovcnt < 0 ->
  @sys_writev dev _ si prefix process fd uaddr iovcnt s = Panic /\
  (256 < wrap 64 (as_usize iovcnt * 16) -> @sys_writev release _ si prefix process fd uaddr iovcnt s = Undef).
Proof.
  intros Hfd Hn. unfold sys_writev. fold (bad_fd fd). rewrite Hfd, (proj2 (Z.ltb_ge 16 iovcnt)) by lia.
  unfold usize_mul, checked_at. rewrite as_usize_neg by lia.
  assert (((0 <=? (iovcnt + 2 ^ 64) * 16) && ((iovcnt + 2 ^ 64) * 16 <? 2 ^ 64)) = false) as ->.
  { apply andb_false_iff. right. apply Z.ltb_ge. lia. }
  split; [done|]. intros Hw. rewrite (bind_lift _ _ _ (wrap 64 ((iovcnt + 2 ^ 64) * 16))) by reflexivity.
  by rewrite (proj2 (Z.ltb_lt _ _)) by lia.
Qed.

(** ** Witnesses: a process with one thread in an empty address space *)

Section Witnesses.
#[local] Existing Instance dev.
#[local] Instance lx_layout : RefLayout := {| value_offset _ := 8 |}.
#[local] Instance lx_pdpt : BootPdpt := {| KERNEL_IMAGE := example_image |}.

Definition example_regs (n a0 : Z) : ArchThread :=
  mkArchThread 0 GDT_USER_CS 514 0 GDT_USER_DS n 0 0 0 0 a0 0 0 0 0 0 0 0 0 0 0 0.
Definition example_lx_thread (n a0 : Z) (st : State) (up : Z) : Thread := mkThread (example_regs n a0) 0x100 0x9000 st up.

Definition example_lx_mem : ApiMem ThreadContext LxServer :=
  mkApiMem {[ 0x100 := Some (mkUserData 0x200 (mkThreadContext 0x300)) ]}
    {[ 0x200 := (1, mkHandle (0x7000 + 8) ThreadType Thread_DEFAULT_RIGHT) ]}
    (mkLxServer {[ 0x300 := mkProcess (mkHandle (0x9000 + 8) VmSpaceType VmSpace_DEFAULT_RIGHT) [] ]}).

Definition example_lx (k : KState Phys) (sp : VmSpace) (cur : option Z) (t : Thread)
  : Sys (Kernel Phys (ApiMem ThreadContext LxServer)) :=
  mkSys {[ 0x9000 := mkRefCounted 2 (OSpace (vs_arch sp) []); 0x7000 := mkRefCounted 2 (OThread t) ]}
    [] cur 0 (mkKernel k [0x7000; 0x9000] [] example_lx_mem).

Lemma example_lx_ok k sp cur n a0 st up :
  ks_inv example_image k -> spaces k !! 0x9000 = Some sp -> mappings sp = [] ->
  @ext_ok _ lx_ext (store (example_lx k sp cur (example_lx_thread n a0 st up)))
    (ext (example_lx k sp cur (example_lx_thread n a0 st up))).
Proof.
  intros Hk Hs Hm. set (t := example_lx_thread n a0 st up).
  assert (forall p c o, store (example_lx k sp cur t) !! p = Some (mkRefCounted c o) ->
    p = 0x9000 /\ o = OSpace (vs_arch sp) [] \/ p = 0x7000 /\ o = OThread t) as Hst.
  { intros p c o E. cbn [example_lx store] in E. apply lookup_insert_Some in E as [[<- [= <- <-]]|[_ E]]; [by left|].
    apply lookup_singleton_Some in E as [<- [= <- <-]]. by right. }
  split; [split; [exact Hk|]; split|split].
  - by intros p c [[_ ?]|[_ ?]]%Hst.
  - intros p c a l [[-> [= -> ->]]|[_ ?]]%Hst; [|done]. exists sp. rewrite Hm. done.
  - intros p [c o] [[-> _]|[-> _]]%Hst; reflexivity.
  - intros r c t' [[_ ?]|[-> [= ->]]]%Hst _; [done|].
    eexists (mkUserData 0x200 (mkThreadContext 0x300)), 1, _, _. split; [reflexivity|]. split; [reflexivity|]. split; [lia|].
    split; [reflexivity|]. split; [reflexivity|]. split; [reflexivity|]. split; [apply list_elem_of_here|reflexivity].
  - intros r c t' u process [[_ ?]|[-> [= ->]]]%Hst _ Hu Hp; [done|].
    cbn [example_lx ext k_server example_lx_mem user_data] in Hu. apply lookup_singleton_Some in Hu as [_ [= <-]].
    cbn [example_lx ext k_server example_lx_mem server_data lx_processes] in Hp.
    apply lookup_singleton_Some in Hp as [_ <-]. reflexivity.
  - intros pid process Hp. cbn [example_lx ext k_server example_lx_mem server_data lx_processes] in Hp.
    apply lookup_singleton_Some in Hp as [_ <-]. split; [reflexivity|]. split; [reflexivity|].
    split; [apply list_elem_of_further, list_elem_of_here|]. intros c o [[_ ->]|[[=] _]]%Hst. reflexivity.
Qed.

Lemma example_ready n a0 st up :
  0 <= n < 2 ^ 64 -> n <> SYS_WRITEV -> 0 <= a0 < 2 ^ 64 -> syscall_ready (example_lx_thread n a0 st up).
Proof.
  intros Hn Hw Ha. unfold syscall_ready. cbn [example_lx_thread t_arch args_of example_regs sa_n arg0 arg1 arg2 rax rdi rsi rdx].
  split; [exact Hn|]. split; [exact Ha|]. split; [lia|]. split; [lia|]. by intros [? _].
Qed.


Lemma linux_exit_ends_witness :
  exists k sp s1, ks_inv example_image k /\
    handle_syscall (lx_invoke (fun _ => None) (fun _ => true) [] 1) true
      (example_lx k sp (Some (0x7000 + 8)) (example_lx_thread SYS_EXIT 3 Runnable 0)) = return_to_user true s1 /\
    user_data (server_mem s1) !! 0x100 = None.
Proof.
  destruct example_space as (k & sp & Hk & Hs & _ & Hm). exists k, sp.
  destruct (linux_exit_ends (fun _ => None) (fun _ => true) [] 0
    (example_lx k sp (Some (0x7000 + 8)) (example_lx_thread SYS_EXIT 3 Runnable 0)) 0x7000
    (example_lx_thread SYS_EXIT 3 Runnable 0)) as (s1 & E & _ & _ & _ & _ & Hu & _).
  - reflexivity.
  - apply sys_check_ok; [vm_compute; reflexivity|]. apply example_lx_ok; [exact Hk|exact Hs|exact Hm].
  - reflexivity.
  - exists 2. reflexivity.
  - reflexivity.
  - reflexivity.
  - apply example_ready; [split; [discriminate|reflexivity]|discriminate|split; [discriminate|reflexivity]].
  - reflexivity.
  - vm_compute. reflexivity.
  - exists s1. split; [exact Hk|]. split; [exact E|]. rewrite Hu. reflexivity.
Defined.


Lemma writev_negative_iovcnt_witness :
  exists k sp, @sys_writev release _ (START_INFO (fun _ => None) (fun _ => true) (fun _ _ => ret tt)) []
    (mkProcess (mkHandle (0x9000 + 8) VmSpaceType VmSpace_DEFAULT_RIGHT) []) 1 0 (-1)
    (example_lx k sp None (example_lx_thread SYS_WRITEV 1 Blocked 1)) = Undef.
Proof.
  destruct example_space as (k & sp & _). exists k, sp.
  apply (writev_negative_iovcnt (START_INFO (fun _ => None) (fun _ => true) (fun _ _ => ret tt)) []
    (mkProcess (mkHandle (0x9000 + 8) VmSpaceType VmSpace_DEFAULT_RIGHT) []) 1 0 (-1)).
  - reflexivity.
  - lia.
  - reflexivity.
Defined.

End Witnesses.
