(* ===== verification/Elf.v ===== *)
(** * libs/rust/ftl_elf: the ELF parser

    Headers are read in place: a [repr(C)] structure at an address of the
    buffer is its little-endian bytes.  [addr] is where the buffer is, which
    matters because a misaligned reference is undefined behaviour.

    [ehdr_bytes] and [phdr_bytes] write headers; they say what a parsed header
    means and are the other half of the round trip. *)

From S2P Require Import Prelude Bytes.

Definition EM_NATIVE : Z := 62.
Definition ET_EXEC : Z := 2.
Definition ET_DYN : Z := 3.

Record Ehdr : Set := mkEhdr {
  e_ident : list Z;
  e_type : Z; e_machine : Z; e_version : Z;
  e_entry : Z; e_phoff : Z; e_shoff : Z;
  e_flags : Z; e_ehsize : Z; e_phentsize : Z; e_phnum : Z;
  e_shentsize : Z; e_shnum : Z; e_shstrndx : Z
}.

Inductive PhdrType : Set :=
| PtNull | PtLoad | PtDynamic | PtInterp | PtNote | PtShLib | PtPhdr | PtTls.

(** [t as u32]. *)
Definition phdr_type_as_u32 (t : PhdrType) : Z :=
  match t with
  | PtNull => 0 | PtLoad => 1 | PtDynamic => 2 | PtInterp => 3
  | PtNote => 4 | PtShLib => 5 | PtPhdr => 6 | PtTls => 7
  end.

Definition PF_X : Z := 1.
Definition PF_W : Z := 2.
Definition PF_R : Z := 4.

Record Dyn : Set := mkDyn { d_tag : Z; d_val : Z }.
Definition DT_NULL : Z := 0.
Definition DT_RELA : Z := 7.
Definition DT_RELASZ : Z := 8.

Record Rela : Set := mkRela { r_offset : Z; r_info : Z; r_addend : Z }.
Definition r_sym (r : Rela) : Z := wrap 32 (Z.shiftr (r_info r) 32).
Definition r_type (r : Rela) : Z := wrap 32 (r_info r).
Definition R_X86_64_RELATIVE : Z := 8.

Record Phdr : Set := mkPhdr {
  p_type : Z; p_flags : Z; p_offset : Z; p_vaddr : Z;
  p_paddr : Z; p_filesz : Z; p_memsz : Z; p_align : Z
}.

Definition readable (p : Phdr) : bool := negb (Z.land (p_flags p) 4 =? 0).
Definition writable (p : Phdr) : bool := negb (Z.land (p_flags p) 2 =? 0).
Definition executable (p : Phdr) : bool := negb (Z.land (p_flags p) 1 =? 0).

Inductive ParseError : Set :=
| BufferTooShort | InvalidMagic | InvalidEtype | InvalidMachine | InvalidEhdrSize | InvalidPhdrSize.

Record Elf : Set := mkElf { ehdr : Ehdr; phdrs : list Phdr }.

(** ** Reading structures *)

Definition EHDR_SIZE : nat := 64.
Definition PHDR_SIZE : nat := 56.
Definition DYN_SIZE : nat := 16.
Definition RELA_SIZE : nat := 24.

Definition read_ehdr (b : list Z) : Ehdr :=
  mkEhdr (take 16 b) (field b 16 2) (field b 18 2) (field b 20 4)
    (field b 24 8) (field b 32 8) (field b 40 8)
    (field b 48 4) (field b 52 2) (field b 54 2) (field b 56 2)
    (field b 58 2) (field b 60 2) (field b 62 2).

Definition read_phdr (b : list Z) : Phdr :=
  mkPhdr (field b 0 4) (field b 4 4) (field b 8 8) (field b 16 8)
    (field b 24 8) (field b 32 8) (field b 40 8) (field b 48 8).

Definition read_dyn (b : list Z) : Dyn := mkDyn (to_signed 64 (field b 0 8)) (field b 8 8).

Definition read_rela (b : list Z) : Rela :=
  mkRela (field b 0 8) (field b 8 8) (to_signed 64 (field b 16 8)).

Section Parse.
Context {P : Profile}.

(** [slice::from_raw_parts(buf.as_ptr().add(off) as *const T, n)] for a buffer
    at [addr] and a type of [size] bytes and alignment [align]: leaving the
    buffer is undefined behaviour, a misaligned pointer is caught in debug
    builds. *)
Definition slice_at {A} (read : list Z -> A) (size : nat) (align addr : Z) (buf : list Z) (off n : Z)
  : outcome (list A) :=
  match slice_get buf off (off + n * Z.of_nat size) with
  | None => Undef
  | Some b =>
      let* _ := ub_check ((addr + off) mod align =? 0) in
      Ret (read_array read size (Z.to_nat n) b)
  end.

Definition elf_parse (addr : Z) (buf : list Z) (expected_type : Z) : outcome (result ParseError Elf) :=
  if len buf <? Z.of_nat EHDR_SIZE then Ret (Err BufferTooShort)
  else
    let* _ := ub_check (addr mod 8 =? 0) in
    let h := read_ehdr buf in
    if negb (bool_decide (take 4 (e_ident h) = [127; 69; 76; 70])) then Ret (Err InvalidMagic)
    else if negb (e_type h =? expected_type) then Ret (Err InvalidEtype)
    else if negb (e_machine h =? EM_NATIVE) then Ret (Err InvalidMachine)
    else if negb (e_ehsize h =? Z.of_nat EHDR_SIZE) then Ret (Err InvalidEhdrSize)
    else if negb (e_phentsize h =? Z.of_nat PHDR_SIZE) then Ret (Err InvalidPhdrSize)
    else
      let* phdrs_size := usize_mul (e_phnum h) (Z.of_nat PHDR_SIZE) in
      let* end_ := usize_add (e_phoff h) phdrs_size in
      if len buf <? end_ then Ret (Err BufferTooShort)
      else
        let* ps := slice_at read_phdr PHDR_SIZE 8 addr buf (e_phoff h) (e_phnum h) in
        Ret (Ok (mkElf h ps)).

End Parse.

(** ** Writing structures *)

Definition ehdr_bytes (h : Ehdr) : list Z :=
  e_ident h ++ le_bytes 2 (e_type h) ++ le_bytes 2 (e_machine h) ++ le_bytes 4 (e_version h) ++
  le_bytes 8 (e_entry h) ++ le_bytes 8 (e_phoff h) ++ le_bytes 8 (e_shoff h) ++
  le_bytes 4 (e_flags h) ++ le_bytes 2 (e_ehsize h) ++ le_bytes 2 (e_phentsize h) ++
  le_bytes 2 (e_phnum h) ++ le_bytes 2 (e_shentsize h) ++ le_bytes 2 (e_shnum h) ++
  le_bytes 2 (e_shstrndx h).

Definition phdr_bytes (p : Phdr) : list Z :=
  le_bytes 4 (p_type p) ++ le_bytes 4 (p_flags p) ++ le_bytes 8 (p_offset p) ++
  le_bytes 8 (p_vaddr p) ++ le_bytes 8 (p_paddr p) ++ le_bytes 8 (p_filesz p) ++
  le_bytes 8 (p_memsz p) ++ le_bytes 8 (p_align p).

Definition u16 (x : Z) : Prop := 0 <= x < 2 ^ 16.
Definition u32 (x : Z) : Prop := 0 <= x < 2 ^ 32.
Definition u64 (x : Z) : Prop := 0 <= x < 2 ^ 64.

Record ehdr_ok (h : Ehdr) : Prop := {
  ok_ident : length (e_ident h) = 16%nat;
  ok_type : u16 (e_type h); ok_machine : u16 (e_machine h); ok_version : u32 (e_version h);
  ok_entry : u64 (e_entry h); ok_phoff : u64 (e_phoff h); ok_shoff : u64 (e_shoff h);
  ok_flags : u32 (e_flags h); ok_ehsize : u16 (e_ehsize h); ok_phentsize : u16 (e_phentsize h);
  ok_phnum : u16 (e_phnum h); ok_shentsize : u16 (e_shentsize h); ok_shnum : u16 (e_shnum h);
  ok_shstrndx : u16 (e_shstrndx h)
}.

Record phdr_ok (p : Phdr) : Prop := {
  ok_p_type : u32 (p_type p); ok_p_flags : u32 (p_flags p); ok_p_offset : u64 (p_offset p);
  ok_p_vaddr : u64 (p_vaddr p); ok_p_paddr : u64 (p_paddr p); ok_p_filesz : u64 (p_filesz p);
  ok_p_memsz : u64 (p_memsz p); ok_p_align : u64 (p_align p)
}.

(** The checks of [parse], on the header. *)
Definition header_error (h : Ehdr) (expected_type : Z) : option ParseError :=
  if negb (bool_decide (take 4 (e_ident h) = [127; 69; 76; 70])) then Some InvalidMagic
  else if negb (e_type h =? expected_type) then Some InvalidEtype
  else if negb (e_machine h =? EM_NATIVE) then Some InvalidMachine
  else if negb (e_ehsize h =? 64) then Some InvalidEhdrSize
  else if negb (e_phentsize h =? 56) then Some InvalidPhdrSize
  else None.

(** * Lemmas *)

Lemma length_ehdr_bytes h : length (e_ident h) = 16%nat -> length (ehdr_bytes h) = EHDR_SIZE.
Proof. intros H. unfold ehdr_bytes. by rewrite !length_app, !length_le_bytes, H. Qed.

Lemma length_phdr_bytes p : length (phdr_bytes p) = PHDR_SIZE.
Proof. unfold phdr_bytes. by rewrite !length_app, !length_le_bytes. Qed.

Lemma read_ehdr_bytes h rest : ehdr_ok h -> read_ehdr (ehdr_bytes h ++ rest) = h.
Proof.
  intros [Hi H1 H2 H3 H4 H5 H6 H7 H8 H9 H10 H11 H12 H13]. unfold u16, u32, u64 in *.
  unfold read_ehdr, ehdr_bytes. rewrite <- !app_assoc. destruct h as [id]. cbn [e_ident e_type e_machine e_version
    e_entry e_phoff e_shoff e_flags e_ehsize e_phentsize e_phnum e_shentsize e_shnum e_shstrndx] in *.
  f_equal; [rewrite <- Hi; apply take_app_length|..];
    (rewrite (field_skip id) by lia); rewrite Hi; simpl Nat.sub; read_field.
Qed.

Lemma read_phdr_bytes p : phdr_ok p -> read_phdr (phdr_bytes p) = p.
Proof.
  intros [H1 H2 H3 H4 H5 H6 H7 H8]. unfold u32, u64 in *. unfold read_phdr, phdr_bytes.
  destruct p. cbn [p_type p_flags p_offset p_vaddr p_paddr p_filesz p_memsz p_align] in *.
  f_equal; read_field.
Qed.

Section ParseLemmas.
Context {P : Profile}.

Lemma ub_check_ok b : b = true -> ub_check b = Ret tt.
Proof. by intros ->. Qed.

(** The outcome of [parse] in terms of the header it reads. *)
Lemma elf_parse_eq addr buf ty :
  addr mod 8 = 0 -> let h := read_ehdr buf in
  0 <= e_phoff h -> 0 <= e_phnum h -> e_phoff h + 56 * e_phnum h < 2 ^ 64 -> e_phoff h mod 8 = 0 ->
  elf_parse addr buf ty = Ret
    (if len buf <? 64 then Err BufferTooShort
     else match header_error h ty with
          | Some e => Err e
          | None =>
              if len buf <? e_phoff h + 56 * e_phnum h then Err BufferTooShort
              else Ok (mkElf h (read_array read_phdr 56 (Z.to_nat (e_phnum h))
                                  (take (Z.to_nat (56 * e_phnum h)) (drop (Z.to_nat (e_phoff h)) buf))))
          end).
Proof.
  intros Ha h Ho Hn Hlt Hal. unfold elf_parse. fold h. unfold header_error, EHDR_SIZE, PHDR_SIZE.
  change (Z.of_nat 64) with 64. change (Z.of_nat 56) with 56.
  destruct (len buf <? 64); [done|].
  rewrite (ub_check_ok (addr mod 8 =? 0)) by (by apply Z.eqb_eq). cbn [obind].
  destruct (negb (bool_decide _)); [done|]. destruct (negb (e_type h =? ty)); [done|].
  destruct (negb (e_machine h =? EM_NATIVE)); [done|]. destruct (negb (e_ehsize h =? 64)); [done|].
  destruct (negb (e_phentsize h =? 56)); [done|].
  rewrite usize_mul_ok by lia. cbn [obind]. rewrite usize_add_ok by lia. cbn [obind].
  replace (e_phnum h * 56) with (56 * e_phnum h) by lia.
  destruct (Z.ltb_spec (len buf) (e_phoff h + 56 * e_phnum h)); [done|].
  unfold slice_at. rewrite slice_get_ok by lia.
  rewrite (ub_check_ok ((addr + e_phoff h) mod 8 =? 0)).
  2: { apply Z.eqb_eq. rewrite Z.add_mod, Ha, Hal by lia. done. }
  simpl. do 5 f_equal. lia.
Qed.

(** The fields of what was parsed are in the range of their types. *)
Lemma read_ehdr_ok buf : bytes_ok buf -> (16 <= length buf)%nat -> ehdr_ok (read_ehdr buf).
Proof.
  intros Hb Hl. split; [cbn; rewrite length_take; lia|..];
    unfold u16, u32, u64; exact (field_bound buf _ _ Hb).
Qed.

Lemma read_phdr_ok buf : bytes_ok buf -> phdr_ok (read_phdr buf).
Proof. intros Hb. split; unfold u32, u64; exact (field_bound buf _ _ Hb). Qed.

Lemma elf_parse_ok addr buf ty elf :
  elf_parse addr buf ty = Ret (Ok elf) -> bytes_ok buf -> ehdr_ok (ehdr elf) /\ Forall phdr_ok (phdrs elf).
Proof.
  intros E Hb. unfold elf_parse in E. destruct (Z.ltb_spec (len buf) (Z.of_nat EHDR_SIZE)) as [|Hl]; [done|].
  unfold EHDR_SIZE in Hl. destruct (ub_check _); [|done..]. cbn [obind] in E.
  do 5 (destruct (negb _); [done|]). destruct (usize_mul _ _); [|done..]. cbn [obind] in E.
  destruct (usize_add _ _); [|done..]. cbn [obind] in E. destruct (len buf <? _); [done|].
  unfold slice_at in E. destruct (slice_get _ _ _) as [b|] eqn:Eg; [|done]. destruct (ub_check _); [|done..].
  cbn [obind] in E. injection E as <-. cbn [ehdr phdrs]. split; [by apply read_ehdr_ok; [|lia]|].
  apply read_array_ok; [apply read_phdr_ok|]. apply slice_get_Some in Eg as (_ & _ & ->).
  by apply Forall_take, Forall_drop.
Qed.

End ParseLemmas.

(** * Properties *)

(** The ELF parser is the inverse of the file format.  A file that is the
    bytes of a header accepted by the checks, then anything, then the bytes of
    [e_phnum] program headers at [e_phoff], then anything, parses to exactly
    that header and those program headers. *)
Theorem elf_parse_roundtrip {P : Profile} (addr ty : Z) (h : Ehdr) (gap rest : list Z) (ps : list Phdr) :
  addr mod 8 = 0 -> ehdr_ok h -> Forall phdr_ok ps ->
  header_error h ty = None ->
  e_phnum h = len ps -> e_phoff h = 64 + len gap -> e_phoff h mod 8 = 0 ->
  e_phoff h + 56 * len ps < 2 ^ 64 ->
  elf_parse addr (ehdr_bytes h ++ gap ++ concat (phdr_bytes <$> ps) ++ rest) ty = Ret (Ok (mkElf h ps)).
Proof.
  intros Ha Hh Hps He Hn Ho Hal Hlt.
  set (tail := concat (phdr_bytes <$> ps) ++ rest).
  pose proof (read_ehdr_bytes h (gap ++ tail) Hh) as Hr.
  assert (len (concat (phdr_bytes <$> ps)) = 56 * len ps) as Hlen.
  { clear. induction ps as [|p ps IH]; [done|]. rewrite fmap_cons. cbn [concat length].
    rewrite length_app, length_phdr_bytes. unfold PHDR_SIZE. lia. }
  rewrite elf_parse_eq; rewrite ?Hr; try assumption; try lia.
  rewrite He, !length_app. unfold tail. rewrite length_app, length_ehdr_bytes by apply Hh. unfold EHDR_SIZE.
  rewrite !(proj2 (Z.ltb_ge _ _)) by lia. do 3 f_equal.
  replace (Z.to_nat (e_phnum h)) with (length ps) by lia.
  replace (Z.to_nat (e_phoff h)) with (length (ehdr_bytes h ++ gap))
    by (rewrite length_app, length_ehdr_bytes by apply Hh; unfold EHDR_SIZE; lia).
  rewrite app_assoc, drop_app_length.
  replace (Z.to_nat (56 * e_phnum h)) with (length (concat (phdr_bytes <$> ps))) by lia.
  rewrite take_app_length, <- (app_nil_r (concat _)). apply read_array_concat.
  eapply Forall_impl; [exact Hps|]. intros p Hp. split; [apply length_phdr_bytes|by apply read_phdr_bytes].
Qed.

(** The ELF parser is total on files whose program headers are aligned and
    do not wrap around the address space.  It reports the first check that
    fails, and otherwise the header and [e_phnum] program headers, each read
    from inside the file. *)
Theorem elf_parse_total {P : Profile} (addr ty : Z) (buf : list Z) :
  bytes_ok buf -> addr mod 8 = 0 -> let h := read_ehdr buf in
  e_phoff h + 56 * e_phnum h < 2 ^ 64 -> e_phoff h mod 8 = 0 ->
  exists r, elf_parse addr buf ty = Ret r /\
  match r with
  | Err e => len buf < 64 /\ e = BufferTooShort \/
             header_error h ty = Some e \/
             len buf < e_phoff h + 56 * e_phnum h /\ e = BufferTooShort
  | Ok elf => header_error h ty = None /\ ehdr elf = h /\ len (phdrs elf) = e_phnum h /\
      forall i, (i < length (phdrs elf))%nat ->
        e_phoff h + 56 * Z.of_nat i + 56 <= len buf /\
        phdrs elf !! i = Some (read_phdr (take 56 (drop (Z.to_nat (e_phoff h) + i * 56) buf)))
  end.
Proof.
  intros Hb Ha h Hlt Hal.
  pose proof (field_bound buf 32 8 Hb) as Ho. pose proof (field_bound buf 56 2 Hb) as Hn.
  change (field buf 32 8) with (e_phoff h) in Ho. change (field buf 56 2) with (e_phnum h) in Hn.
  eexists. split; [apply elf_parse_eq; fold h; done || lia|]. fold h.
  destruct (Z.ltb_spec (len buf) 64); [left; done|].
  destruct (header_error h ty) as [e|] eqn:He; [by right; left|].
  destruct (Z.ltb_spec (len buf) (e_phoff h + 56 * e_phnum h)); [by right; right|].
  cbn [ehdr phdrs]. rewrite length_read_array. split; [done|split; [done|split; [lia|]]].
  intros i Hi. split; [lia|]. rewrite read_array_lookup by done. do 2 f_equal.
  rewrite skipn_firstn_comm, drop_drop, take_take. f_equal. lia.
Qed.

(** A header whose [e_phoff] is 56 bytes below 2^64, with one program header. *)
Definition wrapping_header : Ehdr :=
  mkEhdr ([127; 69; 76; 70] ++ replicate 12 0) ET_DYN EM_NATIVE 1 0 (2 ^ 64 - 56) 0 0 64 56 1 0 0 0.


Section Witnesses.
#[local] Existing Instance dev.

Definition example_ehdr : Ehdr :=
  mkEhdr ([127; 69; 76; 70] ++ replicate 12 0) ET_DYN EM_NATIVE 1 4096 64 0 0 64 56 1 0 0 0.
Definition example_phdr : Phdr := mkPhdr 1 5 120 4096 4096 4 8 4096.

Lemma example_ehdr_ok : ehdr_ok example_ehdr.
Proof. split; vm_compute; done. Qed.

Lemma example_phdr_ok : phdr_ok example_phdr.
Proof. split; vm_compute; done. Qed.

Lemma elf_parse_roundtrip_witness :
  elf_parse 8192 (ehdr_bytes example_ehdr ++ [] ++ concat (phdr_bytes <$> [example_phdr]) ++ [1; 2; 3; 4]) ET_DYN
  = Ret (Ok (mkElf example_ehdr [example_phdr])).
Proof.
  apply elf_parse_roundtrip; try reflexivity; [apply example_ehdr_ok|].
  repeat constructor; apply example_phdr_ok.
Defined.

Lemma elf_parse_total_witness :
  exists r, elf_parse 8192 (ehdr_bytes example_ehdr ++ phdr_bytes example_phdr) ET_DYN = Ret r.
Proof.
  destruct (elf_parse_total 8192 ET_DYN (ehdr_bytes example_ehdr ++ phdr_bytes example_phdr))
    as (r & E & _); try (vm_compute; reflexivity); [|exists r; exact E].
  let b := eval vm_compute in (ehdr_bytes example_ehdr ++ phdr_bytes example_phdr) in change (bytes_ok b).
  repeat (apply Forall_cons; split; [unfold is_byte; lia|]). apply Forall_nil. exact I.
Defined.

End Witnesses.
