(* ===== verification/Initfs.v ===== *)
(** * kernel/src/initfs.rs: the boot file system

    A boot module is a cpio archive in the new ASCII format.  [initfs_next] is
    the iterator; [cpio_entry] and [cpio_archive] write archives, and are the
    other half of the round trip. *)

From S2P Require Import Prelude Bytes Alignment ArrayVec Machine Memory.

(** The fields of [CpioHeader] that the code uses, and its size. *)
Definition CPIO_FILESIZE_OFFSET : Z := 54.
Definition CPIO_NAMESIZE_OFFSET : Z := 94.
Definition CPIO_HEADER_SIZE : Z := 110.
Definition CPIO_MAGIC : list Z := [48; 55; 48; 55; 48; 49].
Definition CPIO_TRAILER : list Z := [84; 82; 65; 73; 76; 69; 82; 33; 33; 33].

(** [f_at]: where the data starts in the module, the pointer of the slice. *)
Record File : Set := mkFile { f_name : list Z; f_data : list Z; f_at : Z }.

Record InitFsLoader : Set := mkInitFs { fs_file : list Z; fs_offset : Z }.

Definition hex_digit_value (byte : Z) : option Z :=
  if (48 <=? byte) && (byte <=? 57) then Some (byte - 48)
  else if (97 <=? byte) && (byte <=? 102) then Some (byte - 97 + 10)
  else if (65 <=? byte) && (byte <=? 70) then Some (byte - 65 + 10)
  else None.

Section InitFs.
Context {P : Profile}.

Fixpoint parse_hex_loop (value : Z) (s : list Z) : outcome (option Z) :=
  match s with
  | [] => Ret (Some value)
  | byte :: s =>
      match hex_digit_value byte with
      | None => Ret None
      | Some digit =>
          let* v := usize_mul value 16 in
          let* v := usize_add v digit in
          parse_hex_loop v s
      end
  end.

Definition parse_hex (s : list Z) : outcome (option Z) := parse_hex_loop 0 s.

Definition initfs_new {Mc} `{Machine Mc} (module : Module_) : M Mc InitFsLoader :=
  let start := paddr2vaddr (mod_start module) in
  let end_ := paddr2vaddr (mod_end module) in
  do* file := vread start (Z.to_nat (saturating_sub end_ start)) in
  ret (mkInitFs file 0).

(** [self.file.get(off..off + n)]. *)
Definition get_range (self : InitFsLoader) (off n : Z) : outcome (option (list Z)) :=
  let* e := usize_add off n in
  Ret (slice_get (fs_file self) off e).

(** The [?] operator on [Option]: [None] ends the iteration and leaves the
    iterator as it is. *)
Definition or_stop {A} (self : InitFsLoader) (o : outcome (option A))
  (k : A -> outcome (option File * InitFsLoader)) : outcome (option File * InitFsLoader) :=
  let* x := o in
  match x with
  | Some a => k a
  | None => Ret (None, self)
  end.

Definition initfs_next (self : InitFsLoader) : outcome (option File * InitFsLoader) :=
  or_stop self (get_range self (fs_offset self) 6) (fun magic =>
  if negb (bool_decide (magic = CPIO_MAGIC)) then Ret (None, self)
  else
    let* namesize_offset := usize_add (fs_offset self) CPIO_NAMESIZE_OFFSET in
    or_stop self (get_range self namesize_offset 8) (fun namesize_bytes =>
    or_stop self (parse_hex namesize_bytes) (fun namesize =>
    let* filesize_offset := usize_add (fs_offset self) CPIO_FILESIZE_OFFSET in
    or_stop self (get_range self filesize_offset 8) (fun filesize_bytes =>
    or_stop self (parse_hex filesize_bytes) (fun filesize =>
    let* name_offset := usize_add (fs_offset self) CPIO_HEADER_SIZE in
    or_stop self (get_range self name_offset namesize) (fun name =>
    let name := if ends_with name [0] then take (length name - 1) name else name in
    if bool_decide (name = CPIO_TRAILER) then Ret (None, self)
    else
      let* name_end := usize_add name_offset namesize in
      let* data_offset := align_up name_end 4 in
      or_stop self (get_range self data_offset filesize) (fun data =>
      let* data_end := usize_add data_offset filesize in
      let* offset' := align_up data_end 4 in
      Ret (Some (mkFile name data data_offset), mkInitFs (fs_file self) offset')))))))).

(** The [for] loop over the iterator. *)
Fixpoint initfs_files (fuel : nat) (self : InitFsLoader) : outcome (list File) :=
  match fuel with
  | O => Hang
  | S fuel =>
      let* (o, self) := initfs_next self in
      match o with
      | None => Ret []
      | Some f => let* fs := initfs_files fuel self in Ret (f :: fs)
      end
  end.

End InitFs.

(** ** Writing archives *)

Definition hex_digit (d : Z) : Z := if d <? 10 then 48 + d else 87 + d.

(** [n] hexadecimal digits, most significant first. *)
Fixpoint hexn (n : nat) (v : Z) : list Z :=
  match n with
  | O => []
  | S n => hexn n (v / 16) ++ [hex_digit (v mod 16)]
  end.

Definition pad4 (n : Z) : list Z := replicate (Z.to_nat ((- n) mod 4)) 0.

(** One entry; [meta1], [meta2] and [check] are the header fields that the
    loader does not look at. *)
Definition cpio_entry (meta1 meta2 check name data : list Z) : list Z :=
  CPIO_MAGIC ++ meta1 ++ hexn 8 (len data) ++ meta2 ++ hexn 8 (len name + 1) ++ check ++
  (name ++ [0]) ++ pad4 (CPIO_HEADER_SIZE + len name + 1) ++ data ++ pad4 (len data).

Record Entry : Set := mkEntry {
  en_meta1 : list Z; en_meta2 : list Z; en_check : list Z; en_name : list Z; en_data : list Z
}.

Definition entry_bytes (e : Entry) : list Z :=
  cpio_entry (en_meta1 e) (en_meta2 e) (en_check e) (en_name e) (en_data e).

(** The data of an entry is padded to a multiple of four. *)
Definition data_offset (e : Entry) : Z :=
  CPIO_HEADER_SIZE + (len (en_name e) + 1) + (- (CPIO_HEADER_SIZE + (len (en_name e) + 1))) mod 4.

(** The files of an archive whose first entry is at [off]. *)
Definition entry_file (off : Z) (e : Entry) : File := mkFile (en_name e) (en_data e) (off + data_offset e).
Fixpoint archive_files (off : Z) (es : list Entry) : list File :=
  match es with
  | [] => []
  | e :: es => entry_file off e :: archive_files (off + len (entry_bytes e)) es
  end.

(** An entry with fields of the right size. *)
Record entry_ok (e : Entry) : Prop := {
  eo_meta1 : length (en_meta1 e) = 48%nat;
  eo_meta2 : length (en_meta2 e) = 32%nat;
  eo_check : length (en_check e) = 8%nat;
  eo_name : len (en_name e) + 1 < 2 ^ 32;
  eo_data : len (en_data e) < 2 ^ 32
}.

(** * Lemmas *)

Section InitFsLemmas.
Context {P : Profile}.

Lemma hex_digit_value_spec d : 0 <= d < 16 -> hex_digit_value (hex_digit d) = Some d.
Proof.
  intros Hd. unfold hex_digit_value, hex_digit. repeat (case_Z; simpl); f_equal; lia.
Qed.

Lemma hex_digit_value_bound b d : hex_digit_value b = Some d -> 0 <= d < 16.
Proof.
  unfold hex_digit_value. repeat (case_Z; simpl); intros E; try discriminate E; injection E as <-; lia.
Qed.

Lemma length_hexn n v : length (hexn n v) = n.
Proof. revert v. induction n; intros v; simpl; rewrite ?length_app, ?IHn; simpl; lia. Qed.

(** Eight digits never overflow. *)
Lemma parse_hex_loop_spec s value :
  0 <= value -> (value + 1) * 16 ^ len s <= 2 ^ 64 ->
  exists o, parse_hex_loop value s = Ret o /\
    match o with Some v => 0 <= v < (value + 1) * 16 ^ len s | None => True end.
Proof.
  revert value. induction s as [|b s IH]; intros value Hv Hb; [exists (Some value); simpl; split; [done|lia]|].
  cbn [parse_hex_loop length] in *. rewrite Nat2Z.inj_succ, Z.pow_succ_r in Hb |- * by lia.
  destruct (hex_digit_value b) as [d|] eqn:Ed; [|by exists None].
  pose proof (hex_digit_value_bound b d Ed). assert (1 <= 16 ^ len s) by (apply (Z.pow_le_mono_r 16 0); lia).
  assert ((value + 1) * 16 <= 2 ^ 64) by nia.
  rewrite usize_mul_ok by lia. simpl. rewrite usize_add_ok by lia. simpl.
  destruct (IH (value * 16 + d)) as (o & E & Ho); [lia|nia|].
  exists o. split; [done|]. destruct o; [|done]. nia.
Qed.

Lemma parse_hex_loop_hexn n value v rest :
  0 <= value -> 0 <= v < 16 ^ Z.of_nat n -> value * 16 ^ Z.of_nat n + v < 2 ^ 64 ->
  parse_hex_loop value (hexn n v ++ rest) = parse_hex_loop (value * 16 ^ Z.of_nat n + v) rest.
Proof.
  revert value v rest. induction n as [|n IH]; intros value v rest Hval Hv Hb.
  - simpl in *. f_equal. lia.
  - cbn [hexn]. rewrite Nat2Z.inj_succ, Z.pow_succ_r in Hv, Hb |- * by lia.
    pose proof (Z.div_mod v 16 ltac:(lia)) as Hdm. pose proof (Z.mod_pos_bound v 16 ltac:(lia)) as Hm.
    assert (0 <= 16 ^ Z.of_nat n) by (apply Z.pow_nonneg; lia).
    rewrite <- app_assoc, IH; [|lia| |nia].
    2: { split; [apply Z.div_pos; lia|]. apply Z.div_lt_upper_bound; lia. }
    cbn [parse_hex_loop app]. rewrite hex_digit_value_spec by done.
    assert (0 <= v / 16) by (apply Z.div_pos; lia).
    rewrite usize_mul_ok by nia. cbn [obind]. rewrite usize_add_ok by nia. cbn [obind]. f_equal. nia.
Qed.

Lemma parse_hex_hexn v : 0 <= v < 2 ^ 32 -> parse_hex (hexn 8 v) = Ret (Some v).
Proof.
  intros Hv. unfold parse_hex. rewrite <- (app_nil_r (hexn 8 v)), parse_hex_loop_hexn; simpl; try lia.
  by rewrite Z.mul_0_l.
Qed.

Lemma parse_hex_8 s : len s = 8 -> exists o, parse_hex s = Ret o /\
  match o with Some v => 0 <= v < 2 ^ 32 | None => True end.
Proof.
  intros Hl. destruct (parse_hex_loop_spec s 0) as (o & E & Ho); [lia|rewrite Hl; simpl; lia|].
  exists o. split; [done|]. destruct o; [|done]. rewrite Hl in Ho. lia.
Qed.

Lemma get_range_ok self off n :
  0 <= off + n < 2 ^ 64 -> get_range self off n = Ret (slice_get (fs_file self) off (off + n)).
Proof. intros. unfold get_range. by rewrite usize_add_ok. Qed.

Lemma or_stop_some {A} self (x : A) k : or_stop self (Ret (Some x)) k = k x.
Proof. done. Qed.

(** [next] on any archive that fits in memory: it returns, and an entry moves
    the offset past its header. *)
Lemma initfs_next_total self :
  len (fs_file self) < 2 ^ 63 -> 0 <= fs_offset self < 2 ^ 63 ->
  exists o self', initfs_next self = Ret (o, self') /\ fs_file self' = fs_file self /\
    match o with
    | None => self' = self
    | Some _ => fs_offset self + 110 <= fs_offset self' < len (fs_file self) + 4
    end.
Proof.
  intros Hl Ho. assert (exists (o : option File) self', Ret (None, self) = Ret (o, self') /\ fs_file self' = fs_file self /\
    match o with None => self' = self | Some _ => fs_offset self + 110 <= fs_offset self' < len (fs_file self) + 4 end)
    as Hstop by (by exists None, self).
  unfold initfs_next. unfold CPIO_HEADER_SIZE, CPIO_NAMESIZE_OFFSET, CPIO_FILESIZE_OFFSET.
  rewrite get_range_ok by lia. destruct (slice_get _ _ _) as [magic|]; [|exact Hstop].
  rewrite or_stop_some. destruct (negb _); [exact Hstop|].
  rewrite usize_add_ok by lia. cbn [obind]. rewrite get_range_ok by lia.
  destruct (slice_get _ _ (_ + 94 + 8)) as [nb|] eqn:Enb; [|exact Hstop]. rewrite or_stop_some.
  apply slice_get_length in Enb. destruct (parse_hex_8 nb) as ([ns|] & En & Hns); [lia| |rewrite En; exact Hstop].
  rewrite En, or_stop_some. rewrite usize_add_ok by lia. cbn [obind]. rewrite get_range_ok by lia.
  destruct (slice_get _ _ (_ + 54 + 8)) as [fb|] eqn:Efb; [|exact Hstop]. rewrite or_stop_some.
  apply slice_get_length in Efb. destruct (parse_hex_8 fb) as ([fsz|] & Ef & Hfs); [lia| |rewrite Ef; exact Hstop].
  rewrite Ef, or_stop_some. rewrite usize_add_ok by lia. cbn [obind]. rewrite get_range_ok by lia.
  destruct (slice_get _ _ (_ + 110 + ns)) as [nm|] eqn:Enm; [|exact Hstop]. rewrite or_stop_some. cbv zeta.
  destruct (bool_decide _); [exact Hstop|].
  apply slice_get_Some in Enm as (_ & Hnm & _). rewrite usize_add_ok by lia. cbn [obind].
  destruct (align_up_ok (fs_offset self + 110 + ns) 2) as (dof & Ed & _ & Hdof); [lia..|].
  change (2 ^ 2) with 4 in *. rewrite Ed. cbn [obind]. rewrite get_range_ok by lia.
  destruct (slice_get _ dof _) as [data|] eqn:Edt; [|exact Hstop]. rewrite or_stop_some.
  apply slice_get_Some in Edt as (_ & Hdt & _). rewrite usize_add_ok by lia. cbn [obind].
  destruct (align_up_ok (dof + fsz) 2) as (off' & Eo & _ & Hoff); [lia..|].
  change (2 ^ 2) with 4 in *. rewrite Eo. cbn [obind]. eexists (Some _), _. split; [done|].
  split; [done|]. simpl. lia.
Qed.

Lemma slice_get_skip {A} (l r : list A) a b :
  len l <= a -> a <= b -> slice_get (l ++ r) a b = slice_get r (a - len l) (b - len l).
Proof.
  intros Ha Hb. unfold slice_get. rewrite length_app, Nat2Z.inj_add.
  rewrite (proj2 (Z.leb_le 0 a)), (proj2 (Z.leb_le a b)), (proj2 (Z.leb_le 0 (a - len l))),
    (proj2 (Z.leb_le (a - len l) (b - len l))) by lia.
  replace (b - len l <=? len r) with (b <=? len l + len r) by (case_Z; symmetry; bool_lia).
  destruct (_ && _); [|done]. rewrite drop_app_ge by lia. do 2 f_equal; [lia|]. f_equal. lia.
Qed.

Lemma slice_get_head {A} (l r : list A) a b : a = 0 -> b = len l -> slice_get (l ++ r) a b = Some l.
Proof. intros -> ->. apply (slice_get_middle [] l r); simpl; lia. Qed.

Lemma len_pad4 n : len (pad4 n) = (- n) mod 4.
Proof. unfold pad4. rewrite length_replicate. pose proof (Z.mod_pos_bound (- n) 4). lia. Qed.

(** Alignment of positions within an entry that starts at a multiple of 4. *)
Lemma align_up_4 p v : p mod 4 = 0 -> 0 <= p -> 0 <= v -> p + v + 4 < 2 ^ 64 ->
  align_up (p + v) 4 = Ret (p + v + (- v) mod 4).
Proof.
  intros Hp Hp0 Hv Hb. rewrite (align_up_pow2 (p + v) 2) by lia. change (2 ^ 2) with 4.
  replace (- (p + v)) with (- v + - (p / 4) * 4) by (pose proof (Z.div_mod p 4); lia).
  by rewrite Z.mod_add by lia.
Qed.

Lemma ends_with_nul l : ends_with (l ++ [0]) [0] = true.
Proof.
  unfold ends_with. rewrite length_app. simpl. rewrite bool_decide_true by lia.
  rewrite Nat.add_sub, drop_app_length. done.
Qed.

Lemma len_entry_bytes e :
  entry_ok e ->
  len (entry_bytes e) =
    110 + len (en_name e) + 1 + (- (110 + len (en_name e) + 1)) mod 4 +
    len (en_data e) + (- len (en_data e)) mod 4.
Proof.
  intros [H1 H2 H3 _ _]. unfold entry_bytes, cpio_entry. rewrite !length_app, !length_hexn, H1, H2, H3.
  change (length CPIO_MAGIC) with 6%nat. cbn [length]. unfold CPIO_HEADER_SIZE.
  pose proof (len_pad4 (110 + len (en_name e) + 1)). pose proof (len_pad4 (len (en_data e))). lia.
Qed.

Ltac slice_field :=
  repeat rewrite slice_get_skip by (rewrite ?length_hexn; change (len CPIO_MAGIC) with 6; lia);
  apply slice_get_head; rewrite ?length_hexn, ?length_app; change (len CPIO_MAGIC) with 6; cbn [length]; lia.

Lemma initfs_next_entry pre e rest :
  entry_ok e -> len pre mod 4 = 0 ->
  let file := pre ++ entry_bytes e ++ rest in
  len file < 2 ^ 63 ->
  initfs_next (mkInitFs file (len pre)) =
    if bool_decide (en_name e = CPIO_TRAILER) then Ret (None, mkInitFs file (len pre))
    else Ret (Some (entry_file (len pre) e), mkInitFs file (len pre + len (entry_bytes e))).
Proof.
  intros He Hpre file Hlen. pose proof (len_entry_bytes e He) as Hel.
  unfold file in Hlen. rewrite !length_app in Hlen.
  pose proof (Z.mod_pos_bound (- (110 + len (en_name e) + 1)) 4 ltac:(lia)).
  pose proof (Z.mod_pos_bound (- len (en_data e)) 4 ltac:(lia)).
  pose proof (len_pad4 (CPIO_HEADER_SIZE + len (en_name e) + 1)) as Hp1.
  destruct (id He) as [H1 H2 H3 H4 H5]. set (ns := len (en_name e) + 1) in *.
  assert (110 + len (en_name e) + 1 = 110 + ns) as Ens by lia. rewrite Ens in *.
  assert (file = pre ++ CPIO_MAGIC ++ en_meta1 e ++ hexn 8 (len (en_data e)) ++ en_meta2 e ++
    hexn 8 ns ++ en_check e ++ (en_name e ++ [0]) ++ pad4 (CPIO_HEADER_SIZE + len (en_name e) + 1) ++
    en_data e ++ pad4 (len (en_data e)) ++ rest) as Ef.
  { unfold file, entry_bytes, cpio_entry. by rewrite <- !app_assoc. }
  unfold initfs_next, CPIO_NAMESIZE_OFFSET, CPIO_FILESIZE_OFFSET, CPIO_HEADER_SIZE in *. cbn [fs_offset fs_file].
  assert (slice_get file (len pre) (len pre + 6) = Some CPIO_MAGIC) as S1 by (rewrite Ef; slice_field).
  assert (slice_get file (len pre + 94) (len pre + 94 + 8) = Some (hexn 8 ns)) as S2
    by (rewrite Ef; slice_field).
  assert (slice_get file (len pre + 54) (len pre + 54 + 8) = Some (hexn 8 (len (en_data e)))) as S3
    by (rewrite Ef; slice_field).
  assert (slice_get file (len pre + 110) (len pre + 110 + ns) = Some (en_name e ++ [0])) as S4
    by (rewrite Ef; slice_field).
  assert (slice_get file (len pre + (110 + ns) + (- (110 + ns)) mod 4)
    (len pre + (110 + ns) + (- (110 + ns)) mod 4 + len (en_data e)) = Some (en_data e)) as S5.
  { rewrite Ef. rewrite Ens in Hp1 |- *. assert (len (en_name e ++ [0]) = ns) by (rewrite length_app; simpl; lia). slice_field. }
  rewrite get_range_ok by lia. cbn [fs_file]. rewrite S1, or_stop_some, bool_decide_true by done. cbn [negb].
  rewrite usize_add_ok by lia. cbn [obind]. rewrite get_range_ok by lia. cbn [fs_file].
  rewrite S2, or_stop_some, parse_hex_hexn, or_stop_some by lia.
  rewrite usize_add_ok by lia. cbn [obind]. rewrite get_range_ok by lia. cbn [fs_file].
  rewrite S3, or_stop_some, parse_hex_hexn, or_stop_some by lia.
  rewrite usize_add_ok by lia. cbn [obind]. rewrite get_range_ok by lia. cbn [fs_file].
  rewrite S4, or_stop_some, ends_with_nul. cbv zeta. rewrite length_app, Nat.add_sub, take_app_length.
  destruct (bool_decide _); [done|]. rewrite usize_add_ok by lia. cbn [obind].
  replace (len pre + 110 + ns) with (len pre + (110 + ns)) by lia.
  rewrite align_up_4 by lia. cbn [obind]. rewrite get_range_ok by lia. cbn [fs_file].
  rewrite S5, or_stop_some, usize_add_ok by lia. cbn [obind].
  destruct (round_up_spec (110 + ns) 4 ltac:(lia)) as (Hr & _). cbv zeta in Hr.
  rewrite align_up_4; [|rewrite <- Z.add_assoc, Z.add_mod, Hpre, Hr by lia; done|lia..]. cbn [obind].
  unfold entry_file, data_offset, CPIO_HEADER_SIZE. fold ns. do 3 f_equal; [f_equal|]; lia.
Qed.

Lemma len_entry_mod e : entry_ok e -> len (entry_bytes e) mod 4 = 0.
Proof.
  intros He. rewrite len_entry_bytes by done.
  destruct (round_up_spec (110 + len (en_name e) + 1) 4 ltac:(lia)) as (H1 & _).
  destruct (round_up_spec (len (en_data e)) 4 ltac:(lia)) as (H2 & _). cbv zeta in *.
  rewrite <- (Z.add_assoc _ (len (en_data e))), Z.add_mod, H1, H2 by lia. done.
Qed.

Lemma initfs_files_archive es pre trailer rest :
  Forall (fun e => entry_ok e /\ en_name e <> CPIO_TRAILER) es ->
  entry_ok trailer -> en_name trailer = CPIO_TRAILER -> len pre mod 4 = 0 ->
  let file := pre ++ concat (entry_bytes <$> es) ++ entry_bytes trailer ++ rest in
  len file < 2 ^ 63 ->
  initfs_files (S (length es)) (mkInitFs file (len pre)) = Ret (archive_files (len pre) es).
Proof.
  intros Hes Ht Hname. revert pre. induction Hes as [|e es [He Hne] _ IH]; intros pre Hpre file Hlen.
  - cbn [initfs_files length]. unfold file. change (concat (entry_bytes <$> [])) with (@nil Z).
    cbn [app]. rewrite initfs_next_entry by done. by rewrite bool_decide_true.
  - assert (file = pre ++ entry_bytes e ++ concat (entry_bytes <$> es) ++ entry_bytes trailer ++ rest) as Ef.
    { unfold file. rewrite fmap_cons. cbn [concat]. by rewrite <- app_assoc. }
    change (initfs_files (S (length (e :: es))) ?x) with
      (let* (o, self) := initfs_next x in
       match o with
       | None => Ret []
       | Some f => let* fs := initfs_files (S (length es)) self in Ret (f :: fs)
       end).
    rewrite Ef in *. rewrite (initfs_next_entry pre e _ He Hpre Hlen), bool_decide_false by done. cbn [obind].
    specialize (IH (pre ++ entry_bytes e)). cbv zeta in IH. rewrite <- app_assoc in IH.
    replace (len (pre ++ entry_bytes e)) with (len pre + len (entry_bytes e)) in IH
      by (rewrite length_app; lia).
    rewrite IH; [done| |done]. rewrite Z.add_mod, Hpre, len_entry_mod by (done || lia). done.
Qed.

Lemma initfs_files_total fuel self :
  len (fs_file self) < 2 ^ 63 - 4 -> 0 <= fs_offset self < len (fs_file self) + 4 ->
  (len (fs_file self) + 4 - fs_offset self) / 110 < Z.of_nat fuel ->
  exists fs, initfs_files fuel self = Ret fs.
Proof.
  revert self. induction fuel as [|fuel IH]; intros self Hl Ho Hf.
  { pose proof (Z.div_pos (len (fs_file self) + 4 - fs_offset self) 110). lia. }
  cbn [initfs_files]. destruct (initfs_next_total self) as (o & self' & E & Ef & Hs); [lia..|].
  rewrite E. cbn [obind]. destruct o as [f|]; [|by eexists].
  destruct (IH self') as [fs Efs]; rewrite ?Ef; [lia|lia| |rewrite Efs; by eexists].
  assert (len (fs_file self) + 4 - fs_offset self' <= len (fs_file self) + 4 - fs_offset self + -1 * 110) as Hle by lia.
  apply (Z.div_le_mono _ _ 110) in Hle; [|lia]. rewrite Z.div_add in Hle by lia. lia.
Qed.

End InitFsLemmas.

(** * Properties *)

(** C24: The boot file system reads cpio archives back.  For any list of
    entries whose names are not the trailer's, followed by a trailer and
    anything after it, iterating over the archive yields exactly the names and
    contents of the entries, in order, each where the archive has its data. *)
Theorem initfs_roundtrip {P : Profile} (es : list Entry) (trailer : Entry) (rest : list Z) :
  Forall (fun e => entry_ok e /\ en_name e <> CPIO_TRAILER) es ->
  entry_ok trailer -> en_name trailer = CPIO_TRAILER ->
  let file := concat (entry_bytes <$> es) ++ entry_bytes trailer ++ rest in
  len file < 2 ^ 63 ->
  initfs_files (S (length es)) (mkInitFs file 0) = Ret (archive_files 0 es).
Proof. intros Hes Ht Hn file Hl. by apply (initfs_files_archive es [] trailer rest). Qed.

(** C25: Reading a boot module ends, whatever it contains: no arithmetic
    overflows, no slice is out of bounds, and the iterator stops after at most
    one entry for every 110 bytes. *)
Theorem initfs_terminates {P : Profile} (file : list Z) :
  len file < 2 ^ 63 - 4 ->
  exists fs, initfs_files (Z.to_nat (len file / 110 + 2)) (mkInitFs file 0) = Ret fs.
Proof.
  intros Hl. apply initfs_files_total; cbn [fs_file fs_offset]; [done|lia|].
  pose proof (Z.div_pos (len file) 110). rewrite Z2Nat.id by lia.
  assert (len file + 4 - 0 <= len file + 1 * 110) as Hle by lia.
  apply (Z.div_le_mono _ _ 110) in Hle; [|lia]. rewrite Z.div_add in Hle by lia. lia.
Qed.

Section Witnesses.
#[local] Existing Instance dev.

Definition example_entry (name data : list Z) : Entry :=
  mkEntry (replicate 48 48) (replicate 32 48) (replicate 8 48) name data.

Lemma initfs_roundtrip_witness :
  initfs_files 2 (mkInitFs (concat (entry_bytes <$> [example_entry [97] [1; 2; 3]]) ++
                            entry_bytes (example_entry CPIO_TRAILER []) ++ [9]) 0)
  = Ret [mkFile [97] [1; 2; 3] 112].
Proof.
  apply (initfs_roundtrip [example_entry [97] [1; 2; 3]] (example_entry CPIO_TRAILER []) [9]).
  - repeat constructor; vm_compute; congruence.
  - split; reflexivity.
  - reflexivity.
  - vm_compute. reflexivity.
Defined.

Lemma initfs_terminates_witness :
  exists fs, initfs_files (Z.to_nat (len (CPIO_MAGIC ++ replicate 200 48) / 110 + 2))
    (mkInitFs (CPIO_MAGIC ++ replicate 200 48) 0) = Ret fs.
Proof. apply initfs_terminates. vm_compute. reflexivity. Defined.

End Witnesses.
