(* ===== verification/Loader.v ===== *)
(** * kernel/src/loader.rs: loading server images

    [load_elf] copies a position-independent ELF file into fresh memory and
    applies its relative relocations.  The image is a block of physical memory
    reached through the direct map; [faddr] is the address of the file.

    The specification is byte by byte: [segment_byte] says what the program
    headers put at an offset of the image, [reloc_byte] what the relocations
    make of it. *)

From S2P Require Import Prelude Bytes Alignment ArrayVec Bump Machine Memory Elf.

Inductive LoadError : Set := ParseElf | OutOfMemory | BadRelocType | BadRelocOffset | BadRelocSize.

Record LoadedElf : Set := mkLoadedElf { le_image : Z; le_entry : Z }.

(** ** Pure parts of the loops *)

Definition is_load (p : Phdr) : bool := p_type p =? phdr_type_as_u32 PtLoad.
Definition is_dynamic (p : Phdr) : bool := p_type p =? phdr_type_as_u32 PtDynamic.

(** The inner loop over the entries of a dynamic section. *)
Fixpoint scan_dynamic (entries : list Dyn) (rela_addr rela_size : Z) : Z * Z :=
  match entries with
  | [] => (rela_addr, rela_size)
  | e :: r =>
      if d_tag e =? DT_NULL then (rela_addr, rela_size)
      else if d_tag e =? DT_RELA then scan_dynamic r (d_val e) rela_size
      else if d_tag e =? DT_RELASZ then scan_dynamic r rela_addr (d_val e)
      else scan_dynamic r rela_addr rela_size
  end.

Section LoadElf.
Context {P : Profile} {Mc : Type} `{Machine Mc}.

Fixpoint image_end (image_size : Z) (ps : list Phdr) : outcome Z :=
  match ps with
  | [] => Ret image_size
  | p :: ps =>
      if is_load p then
        let* e := checked_at 64 (p_vaddr p + p_memsz p) in
        image_end (Z.max image_size e) ps
      else image_end image_size ps
  end.

(** [image[off..off + n]] is inside the image. *)
Definition image_range (size off end_ : Z) : outcome unit :=
  if (off <=? end_) && (end_ <=? size) then Ret tt else Panic.

Definition load_segment (elf_file : list Z) (base size : Z) (p : Phdr) : M Mc unit :=
  let src_off := p_offset p in
  let dst_off := p_vaddr p in
  let copy_len := p_filesz p in
  do* src_end := lift (usize_add src_off copy_len) in
  do* src := lift (slice_index elf_file src_off src_end) in
  do* dst_end := lift (usize_add dst_off copy_len) in
  do* _ := lift (image_range size dst_off dst_end) in
  do* _ := vwrite (base + dst_off) src in
  do* zeroed_off := lift (usize_add dst_off copy_len) in
  do* zeroed_len := lift (usize_sub (p_memsz p) copy_len) in
  if 0 <? zeroed_len then
    do* zeroed_end := lift (usize_add zeroed_off zeroed_len) in
    do* _ := lift (image_range size zeroed_off zeroed_end) in
    vwrite (base + zeroed_off) (replicate (Z.to_nat zeroed_len) 0)
  else ret tt.

Fixpoint load_segments (elf_file : list Z) (base size : Z) (ps : list Phdr) : M Mc unit :=
  match ps with
  | [] => ret tt
  | p :: ps =>
      if negb (is_load p) then load_segments elf_file base size ps
      else
        do* _ := load_segment elf_file base size p in
        load_segments elf_file base size ps
  end.

(** [slice::from_raw_parts(image.as_ptr().add(off) as *const T, n)]. *)
Definition image_array {A} (read : list Z -> A) (tsize : nat) (base size off n : Z) : M Mc (list A) :=
  if off + n * Z.of_nat tsize <=? size then
    do* _ := lift (ub_check ((base + off) mod 8 =? 0)) in
    do* b := vread (base + off) (Z.to_nat n * tsize) in
    ret (read_array read tsize (Z.to_nat n) b)
  else lift Undef.

Fixpoint find_rela (base size : Z) (ps : list Phdr) (rela_addr rela_size : Z) : M Mc (Z * Z) :=
  match ps with
  | [] => ret (rela_addr, rela_size)
  | p :: ps =>
      if negb (is_dynamic p) then find_rela base size ps rela_addr rela_size
      else
        do* dynamic := image_array read_dyn DYN_SIZE base size (p_vaddr p) (p_memsz p / Z.of_nat DYN_SIZE) in
        let (rela_addr, rela_size) := scan_dynamic dynamic rela_addr rela_size in
        find_rela base size ps rela_addr rela_size
  end.

(** One relocation. *)
Definition relocate (base size : Z) (rela : Rela) : M Mc (result LoadError unit) :=
  let target_off := r_offset rela in
  if negb (r_sym rela =? 0) then ret (Err BadRelocType)
  else if negb (r_type rela =? R_X86_64_RELATIVE) then ret (Err BadRelocType)
  else
    match checked_add 64 target_off 8 with
    | Some target_end =>
        if target_end <=? size then
          let value := wrap 64 (base + wrap 64 (r_addend rela)) in
          do* _ := vwrite (base + target_off) (le_bytes 8 value) in
          ret (Ok tt)
        else ret (Err BadRelocOffset)
    | None => ret (Err BadRelocOffset)
    end.

(** The loop over the table at [addr], which reads each entry when it gets to
    it. *)
Fixpoint relocate_loop (base size addr : Z) (n : nat) : M Mc (result LoadError unit) :=
  match n with
  | O => ret (Ok tt)
  | S n =>
      do* b := vread addr RELA_SIZE in
      do? _ := relocate base size (read_rela b) in
      relocate_loop base size (addr + Z.of_nat RELA_SIZE) n
  end.

Definition apply_relocations (base size rela_addr rela_size : Z) : M Mc (result LoadError unit) :=
  if negb (rela_addr =? 0) && (0 <? rela_size) then
    if negb (rela_size mod Z.of_nat RELA_SIZE =? 0) then ret (Err BadRelocSize)
    else if rela_addr + rela_size <=? size then
      do* _ := lift (ub_check ((base + rela_addr) mod 8 =? 0)) in
      relocate_loop base size (base + rela_addr) (Z.to_nat (rela_size / Z.of_nat RELA_SIZE))
    else lift Undef
  else ret (Ok tt).

Definition load_elf (faddr : Z) (elf_file : list Z) : M Mc (result LoadError LoadedElf) :=
  do* r := lift (elf_parse faddr elf_file ET_DYN) in
  match r with
  | Err _ => ret (Err ParseElf)
  | Ok elf =>
      do* image_end := lift (image_end 0 (phdrs elf)) in
      do* image_size := lift (align_up image_end MIN_PAGE_SIZE) in
      do* o := page_alloc image_size Zeroed in
      do? image_paddr := ret (ok_or o OutOfMemory) in
      let base := paddr2vaddr image_paddr in
      do* _ := load_segments elf_file base image_size (phdrs elf) in
      do* (rela_addr, rela_size) := find_rela base image_size (phdrs elf) 0 0 in
      do? _ := apply_relocations base image_size rela_addr rela_size in
      if e_entry (ehdr elf) <=? image_size
      then ret (Ok (mkLoadedElf base (base + e_entry (ehdr elf))))
      else lift Undef
  end.

End LoadElf.

(** ** What the image should be *)

(** The effect of one program header on the byte at offset [i]. *)
Definition segment_step (file : list Z) (i b : Z) (p : Phdr) : Z :=
  if negb (is_load p) then b
  else if (p_vaddr p <=? i) && (i <? p_vaddr p + p_filesz p)
       then file !!! Z.to_nat (p_offset p + (i - p_vaddr p))
  else if (p_vaddr p + p_filesz p <=? i) && (i <? p_vaddr p + p_memsz p) then 0
  else b.

(** Memory starts as zeros; the last header that covers a byte decides. *)
Definition segment_byte (file : list Z) (ps : list Phdr) (i : Z) : Z :=
  fold_left (segment_step file i) ps 0.

Definition reloc_step (base i b : Z) (r : Rela) : Z :=
  if (r_offset r <=? i) && (i <? r_offset r + 8)
  then le_bytes 8 (wrap 64 (base + wrap 64 (r_addend r))) !!! Z.to_nat (i - r_offset r)
  else b.

Definition reloc_byte (base : Z) (rs : list Rela) (i b : Z) : Z := fold_left (reloc_step base i) rs b.

(** The unrelocated image, and the relocation table it describes. *)
Definition raw_image (file : list Z) (ps : list Phdr) (size : Z) : list Z :=
  segment_byte file ps <$> seqZ 0 size.

Definition array_of {A} (read : list Z -> A) (tsize : nat) (img : list Z) (off n : Z) : list A :=
  read_array read tsize (Z.to_nat n) (take (Z.to_nat n * tsize) (drop (Z.to_nat off) img)).

Fixpoint rela_of (img : list Z) (ps : list Phdr) (rela_addr rela_size : Z) : Z * Z :=
  match ps with
  | [] => (rela_addr, rela_size)
  | p :: ps =>
      if negb (is_dynamic p) then rela_of img ps rela_addr rela_size
      else
        let (rela_addr, rela_size) :=
          scan_dynamic (array_of read_dyn DYN_SIZE img (p_vaddr p) (p_memsz p / 16)) rela_addr rela_size in
        rela_of img ps rela_addr rela_size
  end.

Definition relocs_of (img : list Z) (ps : list Phdr) : list Rela :=
  let (addr, size) := rela_of img ps 0 0 in
  if negb (addr =? 0) && (0 <? size) then array_of read_rela RELA_SIZE img addr (size / 24) else [].

(** The end of the highest segment, and the size of the image in pages. *)
Definition extent_step (m : Z) (p : Phdr) : Z :=
  if is_load p then Z.max m (p_vaddr p + p_memsz p) else m.
Definition image_extent (ps : list Phdr) : Z := fold_left extent_step ps 0.
Definition round_page (n : Z) : Z := n + (- n) mod MIN_PAGE_SIZE.

(** A loadable segment lies inside the file and the image. *)
Record seg_ok (file : list Z) (size : Z) (p : Phdr) : Prop := {
  so_offset : 0 <= p_offset p;
  so_vaddr : 0 <= p_vaddr p;
  so_filesz : 0 <= p_filesz p <= p_memsz p;
  so_file : p_offset p + p_filesz p <= len file;
  so_image : p_vaddr p + p_memsz p <= size
}.

Definition dyn_ok (size : Z) (p : Phdr) : Prop :=
  0 <= p_vaddr p /\ p_vaddr p mod 8 = 0 /\ 0 <= p_memsz p /\ p_vaddr p + p_memsz p <= size.

(** Relocations the loader accepts, away from the table itself. *)
Definition rela_ok (size addr tsize : Z) (r : Rela) : Prop :=
  r_sym r = 0 /\ r_type r = R_X86_64_RELATIVE /\ 0 <= r_offset r /\ r_offset r + 8 <= size /\
  (r_offset r + 8 <= addr \/ addr + tsize <= r_offset r).

Definition table_ok (img : list Z) (ps : list Phdr) (size : Z) : Prop :=
  let (addr, tsize) := rela_of img ps 0 0 in
  addr = 0 \/ tsize <= 0 \/
  (0 < addr /\ addr mod 8 = 0 /\ tsize mod 24 = 0 /\ addr + tsize <= size /\
   Forall (rela_ok size addr tsize) (array_of read_rela RELA_SIZE img addr (tsize / 24))).

(** * Lemmas *)

Lemma array_of_S {A} (read : list Z -> A) tsize img off (n : nat) :
  0 <= off ->
  array_of read tsize img off (Z.of_nat (S n)) =
  read (take tsize (drop (Z.to_nat off) img)) :: array_of read tsize img (off + Z.of_nat tsize) (Z.of_nat n).
Proof.
  intros Ho. unfold array_of. rewrite !Nat2Z.id. cbn [read_array Nat.mul]. f_equal.
  - by rewrite take_take, Nat.min_l by lia.
  - f_equal. rewrite skipn_firstn_comm, drop_drop. f_equal; [lia|]. f_equal. lia.
Qed.

Lemma lookup_total_some {A} `{Inhabited A} (l : list A) (i : nat) : 
  (i < length l)%nat -> l !! i = Some (l !!! i).
Proof. intros Hi. by apply list_lookup_lookup_total_lt. Qed.

Section LoaderLemmas.
Context {P : Profile} {Mc : Type} `{MachineLaws Mc}.
Implicit Types s : Mc.

(** A block of memory that the loader fills. *)
Context (p size : Z) (Hp : 0 <= p) (Hpa : p mod MIN_PAGE_SIZE = 0) (Hs : 0 < size)
  (Hend : p + size <= DIRECT_MAP_SIZE).
Let base := paddr2vaddr p.

Definition holds (s : Mc) (f : Z -> Z) : Prop := forall i, 0 <= i < size -> ram s (p + i) = f i.

(** What writing the image leaves alone. *)
Record only_image (s s' : Mc) : Prop := {
  oi_inv : machine_inv s';
  oi_ram : forall x, ~ in_block p size x -> ram s' x = ram s x;
  oi_avail : forall x, avail s' x <-> avail s x
}.

Lemma only_image_refl s : machine_inv s -> only_image s s.
Proof. by split. Qed.

Lemma only_image_trans s1 s2 s3 : only_image s1 s2 -> only_image s2 s3 -> only_image s1 s3.
Proof.
  intros [_ R1 A1] [I2 R2 A2]. split; [done| |].
  - intros x Hx. by rewrite R2, R1.
  - intros x. by rewrite A2, A1.
Qed.

Lemma p_small : 0 <= p < 2 ^ 47.
Proof. unfold DIRECT_MAP_SIZE, GIGA_PAGE_SIZE in *. lia. Qed.

Lemma size_small : size < 2 ^ 47.
Proof. unfold DIRECT_MAP_SIZE, GIGA_PAGE_SIZE in *. lia. Qed.

Lemma base_aligned off : off mod 8 = 0 -> (base + off) mod 8 = 0.
Proof.
  intros Ho. unfold base. rewrite paddr2vaddr_add by apply p_small.
  assert (p mod 8 = 0) as Hp8.
  { unfold MIN_PAGE_SIZE in Hpa. apply Z.mod_divide in Hpa as [q ->]; [|lia].
    replace (q * 4096) with (q * 512 * 8) by lia. apply Z.mod_mul. lia. }
  rewrite Z.add_mod, (Z.add_mod KERNEL_BASE), Hp8, Ho by lia. reflexivity.
Qed.

Lemma image_write s f off bs :
  machine_inv s -> holds s f -> bytes_ok bs -> 0 <= off -> off + len bs <= size ->
  exists s', vwrite (base + off) bs s = Ret (tt, s') /\ only_image s s' /\
    holds s' (fun i => if (off <=? i) && (i <? off + len bs) then bs !!! Z.to_nat (i - off) else f i).
Proof.
  intros Hi Hf Hb Ho Hl. pose proof p_small as Hps. unfold base.
  eexists. split; [apply vwrite_run; lia|]. split.
  - split; [by apply write_inv| |intros x; apply avail_set_ram].
    intros x Hx. rewrite ram_set_ram. apply mem_write_out. unfold in_block in Hx. lia.
  - intros i Hii. rewrite ram_set_ram. destruct (_ && _) eqn:E.
    + simpl_bool. apply mem_write_in; [lia|]. rewrite lookup_total_some by lia. do 2 f_equal. lia.
    + rewrite mem_write_out; [by apply Hf|]. apply andb_false_iff in E as [?|?]; simpl_bool; lia.
Qed.

Lemma image_read s f off (n : nat) :
  holds s f -> 0 <= off -> off + Z.of_nat n <= size ->
  vread (base + off) n s = Ret (take n (drop (Z.to_nat off) (f <$> seqZ 0 size)), s).
Proof.
  intros Hf Ho Hl. unfold base. rewrite vread_run by (pose proof p_small; lia). do 2 f_equal.
  assert (length (take n (drop (Z.to_nat off) (f <$> seqZ 0 size))) = n) as Hlen.
  { rewrite length_take, length_drop, length_fmap, length_seqZ. lia. }
  apply list_eq_same_length with n; [done|apply length_mem_read|]. intros i x y Hi.
  rewrite mem_read_lookup by done. rewrite lookup_take_lt, lookup_drop, list_lookup_fmap by lia.
  rewrite lookup_seqZ_lt by lia. simpl. intros [= <-] [= <-].
  replace (p + off + Z.of_nat i) with (p + (off + Z.of_nat i)) by lia. rewrite Hf by lia. f_equal. lia.
Qed.

Lemma load_segment_spec file s f ph :
  machine_inv s -> holds s f -> bytes_ok file -> len file < 2 ^ 64 -> is_load ph = true -> seg_ok file size ph ->
  exists s', load_segment file base size ph s = Ret (tt, s') /\ only_image s s' /\
    holds s' (fun i => segment_step file i (f i) ph).
Proof.
  intros Hi Hf Hb Hfl Hld [H1 H2 [H3 H3'] H4 H5]. pose proof size_small as Hss. unfold load_segment.
  assert (Hsrc : slice_index file (p_offset ph) (p_offset ph + p_filesz ph) =
    Ret (take (Z.to_nat (p_filesz ph)) (drop (Z.to_nat (p_offset ph)) file))).
  { unfold slice_index. rewrite slice_get_ok by lia. do 2 f_equal. f_equal. lia. }
  set (src := take _ _) in Hsrc.
  assert (len src = p_filesz ph) as Hlen by (unfold src; rewrite length_take, length_drop; lia).
  rewrite bind_lift with (a := p_offset ph + p_filesz ph) by (apply usize_add_ok; lia).
  rewrite (bind_lift _ _ _ _ Hsrc).
  rewrite bind_lift with (a := p_vaddr ph + p_filesz ph) by (apply usize_add_ok; lia).
  rewrite bind_lift with (a := tt) by (unfold image_range; by replace (_ && _) with true by (symmetry; bool_lia)).
  destruct (image_write s f (p_vaddr ph) src) as (s1 & E1 & O1 & F1);
    [done|done|by apply Forall_take, Forall_drop|lia|lia|].
  rewrite (bind_run _ _ _ _ _ E1).
  rewrite bind_lift with (a := p_vaddr ph + p_filesz ph) by (apply usize_add_ok; lia).
  rewrite bind_lift with (a := p_memsz ph - p_filesz ph) by (apply usize_sub_ok; lia).
  assert (holds s1 (fun i => if (p_vaddr ph <=? i) && (i <? p_vaddr ph + p_filesz ph)
    then file !!! Z.to_nat (p_offset ph + (i - p_vaddr ph)) else f i)) as F1'.
  { intros i Hii. rewrite F1, Hlen by done. destruct (_ && _) eqn:E; [|done]. simpl_bool. unfold src.
    rewrite !list_lookup_total_alt, lookup_take_lt, lookup_drop by lia. do 2 f_equal. lia. }
  destruct (Z.ltb_spec 0 (p_memsz ph - p_filesz ph)).
  - rewrite bind_lift with (a := p_vaddr ph + p_memsz ph) by (rewrite usize_add_ok by lia; f_equal; lia).
    rewrite bind_lift with (a := tt) by (unfold image_range; by replace (_ && _) with true by (symmetry; bool_lia)).
    destruct (image_write s1 _ (p_vaddr ph + p_filesz ph) (replicate (Z.to_nat (p_memsz ph - p_filesz ph)) 0)
      (oi_inv _ _ O1) F1') as (s2 & E2 & O2 & F2); [apply bytes_ok_zeros|lia|rewrite length_replicate; lia|].
    exists s2. split; [done|]. split; [by eapply only_image_trans|].
    intros i Hii. rewrite F2 by done. unfold segment_step. rewrite Hld. cbn [negb]. rewrite length_replicate.
    replace (p_vaddr ph + p_filesz ph + Z.of_nat (Z.to_nat (p_memsz ph - p_filesz ph)))
      with (p_vaddr ph + p_memsz ph) by lia.
    destruct ((p_vaddr ph + p_filesz ph <=? i) && (i <? p_vaddr ph + p_memsz ph)) eqn:E; [|done].
    simpl_bool. rewrite (proj2 (Z.ltb_ge i (p_vaddr ph + p_filesz ph))), andb_false_r by lia.
    apply lookup_total_replicate_2. lia.
  - exists s1. split; [done|]. split; [done|]. intros i Hii. rewrite F1' by done.
    unfold segment_step. rewrite Hld. cbn [negb]. destruct (_ && _) eqn:E; [done|].
    destruct ((p_vaddr ph + p_filesz ph <=? i) && (i <? p_vaddr ph + p_memsz ph)) eqn:E2; [|done].
    simpl_bool. lia.
Qed.

Lemma load_segments_spec file ps :
  bytes_ok file -> len file < 2 ^ 64 ->
  Forall (fun ph => is_load ph = true -> seg_ok file size ph) ps -> forall s f,
  machine_inv s -> holds s f ->
  exists s', load_segments file base size ps s = Ret (tt, s') /\ only_image s s' /\
    holds s' (fun i => fold_left (segment_step file i) ps (f i)).
Proof.
  intros Hb Hfl. induction 1 as [|ph ps Hph _ IH]; intros s f Hi Hf.
  { exists s. split; [done|]. split; [by apply only_image_refl|done]. }
  cbn [load_segments fold_left]. destruct (is_load ph) eqn:Hld; cbn [negb].
  - destruct (load_segment_spec file s f ph Hi Hf Hb Hfl Hld (Hph eq_refl)) as (s1 & E1 & O1 & F1).
    destruct (IH s1 _ (oi_inv _ _ O1) F1) as (s2 & E2 & O2 & F2).
    rewrite (bind_run _ _ _ _ _ E1). exists s2. split; [done|]. split; [by eapply only_image_trans|done].
  - destruct (IH s f Hi Hf) as (s2 & E2 & O2 & F2). exists s2. split; [done|]. split; [done|].
    intros i Hii. rewrite F2 by done. unfold segment_step at 3. by rewrite Hld.
Qed.

Lemma image_array_run {A} (read : list Z -> A) tsize s f off n :
  holds s f -> 0 <= off -> off mod 8 = 0 -> 0 <= n -> off + n * Z.of_nat tsize <= size ->
  image_array read tsize base size off n s = Ret (array_of read tsize (f <$> seqZ 0 size) off n, s).
Proof.
  intros Hf Ho Hal Hn Hl. unfold image_array. rewrite (proj2 (Z.leb_le _ _)) by lia.
  rewrite bind_lift with (a := tt) by (apply ub_check_ok, Z.eqb_eq; by apply base_aligned).
  by rewrite (bind_run _ _ _ _ _ (image_read s f off (Z.to_nat n * tsize) Hf Ho ltac:(nia))).
Qed.

Lemma find_rela_spec s f ps a b :
  holds s f -> Forall (fun ph => is_dynamic ph = true -> dyn_ok size ph) ps ->
  find_rela base size ps a b s = Ret (rela_of (f <$> seqZ 0 size) ps a b, s).
Proof.
  intros Hf Hps. revert a b. induction Hps as [|ph ps Hph _ IH]; intros a b; [done|].
  cbn [find_rela rela_of]. destruct (is_dynamic ph); cbn [negb]; [|apply IH].
  destruct (Hph eq_refl) as (H1 & H2 & H3 & H4).
  pose proof (Z.div_pos (p_memsz ph) 16 ltac:(lia) ltac:(lia)).
  pose proof (Z.mul_div_le (p_memsz ph) 16 ltac:(lia)).
  change (Z.of_nat DYN_SIZE) with 16. erewrite bind_run by (apply image_array_run; [done..|]; unfold DYN_SIZE; lia).
  destruct (scan_dynamic _ a b). apply IH.
Qed.

Lemma relocate_spec s f taddr tsize r :
  machine_inv s -> holds s f -> rela_ok size taddr tsize r ->
  exists s', relocate base size r s = Ret (Ok tt, s') /\ only_image s s' /\
    holds s' (fun i => reloc_step base i (f i) r).
Proof.
  intros Hi Hf (H1 & H2 & H3 & H4 & _). pose proof size_small as Hss.
  unfold relocate. rewrite H1, H2. cbn [negb Z.eqb].
  change (R_X86_64_RELATIVE =? R_X86_64_RELATIVE) with true. cbn [negb].
  unfold checked_add. rewrite (proj2 (Z.ltb_lt _ _)), (proj2 (Z.leb_le _ _)) by lia.
  destruct (image_write s f (r_offset r) (le_bytes 8 (wrap 64 (base + wrap 64 (r_addend r)))))
    as (s' & E & O & F); [done|done|apply le_bytes_ok|lia|rewrite length_le_bytes; lia|].
  rewrite (bind_run _ _ _ _ _ E). exists s'. split; [done|]. split; [done|]. exact F.
Qed.

(** The table is read as the loop runs; since no relocation touches it, the
    entries are those of the unrelocated image. *)
Lemma relocate_loop_spec taddr tsize img n : forall addr s f,
  machine_inv s -> holds s f -> length img = Z.to_nat size ->
  (forall i, taddr <= i < taddr + tsize -> f i = img !!! Z.to_nat i) ->
  0 <= taddr <= addr -> addr + 24 * Z.of_nat n <= taddr + tsize <= size ->
  Forall (rela_ok size taddr tsize) (array_of read_rela RELA_SIZE img addr (Z.of_nat n)) ->
  exists s', relocate_loop base size (base + addr) n s = Ret (Ok tt, s') /\ only_image s s' /\
    holds s' (fun i => fold_left (reloc_step base i) (array_of read_rela RELA_SIZE img addr (Z.of_nat n)) (f i)).
Proof.
  induction n as [|n IH]; intros addr s f Hi Hf Hlen Htab Ha He Hall.
  { exists s. split; [done|]. split; [by apply only_image_refl|done]. }
  rewrite array_of_S in * by lia. apply Forall_cons in Hall as [Hr Hall].
  cbn [relocate_loop fold_left]. rewrite (bind_run _ _ _ _ _ (image_read s f addr RELA_SIZE Hf ltac:(lia)
    ltac:(unfold RELA_SIZE; lia))).
  assert (take RELA_SIZE (drop (Z.to_nat addr) (f <$> seqZ 0 size)) = take RELA_SIZE (drop (Z.to_nat addr) img)) as Eb.
  { apply list_eq_same_length with RELA_SIZE; [rewrite length_take, length_drop; unfold RELA_SIZE; lia
      |rewrite length_take, length_drop, length_fmap, length_seqZ; unfold RELA_SIZE; lia|].
    unfold RELA_SIZE. intros i x y Hii. rewrite !lookup_take_lt, !lookup_drop, list_lookup_fmap by lia.
    rewrite lookup_seqZ_lt by lia. simpl. rewrite lookup_total_some by lia. intros [= <-] [= <-].
    rewrite Htab by lia. f_equal. lia. }
  rewrite Eb. set (r := read_rela _) in *.
  destruct (relocate_spec s f taddr tsize r Hi Hf Hr) as (s1 & E1 & O1 & F1).
  rewrite (bindr_ok _ _ _ _ _ E1). rewrite <- Z.add_assoc. change (Z.of_nat RELA_SIZE) with 24 in *.
  destruct (IH (addr + 24) s1 _ (oi_inv _ _ O1) F1) as (s2 & E2 & O2 & F2); [done| |lia|lia|done|].
  - intros i Hii. rewrite <- Htab by done. unfold reloc_step. destruct Hr as (_ & _ & _ & _ & Hd).
    destruct (_ && _) eqn:E; [|done]. simpl_bool. lia.
  - exists s2. split; [done|]. split; [by eapply only_image_trans|done].
Qed.

Lemma apply_relocations_spec s f ps :
  machine_inv s -> holds s f -> let img := f <$> seqZ 0 size in
  table_ok img ps size ->
  exists s', apply_relocations base size (fst (rela_of img ps 0 0)) (snd (rela_of img ps 0 0)) s
      = Ret (Ok tt, s') /\
    only_image s s' /\ holds s' (fun i => reloc_byte base (relocs_of img ps) i (f i)).
Proof.
  intros Hi Hf img Ht. unfold table_ok, relocs_of in *. destruct (rela_of img ps 0 0) as [addr tsize]. simpl.
  unfold apply_relocations. destruct (negb (addr =? 0) && (0 <? tsize)) eqn:E.
  2: { exists s. split; [done|]. split; [by apply only_image_refl|done]. }
  simpl_bool. destruct Ht as [?|[?|(Ha & Hal & Hm & He & Hall)]]; [lia|lia|].
  change (Z.of_nat RELA_SIZE) with 24. rewrite Hm. cbn [negb Z.eqb].
  rewrite (proj2 (Z.leb_le _ _)) by lia.
  rewrite bind_lift with (a := tt) by (apply ub_check_ok, Z.eqb_eq; by apply base_aligned).
  pose proof (Z.div_pos tsize 24 ltac:(lia) ltac:(lia)). pose proof (Z.mul_div_le tsize 24 ltac:(lia)).
  rewrite <- (Z2Nat.id (tsize / 24)) in Hall |- * by lia. rewrite Nat2Z.id.
  apply (relocate_loop_spec addr tsize img); try done; [|unfold img|lia|lia].
  - unfold img. by rewrite length_fmap, length_seqZ.
  - intros i Hii. rewrite list_lookup_total_alt, list_lookup_fmap, lookup_seqZ_lt by lia.
    simpl. f_equal. lia.
Qed.

End LoaderLemmas.

Section Extent.
Context {P : Profile}.

Lemma extent_fold_mono ps m : m <= fold_left extent_step ps m.
Proof.
  revert m. induction ps as [|ph ps IH]; intros m; simpl; [lia|].
  etransitivity; [|apply IH]. unfold extent_step. destruct (is_load ph); lia.
Qed.

Lemma extent_bound ps ph m :
  ph ∈ ps -> is_load ph = true -> p_vaddr ph + p_memsz ph <= fold_left extent_step ps m.
Proof.
  intros Hin Hld. revert m. induction Hin as [ph ps|ph x ps _ IH]; intros m; simpl; [|by apply IH].
  etransitivity; [|apply extent_fold_mono]. unfold extent_step. rewrite Hld. lia.
Qed.

Lemma image_end_spec ps m :
  0 <= m -> Forall (fun ph => is_load ph = true -> 0 <= p_vaddr ph + p_memsz ph < 2 ^ 64) ps ->
  image_end m ps = Ret (fold_left extent_step ps m).
Proof.
  intros Hm Hps. revert m Hm. induction Hps as [|ph ps Hph _ IH]; intros m Hm; [done|].
  cbn [image_end fold_left]. unfold extent_step at 2. destruct (is_load ph).
  - rewrite checked_at_ok by auto. cbn [obind]. apply IH. lia.
  - by apply IH.
Qed.

Lemma extent_le ps m b :
  m <= b -> Forall (fun ph => is_load ph = true -> p_vaddr ph + p_memsz ph <= b) ps ->
  fold_left extent_step ps m <= b.
Proof.
  intros Hm Hps. revert m Hm. induction Hps as [|ph ps Hph _ IH]; intros m Hm; [done|].
  simpl. apply IH. unfold extent_step. destruct (is_load ph); [specialize (Hph eq_refl); lia|done].
Qed.

Lemma round_page_spec n : 0 < n ->
  n <= round_page n < n + MIN_PAGE_SIZE /\ round_page n mod MIN_PAGE_SIZE = 0.
Proof.
  intros Hn. destruct (round_up_spec n MIN_PAGE_SIZE) as (H1 & H2 & _); [done|]. done.
Qed.

Lemma seg_ok_shrink file b size ph : seg_ok file b ph -> p_vaddr ph + p_memsz ph <= size -> seg_ok file size ph.
Proof. intros [] ?. by split. Qed.

(** The steps of [load_elf] before the allocation. *)
Lemma load_elf_prefix {Mc} `{Machine Mc} faddr file elf (s : Mc) :
  elf_parse faddr file ET_DYN = Ret (Ok elf) ->
  Forall (fun ph => is_load ph = true -> seg_ok file (2 ^ 63) ph) (phdrs elf) ->
  0 < image_extent (phdrs elf) ->
  let size := round_page (image_extent (phdrs elf)) in
  0 < size < 2 ^ 64 /\ size mod MIN_PAGE_SIZE = 0 /\
  Forall (fun ph => is_load ph = true -> seg_ok file size ph) (phdrs elf) /\
  load_elf faddr file s = (do* o := page_alloc size Zeroed in
    do? p := ret (ok_or o OutOfMemory) in
    let base := paddr2vaddr p in
    do* _ := load_segments file base size (phdrs elf) in
    do* (rela_addr, rela_size) := find_rela base size (phdrs elf) 0 0 in
    do? _ := apply_relocations base size rela_addr rela_size in
    if e_entry (ehdr elf) <=? size
    then ret (Ok (mkLoadedElf base (base + e_entry (ehdr elf)))) else lift Undef) s.
Proof.
  intros Hparse Hseg Hext size. pose proof (round_page_spec _ Hext) as [Hr Hm]. fold size in Hr, Hm.
  assert (image_extent (phdrs elf) <= 2 ^ 63) as Hle.
  { apply extent_le; [lia|]. eapply Forall_impl; [exact Hseg|]. intros ph Hph Hld. apply (Hph Hld). }
  unfold MIN_PAGE_SIZE in Hr. split; [lia|]. split; [done|]. split.
  { apply Forall_forall. intros ph Hin Hld. 
    apply (seg_ok_shrink file (2 ^ 63)); [by apply (proj1 (Forall_forall _ _) Hseg ph Hin)|].
    pose proof (extent_bound _ _ 0 Hin Hld). unfold image_extent in Hr. lia. }
  unfold load_elf. rewrite (bind_lift _ _ _ _ Hparse).
  rewrite bind_lift with (a := image_extent (phdrs elf)).
  2: { apply image_end_spec; [lia|]. eapply Forall_impl; [exact Hseg|]. intros ph Hph Hld.
       destruct (Hph Hld). lia. }
  rewrite bind_lift with (a := size); [done|]. apply (align_up_pow2 _ 12); lia.
Qed.

End Extent.

(** The whole loader. *)
Lemma load_elf_spec {P : Profile} {Mc : Type} `{MachineLaws Mc} (faddr : Z) (file : list Z)
  (elf : Elf) (s : Mc) :
  let ps := phdrs elf in
  let size := round_page (image_extent ps) in
  let img := raw_image file ps size in
  machine_inv s -> bytes_ok file -> len file < 2 ^ 64 ->
  elf_parse faddr file ET_DYN = Ret (Ok elf) ->
  Forall (fun ph => is_load ph = true -> seg_ok file (2 ^ 63) ph) ps -> 0 < image_extent ps ->
  Forall (fun ph => is_dynamic ph = true -> dyn_ok size ph) ps -> table_ok img ps size ->
  e_entry (ehdr elf) <= size ->
  exists r s', load_elf faddr file s = Ret (r, s') /\
  match r with
  | Err e => e = OutOfMemory /\ s' = s
  | Ok l => exists p, l = mkLoadedElf (paddr2vaddr p) (paddr2vaddr p + e_entry (ehdr elf)) /\
      p mod MIN_PAGE_SIZE = 0 /\ (forall x, in_block p size x -> avail s x) /\
      (forall x, avail s' x -> avail s x /\ ~ in_block p size x) /\
      (forall x, ~ in_block p size x -> ram s' x = ram s x) /\ machine_inv s' /\
      forall i, 0 <= i < size ->
        ram s' (p + i) = reloc_byte (paddr2vaddr p) (relocs_of img ps) i (segment_byte file ps i)
  end.
Proof.
  intros ps size img Hi Hb Hfl Hparse Hseg Hext Hdyn Htab Hent.
  destruct (load_elf_prefix faddr file elf s Hparse Hseg Hext) as (Hsz & Hsm & Hseg' & E).
  fold ps in E, Hseg', Hsz, Hsm. fold size in E, Hseg', Hsz, Hsm. rewrite E.
  destruct (page_alloc_spec s size Zeroed Hi Hsz Hsm) as (o & s1 & E1 & Hi1 & Hpost).
  rewrite (bind_run _ _ _ _ _ E1). destruct o as [p|].
  2: { exists (Err OutOfMemory), s1. split; [done|]. split; [done|exact Hpost]. }
  cbn [ok_or]. rewrite (bindr_ok _ _ s1 p s1) by done. cbv zeta.
  destruct (alloc_post_bounds s size Zeroed p s1 Hi ltac:(lia) Hpost) as [Hp Hend].
  destruct Hpost as (Hpa & Hblk & Hav & Hram & Hz).
  assert (holds p size s1 (fun _ => 0)) as Hzero.
  { intros i Hii. apply Hz; [done|]. unfold in_block. lia. }
  destruct (load_segments_spec p size Hp ltac:(lia) Hend file ps Hb Hfl Hseg' s1 _ Hi1 Hzero)
    as (s2 & E2 & O2 & F2).
  rewrite (bind_run _ _ _ _ _ E2).
  rewrite (bind_run _ _ _ _ _ (find_rela_spec p size Hp Hpa ltac:(lia) Hend s2 _ ps 0 0 F2 Hdyn)).
  destruct (apply_relocations_spec p size Hp Hpa ltac:(lia) Hend s2 _ ps (oi_inv _ _ _ _ O2) F2 Htab)
    as (s3 & E3 & O3 & F3).
  destruct (rela_of _ ps 0 0) as [ra rs]. cbn [fst snd] in E3. rewrite (bindr_ok _ _ _ _ _ E3).
  rewrite (proj2 (Z.leb_le _ _)) by done. eexists (Ok _), s3. split; [done|].
  pose proof (only_image_trans _ _ _ _ _ O2 O3) as [Hi3 Hr3 Ha3]. exists p. split; [done|].
  split; [done|]. split; [exact Hblk|]. split; [|split; [|split; [done|exact F3]]].
  - intros x Hx. apply Hav. by rewrite <- Ha3.
  - intros x Hx. by rewrite Hr3, Hram.
Qed.

(** * Properties *)

(** C26: The loader builds the image the file describes.  For a
    position-independent file whose segments lie inside the file and whose
    relocation table is well formed, it either runs out of memory, with no
    effect, or returns a fresh page-aligned block of memory in which every
    byte is what the last segment covering it says (file contents, then
    zeros), with every relative relocation applied for the address of that
    block.  No other memory changes. *)
Theorem load_elf_correct {P : Profile} {Mc : Type} `{MachineLaws Mc} (faddr : Z) (file : list Z)
  (elf : Elf) (s : Mc) :
  let ps := phdrs elf in
  let size := round_page (image_extent ps) in
  let img := raw_image file ps size in
  machine_inv s -> bytes_ok file -> len file < 2 ^ 64 ->
  elf_parse faddr file ET_DYN = Ret (Ok elf) ->
  Forall (fun ph => is_load ph = true -> seg_ok file (2 ^ 63) ph) ps -> 0 < image_extent ps ->
  Forall (fun ph => is_dynamic ph = true -> dyn_ok size ph) ps -> table_ok img ps size ->
  e_entry (ehdr elf) <= size ->
  exists r s', load_elf faddr file s = Ret (r, s') /\
  match r with
  | Err e => e = OutOfMemory /\ s' = s
  | Ok l => exists p, l = mkLoadedElf (paddr2vaddr p) (paddr2vaddr p + e_entry (ehdr elf)) /\
      p mod MIN_PAGE_SIZE = 0 /\ (forall x, in_block p size x -> avail s x) /\
      (forall x, avail s' x -> avail s x /\ ~ in_block p size x) /\
      (forall x, ~ in_block p size x -> ram s' x = ram s x) /\ machine_inv s' /\
      forall i, 0 <= i < size ->
        ram s' (p + i) = reloc_byte (paddr2vaddr p) (relocs_of img ps) i (segment_byte file ps i)
  end.
Proof. apply load_elf_spec. Qed.

Section Witnesses.
#[local] Existing Instance dev.

(** A dynamic section at 0, one relocation at 64 whose target is at 96. *)
Definition example_data : list Z :=
  le_bytes 8 DT_RELA ++ le_bytes 8 64 ++ le_bytes 8 DT_RELASZ ++ le_bytes 8 24 ++
  le_bytes 8 DT_NULL ++ le_bytes 8 0 ++ replicate 16 0 ++
  le_bytes 8 96 ++ le_bytes 8 R_X86_64_RELATIVE ++ le_bytes 8 16 ++ replicate 16 7.

Definition example_image_ehdr : Ehdr :=
  mkEhdr ([127; 69; 76; 70] ++ replicate 12 0) ET_DYN EM_NATIVE 1 8 64 0 0 64 56 2 0 0 0.
Definition example_load : Phdr := mkPhdr 1 5 176 0 0 104 120 4096.
Definition example_dynamic : Phdr := mkPhdr 2 4 176 0 0 48 48 8.

Definition example_file : list Z :=
  ehdr_bytes example_image_ehdr ++ phdr_bytes example_load ++ phdr_bytes example_dynamic ++ example_data.

Abbreviation example_phdrs := [example_load; example_dynamic].

Lemma example_file_bytes : bytes_ok example_file.
Proof. apply bytes_ok_check. vm_compute. reflexivity. Qed.

Lemma example_segments_ok : Forall (fun ph => is_load ph = true -> seg_ok example_file (2 ^ 63) ph) example_phdrs.
Proof.
  apply Forall_cons. split; [intros _; split; vm_compute; split || idtac; congruence|].
  apply Forall_cons. split; [intros E; vm_compute in E; congruence|]. apply Forall_nil. exact I.
Qed.

Lemma example_dynamic_ok :
  Forall (fun ph => is_dynamic ph = true -> dyn_ok (round_page (image_extent example_phdrs)) ph) example_phdrs.
Proof.
  apply Forall_cons. split; [intros E; vm_compute in E; congruence|].
  apply Forall_cons. split; [intros _; repeat split; vm_compute; congruence|]. apply Forall_nil. exact I.
Qed.

Lemma example_table_ok :
  let size := round_page (image_extent example_phdrs) in table_ok (raw_image example_file example_phdrs size) example_phdrs size.
Proof.
  intros size. unfold table_ok.
  assert (rela_of (raw_image example_file example_phdrs size) example_phdrs 0 0 = (64, 24)) as -> by (vm_compute; reflexivity).
  right. right. split; [lia|]. split; [reflexivity|]. split; [reflexivity|]. split; [vm_compute; congruence|].
  assert (array_of read_rela RELA_SIZE (raw_image example_file example_phdrs size) 64 (24 / 24) = [mkRela 96 8 16]) as ->
    by (vm_compute; reflexivity).
  apply Forall_cons. split; [|apply Forall_nil; exact I].
  split; [reflexivity|]. split; [reflexivity|]. split; [simpl; lia|].
  split; [vm_compute; congruence|]. right. simpl. lia.
Qed.

Lemma load_elf_correct_witness :
  exists r s', load_elf 4096 example_file example_phys = Ret (r, s').
Proof.
  destruct (load_elf_correct (Mc := Phys) 4096 example_file (mkElf example_image_ehdr example_phdrs) example_phys)
    as (r & s' & E & _).
  - apply example_phys_inv.
  - apply example_file_bytes.
  - vm_compute. reflexivity.
  - vm_compute. reflexivity.
  - apply example_segments_ok.
  - vm_compute. reflexivity.
  - apply example_dynamic_ok.
  - apply example_table_ok.
  - vm_compute. congruence.
  - exists r, s'. exact E.
Defined.

End Witnesses.
