(* ===== verification/LxStack.v ===== *)
(** * servers/lx/src/elf.rs: the initial stack of a Linux process

    [build_initial_stack] lays out argc, the argument and environment pointers,
    the auxiliary vector, the strings and the random bytes, and writes them to
    the end of the stack's memory area.  The memory area belongs to the kernel:
    [vmarea_write] is a parameter, the call of the same name in [StartInfo]. *)

From S2P Require Import Prelude Bytes Alignment Api Elf.

Definition STACK_BASE : Z := 0x0000700000000000.
Definition STACK_SIZE : Z := 64 * 1024.
Definition PAGE_SIZE : Z := 4096.

Definition AT_NULL : Z := 0.
Definition AT_PHDR : Z := 3.
Definition AT_PHENT : Z := 4.
Definition AT_PHNUM : Z := 5.
Definition AT_PAGESZ : Z := 6.
Definition AT_ENTRY : Z := 9.
Definition AT_RANDOM : Z := 25.
Definition AT_EXECFN : Z := 31.

Inductive StackError : Set :=
| StackTooSmall
| UnalignedWrite
| NotNulTerminated
| VmAreaWrite (e : ErrorCode).

Record StackWriter : Set := mkStackWriter { sw_buf : list Z; sw_remaining : Z }.

Definition StackWriter_new (max_size : Z) : StackWriter := mkStackWriter [] max_size.
Definition sw_offset (w : StackWriter) : Z := len (sw_buf w).

Record Layout : Set := mkLayout {
  l_sp : Z; l_argv_base : Z; l_env_base : Z; l_random_uaddr : Z
}.

Section Stack.
Context {P : Profile}.
Abbreviation WM := (M StackWriter).

Definition write_bytes (bytes : list Z) : WM (result StackError unit) :=
  do* w := get in
  if sw_remaining w <? len bytes then ret (Err StackTooSmall)
  else
    do* r := lift (usize_sub (sw_remaining w) (len bytes)) in
    do* _ := put (mkStackWriter (sw_buf w ++ bytes) r) in
    ret (Ok tt).

Definition write_usize (value : Z) : WM (result StackError unit) :=
  do* w := get in
  do* a := lift (is_aligned (sw_offset w) 8) in
  if negb a then ret (Err UnalignedWrite)
  else write_bytes (le_bytes 8 value).

Definition sw_align (align : Z) : WM (result StackError unit) :=
  do* w := get in
  do* up := lift (align_up (sw_offset w) align) in
  do* padding_len := lift (usize_sub up (sw_offset w)) in
  if sw_remaining w <? padding_len then ret (Err StackTooSmall)
  else
    do* r := lift (usize_sub (sw_remaining w) padding_len) in
    do* _ := put (mkStackWriter (sw_buf w ++ replicate (Z.to_nat padding_len) 0) r) in
    ret (Ok tt).

(** [for s in strs]: every string ends with NUL; the sum of their lengths. *)
Fixpoint sum_strings (offset : Z) (strs : list (list Z)) : outcome (result StackError Z) :=
  match strs with
  | [] => Ret (Ok offset)
  | s :: strs =>
      if negb (ends_with s [0]) then Ret (Err NotNulTerminated)
      else
        let* offset' := usize_add offset (len s) in
        sum_strings offset' strs
  end.

Definition estimate_stack_size (argv env : list (list Z)) (random_len auxv_count : Z)
  : outcome (result StackError Layout) :=
  let* o := usize_add 0 8 in
  let* n := usize_mul 8 (len argv) in
  let* o := usize_add o n in
  let* o := usize_add o 8 in
  let* n := usize_mul 8 (len env) in
  let* o := usize_add o n in
  let* o := usize_add o 8 in
  let* n := usize_mul 8 auxv_count in
  let* n := usize_mul n 2 in
  let* argv_offset := usize_add o n in
  let? env_offset := sum_strings argv_offset argv in
  let? random_offset := sum_strings env_offset env in
  let* offset := usize_add random_offset random_len in
  let* up := align_up offset 16 in
  let* pad := usize_sub up offset in
  let* total := usize_add offset pad in
  if STACK_SIZE <? total then Ret (Err StackTooSmall)
  else
    let* top := usize_add STACK_BASE STACK_SIZE in
    let* sp := usize_sub top total in
    let* argv_base := usize_add sp argv_offset in
    let* env_base := usize_add sp env_offset in
    let* random_uaddr := usize_add sp random_offset in
    Ret (Ok (mkLayout sp argv_base env_base random_uaddr)).

(** The loop that writes the addresses of consecutive strings. *)
Fixpoint write_pointers (uaddr : Z) (strs : list (list Z)) : WM (result StackError unit) :=
  match strs with
  | [] => ret (Ok tt)
  | s :: strs =>
      do? _ := write_usize uaddr in
      do* uaddr' := lift (usize_add uaddr (len s)) in
      write_pointers uaddr' strs
  end.

Fixpoint write_auxv (auxv : list (Z * Z)) : WM (result StackError unit) :=
  match auxv with
  | [] => ret (Ok tt)
  | (tag, value) :: auxv =>
      do? _ := write_usize tag in
      do? _ := write_usize value in
      write_auxv auxv
  end.

Fixpoint write_strings (strs : list (list Z)) : WM (result StackError unit) :=
  match strs with
  | [] => ret (Ok tt)
  | s :: strs => do? _ := write_bytes s in write_strings strs
  end.

Definition AUXV_COUNT : Z := 8.

Definition stack_auxv (layout : Layout) (elf : Elf) (phdr_uaddr : option Z) : list (Z * Z) :=
  [ (AT_RANDOM, l_random_uaddr layout);
    (AT_EXECFN, l_argv_base layout);
    (AT_PHDR, default 0 phdr_uaddr);
    (AT_PHENT, e_phentsize (ehdr elf));
    (AT_PHNUM, e_phnum (ehdr elf));
    (AT_PAGESZ, PAGE_SIZE);
    (AT_ENTRY, e_entry (ehdr elf));
    (AT_NULL, 0) ].

(** Everything the writer does, from [argc] to the final alignment. *)
Definition fill_stack (layout : Layout) (auxv : list (Z * Z)) (argv env : list (list Z)) (random : list Z)
  : WM (result StackError unit) :=
  do? _ := write_usize (len argv) in
  do? _ := write_pointers (l_argv_base layout) argv in
  do? _ := write_usize 0 in
  do? _ := write_pointers (l_env_base layout) env in
  do? _ := write_usize 0 in
  do? _ := write_auxv auxv in
  do? _ := write_strings argv in
  do? _ := write_strings env in
  do? _ := write_bytes random in
  sw_align 16.

Section Build.
Context {St : Type} (vmarea_write : Z -> list Z -> M St (result ErrorCode unit)).

(** [finish] consumes the writer. *)
Definition sw_finish (w : StackWriter) : M St (result StackError unit) :=
  do* r := vmarea_write (sw_remaining w) (sw_buf w) in
  ret (match r with Ok u => Ok u | Err e => Err (VmAreaWrite e) end).

Definition build_initial_stack (elf : Elf) (argv env : list (list Z)) (phdr_uaddr : option Z)
  (random : list Z) : M St (result StackError Z) :=
  do? layout := lift (estimate_stack_size argv env (len random) AUXV_COUNT) in
  do* (r, w) := lift (fill_stack layout (stack_auxv layout elf phdr_uaddr) argv env random
                        (StackWriter_new STACK_SIZE)) in
  do? _ := ret r in
  do? _ := sw_finish w in
  ret (Ok (l_sp layout)).

End Build.
End Stack.

(** ** The layout of the System V ABI *)

(** The [k]-th 64-bit word of the stack. *)
Definition stack_word (buf : list Z) (k : Z) : Z := field buf (Z.to_nat (8 * k)) 8.

(** The bytes at user address [a] when [buf] is mapped at [sp]. *)
Definition stack_bytes (buf : list Z) (sp a : Z) (n : nat) : list Z := take n (drop (Z.to_nat (a - sp)) buf).

(** Words [k], [k+1], ... point to the strings, and a null word ends them. *)
Definition string_array (buf : list Z) (sp k : Z) (strs : list (list Z)) : Prop :=
  (forall i s, strs !! i = Some s ->
    let a := stack_word buf (k + Z.of_nat i) in
    sp <= a /\ a + len s <= sp + len buf /\ stack_bytes buf sp a (length s) = s) /\
  stack_word buf (k + len strs) = 0.

Definition nul_terminated (strs : list (list Z)) : bool := forallb (fun s => ends_with s [0]) strs.

(** Bytes before the strings, of the strings, and in all. *)
Definition head_size (argv env : list (list Z)) : Z := 8 * (1 + len argv + 1 + len env + 1 + 16).
Definition strings_size (strs : list (list Z)) : Z := len (concat strs).
Definition stack_total (argv env : list (list Z)) : Z :=
  let n := head_size argv env + strings_size argv + strings_size env + 16 in n + (- n) mod 16.

(** The words of pointers to consecutive strings. *)
Fixpoint pointers (uaddr : Z) (strs : list (list Z)) : list Z :=
  match strs with
  | [] => []
  | s :: strs => uaddr :: pointers (uaddr + len s) strs
  end.

Definition words_bytes (ws : list Z) : list Z := concat (le_bytes 8 <$> ws).

(** The words that precede the strings when the stack pointer is [sp]. *)
Definition layout_of (sp : Z) (argv env : list (list Z)) : Layout :=
  let a := sp + head_size argv env in
  mkLayout sp a (a + strings_size argv) (a + strings_size argv + strings_size env).

Definition stack_words (sp : Z) (auxv : list (Z * Z)) (argv env : list (list Z)) : list Z :=
  [len argv] ++ pointers (l_argv_base (layout_of sp argv env)) argv ++ [0] ++
  pointers (l_env_base (layout_of sp argv env)) env ++ [0] ++
  flat_map (fun p => [p.1; p.2]) auxv.

Definition stack_image (sp : Z) (auxv : list (Z * Z)) (argv env : list (list Z)) (random : list Z)
  : list Z :=
  let b := words_bytes (stack_words sp auxv argv env) ++ concat argv ++ concat env ++ random in
  b ++ replicate (Z.to_nat ((- len b) mod 16)) 0.

(** What a process finds at its initial stack pointer. *)
Record abi_stack (buf : list Z) (sp : Z) (elf : Elf) (argv env : list (list Z))
  (phdr_uaddr : option Z) (random : list Z) : Prop := {
  abi_aligned : sp mod 16 = 0;
  abi_argc : stack_word buf 0 = len argv;
  abi_argv : string_array buf sp 1 argv;
  abi_env : string_array buf sp (2 + len argv) env;
  abi_auxv : let at_ i := (stack_word buf (3 + len argv + len env + 2 * i),
                           stack_word buf (3 + len argv + len env + 2 * i + 1)) in
    (at_ 0).1 = AT_RANDOM /\ stack_bytes buf sp (at_ 0).2 16 = random /\
    (at_ 1).1 = AT_EXECFN /\ (at_ 1).2 = sp + head_size argv env /\
    at_ 2 = (AT_PHDR, default 0 phdr_uaddr) /\
    at_ 3 = (AT_PHENT, e_phentsize (ehdr elf)) /\
    at_ 4 = (AT_PHNUM, e_phnum (ehdr elf)) /\
    at_ 5 = (AT_PAGESZ, PAGE_SIZE) /\
    at_ 6 = (AT_ENTRY, e_entry (ehdr elf)) /\
    at_ 7 = (AT_NULL, 0)
}.

(** * Proofs *)

Section StackProofs.
Context {P : Profile}.

Definition push (w : StackWriter) (bs : list Z) : StackWriter :=
  mkStackWriter (sw_buf w ++ bs) (sw_remaining w - len bs).

Definition room (w : StackWriter) (n : Z) : Prop := n <= sw_remaining w < 2 ^ 63.

(** The writer program [p] appends [bs]. *)
Definition writes (p : M StackWriter (result StackError unit)) (w : StackWriter) (bs : list Z) : Prop :=
  p w = Ret (Ok tt, push w bs).

Lemma push_push w a b : push (push w a) b = push w (a ++ b).
Proof. unfold push. simpl. rewrite app_assoc, length_app. f_equal. lia. Qed.

Lemma push_nil w : push w [] = w.
Proof. destruct w. unfold push. simpl. rewrite app_nil_r. f_equal. lia. Qed.

Lemma writes_seq p q w a b :
  writes p w a -> writes q (push w a) b -> writes (do? _ := p in q) w (a ++ b).
Proof. unfold writes. intros Hp Hq. by rewrite (bindr_ok _ _ _ _ _ Hp), Hq, push_push. Qed.

Lemma write_bytes_run w bs : room w (len bs) -> writes (write_bytes bs) w bs.
Proof.
  unfold room, writes, write_bytes. intros H. rewrite bind_get.
  rewrite (proj2 (Z.ltb_ge _ _)) by lia. by rewrite (bind_lift _ _ _ (sw_remaining w - len bs)) by (apply usize_sub_ok; lia).
Qed.

Lemma write_usize_run w v :
  len (sw_buf w) mod 8 = 0 -> room w 8 -> writes (write_usize v) w (le_bytes 8 v).
Proof.
  intros Ha Hr. unfold writes, write_usize. rewrite bind_get. unfold sw_offset.
  rewrite (bind_lift _ _ _ true).
  - apply write_bytes_run. unfold room in *. rewrite length_le_bytes. lia.
  - pose proof (is_aligned_pow2 (len (sw_buf w)) 3 ltac:(lia)) as E. change (2 ^ 3) with 8 in E.
    by rewrite E, (proj2 (Z.eqb_eq _ _) Ha).
Qed.

Lemma push_aligned w bs :
  len (sw_buf w) mod 8 = 0 -> len bs mod 8 = 0 -> len (sw_buf (push w bs)) mod 8 = 0.
Proof. simpl. rewrite length_app. intros. dlia. Qed.

Lemma length_words_bytes ws : len (words_bytes ws) = 8 * len ws.
Proof.
  induction ws as [|v ws IH]; [done|]. unfold words_bytes in *. rewrite fmap_cons.
  cbn [concat]. rewrite length_app, length_le_bytes. cbn [length]. lia.
Qed.

Lemma length_pointers u strs : length (pointers u strs) = length strs.
Proof. revert u. induction strs; intros; simpl; auto. Qed.

Lemma words_bytes_app a b : words_bytes (a ++ b) = words_bytes a ++ words_bytes b.
Proof. unfold words_bytes. by rewrite fmap_app, concat_app. Qed.

Lemma strings_size_cons s strs : strings_size (s :: strs) = len s + strings_size strs.
Proof. unfold strings_size. cbn [concat]. rewrite length_app. lia. Qed.

Lemma strings_size_pos strs : 0 <= strings_size strs.
Proof. unfold strings_size. lia. Qed.

(** A word, then the words [ws]. *)
Lemma writes_word v q ws w :
  len (sw_buf w) mod 8 = 0 -> room w (8 * (1 + len ws)) ->
  (len (sw_buf (push w (le_bytes 8 v))) mod 8 = 0 -> room (push w (le_bytes 8 v)) (8 * len ws) ->
   writes q (push w (le_bytes 8 v)) (words_bytes ws)) ->
  writes (do? _ := write_usize v in q) w (words_bytes (v :: ws)).
Proof.
  intros Ha Hr Hq. apply (writes_seq _ _ w (le_bytes 8 v) (words_bytes ws)).
  - apply write_usize_run; [done|]. unfold room in *. lia.
  - apply Hq.
    + apply push_aligned; [done|]. by rewrite length_le_bytes.
    + unfold room in *. cbn [push sw_remaining]. rewrite length_le_bytes. lia.
Qed.

Lemma write_pointers_run strs u w :
  len (sw_buf w) mod 8 = 0 -> room w (8 * len strs) -> 0 <= u -> u + strings_size strs < 2 ^ 64 ->
  writes (write_pointers u strs) w (words_bytes (pointers u strs)).
Proof.
  revert u w. induction strs as [|s strs IH]; intros u w Ha Hr Hu Hs.
  - unfold writes. cbn [write_pointers pointers]. by rewrite push_nil.
  - rewrite strings_size_cons in Hs. pose proof (strings_size_pos strs). cbn [length] in Hr.
    cbn [write_pointers pointers]. apply writes_word; [done|rewrite length_pointers; unfold room in *; lia|].
    rewrite length_pointers. intros Ha' Hr'. unfold writes.
    rewrite (bind_lift _ _ _ (u + len s)) by (apply usize_add_ok; lia). apply IH; try done; lia.
Qed.

Lemma write_auxv_run auxv w :
  len (sw_buf w) mod 8 = 0 -> room w (16 * len auxv) ->
  writes (write_auxv auxv) w (words_bytes (flat_map (fun p => [p.1; p.2]) auxv)).
Proof.
  assert (forall a : list (Z * Z), len (flat_map (fun p => [p.1; p.2]) a) = 2 * len a) as Hl.
  { induction a as [|x a IHa]; [done|]. cbn [flat_map app length]. lia. }
  revert w. induction auxv as [|[t v] auxv IH]; intros w Ha Hr.
  - unfold writes. cbn [write_auxv flat_map]. by rewrite push_nil.
  - cbn [write_auxv flat_map app fst snd length] in *. unfold room in *.
    apply writes_word; [done|unfold room; cbn [length]; specialize (Hl auxv); lia|].
    intros Ha' Hr'. apply writes_word; [done|unfold room in *; cbn [length] in *; lia|].
    intros Ha'' Hr''. apply IH; [done|]. unfold room in *. rewrite Hl in Hr''. lia.
Qed.

Lemma write_strings_run strs w :
  room w (strings_size strs) -> writes (write_strings strs) w (concat strs).
Proof.
  revert w. induction strs as [|s strs IH]; intros w Hr.
  - unfold writes. cbn [write_strings concat]. by rewrite push_nil.
  - rewrite strings_size_cons in Hr. pose proof (strings_size_pos strs). unfold room in *.
    cbn [write_strings concat]. apply writes_seq.
    + apply write_bytes_run. unfold room. lia.
    + apply IH. unfold room. cbn [push sw_remaining]. lia.
Qed.

Lemma sw_align_run w :
  let pad := (- len (sw_buf w)) mod 16 in
  len (sw_buf w) < 2 ^ 63 -> room w pad -> writes (sw_align 16) w (replicate (Z.to_nat pad) 0).
Proof.
  intros pad Hb Hr. unfold writes, sw_align, sw_offset. rewrite bind_get.
  assert (0 <= pad < 16) by (apply Z.mod_pos_bound; lia).
  assert (align_up (len (sw_buf w)) 16 = Ret (len (sw_buf w) + pad)) as Hu.
  { apply (align_up_pow2 _ 4); lia. }
  rewrite (bind_lift _ _ _ _ Hu).
  rewrite (bind_lift _ _ _ pad) by (rewrite usize_sub_ok by lia; f_equal; lia).
  unfold room in Hr. rewrite (proj2 (Z.ltb_ge _ _)) by lia.
  rewrite (bind_lift _ _ _ (sw_remaining w - pad)) by (apply usize_sub_ok; lia).
  unfold bind, put, ret, push. by rewrite length_replicate, Z2Nat.id by lia.
Qed.

Lemma stack_total_bounds argv env :
  let n := head_size argv env + strings_size argv + strings_size env + 16 in
  stack_total argv env mod 16 = 0 /\ n <= stack_total argv env < n + 16.
Proof.
  intros n. destruct (round_up_spec n 16) as (H1&H2&_); [lia|]. done.
Qed.

Lemma length_flat_pairs (l : list (Z * Z)) : len (flat_map (fun p => [p.1; p.2]) l) = 2 * len l.
Proof. induction l as [|x l IH]; [done|]. cbn [flat_map app length]. lia. Qed.

Lemma length_stack_words sp auxv argv env :
  len auxv = 8 -> 8 * len (stack_words sp auxv argv env) = head_size argv env.
Proof.
  intros Ha. unfold stack_words, head_size. rewrite !length_app, !length_pointers.
  pose proof (length_flat_pairs auxv). cbn [length]. lia.
Qed.

Lemma length_stack_image sp auxv argv env random :
  len auxv = 8 -> len random = 16 ->
  len (stack_image sp auxv argv env random) = stack_total argv env.
Proof.
  intros Ha Hr. unfold stack_image. rewrite length_app, length_replicate.
  assert (len (words_bytes (stack_words sp auxv argv env) ++ concat argv ++ concat env ++ random)
          = head_size argv env + strings_size argv + strings_size env + 16) as E.
  { rewrite !length_app, !Nat2Z.inj_add, length_words_bytes, length_stack_words by done.
    unfold strings_size. lia. }
  rewrite Nat2Z.inj_add, E, Z2Nat.id; [done|]. apply Z.mod_pos_bound. lia.
Qed.

(** The side conditions of a write: the buffer is a whole number of words, and
    what remains is enough. *)
#[local] Ltac al := repeat apply push_aligned; rewrite ?length_le_bytes, ?length_words_bytes; first [done|dlia].
#[local] Ltac rm :=
  unfold room, STACK_SIZE, strings_size; cbn [push sw_remaining StackWriter_new];
  rewrite ?length_le_bytes, ?length_words_bytes; lia.

Lemma fill_stack_run sp auxv argv env random :
  len auxv = 8 -> len random = 16 -> stack_total argv env <= STACK_SIZE ->
  0 <= sp < 2 ^ 63 ->
  writes (fill_stack (layout_of sp argv env) auxv argv env random) (StackWriter_new STACK_SIZE)
    (stack_image sp auxv argv env random).
Proof.
  intros Ha Hr Ht Hsp. destruct (stack_total_bounds argv env) as [_ Hb].
  pose proof (strings_size_pos argv). pose proof (strings_size_pos env).
  unfold STACK_SIZE in Ht. 
  set (p1 := pointers (l_argv_base (layout_of sp argv env)) argv).
  set (p2 := pointers (l_env_base (layout_of sp argv env)) env).
  assert (length p1 = length argv) as L1 by apply length_pointers.
  assert (length p2 = length env) as L2 by apply length_pointers.
  pose proof (length_flat_pairs auxv) as L3.
  assert (words_bytes (stack_words sp auxv argv env) ++ concat argv ++ concat env ++ random =
    le_bytes 8 (len argv) ++ words_bytes p1 ++ le_bytes 8 0 ++ words_bytes p2 ++ le_bytes 8 0 ++
    words_bytes (flat_map (fun p => [p.1; p.2]) auxv) ++ concat argv ++ concat env ++ random) as E.
  { unfold stack_words. fold p1 p2. rewrite !words_bytes_app, <- !app_assoc.
    unfold words_bytes at 1 3 5. cbn [fmap list_fmap concat]. by rewrite !app_nil_r. }
  unfold stack_image. rewrite E. rewrite <- !app_assoc.
  unfold head_size, strings_size, room in *.
  assert (0 <= l_argv_base (layout_of sp argv env) < 2 ^ 63 + 2 ^ 17) by
    (cbn [l_argv_base layout_of]; unfold head_size; lia).
  assert (0 <= l_env_base (layout_of sp argv env) < 2 ^ 63 + 2 ^ 17) by
    (cbn [l_env_base layout_of]; unfold head_size, strings_size; lia).
  unfold fill_stack.
  repeat (apply writes_seq;
    [ first [ apply write_usize_run | apply write_pointers_run | apply write_auxv_run
            | apply write_strings_run | apply write_bytes_run ];
      solve [ al | rm | unfold strings_size; lia ] | ]).
  rewrite !push_push.
  match goal with |- writes _ (push _ ?b) _ => set (buf := b) in *  end.
  assert (len buf = 8 * (1 + len argv + 1 + len env + 1 + 16) + len (concat argv) + len (concat env) + 16)
    as Lb.
  { subst buf. rewrite !length_app, !length_le_bytes, !Nat2Z.inj_add, !length_words_bytes. lia. }
  apply (sw_align_run (push (StackWriter_new STACK_SIZE) buf)); [cbn [push StackWriter_new sw_buf app]; lia|].
  unfold room. cbn [push sw_remaining StackWriter_new sw_buf app]. rewrite Lb.
  unfold stack_total, head_size, strings_size in Hb, Ht. unfold STACK_SIZE. lia.
Qed.

Lemma sum_strings_run strs o :
  0 <= o -> o + strings_size strs < 2 ^ 64 ->
  sum_strings o strs = Ret (if nul_terminated strs then Ok (o + strings_size strs) else Err NotNulTerminated).
Proof.
  revert o. induction strs as [|s strs IH]; intros o Ho Hs; cbn [sum_strings nul_terminated forallb].
  - unfold strings_size. simpl. do 2 f_equal. lia.
  - rewrite strings_size_cons in *. pose proof (strings_size_pos strs).
    destruct (ends_with s [0]); cbn [negb andb]; [|done].
    rewrite usize_add_ok by lia. cbn [obind]. rewrite IH by lia. unfold nul_terminated.
    by rewrite Z.add_assoc.
Qed.

Lemma estimate_run argv env :
  stack_total argv env < 2 ^ 63 ->
  estimate_stack_size argv env 16 AUXV_COUNT =
  Ret (if negb (nul_terminated argv && nul_terminated env) then Err NotNulTerminated
       else if STACK_SIZE <? stack_total argv env then Err StackTooSmall
       else Ok (layout_of (STACK_BASE + STACK_SIZE - stack_total argv env) argv env)).
Proof.
  intros Ht. destruct (stack_total_bounds argv env) as [_ Hb].
  pose proof (strings_size_pos argv). pose proof (strings_size_pos env).
  unfold estimate_stack_size, AUXV_COUNT.
  assert (head_size argv env = 0 + 8 + 8 * len argv + 8 + 8 * len env + 8 + 8 * 8 * 2) as Hh
    by (unfold head_size; lia).
  do 10 (first [rewrite usize_add_ok by lia | rewrite usize_mul_ok by lia]; cbn [obind]).
  rewrite <- Hh. clear Hh. assert (0 <= head_size argv env) by (unfold head_size; lia).
  unfold obindr. rewrite sum_strings_run by lia. cbn [obind].
  destruct (nul_terminated argv); cbn [andb negb]; [|done].
  rewrite sum_strings_run by lia. cbn [obind].
  destruct (nul_terminated env); cbn [negb]; [|done].
  rewrite usize_add_ok by lia. cbn [obind].
  pose proof (align_up_pow2 (head_size argv env + strings_size argv + strings_size env + 16) 4) as Hu.
  change (2 ^ 4) with 16 in Hu. rewrite Hu by lia. cbn [obind]. clear Hu.
  fold (stack_total argv env).
  change (_ + (- _) mod 16) with (stack_total argv env).
  rewrite usize_sub_ok by lia. cbn [obind]. rewrite usize_add_ok by lia. cbn [obind].
  replace (_ + (stack_total argv env - _)) with (stack_total argv env) by lia.
  case_Z; [done|]. unfold STACK_BASE, STACK_SIZE in *.
  do 2 (first [rewrite usize_add_ok by lia | rewrite usize_sub_ok by lia]; cbn [obind]).
  rewrite !usize_add_ok by lia. cbn [obind]. unfold layout_of. do 3 f_equal; lia.
Qed.

(** ** Reading the stack back *)

Lemma stack_word_lookup ws r k v :
  ws !! k = Some v -> 0 <= v < 2 ^ 64 -> stack_word (words_bytes ws ++ r) (Z.of_nat k) = v.
Proof.
  revert k. induction ws as [|x ws IH]; intros k Hk Hv; [done|].
  unfold stack_word, words_bytes in *. rewrite fmap_cons. cbn [concat]. rewrite <- app_assoc.
  destruct k as [|k].
  - cbn in Hk. simplify_eq. by apply field_head.
  - cbn [lookup list_lookup] in Hk. rewrite field_skip by (rewrite length_le_bytes; lia).
    rewrite length_le_bytes. rewrite <- (IH k Hk Hv). f_equal. lia.
Qed.

Lemma pointers_lookup u strs i s :
  strs !! i = Some s -> pointers u strs !! i = Some (u + strings_size (take i strs)).
Proof.
  revert u i. induction strs as [|x strs IH]; intros u i Hi; [done|]. destruct i as [|i].
  - cbn. f_equal. unfold strings_size. simpl. lia.
  - cbn [pointers lookup list_lookup]. change (pointers (u + len x) strs !! i = Some (u + strings_size (take (S i) (x :: strs)))).
    cbn [take]. rewrite (IH _ _ Hi), strings_size_cons. f_equal. lia.
Qed.

Lemma string_array_intro buf sp l1 l2 r pre post u strs :
  buf = words_bytes (l1 ++ pointers u strs ++ 0 :: l2) ++ r ->
  buf = pre ++ concat strs ++ post -> u = sp + len pre -> 0 <= sp -> sp + len buf < 2 ^ 64 ->
  string_array buf sp (len l1) strs.
Proof.
  intros Hw Hs Hu Hsp Hm. split.
  - intros i s Hi a.
    assert (concat strs = concat (take i strs) ++ s ++ concat (drop (S i) strs)) as Hc.
    { rewrite <- (take_drop_middle _ _ _ Hi) at 1. by rewrite concat_app. }
    rewrite Hc in Hs. pose proof (f_equal length Hs) as Hl. rewrite !length_app in Hl.
    assert (a = u + strings_size (take i strs)) as Ea.
    { subst a. rewrite Hw at 1. rewrite <- Nat2Z.inj_add. apply stack_word_lookup.
      - rewrite lookup_app_r by lia. replace (_ + i - _)%nat with i by lia.
        rewrite lookup_app_l by (rewrite length_pointers; by eapply lookup_lt_Some).
        by eapply pointers_lookup.
      - unfold strings_size. lia. }
    rewrite Ea, Hu. unfold stack_bytes, strings_size. split; [lia|]. split; [lia|].
    replace (Z.to_nat _) with (length (pre ++ concat (take i strs))) by (rewrite length_app; lia).
    rewrite Hs, <- !app_assoc, (app_assoc pre), drop_app_length. by rewrite take_app_length.
  - rewrite Hw at 1. rewrite <- Nat2Z.inj_add. apply stack_word_lookup; [|lia].
    rewrite lookup_app_r by lia. rewrite lookup_app_r by (rewrite length_pointers; lia).
    rewrite length_pointers. by replace (_ - _ - _)%nat with 0%nat by lia.
Qed.

(** The image in the three parts the pointers refer to. *)
Lemma stack_image_split sp auxv argv env random :
  exists pad, stack_image sp auxv argv env random =
    words_bytes (stack_words sp auxv argv env) ++ concat argv ++ concat env ++ random ++ pad.
Proof. unfold stack_image. eexists. by rewrite <- !app_assoc. Qed.

Lemma image_aux_word sp auxv argv env random k v :
  flat_map (fun p => [p.1; p.2]) auxv !! k = Some v -> 0 <= v < 2 ^ 64 ->
  stack_word (stack_image sp auxv argv env random) (3 + len argv + len env + Z.of_nat k) = v.
Proof.
  intros Hk Hv. destruct (stack_image_split sp auxv argv env random) as [pad ->].
  replace (_ + Z.of_nat k) with (Z.of_nat (3 + length argv + length env + k)) by lia.
  apply stack_word_lookup; [|done]. unfold stack_words.
  repeat (rewrite lookup_app_r by (rewrite ?length_pointers; simpl; lia)).
  rewrite <- Hk. f_equal. rewrite !length_pointers. cbn [length]. lia.
Qed.

Lemma flat_pairs_lookup (auxv : list (Z * Z)) i t v :
  auxv !! i = Some (t, v) ->
  flat_map (fun p => [p.1; p.2]) auxv !! (2 * i)%nat = Some t /\
  flat_map (fun p => [p.1; p.2]) auxv !! (2 * i + 1)%nat = Some v.
Proof.
  revert i. induction auxv as [|x auxv IH]; intros i Hi; [done|]. destruct i as [|i].
  - cbn in Hi. simplify_eq. done.
  - destruct (IH i Hi) as [H1 H2]. cbn [flat_map app].
    replace (2 * S i)%nat with (S (S (2 * i))) by lia.
    by replace (S (S (2 * i)) + 1)%nat with (S (S (2 * i + 1))) by lia.
Qed.

Lemma image_aux_pair sp auxv argv env random i t v :
  auxv !! Z.to_nat i = Some (t, v) -> 0 <= i -> 0 <= t < 2 ^ 64 -> 0 <= v < 2 ^ 64 ->
  let buf := stack_image sp auxv argv env random in
  (stack_word buf (3 + len argv + len env + 2 * i),
   stack_word buf (3 + len argv + len env + 2 * i + 1)) = (t, v).
Proof.
  intros [H1 H2]%flat_pairs_lookup Hi Ht Hv buf.
  pose proof (image_aux_word sp auxv argv env random _ _ H1 Ht) as <-.
  pose proof (image_aux_word sp auxv argv env random _ _ H2 Hv) as <-.
  subst buf. do 2 f_equal; lia.
Qed.

Lemma stack_image_abi sp elf argv env phdr_uaddr random :
  let auxv := stack_auxv (layout_of sp argv env) elf phdr_uaddr in
  len random = 16 -> ehdr_ok (ehdr elf) -> is_usize (default 0 phdr_uaddr) ->
  0 <= sp -> sp mod 16 = 0 -> sp + stack_total argv env < 2 ^ 64 ->
  abi_stack (stack_image sp auxv argv env random) sp elf argv env phdr_uaddr random.
Proof.
  intros auxv Hr He Hp Hsp Ha Hm. unfold is_usize in Hp.
  pose proof (length_stack_image sp auxv argv env random eq_refl Hr) as Hl.
  pose proof (length_stack_words sp auxv argv env eq_refl) as Hw.
  destruct (stack_total_bounds argv env) as [_ Hb].
  pose proof (strings_size_pos argv). pose proof (strings_size_pos env).
  pose proof (image_aux_pair sp auxv argv env random) as Hat.
  destruct (stack_image_split sp auxv argv env random) as [pad Eb].
  remember (stack_image sp auxv argv env random) as buf eqn:E. clear E.
  pose proof (length_words_bytes (stack_words sp auxv argv env)) as Lw.
  assert (0 <= head_size argv env) by (unfold head_size; lia).
  split.
  - done.
  - rewrite Eb. apply (stack_word_lookup _ _ 0); [done|]. unfold head_size in *. lia.
  - apply (string_array_intro _ _ [len argv] _ _ _ _ _ _ Eb Eb); [|done|lia].
    cbn [l_argv_base layout_of]. lia.
  - replace (2 + len argv) with
      (len ([len argv] ++ pointers (l_argv_base (layout_of sp argv env)) argv ++ [0]))
      by (rewrite !length_app, length_pointers; cbn [length]; lia).
    pose proof Eb as Eb2. rewrite app_assoc in Eb2.
    unfold stack_words in Eb. eapply string_array_intro; [|exact Eb2| |done|lia].
    + rewrite Eb. rewrite <- !app_assoc. reflexivity.
    + cbn [l_env_base layout_of]. unfold strings_size in *. rewrite length_app. lia.
  - intros at_. destruct He as [_ _ _ _ He1 _ _ _ _ He2 He3 _ _ _]. unfold u16, u64 in *.
    cbn zeta in Hat. subst at_. cbn beta.
    rewrite (Hat 0 AT_RANDOM (sp + head_size argv env + strings_size argv + strings_size env))
      by (try reflexivity; unfold AT_RANDOM; lia).
    rewrite (Hat 1 AT_EXECFN (sp + head_size argv env)) by (try reflexivity; unfold AT_EXECFN; lia).
    rewrite (Hat 2 AT_PHDR (default 0 phdr_uaddr)) by (try reflexivity; unfold AT_PHDR; lia).
    rewrite (Hat 3 AT_PHENT (e_phentsize (ehdr elf))) by (try reflexivity; unfold AT_PHENT; lia).
    rewrite (Hat 4 AT_PHNUM (e_phnum (ehdr elf))) by (try reflexivity; unfold AT_PHNUM; lia).
    rewrite (Hat 5 AT_PAGESZ PAGE_SIZE) by (try reflexivity; unfold AT_PAGESZ, PAGE_SIZE; lia).
    rewrite (Hat 6 AT_ENTRY (e_entry (ehdr elf))) by (try reflexivity; unfold AT_ENTRY; lia).
    rewrite (Hat 7 AT_NULL 0) by (try reflexivity; unfold AT_NULL; lia).
    split_and!; try done. cbn [snd]. unfold stack_bytes. rewrite Eb.
    rewrite (app_assoc (words_bytes _)), (app_assoc (_ ++ _) (concat env)).
    rewrite drop_app_length', take_app_length'; [done|lia|].
    rewrite !length_app. unfold strings_size in *. lia.
Qed.

End StackProofs.

Section BuildLemmas.
Context {P : Profile}.

Lemma bytes_ok_image sp auxv argv env random :
  Forall bytes_ok argv -> Forall bytes_ok env -> bytes_ok random -> bytes_ok (stack_image sp auxv argv env random).
Proof.
  intros Ha He Hr. unfold stack_image, words_bytes. rewrite !Forall_app, !List.Forall_concat.
  split; [split; [|done]|apply Forall_replicate; unfold is_byte; lia]. apply Forall_fmap, Forall_true. intros w. apply le_bytes_ok.
Qed.

(** The write that [build_initial_stack] makes when the contents fit. *)
Lemma build_stack_run {St} (vmarea_write : Z -> list Z -> M St (result ErrorCode unit))
    elf argv env phdr_uaddr random (s : St) :
  len random = 16 -> nul_terminated argv && nul_terminated env = true -> stack_total argv env <= STACK_SIZE ->
  let sp := STACK_BASE + STACK_SIZE - stack_total argv env in
  let buf := stack_image sp (stack_auxv (layout_of sp argv env) elf phdr_uaddr) argv env random in
  sp + len buf = STACK_BASE + STACK_SIZE /\ 0 <= sp < 2 ^ 63 /\ sp mod 16 = 0 /\
  build_initial_stack vmarea_write elf argv env phdr_uaddr random s =
    (do* r := vmarea_write (sp - STACK_BASE) buf in
     ret (match r with Ok _ => Ok sp | Err e => Err (VmAreaWrite e) end)) s.
Proof.
  intros Hr Hnul Ht sp buf. unfold build_initial_stack.
  destruct (stack_total_bounds argv env) as [Hm Hb].
  pose proof (strings_size_pos argv). pose proof (strings_size_pos env).
  assert (0 <= head_size argv env) by (unfold head_size; lia).
  assert (0 <= sp < 2 ^ 63) by (subst sp; unfold STACK_BASE, STACK_SIZE in *; lia).
  assert (sp mod 16 = 0) by (subst sp; unfold STACK_BASE, STACK_SIZE; dlia).
  assert (len random = 16) as Hr' by done. rewrite Hr, estimate_run by (try done; unfold STACK_SIZE in *; lia).
  rewrite Hnul. cbn [negb]. destruct (Z.ltb_spec STACK_SIZE (stack_total argv env)); [lia|]. fold sp.
  set (auxv := stack_auxv (layout_of sp argv env) elf phdr_uaddr) in *.
  pose proof (length_stack_image sp auxv argv env random eq_refl Hr') as Hl.
  split; [unfold buf; rewrite Hl; subst sp; lia|]. split; [done|]. split; [done|].
  pose proof (fill_stack_run sp auxv argv env random eq_refl Hr' ltac:(lia) ltac:(lia)) as Hf.
  unfold writes in Hf. unfold bindr at 1, bind at 1, lift at 1.
  rewrite (bind_lift _ _ _ _ Hf). unfold bindr at 1. rewrite bind_ret.
  unfold sw_finish, push. cbn [sw_remaining sw_buf StackWriter_new app]. fold buf in Hl |- *. rewrite Hl.
  replace (STACK_SIZE - _) with (sp - STACK_BASE) by (subst sp; lia).
  unfold bindr, bind, ret. by destruct (vmarea_write _ _ s) as [[[]?]| | |].
Qed.

End BuildLemmas.

(** * Properties *)

Section StackTheorems.
Context {P : Profile}.

(** C27: [build_initial_stack] builds the stack the System V ABI describes.  A
    string that does not end with NUL is refused, and so are contents of more
    than [STACK_SIZE] bytes, both before anything is written.  Otherwise one
    write is made, at the end of the stack area, of bytes that hold at the
    returned (16-byte aligned) stack pointer: argc, the argv and envp pointers,
    each pointing to its own string inside the buffer, null words after them,
    and the auxiliary vector with the program headers, the entry point and a
    pointer to the random bytes.  No run returns [UnalignedWrite], and an error
    of the write is passed on. *)
Theorem initial_stack_abi {St} (vmarea_write : Z -> list Z -> M St (result ErrorCode unit))
    elf argv env phdr_uaddr random (s : St) :
  len random = 16 -> ehdr_ok (ehdr elf) -> is_usize (default 0 phdr_uaddr) ->
  stack_total argv env < 2 ^ 63 ->
  let build := build_initial_stack vmarea_write elf argv env phdr_uaddr random in
  let sp := STACK_BASE + STACK_SIZE - stack_total argv env in
  if negb (nul_terminated argv && nul_terminated env) then build s = Ret (Err NotNulTerminated, s)
  else if STACK_SIZE <? stack_total argv env then build s = Ret (Err StackTooSmall, s)
  else exists buf,
    sp + len buf = STACK_BASE + STACK_SIZE /\
    abi_stack buf sp elf argv env phdr_uaddr random /\
    build s = (do* r := vmarea_write (sp - STACK_BASE) buf in
               ret (match r with Ok _ => Ok sp | Err e => Err (VmAreaWrite e) end)) s.
Proof.
  intros Hr He Hp Ht build sp. subst build.
  destruct (nul_terminated argv && nul_terminated env) eqn:Hnul; cbn [negb]; [case_Z|].
  - unfold build_initial_stack. rewrite Hr, estimate_run by done. rewrite Hnul. cbn [negb]. by case_Z; [|lia].
  - destruct (build_stack_run vmarea_write elf argv env phdr_uaddr random s) as (Hl & Hsp & Hal & ->); [done..|].
    eexists. split; [exact Hl|]. split; [|done]. apply stack_image_abi; try done; [lia|].
    fold sp in Hsp. unfold sp, STACK_BASE, STACK_SIZE in *. lia.
  - unfold build_initial_stack. rewrite Hr, estimate_run by done. by rewrite Hnul.
Qed.

End StackTheorems.

Section StackWitness.
#[local] Existing Instance dev.

(** A program with one argument and one environment string. *)
Definition ex_elf : Elf := mkElf (mkEhdr (replicate 16 0) 2 62 1 0x401000 64 0 0 64 56 1 0 0 0) [].
Definition ex_argv : list (list Z) := [[0x6c; 0x73; 0]].
Definition ex_env : list (list Z) := [[0x41; 0x3d; 0]].
Definition ex_write (off : Z) (bs : list Z) : M (Z * list Z) (result ErrorCode unit) :=
  fun _ => Ret (Ok tt, (off, bs)).

Lemma initial_stack_abi_witness :
  exists buf, 0x700000010000 - 192 + len buf = 0x700000010000 /\
    abi_stack buf (0x700000010000 - 192) ex_elf ex_argv ex_env (Some 0x400040) (replicate 16 7) /\
    build_initial_stack ex_write ex_elf ex_argv ex_env (Some 0x400040) (replicate 16 7) (0, [])
      = Ret (Ok (0x700000010000 - 192), (0x10000 - 192, buf)).
Proof.
  apply (initial_stack_abi ex_write ex_elf ex_argv ex_env (Some 0x400040) (replicate 16 7) (0, [])).
  - done.
  - split; unfold u16, u32, u64; cbn; lia.
  - unfold is_usize. cbn. lia.
  - vm_compute. reflexivity.
Defined.

End StackWitness.
