(* ===== verification/LxProcess.v ===== *)
(** * servers/lx: creating and starting a process

    [Process::create] and [Process::start] of process.rs and [Server::new] of
    lib.rs, over the kernel's calls.  The theorems show what the memory and the
    registers of the new program are, and that starting the server establishes
    the invariant under which its system calls were shown correct (Lx.v). *)

From Stdlib Require Import String.
From S2P Require Import Prelude Bytes Alignment Api Bump Machine Memory VmArea PageTable VmSpace SharedRef.
From S2P Require Import X64Context Thread Text StartInfo Server ServerApi Lx Elf LxStack.

Section ProcessOps.
Context {P : Profile} {Mc : Type}.
Abbreviation LxMem := (ApiMem ThreadContext LxServer).
Abbreviation St := (Sys (Kernel Mc LxMem)).
Abbreviation SM := (M St).
Context (si : StartInfo St) (FTL_LOG_PREFIX : list Z) (box : LxMem -> option Z).

(** AT_PHDR: where the program header table is, if this segment contains it. *)
Definition find_phdrs (e_phoff : Z) (phdr : Phdr) (phdr_uaddr : option Z) : outcome (option Z) :=
  match phdr_uaddr with
  | Some _ => Ret phdr_uaddr
  | None =>
      if p_offset phdr <=? e_phoff then
        let* file_end := usize_add (p_offset phdr) (p_filesz phdr) in
        if e_phoff <? file_end then
          let* offset_in_segment := usize_sub e_phoff (p_offset phdr) in
          let* uaddr := usize_add (p_vaddr phdr) offset_in_segment in
          Ret (Some uaddr)
        else Ret None
      else Ret None
  end.

Definition segment_attrs (phdr : Phdr) : PageAttrs :=
  let attrs := ATTR_READ in
  let attrs := if writable phdr then attrs_or attrs ATTR_WRITE else attrs in
  if executable phdr then attrs_or attrs ATTR_EXEC else attrs.

(** The body of the loop for a segment to load. *)
Definition process_segment (vmspace : Handle) (elf_file : list Z) (phdr : Phdr) : SM (result ErrorCode unit) :=
  let vaddr := p_vaddr phdr in
  do* mapped_vaddr := lift (align_down vaddr PAGE_SIZE) in
  do* vaddr_offset := lift (usize_sub vaddr mapped_vaddr) in
  do* n := lift (usize_add vaddr_offset (p_memsz phdr)) in
  do* len := lift (align_up n PAGE_SIZE) in
  do? vmarea := VmArea_allocate si len in
  let file_off := p_offset phdr in
  do* file_end := lift (usize_add file_off (p_filesz phdr)) in
  do* data := lift (slice_index elf_file file_off file_end) in
  do? _ := VmArea_write si vmarea vaddr_offset data in
  VmSpace_map si vmspace vmarea mapped_vaddr (segment_attrs phdr).

Fixpoint process_segments (vmspace : Handle) (elf_file : list Z) (e_phoff : Z) (phdr_uaddr : option Z) (phdrs : list Phdr)
  : SM (result ErrorCode (option Z)) :=
  match phdrs with
  | [] => ret (Ok phdr_uaddr)
  | phdr :: phdrs =>
      if negb (p_type phdr =? phdr_type_as_u32 PtLoad) then process_segments vmspace elf_file e_phoff phdr_uaddr phdrs
      else
        do* phdr_uaddr := lift (find_phdrs e_phoff phdr phdr_uaddr) in
        do? _ := process_segment vmspace elf_file phdr in
        process_segments vmspace elf_file e_phoff phdr_uaddr phdrs
  end.

Definition RANDOM : list Z := str "4444444444444444".
Definition ARGV : list (list Z) := [str "hello" ++ [0]].
Definition ENV : list (list Z) := [].

(** [elf_addr]: where the file is in the server's memory. *)
Definition Process_create (elf_addr : Z) (elf_file : list Z) : SM (result ErrorCode (Z * InitRegs)) :=
  do* parsed := lift (elf_parse elf_addr elf_file ET_EXEC) in
  match parsed with
  | Err _ => ret (Err INVALID_ARG)
  | Ok elf =>
      do? vmspace := VmSpace_create si in
      do? phdr_uaddr := process_segments vmspace elf_file (e_phoff (ehdr elf)) None (phdrs elf) in
      do? stack := VmArea_allocate si STACK_SIZE in
      do* r := build_initial_stack (VmArea_write si stack) elf ARGV ENV phdr_uaddr RANDOM in
      match r with
      | Err _ => lift Panic
      | Ok sp =>
          do? _ := VmSpace_map si vmspace stack STACK_BASE (attrs_or ATTR_READ ATTR_WRITE) in
          do* process := box_new box in
          do* m := mem_get in
          do* _ := mem_put (mkApiMem (user_data m) (thread_arcs m)
                     (mkLxServer (<[process := mkProcess vmspace []]> (lx_processes (server_data m))))) in
          ret (Ok (process, mkInitRegs (e_entry (ehdr elf)) sp))
      end
  end.

(** [ThreadContext::spawn].  The [Arc] is dropped on the way out of an error. *)
Definition spawn (process : Z) (init_regs : InitRegs) : SM (result ErrorCode Z) :=
  do* p := process_of (mkThreadContext process) in
  do? thread := Thread_create si box (p_vmspace p) (mkThreadContext process) in
  do* (_, handle) := arc_get thread in
  do* r := (do? _ := Thread_set_context si handle KindInitRegs (of_init_regs init_regs) in
            Thread_unblock si handle) in
  match r with
  | Ok _ => ret (Ok thread)
  | Err e => do* _ := arc_drop si FTL_LOG_PREFIX thread in ret (Err e)
  end.

Definition Process_start (self : Z) (init_regs : InitRegs) : SM (result ErrorCode unit) :=
  do? thread := spawn self init_regs in
  do* p := process_of (mkThreadContext self) in
  do* m := mem_get in
  do* _ := mem_put (mkApiMem (user_data m) (thread_arcs m)
             (mkLxServer (<[self := mkProcess (p_vmspace p) (p_threads p ++ [thread])]>
                (lx_processes (server_data m))))) in
  do* _ := arc_drop si FTL_LOG_PREFIX thread in
  ret (Ok tt).

(** [HELLO_ELF] is linked into the server, at [elf_addr]. *)
Definition Server_new (elf_addr : Z) (HELLO_ELF : list Z) : SM Z :=
  do* (process, init_regs) := expect (Process_create elf_addr HELLO_ELF) in
  do* _ := expect (Process_start process init_regs) in
  ret process.

End ProcessOps.

(** * What a program sees of its memory *)

Section View.
Context {L : RefLayout} {Mc : Type} `{Machine Mc}.
Abbreviation KS := (Sys (Kernel Mc (ApiMem ThreadContext LxServer))).
Implicit Types s : KS.

(** [sid] is an address space that the server has a handle of. *)
Definition space_live s (sid : Z) : Prop := sid ∈ k_issued (ext s) /\ exists a l, obj_at s sid (OSpace a l).

(** The byte at [va] of the space [sid] is [b], in a mapping with rights [attrs]. *)
Definition user_view s (sid va b : Z) (attrs : PageAttrs) : Prop :=
  exists sp m, spaces (k_mem (ext s)) !! sid = Some sp /\ m ∈ mappings sp /\ map_covers m va /\
    m_attrs m = attrs /\ content (vm (k_mem (ext s))) (m_vmarea m) (va - m_start m) = b.

Definition user_views s (sid va : Z) (bs : list Z) (attrs : PageAttrs) : Prop :=
  forall i b, bs !! i = Some b -> user_view s sid (va + Z.of_nat i) b attrs.

(** The bytes of the segment in the file. *)
Definition seg_data (elf_file : list Z) (phdr : Phdr) : list Z :=
  take (Z.to_nat (p_filesz phdr)) (drop (Z.to_nat (p_offset phdr)) elf_file).

(** A segment in memory: the bytes of the file, and zeros after them. *)
Definition seg_loaded s (sid : Z) (elf_file : list Z) (phdr : Phdr) : Prop :=
  user_views s sid (p_vaddr phdr) (seg_data elf_file phdr) (segment_attrs phdr) /\
  forall x, p_filesz phdr <= x < p_memsz phdr -> user_view s sid (p_vaddr phdr + x) 0 (segment_attrs phdr).

(** The segment is inside the file and inside the user half of memory. *)
Definition seg_fits (elf_file : list Z) (phdr : Phdr) : Prop :=
  p_offset phdr + p_filesz phdr <= len elf_file /\ p_vaddr phdr + p_memsz phdr <= 2 ^ 47.

(** The errors for a segment: no memory, memory that overlaps another segment,
    an empty segment, and a segment with more bytes in the file than in memory. *)
Definition seg_error (phdr : Phdr) (e : ErrorCode) : Prop :=
  e = OUT_OF_MEMORY \/ e = ALREADY_EXISTS \/ e = INVALID_ARG /\ p_memsz phdr = 0 \/
  e = OUT_OF_BOUNDS /\ p_memsz phdr < p_filesz phdr.

Definition is_load (phdr : Phdr) : Prop := p_type phdr = phdr_type_as_u32 PtLoad.

(** The program header table is in the part of the segment that the file holds. *)
Definition has_phdrs (e_phoff : Z) (phdr : Phdr) : Prop :=
  is_load phdr /\ p_offset phdr <= e_phoff < p_offset phdr + p_filesz phdr.

(** The address of the program header table in memory: in a segment that
    contains it, if there is one. *)
Definition phdrs_at (e_phoff : Z) (phdrs : list Phdr) (phdr_uaddr : option Z) : Prop :=
  match phdr_uaddr with
  | Some va => exists phdr, phdr ∈ phdrs /\ has_phdrs e_phoff phdr /\ va = p_vaddr phdr + (e_phoff - p_offset phdr)
  | None => forall phdr, phdr ∈ phdrs -> ~ has_phdrs e_phoff phdr
  end.

(** A program ready to start: its segments, and below [STACK_BASE + STACK_SIZE]
    its stack, with the initial contents at [sp] and zeros under them. *)
Definition loaded_program s (sid : Z) (elf_file : list Z) (elf : Elf) (sp : Z) : Prop :=
  (forall phdr, phdr ∈ phdrs elf -> is_load phdr -> seg_loaded s sid elf_file phdr) /\
  exists phdr_uaddr stack, phdrs_at (e_phoff (ehdr elf)) (phdrs elf) phdr_uaddr /\
    STACK_BASE <= sp /\ sp + len stack = STACK_BASE + STACK_SIZE /\
    abi_stack stack sp elf ARGV ENV phdr_uaddr RANDOM /\
    user_views s sid sp stack (attrs_or ATTR_READ ATTR_WRITE) /\
    forall va, STACK_BASE <= va < sp -> user_view s sid va 0 (attrs_or ATTR_READ ATTR_WRITE).

Definition create_error (elf : Elf) (e : ErrorCode) : Prop :=
  e = OUT_OF_MEMORY \/ e = ALREADY_EXISTS \/ exists phdr, phdr ∈ phdrs elf /\ is_load phdr /\ seg_error phdr e.

(** No live address space maps the area [p]. *)
Definition unmapped s (p : Z) : Prop :=
  forall sid sp m, space_live s sid -> spaces (k_mem (ext s)) !! sid = Some sp -> m ∈ mappings sp -> m_vmarea m <> p.

End View.

(** * Lemmas *)

Section Growth.
Context {P : Profile} {L : RefLayout} {B : BootPdpt} {Mc : Type} `{MachineLaws Mc}.
Abbreviation KS := (Sys (Kernel Mc (ApiMem ThreadContext LxServer))).
Implicit Types s : KS.
Abbreviation roots loc s := (loc ++ k_issued (ext s) ++ runqueue s ++ current_ref s).

(** A step that only adds objects, handles and mappings. *)
Record grew (n : Z) (loc : list Z) s s' : Prop := mkGrew {
  g_step : kstep n loc s s';
  g_queue : runqueue s' = runqueue s;
  g_server : k_server (ext s') = k_server (ext s);
  g_console : k_console (ext s') = k_console (ext s);
  g_issued x : x ∈ k_issued (ext s) -> x ∈ k_issued (ext s');
  g_objs p o : p ∈ roots loc s -> obj_at s p o -> exists o', obj_at s' p o' /\
    (o' = o \/ obj_type o = VmSpaceType /\ obj_type o' = VmSpaceType);
  g_threads p t : thread_at s' p t -> thread_at s p t;
  g_views sid va b attrs : space_live s sid -> user_view s sid va b attrs -> user_view s' sid va b attrs
}.

Lemma grew_refl loc s : kinv loc s -> grew 0 loc s s.
Proof. intros Hi. split; try done; [by apply kstep_refl|]. eauto. Qed.

Lemma grew_roots n loc s s' p : grew n loc s s' -> p ∈ roots loc s -> p ∈ roots loc s'.
Proof.
  intros [K Q _ _ I _ _ _] Hp. unfold current_ref in *. rewrite Q, (st_current _ _ _ _ K).
  rewrite !elem_of_app in *. naive_solver.
Qed.

Lemma space_live_kept n loc s s' sid : grew n loc s s' -> space_live s sid -> space_live s' sid.
Proof.
  intros G (Hin & a & l & Ho). split; [by apply (g_issued _ _ _ _ G)|].
  destruct (g_objs _ _ _ _ G sid _ ltac:(set_solver) Ho) as (o' & Ho' & [->|[_ Ht]]); [by exists a, l|].
  destruct o' as [|a' l'|]; try done. by exists a', l'.
Qed.

Lemma grew_trans n1 n2 loc s1 s2 s3 : grew n1 loc s1 s2 -> grew n2 loc s2 s3 -> grew (n1 + n2) loc s1 s3.
Proof.
  intros G1 G2. pose proof G1 as [K1 Q1 V1 C1 I1 O1 T1 B1]. pose proof G2 as [K2 Q2 V2 C2 I2 O2 T2 B2].
  split; [by eapply kstep_trans|congruence..|auto| |auto|].
  - intros p o Hp Ho. destruct (O1 p o Hp Ho) as (o1 & Ho1 & E1).
    destruct (O2 p o1 (grew_roots _ _ _ _ _ G1 Hp) Ho1) as (o2 & Ho2 & E2). exists o2. split; [done|].
    destruct E1 as [->|[? ?]]; [done|]. destruct E2 as [->|[? ?]]; auto.
  - intros sid va b attrs Hl Hv. apply B2; [by eapply space_live_kept|auto].
Qed.

Lemma grew_weaken n n' loc s s' : n <= n' -> grew n loc s s' -> grew n' loc s s'.
Proof. intros Hn [K Q V C I O T B']. split; try done. by eapply kstep_weaken. Qed.

(** New threads would be among the new handles. *)
Lemma grew_threads n loc s s' (l : list Z) :
  kinv loc s -> kstep n loc s s' -> runqueue s' = runqueue s ->
  k_issued (ext s') = l ++ k_issued (ext s) ->
  (forall p t, p ∈ l -> ~ thread_at s' p t) ->
  (forall p o, p ∈ roots loc s -> obj_at s p o -> exists o', obj_at s' p o' /\
    (o' = o \/ obj_type o = VmSpaceType /\ obj_type o' = VmSpaceType)) ->
  forall p t, thread_at s' p t -> thread_at s p t.
Proof.
  intros Hi [Ki Kc _ _] Hq Hiss Hnew Hobj p t Ht. pose proof (thread_roots loc s' p t Ki Ht) as Hp.
  unfold current_ref in Hp. rewrite Hq, Kc, Hiss in Hp. fold (current_ref s) in Hp.
  destruct (decide (p ∈ l)) as [Hin|Hout]; [by destruct (Hnew p t)|].
  assert (p ∈ roots loc s) as Hr by set_solver. destruct (obj_live loc s p Hi Hr) as [o Ho].
  destruct (Hobj p o Hr Ho) as (o' & Ho' & Heq). pose proof (obj_at_inj s' p (OThread t) o' Ht Ho') as <-.
  destruct Heq as [<-|[_ ?]]; done.
Qed.

Lemma live_space_obj s sid : space_live s sid -> live_space (store s) sid = true.
Proof. intros (_ & a & l & [c E]). unfold live_space. by rewrite E. Qed.

(** What a program sees stays when the live memory does. *)
Lemma view_kept loc s s' sid va b attrs :
  kinv loc s -> mem_kept (store s) (k_mem (ext s)) (k_mem (ext s')) -> space_live s sid ->
  user_view s sid va b attrs -> user_view s' sid va b attrs.
Proof.
  intros Hi [_ Hc Hs] Hlive%live_space_obj (sp & m & Hsp & Hm & Hcov & Ha & <-). destruct (kinv_mem _ _ Hi) as [_ Hl].
  exists sp, m. rewrite Hs by done. do 4 (split; [done|]).
  apply Hc. by eapply mapped_area_live; [exact Hl|apply (si_rc _ _ _ Hi)| |exact Hlive|].
Qed.

(** A call that gave at most one handle, of the new object [p]. *)
Lemma new_grew loc s s' p o :
  kinv loc s -> kstep 1 loc s s' -> runqueue s' = runqueue s ->
  k_console (ext s') = k_console (ext s) -> k_server (ext s') = k_server (ext s) ->
  (forall q o, obj_at s q o -> obj_at s' q o) ->
  mem_kept (store s) (k_mem (ext s)) (k_mem (ext s')) ->
  (k_issued (ext s') = k_issued (ext s) \/
   k_issued (ext s') = p :: k_issued (ext s) /\ obj_at s' p o /\ obj_type o <> ThreadType) ->
  grew 1 loc s s'.
Proof.
  intros Hi K Hq Hc Hs Hobj Hm Hiss. split; try done.
  - intros x Hx. destruct Hiss as [->|[-> _]]; set_solver.
  - eauto.
  - destruct Hiss as [E|(E & Ho & Hty)].
    + apply (grew_threads 1 loc s s' [] Hi K Hq E); [set_solver|eauto].
    + apply (grew_threads 1 loc s s' [p] Hi K Hq E); [|eauto]. intros q t ->%list_elem_of_singleton Ht.
      pose proof (obj_at_inj s' p (OThread t) o Ht Ho) as <-. done.
  - intros sid va b attrs. by apply (view_kept loc).
Qed.

End Growth.

(** ** The kernel calls of the loader *)

Section Calls.
Context {P : Profile} {L : RefLayout} {B : BootPdpt} {Mc : Type} `{MachineLaws Mc}.
Abbreviation KS := (Sys (Kernel Mc (ApiMem ThreadContext LxServer))).
Implicit Types s : KS.
Context (galloc : RefStore KObject -> option Z) (try_reserve : RefStore KObject -> bool).
Context (Hgalloc : alloc_fresh galloc).
Context (invoke : Upcall -> UpcallArg -> M KS unit).
Abbreviation si := (START_INFO galloc try_reserve invoke).

(** A handle of an address space, as [VmSpace::create] returns it. *)
Definition space_owned s (h : Handle) (sid : Z) : Prop :=
  type_id h = VmSpaceType /\ h_right h = VmSpace_DEFAULT_RIGHT /\ sref_from_raw VmSpaceType (h_raw h) = sid /\
  space_live s sid.

(** A handle of an area of [n] bytes that no space maps. *)
Definition area_owned s (h : Handle) (p n : Z) : Prop :=
  handle_of s h p OArea /\ h_right h = VmArea_DEFAULT_RIGHT /\ unmapped s p /\
  exists a, areas (vm (k_mem (ext s))) !! p = Some a /\ area_len a = n.

Lemma space_owned_kept n loc s s' h sid : grew n loc s s' -> space_owned s h sid -> space_owned s' h sid.
Proof. intros G (? & ? & ? & Hl). split_and!; try done. by eapply space_live_kept. Qed.

Lemma space_owned_handle s h sid : space_owned s h sid -> exists a l, handle_of s h sid (OSpace a l).
Proof. intros (Ht & _ & Hr & Hin & a & l & Ho). exists a, l. by rewrite <- Ht in Hr. Qed.

Lemma create_grew loc s :
  kinv loc s ->
  exists r s', VmSpace_create si s = Ret (r, s') /\ grew 1 loc s s' /\
    match r with
    | Ok h => exists sid, space_owned s' h sid
    | Err e => e = OUT_OF_MEMORY
    end.
Proof.
  intros Hi. destruct (call_vmspace_create_spec galloc Hgalloc loc s Hi) as (r & s' & E & K & Hq & Hc & Hs & Ho & Hm & Hr).
  exists r, s'. split; [exact E|]. destruct r as [h|e].
  - destruct Hr as (p & a & sp & (Hraw & Hin & Hobj & Hty) & Hright & Hnone & Hsp & Hnil & Hiss).
    split; [by eapply (new_grew loc s s' p (OSpace a [])); eauto; right|].
    exists p. split; [done|]. split; [done|]. split; [by rewrite <- Hty in Hraw|]. split; [done|]. by exists a, [].
  - destruct Hr as [-> Hiss]. split; [|done]. by eapply (new_grew loc s s' 0 OArea); eauto.
Qed.

Lemma allocate_grew loc s n :
  kinv loc s -> 0 <= n < 2 ^ 64 ->
  exists r s', VmArea_allocate si n s = Ret (r, s') /\ grew 1 loc s s' /\
    match r with
    | Ok h => exists p, area_owned s' h p n /\ forall x, content (vm (k_mem (ext s'))) p x = 0
    | Err e => e = OUT_OF_MEMORY \/ e = INVALID_ARG /\ (n = 0 \/ n mod MIN_PAGE_SIZE <> 0)
    end.
Proof.
  intros Hi Hn. destruct (call_vmarea_allocate_spec galloc try_reserve Hgalloc loc s n Hi Hn)
    as (r & s' & E & K & Hq & Hc & Hs & Ho & Hm & Hr).
  exists r, s'. split; [exact E|]. destruct r as [h|e].
  - destruct Hr as (p & a & Hh & Hright & Hnone & Ha & Hlen & Hzero & Hiss & _).
    split; [by eapply (new_grew loc s s' p OArea); eauto; right; split_and!; try done; apply Hh|].
    exists p. split; [|done]. split; [done|]. split; [done|]. split; [|by exists a].
    intros sid sp m (Hin & a' & l & Hobj) Hsp Hmm Hmp. rewrite Hiss in Hin. destruct Hh as (_ & _ & Hp & _).
    apply elem_of_cons in Hin as [->|Hin]; [by pose proof (obj_at_inj s' _ _ _ Hobj Hp)|].
    destruct (obj_live loc s sid Hi ltac:(set_solver)) as [o Ho']. pose proof (obj_at_inj _ _ _ _ Hobj (Ho _ _ Ho')) as <-.
    assert (live_space (store s) sid = true) as Hlive by (by apply live_space_obj; split; [|exists a', l]).
    rewrite (mk_space _ _ _ Hm) in Hsp by done.
    pose proof (mapped_area_live _ _ _ _ _ _ (proj2 (kinv_mem _ _ Hi)) (si_rc _ _ _ Hi) Hsp Hlive Hmm) as Hl.
    rewrite Hmp in Hl. unfold live_area in Hl. by rewrite Hnone in Hl.
  - destruct Hr as [He Hiss]. split; [|done]. by eapply (new_grew loc s s' 0 OArea); eauto.
Qed.

Lemma write_grew loc s h p n off data :
  kinv loc s -> krefs loc s + 1 < 2 ^ 64 -> area_owned s h p n -> bytes_ok data -> 0 <= off ->
  exists r s', VmArea_write si h off data s = Ret (r, s') /\ grew 0 loc s s' /\ area_owned s' h p n /\
    match r with
    | Ok _ => off + len data <= n /\
        forall x, content (vm (k_mem (ext s'))) p x = mem_write (content (vm (k_mem (ext s))) p) off data x
    | Err e => if off + len data <=? n then e = OUT_OF_MEMORY else e = OUT_OF_BOUNDS
    end.
Proof.
  clear Hgalloc.
  intros Hi Hn (Hh & Hright & Hun & a & Ha & Hlen) Hb Hoff.
  destruct (call_vmarea_write_spec loc s h p OArea off data Hi Hn Hh Hb Hoff) as (r & s' & E & K & Hq & Hrest & Ho & Hr).
  assert (is_type h VmAreaType = true) as Hty by (apply bool_decide_eq_true; by destruct Hh as (_ & _ & _ & <-)).
  assert (authorize h RIGHT_WRITE = true) as Hau by (unfold authorize; by rewrite Hright).
  rewrite Hty, Hau in Hr. destruct Hr as (a' & written & Ha' & Hsp & [_ Hext _ Hw] & _ & Hr).
  rewrite Ha in Ha'. injection Ha' as <-. exists r, s'. split; [exact E|].
  assert (forall sid, space_live s' sid -> space_live s sid) as Hback.
  { intros sid (Hin & b & l & Hb'). destruct Hrest as (Hiss & _). rewrite Hiss in Hin.
    destruct (obj_live loc s sid Hi ltac:(set_solver)) as [o Ho']. split; [done|].
    pose proof (obj_at_inj _ _ _ _ Hb' (Ho sid o ltac:(set_solver) Ho')) as <-. by exists b, l. }
  split; [|split].
  - split; try done; [by destruct Hrest as (_ & _ & ?)|by destruct Hrest as (_ & ? & _)|by destruct Hrest as (-> & _)|eauto| |].
    + destruct Hrest as (Hiss & _). apply (grew_threads 0 loc s s' [] Hi K Hq Hiss); [set_solver|eauto].
    + intros sid va b attrs Hl (sp & m & Hs & Hm & Hcov & Hat & <-). exists sp, m. rewrite Hsp. do 4 (split; [done|]).
      rewrite Hw, decide_False; [done|]. by eapply Hun.
  - destruct (extends_area _ _ _ _ Hext Ha) as (a2 & Ha2 & Hl2). destruct Hh as (Hraw & Hin & Hobj & Hty').
    split; [|split; [done|split; [|exists a2; split; [done|lia]]]].
    + split; [done|]. destruct Hrest as (Hiss & _). rewrite Hiss. split; [done|]. split; [|done].
      apply (Ho p OArea); [set_solver|done].
    + intros sid sp m Hl Hs. rewrite Hsp in Hs. by eapply Hun; [apply Hback|].
  - destruct r as [|e]; [|by rewrite <- Hlen]. destruct Hr as [Hle ->]. split; [lia|].
    intros x. by rewrite Hw, decide_True.
Qed.

Lemma map_grew loc s hs sid h p n uaddr attrs :
  kinv loc s -> krefs loc s + 2 < 2 ^ 64 -> space_owned s hs sid -> area_owned s h p n ->
  0 <= uaddr -> uaddr + n <= 2 ^ 47 -> 0 <= attrs < 8 ->
  exists r s', VmSpace_map si hs h uaddr attrs s = Ret (r, s') /\ grew 1 loc s s' /\
    match r with
    | Ok _ => forall x, 0 <= x < n -> user_view s' sid (uaddr + x) (content (vm (k_mem (ext s))) p x) attrs
    | Err e => e = INVALID_ARG /\ uaddr mod MIN_PAGE_SIZE <> 0 \/ e = ALREADY_EXISTS \/ e = OUT_OF_MEMORY
    end.
Proof.
  clear Hgalloc. intros Hi Hn Hso (Hh & Hright & _ & a & Ha & Hlen) Hu Hend Hat.
  destruct (space_owned_handle _ _ _ Hso) as (b & l & Hhs). destruct Hso as (Hty & Hrs & _ & Hlive).
  destruct (call_vmspace_map_spec try_reserve loc s hs sid _ h p OArea uaddr attrs Hi Hn Hhs Hh Hu Hat)
    as (r & s' & E & K & Hq & Hrest & Ho & (o' & Ho' & Hoty) & Hr).
  { intros a' _ Ha'. rewrite Ha in Ha'. injection Ha' as <-. lia. }
  assert (is_type hs VmSpaceType = true) as Hty1 by by apply bool_decide_eq_true.
  assert (is_type h VmAreaType = true) as Hty2 by (apply bool_decide_eq_true; by destruct Hh as (_ & _ & _ & <-)).
  unfold checked in Hr. rewrite Hty1, Hty2 in Hr.
  assert (authorize hs RIGHT_MAP = true) as Hau1 by (unfold authorize; by rewrite Hrs).
  assert (authorize h RIGHT_MAP = true) as Hau2 by (unfold authorize; by rewrite Hright).
  rewrite Hau1, Hau2 in Hr. destruct Hr as (sp & a' & Hsp & Ha' & _ & Hext & Hcont & _ & Hr).
  rewrite Ha in Ha'. injection Ha' as <-. exists r, s'. split; [exact E|]. split.
  - assert (forall q o, q ∈ loc ++ k_issued (ext s) ++ runqueue s ++ current_ref s -> obj_at s q o -> exists o', obj_at s' q o' /\
      (o' = o \/ obj_type o = VmSpaceType /\ obj_type o' = VmSpaceType)) as Hobjs.
    { intros q o Hq' Hqo. destruct (decide (q = sid)) as [->|Hne]; [|eauto].
      destruct Hhs as (_ & _ & Hobj & _). pose proof (obj_at_inj _ _ _ _ Hqo Hobj) as ->. by exists o'; auto. }
    split; try done; [by destruct Hrest as (_ & _ & ?)|by destruct Hrest as (_ & ? & _)|by destruct Hrest as (-> & _)| |].
    + destruct Hrest as (Hiss & _). apply (grew_threads 1 loc s s' [] Hi K Hq Hiss); [set_solver|done].
    + intros sid' va c attrs' _ (sp' & m & Hs & Hm & Hcov & Hm' & <-). unfold user_view. setoid_rewrite Hcont.
      destruct r as [|e]; [|destruct Hr as [-> _]; by exists sp', m]. destruct Hr as (-> & _).
      destruct (decide (sid' = sid)) as [->|Hne]; [|exists sp', m; by rewrite lookup_insert_ne].
      rewrite Hsp in Hs. injection Hs as <-. eexists _, m. rewrite lookup_insert_eq. split; [done|]. split; [|done].
      apply insert_mapping_elem. auto.
  - destruct r as [|e]; [|apply Hr]. destruct Hr as (Hs' & _ & _). intros x Hx. unfold user_view. rewrite Hs'.
    eexists _, _. rewrite lookup_insert_eq. split; [done|]. split; [apply insert_mapping_elem; by left|].
    split; [split; simpl; lia|]. split; [done|]. rewrite Hcont. simpl. f_equal. lia.
Qed.

Lemma segment_attrs_bound phdr : 0 <= segment_attrs phdr < 8.
Proof.
  apply attrs_built_bound. unfold segment_attrs.
  destruct (writable phdr), (executable phdr); repeat constructor.
Qed.

Lemma bytes_ok_seg file phdr : bytes_ok file -> bytes_ok (seg_data file phdr).
Proof. intros. by apply Forall_take, Forall_drop. Qed.

(** What a program sees of an area of zeros with [data] written from [off] on. *)
Lemma filled_views s sid (mem : Z -> Z) n off data base attrs :
  (forall x, 0 <= x < n -> user_view s sid (base + x) (mem_write mem off data x) attrs) -> (forall x, mem x = 0) ->
  0 <= off -> off + len data <= n ->
  user_views s sid (base + off) data attrs /\
  forall x, 0 <= x < n -> x < off \/ off + len data <= x -> user_view s sid (base + x) 0 attrs.
Proof.
  clear. intros Hv Hzero Hoff Hfit. split.
  - intros i b Hib. assert (0 <= off + Z.of_nat i < n) as Hx by (apply lookup_lt_Some in Hib; lia).
    specialize (Hv _ Hx). rewrite (mem_write_in _ _ _ _ b), Z.add_assoc in Hv; [done|lia|].
    by rewrite Z.add_simpl_l, Nat2Z.id.
  - intros x Hx Hout. specialize (Hv x Hx). by rewrite mem_write_out, Hzero in Hv.
Qed.

(** A new area is filled with [data] from [off] on, then mapped. *)
Lemma fill_and_map loc s hs sid h p n off data base attrs :
  kinv loc s -> krefs loc s + 2 < 2 ^ 64 -> space_owned s hs sid -> area_owned s h p n ->
  (forall x, content (vm (k_mem (ext s))) p x = 0) ->
  bytes_ok data -> 0 <= off -> 0 <= base -> base mod MIN_PAGE_SIZE = 0 -> base + n <= 2 ^ 47 -> 0 <= attrs < 8 ->
  exists r s', (do? _ := VmArea_write si h off data in VmSpace_map si hs h base attrs) s = Ret (r, s') /\
    grew 1 loc s s' /\
    match r with
    | Ok _ => off + len data <= n /\ user_views s' sid (base + off) data attrs /\
        forall x, 0 <= x < n -> x < off \/ off + len data <= x -> user_view s' sid (base + x) 0 attrs
    | Err e => e = OUT_OF_MEMORY \/ e = ALREADY_EXISTS \/ e = OUT_OF_BOUNDS /\ n < off + len data
    end.
Proof.
  clear Hgalloc. intros Hi Hn Hso Hown Hzero Hb Hoff Hbase Hal Htop Hat.
  destruct (write_grew loc s h p n off data Hi ltac:(lia) Hown Hb Hoff) as (r & s1 & E1 & G1 & Hown1 & Hr).
  destruct r as [[]|e].
  2: { rewrite (bindr_err _ _ _ _ _ E1). eexists _, _. split; [done|]. split; [by eapply grew_weaken; [|exact G1]|].
       destruct (Z.leb_spec (off + len data) n); subst e; auto. }
  rewrite (bindr_ok _ _ _ _ _ E1). destruct Hr as [Hfit Hcont]. destruct (g_step _ _ _ _ G1) as [Hi1 _ _ Hr1].
  destruct (map_grew loc s1 hs sid h p n base attrs Hi1 ltac:(lia) (space_owned_kept _ _ _ _ _ _ G1 Hso) Hown1)
    as (r & s2 & E2 & G2 & Hr); [lia..|].
  exists r, s2. split; [exact E2|]. split; [exact (grew_trans _ _ _ _ _ _ G1 G2)|].
  destruct r as [[]|e]; [|destruct Hr as [[_ ?]|[->| ->]]; [done|auto..]].
  split; [done|]. eapply filled_views; [|exact Hzero|done..]. intros x Hx. rewrite <- Hcont. by apply Hr.
Qed.

Lemma load_one_spec loc s hs sid file phdr :
  kinv loc s -> krefs loc s + 4 < 2 ^ 64 -> space_owned s hs sid -> bytes_ok file -> len file < 2 ^ 63 ->
  phdr_ok phdr -> seg_fits file phdr ->
  exists r s', process_segment si hs file phdr s = Ret (r, s') /\ grew 2 loc s s' /\
    match r with Ok _ => seg_loaded s' sid file phdr | Err e => seg_error phdr e end.
Proof.
  intros Hi Hn Hso Hb Hlen [_ _ Ho Hv _ Hf Hm _] [Hfile Hmem]. unfold u64 in *. unfold process_segment.
  pose proof (Z.mod_pos_bound (p_vaddr phdr) 4096 ltac:(lia)) as Hmod.
  set (voff := p_vaddr phdr mod 4096) in *. set (base := p_vaddr phdr - voff).
  rewrite (bind_lift _ _ _ base) by (by apply align_down_page).
  rewrite (bind_lift _ _ _ voff) by (unfold base; rewrite usize_sub_ok by lia; f_equal; lia).
  rewrite (bind_lift _ _ _ (voff + p_memsz phdr)) by (apply usize_add_ok; lia).
  destruct (align_up_ok (voff + p_memsz phdr) 12) as (n & En & Hal & Hle); [lia..|].
  change (2 ^ 12) with 4096 in *. rewrite (bind_lift _ _ _ n) by exact En.
  assert (base mod 4096 = 0) as Hbase by (unfold base, voff; dlia).
  assert (base + n <= 2 ^ 47) as Htop by (change (2 ^ 47) with (2 ^ 35 * 4096) in *; unfold base in *; dlia).
  destruct (allocate_grew loc s n Hi ltac:(lia)) as (r & s1 & E1 & G1 & Hr).
  destruct r as [h|e].
  2: { rewrite (bindr_err _ _ _ _ _ E1). eexists _, _. split; [done|]. split; [by eapply grew_weaken; [|exact G1]|].
       destruct Hr as [->|(-> & Hz)]; [by left|]. right; right; left. split; [done|]. unfold MIN_PAGE_SIZE in Hz. lia. }
  rewrite (bindr_ok _ _ _ _ _ E1). destruct Hr as (p & Hown & Hzero).
  rewrite (bind_lift _ _ _ (p_offset phdr + p_filesz phdr)) by (apply usize_add_ok; lia).
  rewrite (bind_lift _ _ _ (seg_data file phdr)).
  2: { unfold slice_index. rewrite slice_get_ok by lia. by rewrite Z.add_simpl_l. }
  destruct (g_step _ _ _ _ G1) as [Hi1 _ _ Hr1].
  assert (len (seg_data file phdr) = p_filesz phdr) as Hdl.
  { unfold seg_data. rewrite length_take, length_drop. lia. }
  destruct (fill_and_map loc s1 hs sid h p n voff (seg_data file phdr) base (segment_attrs phdr) Hi1 ltac:(lia)
    (space_owned_kept _ _ _ _ _ _ G1 Hso) Hown Hzero) as (r & s2 & E2 & G2 & Hr);
    [by apply bytes_ok_seg|lia|unfold base, voff; dlia|done|lia|apply segment_attrs_bound|].
  exists r, s2. split; [exact E2|]. split; [exact (grew_trans _ _ _ _ _ _ G1 G2)|].
  destruct r as [[]|e].
  - destruct Hr as (_ & Hd & Hz). replace (base + voff) with (p_vaddr phdr) in Hd by (unfold base; lia).
    split; [done|]. intros x Hx. specialize (Hz (voff + x) ltac:(lia) ltac:(lia)).
    by replace (base + (voff + x)) with (p_vaddr phdr + x) in Hz by (unfold base; lia).
  - unfold seg_error. destruct Hr as [?|[?|[? ?]]]; auto. do 3 right. split; [done|lia].
Qed.

Lemma find_phdrs_spec e_phoff file seen phdr u :
  0 <= e_phoff < 2 ^ 64 -> len file < 2 ^ 63 -> phdr_ok phdr -> is_load phdr -> seg_fits file phdr ->
  phdrs_at e_phoff seen u ->
  exists u', find_phdrs e_phoff phdr u = Ret u' /\ phdrs_at e_phoff (seen ++ [phdr]) u' /\
    (is_usize (default 0 u) -> is_usize (default 0 u')).
Proof.
  clear. intros Ho Hlen [_ _ Hp Hv _ Hf Hm _] Hl [Hfile Hmem] Hu. unfold u64, is_usize in *. unfold find_phdrs.
  destruct u as [va|].
  { exists (Some va). split; [done|]. split; [|done]. destruct Hu as (ph & Hin & ?). exists ph. set_solver. }
  assert (~ has_phdrs e_phoff phdr -> phdrs_at e_phoff (seen ++ [phdr]) None) as Hnone.
  { intros Hno ph [Hin| ->%list_elem_of_singleton]%elem_of_app; [by apply Hu|done]. }
  destruct (Z.leb_spec (p_offset phdr) e_phoff) as [Hle|Hgt].
  2: { exists None. split; [done|]. split; [|done]. apply Hnone. unfold has_phdrs. lia. }
  rewrite usize_add_ok by lia. cbn [obind]. destruct (Z.ltb_spec e_phoff (p_offset phdr + p_filesz phdr)) as [Hlt|Hge].
  2: { exists None. split; [done|]. split; [|done]. apply Hnone. unfold has_phdrs. lia. }
  rewrite usize_sub_ok by lia. cbn [obind]. rewrite usize_add_ok by lia. cbn [obind]. eexists. split; [done|].
  split; [|simpl; lia]. exists phdr. unfold has_phdrs. set_solver.
Qed.

Lemma seg_loaded_kept n loc s s' sid file phdr :
  grew n loc s s' -> space_live s sid -> seg_loaded s sid file phdr -> seg_loaded s' sid file phdr.
Proof.
  clear. intros G Hl [Hd Hz]. split.
  - intros i b Hi. apply (g_views _ _ _ _ G); auto.
  - intros x Hx. apply (g_views _ _ _ _ G); auto.
Qed.

(** The loop over the program headers; those of [seen] are loaded. *)
Lemma load_all_spec loc hs sid file e_phoff phdrs : forall s seen u,
  bytes_ok file -> len file < 2 ^ 63 -> 0 <= e_phoff < 2 ^ 64 ->
  Forall phdr_ok phdrs -> (forall phdr, phdr ∈ phdrs -> is_load phdr -> seg_fits file phdr) ->
  kinv loc s -> krefs loc s + 2 * len phdrs + 4 < 2 ^ 64 -> space_owned s hs sid ->
  (forall phdr, phdr ∈ seen -> is_load phdr -> seg_loaded s sid file phdr) ->
  phdrs_at e_phoff seen u -> is_usize (default 0 u) ->
  exists r s', process_segments si hs file e_phoff u phdrs s = Ret (r, s') /\ grew (2 * len phdrs) loc s s' /\
    match r with
    | Ok u' => (forall phdr, phdr ∈ seen ++ phdrs -> is_load phdr -> seg_loaded s' sid file phdr) /\
        phdrs_at e_phoff (seen ++ phdrs) u' /\ is_usize (default 0 u')
    | Err e => exists phdr, phdr ∈ phdrs /\ is_load phdr /\ seg_error phdr e
    end.
Proof.
  induction phdrs as [|phdr phdrs IH]; intros s seen u Hb Hlen Ho Hok Hfit Hi Hn Hso Hdone Hu Huz.
  { exists (Ok u), s. split; [done|]. split; [by apply grew_refl|]. by rewrite app_nil_r. }
  cbn [length] in *. inversion_clear Hok as [|? ? Hok1 Hoks]. cbn [process_segments].
  destruct (Z.eqb_spec (p_type phdr) (phdr_type_as_u32 PtLoad)) as [Hl|Hl]; cbn [negb].
  2: { destruct (IH s (seen ++ [phdr]) u) as (r & s' & E & G & Hr); try done.
       - set_solver.
       - lia.
       - intros ph [Hin| ->%list_elem_of_singleton]%elem_of_app; [by apply Hdone|done].
       - destruct u as [va|]; [destruct Hu as (ph & ? & ?); exists ph; set_solver|].
         intros ph [Hin| ->%list_elem_of_singleton]%elem_of_app; [by apply Hu|]. by intros [? _].
       - exists r, s'. split; [done|]. split; [eapply grew_weaken; [|exact G]; lia|]. rewrite <- app_assoc in Hr.
         destruct r; [done|]. set_solver. }
  destruct (find_phdrs_spec e_phoff file seen phdr u) as (u1 & E1 & Hu1 & Huz1); [done..|set_solver|done|].
  rewrite (bind_lift _ _ _ _ E1).
  destruct (load_one_spec loc s hs sid file phdr Hi ltac:(lia) Hso Hb Hlen Hok1 ltac:(set_solver)) as (r & s1 & E2 & G1 & Hr).
  destruct r as [[]|e].
  2: { rewrite (bindr_err _ _ _ _ _ E2). eexists _, _. split; [done|]. split; [eapply grew_weaken; [|exact G1]; lia|].
       exists phdr. set_solver. }
  rewrite (bindr_ok _ _ _ _ _ E2). destruct (g_step _ _ _ _ G1) as [Hi1 _ _ Hr1].
  destruct (IH s1 (seen ++ [phdr]) u1) as (r & s' & E & G & Hr'); try done; try (by auto).
  - set_solver.
  - lia.
  - by eapply space_owned_kept.
  - intros ph [Hin| ->%list_elem_of_singleton]%elem_of_app ?; [|done].
    eapply seg_loaded_kept; [exact G1|apply Hso|]. by apply Hdone.
  - exists r, s'. split; [done|]. split; [eapply grew_weaken; [|exact (grew_trans _ _ _ _ _ _ G1 G)]; lia|].
    rewrite <- app_assoc in Hr'. destruct r; [done|]. set_solver.
Qed.

(** The stack of a new program. *)
Definition create_stack (hs : Handle) (elf : Elf) (phdr_uaddr : option Z) : M KS (result ErrorCode Z) :=
  do? stack := VmArea_allocate si STACK_SIZE in
  do* r := build_initial_stack (VmArea_write si stack) elf ARGV ENV phdr_uaddr RANDOM in
  match r with
  | Err _ => lift Panic
  | Ok sp =>
      do? _ := VmSpace_map si hs stack STACK_BASE (attrs_or ATTR_READ ATTR_WRITE) in
      ret (Ok sp)
  end.

(** The kernel has no page for the initial stack. *)
Definition stack_unwritten (elf : Elf) (u : option Z) s : Prop :=
  exists stack s1 s2, VmArea_allocate si STACK_SIZE s = Ret (Ok stack, s1) /\
    build_initial_stack (VmArea_write si stack) elf ARGV ENV u RANDOM s1 = Ret (Err (VmAreaWrite OUT_OF_MEMORY), s2).

(** [Process::create] gets as far as the initial stack and cannot write it. *)
Definition write_failed (file : list Z) (elf : Elf) s : Prop :=
  exists h s1 u s2, VmSpace_create si s = Ret (Ok h, s1) /\
    process_segments si h file (e_phoff (ehdr elf)) None (phdrs elf) s1 = Ret (Ok u, s2) /\ stack_unwritten elf u s2.

Lemma stack_fits : stack_total ARGV ENV <= STACK_SIZE.
Proof. clear. by vm_compute. Qed.

Lemma create_stack_spec loc s hs sid elf u :
  kinv loc s -> krefs loc s + 4 < 2 ^ 64 -> space_owned s hs sid -> ehdr_ok (ehdr elf) -> is_usize (default 0 u) ->
  create_stack hs elf u s = Panic /\ stack_unwritten elf u s \/
  exists r s', create_stack hs elf u s = Ret (r, s') /\ grew 2 loc s s' /\
    match r with
    | Ok sp => exists stack, STACK_BASE <= sp /\ sp + len stack = STACK_BASE + STACK_SIZE /\
        abi_stack stack sp elf ARGV ENV u RANDOM /\
        user_views s' sid sp stack (attrs_or ATTR_READ ATTR_WRITE) /\
        forall va, STACK_BASE <= va < sp -> user_view s' sid va 0 (attrs_or ATTR_READ ATTR_WRITE)
    | Err e => e = OUT_OF_MEMORY \/ e = ALREADY_EXISTS
    end.
Proof.
  intros Hi Hn Hso He Hu. unfold create_stack.
  destruct (allocate_grew loc s STACK_SIZE Hi ltac:(unfold STACK_SIZE; lia)) as (r & s1 & E1 & G1 & Hr).
  destruct r as [h|e].
  2: { right. rewrite (bindr_err _ _ _ _ _ E1). eexists _, _. split; [done|]. split; [by eapply grew_weaken; [|exact G1]|].
       destruct Hr as [->|(-> & [?|Hm])]; [auto|done..]. }
  rewrite (bindr_ok _ _ _ _ _ E1). destruct Hr as (p & Hown & Hzero). destruct (g_step _ _ _ _ G1) as [Hi1 _ _ Hr1].
  destruct (build_stack_run (VmArea_write si h) elf ARGV ENV u RANDOM s1) as (Hl & Hsp & Hal & Erun); [done..|].
  set (sp := STACK_BASE + STACK_SIZE - stack_total ARGV ENV) in *.
  set (buf := stack_image sp _ ARGV ENV RANDOM) in *.
  assert (0 <= sp - STACK_BASE) as Hoff by (pose proof stack_fits; subst sp; lia).
  assert (bytes_ok buf) as Hb by (apply bytes_ok_image; repeat constructor; unfold is_byte; simpl; lia).
  destruct (write_grew loc s1 h p STACK_SIZE (sp - STACK_BASE) buf Hi1 ltac:(lia) Hown Hb Hoff)
    as (r & s2 & E2 & G2 & Hown2 & Hr).
  rewrite (bind_run _ _ _ (match r with Ok _ => Ok sp | Err e => Err (VmAreaWrite e) end) s2)
    by (by rewrite Erun, (bind_run _ _ _ _ _ E2)).
  destruct r as [[]|e].
  2: { left. split; [done|]. rewrite (proj2 (Z.leb_le _ _)) in Hr by lia. subst e.
       exists h, s1, s2. split; [done|]. by rewrite Erun, (bind_run _ _ _ _ _ E2). }
  right. destruct Hr as [Hfit Hcont]. destruct (g_step _ _ _ _ G2) as [Hi2 _ _ Hr2].
  assert (grew 1 loc s s2) as G12 by exact (grew_trans _ _ _ _ _ _ G1 G2).
  destruct (map_grew loc s2 hs sid h p STACK_SIZE STACK_BASE (attrs_or ATTR_READ ATTR_WRITE) Hi2 ltac:(lia)
    (space_owned_kept _ _ _ _ _ _ G12 Hso) Hown2) as (r & s3 & E3 & G3 & Hr); [done..|].
  destruct r as [[]|e].
  2: { rewrite (bindr_err _ _ _ _ _ E3). eexists _, _. split; [done|]. split; [exact (grew_trans _ _ _ _ _ _ G12 G3)|].
       destruct Hr as [[_ Hm]|[->| ->]]; [by destruct Hm|auto..]. }
  rewrite (bindr_ok _ _ _ _ _ E3). eexists _, _. split; [done|]. split; [exact (grew_trans _ _ _ _ _ _ G12 G3)|].
  exists buf. split; [lia|]. split; [done|]. split; [by apply stack_image_abi|].
  destruct (filled_views s3 sid _ STACK_SIZE (sp - STACK_BASE) buf STACK_BASE _
    ltac:(intros x Hx; rewrite <- Hcont; by apply Hr) Hzero Hoff Hfit) as [Hd Hz].
  replace (STACK_BASE + (sp - STACK_BASE)) with sp in Hd by lia. split; [done|].
  intros va Hva. specialize (Hz (va - STACK_BASE) ltac:(lia) ltac:(lia)).
  by replace (STACK_BASE + (va - STACK_BASE)) with va in Hz by lia.
Qed.

Lemma create_stack_bind {A} hs elf u (k : Z -> M KS (result ErrorCode A)) s :
  (do? stack := VmArea_allocate si STACK_SIZE in
   do* r := build_initial_stack (VmArea_write si stack) elf ARGV ENV u RANDOM in
   match r with
   | Err _ => lift Panic
   | Ok sp => do? _ := VmSpace_map si hs stack STACK_BASE (attrs_or ATTR_READ ATTR_WRITE) in k sp
   end) s = (do? sp := create_stack hs elf u in k sp) s.
Proof.
  clear Hgalloc. unfold create_stack, bindr, bind.
  destruct (VmArea_allocate si STACK_SIZE s) as [[[h|e] s1]| | |]; try done.
  destruct (build_initial_stack _ _ _ _ _ _ s1) as [[[sp|e] s2]| | |]; try done.
  by destruct (VmSpace_map _ _ _ _ _ s2) as [[[[]|e] s3]| | |].
Qed.

(** The server's memory with a new process. *)
Definition add_process (m : ApiMem ThreadContext LxServer) (pid : Z) (process : Process) : ApiMem ThreadContext LxServer :=
  mkApiMem (user_data m) (thread_arcs m) (mkLxServer (<[pid := process]> (lx_processes (server_data m)))).

Lemma process_create_spec (box : ApiMem ThreadContext LxServer -> option Z) loc s addr file elf :
  kinv loc s -> krefs loc s + 2 * len (phdrs elf) + 6 < 2 ^ 64 ->
  elf_parse addr file ET_EXEC = Ret (Ok elf) -> bytes_ok file -> len file < 2 ^ 63 ->
  (forall phdr, phdr ∈ phdrs elf -> is_load phdr -> seg_fits file phdr) ->
  Process_create si box addr file s = Panic /\ (write_failed file elf s \/ box (server_mem s) = None) \/
  exists r s1, grew (2 * len (phdrs elf) + 3) loc s s1 /\
    match r with
    | Ok (pid, regs) => exists h sid sp,
        Process_create si box addr file s = Ret (r, set_server s1 (add_process (server_mem s) pid (mkProcess h []))) /\
        box (server_mem s) = Some pid /\ regs = mkInitRegs (e_entry (ehdr elf)) sp /\
        space_owned s1 h sid /\ loaded_program s1 sid file elf sp
    | Err e => Process_create si box addr file s = Ret (r, s1) /\ create_error elf e
    end.
Proof.
  intros Hi Hn Hparse Hb Hlen Hfit. destruct (elf_parse_ok _ _ _ _ Hparse Hb) as [Heok Hpok].
  unfold Process_create. rewrite (bind_lift _ _ _ _ Hparse).
  destruct (create_grew loc s Hi) as (r & s1 & E1 & G1 & Hr). destruct r as [h|e].
  2: { right. rewrite (bindr_err _ _ _ _ _ E1). exists (Err e), s1. split; [eapply grew_weaken; [|exact G1]; lia|].
       split; [done|by left]. }
  rewrite (bindr_ok _ _ _ _ _ E1). destruct Hr as [sid Hso]. destruct (g_step _ _ _ _ G1) as [Hi1 _ _ Hr1].
  destruct (load_all_spec loc h sid file (e_phoff (ehdr elf)) (phdrs elf) s1 [] None)
    as (r & s2 & E2 & G2 & Hr); try done; [apply Heok|lia|set_solver|set_solver|].
  pose proof (grew_trans _ _ _ _ _ _ G1 G2) as G12. destruct r as [u|e].
  2: { right. rewrite (bindr_err _ _ _ _ _ E2). exists (Err e), s2. split; [eapply grew_weaken; [|exact G12]; lia|].
       split; [done|]. by right; right. }
  rewrite (bindr_ok _ _ _ _ _ E2). cbn [app] in Hr. destruct Hr as (Hsegs & Hat & Huz).
  destruct (g_step _ _ _ _ G2) as [Hi2 _ _ Hr2]. pose proof (space_owned_kept _ _ _ _ _ _ G2 Hso) as Hso2.
  rewrite create_stack_bind.
  destruct (create_stack_spec loc s2 h sid elf u Hi2 ltac:(lia) Hso2 Heok Huz) as [[Ep Hw]|(r & s3 & E3 & G3 & Hr)].
  { left. split; [unfold bindr, bind; by rewrite Ep|]. left. by exists h, s1, u, s2. }
  pose proof (grew_trans _ _ _ _ _ _ G12 G3) as G. destruct r as [sp|e].
  2: { right. rewrite (bindr_err _ _ _ _ _ E3). exists (Err e), s3. split; [eapply grew_weaken; [|exact G]; lia|].
       split; [done|]. destruct Hr; [by left|by right; left]. }
  rewrite (bindr_ok _ _ _ _ _ E3). assert (server_mem s3 = server_mem s) as Hsm by apply (g_server _ _ _ _ G).
  unfold box_new. rewrite bind_assoc, (bind_run mem_get _ s3 (server_mem s3) s3 eq_refl), Hsm.
  destruct (box (server_mem s)) as [pid|] eqn:Ebox; [|left; auto].
  right. rewrite bind_ret, (bind_run mem_get _ s3 (server_mem s3) s3 eq_refl), Hsm.
  exists (Ok (pid, mkInitRegs (e_entry (ehdr elf)) sp)), s3. split; [eapply grew_weaken; [|exact G]; lia|].
  exists h, sid, sp. split; [done|]. split; [done|]. split; [done|]. split; [exact (space_owned_kept _ _ _ _ _ _ G3 Hso2)|].
  split; [intros ph Hin Hl; eapply seg_loaded_kept; [exact G3|apply Hso2|by apply Hsegs]|].
  destruct Hr as (stack & Hst). by exists u, stack.
Qed.

End Calls.

(** ** Starting a thread *)

Section Starting.
Context {P : Profile} {L : RefLayout} {B : BootPdpt} {Mc : Type} `{MachineLaws Mc}.
Abbreviation KS := (Sys (Kernel Mc (ApiMem ThreadContext LxServer))).
Implicit Types s : KS.
Abbreviation procs s := (lx_processes (server_data (server_mem s))).

(** The handle of a process is to a live address space. *)
Definition process_ok s (process : Process) : Prop := space_owned s (p_vmspace process) (space_of_process process).

Lemma space_of_owned s h sid threads : space_owned s h sid -> space_of_process (mkProcess h threads) = sid.
Proof. by intros (_ & _ & ? & _). Qed.

(** The invariant of the server survives a step that keeps its data and adds to
    them. *)
Lemma lx_inv_extend loc s s' :
  kinv loc s -> lx_inv (store s) (ext s) ->
  (forall x, x ∈ k_issued (ext s) -> x ∈ k_issued (ext s')) ->
  (forall p o, p ∈ k_issued (ext s) -> obj_at s p o -> exists o', obj_at s' p o' /\ obj_type o' = obj_type o) ->
  (forall ctx u, user_data (server_mem s) !! ctx = Some (Some u) -> user_data (server_mem s') !! ctx = Some (Some u)) ->
  (forall a v, thread_arcs (server_mem s) !! a = Some v -> thread_arcs (server_mem s') !! a = Some v) ->
  (forall pid pr, procs s !! pid = Some pr -> exists pr', procs s' !! pid = Some pr' /\ p_vmspace pr' = p_vmspace pr) ->
  (forall pid pr, procs s' !! pid = Some pr ->
    (exists pr0, procs s !! pid = Some pr0 /\ p_vmspace pr = p_vmspace pr0) \/ process_ok s' pr) ->
  (forall p t, thread_at s' p t -> active t -> thread_at s p t \/
    live_data (ext s') (t_upcall t) p /\ forall u pr, user_data (server_mem s') !! t_upcall t = Some (Some u) ->
      procs s' !! tc_process (ud_handler u) = Some pr -> t_vmspace t = space_of_process pr) ->
  lx_inv (store s') (ext s').
Proof.
  intros Hi Hlx Hiss Hobj Hud Harc Hproc Hback Hth. split.
  - intros p c t E Ha. destruct (Hth p t ltac:(by exists c) Ha) as [[c0 E0]|[Hl _]]; [|done].
    destruct (lxi_threads _ _ Hlx p c0 t E0 Ha) as (u & n & h & pr & Hu & Hn & H1 & Hty & Hr & Hraw & Hin & Hp).
    destruct (Hproc _ _ Hp) as (pr' & Hp' & _). exists u, n, h, pr'. split; [by apply Hud|]. split; [by apply Harc|].
    do 4 (split; [done|]). split; [by apply Hiss|done].
  - intros p c t u pr E Ha Hu Hp. destruct (Hth p t ltac:(by exists c) Ha) as [[c0 E0]|[_ Hv]]; [|by eapply Hv].
    destruct (lxi_threads _ _ Hlx p c0 t E0 Ha) as (u0 & n & h & pr0 & Hu0 & _ & _ & _ & _ & _ & _ & Hp0).
    pose proof (eq_trans (eq_sym Hu) (Hud _ _ Hu0)) as [= ->]. destruct (Hproc _ _ Hp0) as (pr' & Hp' & Hvs).
    pose proof (eq_trans (eq_sym Hp) Hp') as [= ->]. unfold space_of_process. rewrite Hvs.
    exact (lxi_vmspace _ _ Hlx p c0 t u0 pr0 E0 Ha Hu0 Hp0).
  - intros pid pr Hp. destruct (Hback pid pr Hp) as [(pr0 & Hp0 & Hv)|(Hty & Hr & _ & Hin & a & l & Ho)].
    + destruct (lxi_spaces _ _ Hlx pid pr0 Hp0) as (Hty & Hr & Hin & Ho). unfold space_of_process in *. rewrite Hv.
      split; [done|]. split; [done|]. split; [by apply Hiss|]. intros c o E.
      destruct (obj_live loc s _ Hi ltac:(apply elem_of_app; right; apply elem_of_app; left; exact Hin)) as [o0 Ho0].
      destruct (Hobj _ o0 Hin Ho0) as (o' & Ho' & Hot). pose proof (obj_at_inj s' _ o o' ltac:(by exists c) Ho') as ->.
      rewrite Hot. destruct Ho0 as [c0 E0]. by eapply Ho.
    + split; [done|]. split; [done|]. split; [done|]. intros c o E.
      by pose proof (obj_at_inj s' _ o _ ltac:(by exists c) Ho) as ->.
Qed.

Lemma lx_inv_created n loc s s1 pid h sid :
  kinv loc s -> lx_inv (store s) (ext s) -> grew n loc s s1 -> procs s !! pid = None -> space_owned s1 h sid ->
  let s' := set_server s1 (add_process (server_mem s) pid (mkProcess h [])) in
  lx_inv (store s') (ext s').
Proof.
  intros Hi Hlx G Hfresh Hso s'. apply (lx_inv_extend loc s s' Hi Hlx).
  - apply (g_issued _ _ _ _ G).
  - intros p o Hp Ho. destruct (g_objs _ _ _ _ G p o ltac:(set_solver) Ho) as (o' & Ho' & [->|[? ?]]); eauto.
    exists o'. split; [done|congruence].
  - done.
  - done.
  - intros pid' pr Hp. exists pr. split; [|done]. simpl. rewrite lookup_insert_ne; [done|]. intros <-. congruence.
  - intros pid' pr Hp. simpl in Hp. destruct (decide (pid = pid')) as [<-|Hne].
    + right. rewrite lookup_insert_eq in Hp. injection Hp as <-. unfold process_ok.
      by rewrite (space_of_owned s1 h sid [] Hso).
    + left. rewrite lookup_insert_ne in Hp by done. by exists pr.
  - intros p t Ht _. left. by apply (g_threads _ _ _ _ G).
Qed.

Context (galloc : RefStore KObject -> option Z) (try_reserve : RefStore KObject -> bool).
Context (Hgalloc : alloc_fresh galloc).
Context (invoke : Upcall -> UpcallArg -> M KS unit) (FTL_LOG_PREFIX : list Z).
Context (box : ApiMem ThreadContext LxServer -> option Z).
Abbreviation si := (START_INFO galloc try_reserve invoke).

(** The server's memory with the data of a new thread. *)
Definition add_thread (m : ApiMem ThreadContext LxServer) (ptr arc n : Z) (th : Handle) (pid : Z)
  : ApiMem ThreadContext LxServer :=
  mkApiMem (<[ptr := Some (mkUserData arc (mkThreadContext pid))]> (user_data m)) (<[arc := (n, th)]> (thread_arcs m))
    (server_data m).

(** The server's heap has no room for the data of a new thread. *)
Definition no_heap (m : ApiMem ThreadContext LxServer) : Prop :=
  box m = None \/ exists ptr, box m = Some ptr /\
    box (mkApiMem (<[ptr := None]> (user_data m)) (thread_arcs m) (server_data m)) = None.

Definition boxed (m : ApiMem ThreadContext LxServer) (ptr arc : Z) : Prop :=
  box m = Some ptr /\ box (mkApiMem (<[ptr := None]> (user_data m)) (thread_arcs m) (server_data m)) = Some arc.

Lemma box_new_run s p : box (server_mem s) = Some p -> box_new box s = Ret (p, s).
Proof. clear. intros E. unfold box_new. rewrite (bind_run mem_get _ s (server_mem s) s eq_refl). by rewrite E. Qed.

Lemma box_new_none s : box (server_mem s) = None -> box_new box s = Panic.
Proof. clear. intros E. unfold box_new. rewrite (bind_run mem_get _ s (server_mem s) s eq_refl). by rewrite E. Qed.

Lemma bind_panic {S A C} (m : M S A) (k : A -> M S C) (x : S) : m x = Panic -> bind m k x = Panic.
Proof. clear. intros E. unfold bind. by rewrite E. Qed.

Lemma thread_create_spec loc s h sid pid :
  kinv loc s -> krefs loc s + 2 < 2 ^ 64 -> space_owned s h sid ->
  Thread_create si box h (mkThreadContext pid) s = Panic /\ no_heap (server_mem s) \/
  exists r s', Thread_create si box h (mkThreadContext pid) s = Ret (r, s') /\ kstep 2 loc s s' /\
    runqueue s' = runqueue s /\ k_console (ext s') = k_console (ext s) /\ k_mem (ext s') = k_mem (ext s) /\
    objs_kept (loc ++ k_issued (ext s) ++ runqueue s ++ current_ref s) s s' /\
    match r with
    | Ok arc => exists ptr th p, boxed (server_mem s) ptr arc /\ server_mem s' = add_thread (server_mem s) ptr arc 2 th pid /\
        handle_of s' th p (OThread (mkThread arch_thread_new ptr sid Blocked 0)) /\
        h_right th = Thread_DEFAULT_RIGHT /\ store s !! p = None /\ k_issued (ext s') = p :: k_issued (ext s)
    | Err e => e = OUT_OF_MEMORY
    end.
Proof.
  intros Hi Hn Hso. unfold Thread_create, Upcall_new.
  destruct (box (server_mem s)) as [ptr|] eqn:Eb; [|left; by rewrite (bind_panic _ _ _ (box_new_none s Eb)); split; [|left]].
  rewrite (bind_run _ _ _ _ _ (box_new_run s ptr Eb)), (bind_run _ _ s tt _ (eq_refl : put_user_data ptr None s = _)).
  set (m1 := mkApiMem _ _ _). set (s1 := set_server s m1).
  assert (kstep 0 loc s s1) as K1 by by apply set_server_step.
  destruct (space_owned_handle _ _ _ Hso) as (a & l & Hh).
  destruct (call_thread_create_spec galloc try_reserve Hgalloc loc s1 h sid (OSpace a l) ptr (st_inv _ _ _ _ K1) Hn Hh)
    as (r & s2 & E & K & Hq & Hc & Hs & Hm & Hobj & Hr).
  assert (kstep 2 loc s s2) as K2 by exact (kstep_trans _ _ _ _ _ _ K1 K).
  assert (server_mem s2 = m1) as Hsm by done. destruct Hso as (Hty & Hright & _).
  destruct r as [th|e].
  2: { right. rewrite (bind_run _ _ s1 (Err e) s2) by exact (bindr_err _ _ _ _ _ E).
       rewrite (bind_run _ _ s2 tt _ (eq_refl : free_user_data ptr s2 = _)). eexists _, _. split; [done|].
       split; [exact (kstep_trans _ _ _ _ _ _ K2 (set_server_step _ _ _ (st_inv _ _ _ _ K2)))|]. do 4 (split; [done|]).
       destruct Hr as [_ Hr]. unfold is_type, authorize in Hr. by rewrite Hty, Hright in Hr. }
  destruct Hr as (p & _ & _ & Hth & Hthr & Hfresh & Hiss).
  destruct (box m1) as [arc|] eqn:Ea.
  2: { left. split; [|right; by exists ptr]. apply bind_panic. rewrite (bindr_ok _ _ _ _ _ E). apply bind_panic.
       unfold arc_new. apply bind_panic, box_new_none. by rewrite Hsm. }
  right. rewrite (bind_run _ _ s1 (Ok arc) (set_server s2 (mkApiMem (user_data m1) (<[arc := (1, th)]> (thread_arcs m1)) (server_data m1)))).
  2: { rewrite (bindr_ok _ _ _ _ _ E). unfold arc_new. rewrite bind_assoc, (bind_run _ _ s2 arc s2).
       - rewrite bind_assoc. unfold put_arc. by rewrite bind_assoc, (bind_run mem_get _ s2 m1 s2) by (by rewrite <- Hsm).
       - apply box_new_run. by rewrite Hsm. }
  set (s3 := set_server s2 _). rewrite (bind_run _ _ s3 arc (set_server s2 (mkApiMem (user_data m1) (<[arc := (2, th)]> (thread_arcs m1)) (server_data m1)))).
  2: { unfold arc_clone. rewrite (bind_run _ _ _ _ _ (arc_get_run s3 arc (1, th) (lookup_insert_eq _ _ _))).
       change (2 ^ 63 <=? 1) with false. cbv beta iota. rewrite (bind_run _ _ s3 tt _ (eq_refl : put_arc arc _ s3 = _)).
       cbn [server_mem s3 set_server set_ext ext k_server user_data thread_arcs server_data]. by rewrite insert_insert_eq. }
  rewrite (bind_run _ _ _ tt _ (eq_refl : put_user_data ptr _ _ = _)). eexists _, _. split; [done|].
  split; [exact (kstep_trans _ _ _ _ _ _ K2 (set_server_step _ _ _ (st_inv _ _ _ _ K2)))|]. do 4 (split; [done|]).
  exists ptr, th, p. split; [done|]. split; [|done]. unfold add_thread.
  cbn [server_mem set_server set_ext ext k_server user_data thread_arcs server_data m1]. by rewrite insert_insert_eq.
Qed.

(** A context with the registers that [start] was given. *)
Definition init_arch (regs : InitRegs) : ArchThread :=
  let t := arch_thread_new in
  mkArchThread (pc regs) (cs t) (rflags t) (sp regs) (ss t) (rax t) (rbx t) (rcx t) (rdx t) (rsi t) (rdi t) (rbp t)
    (r8 t) (r9 t) (r10 t) (r11 t) (r12 t) (r13 t) (r14 t) (r15 t) (gsbase t) (fsbase t).

Lemma thread_ready_checks s h r t : handle_of s h r (OThread t) -> h_right h = Thread_DEFAULT_RIGHT ->
  is_type h ThreadType = true /\ authorize h RIGHT_WRITE = true.
Proof.
  clear. intros (_ & _ & _ & Hty) Hr. split; [by apply bool_decide_eq_true|]. unfold authorize. by rewrite Hr.
Qed.

(** The thread of [spawn] after [Thread::create]: it gets its registers and runs. *)
Lemma launch_spec loc s th p ptr sid regs :
  kinv loc s -> krefs loc s + 2 < 2 ^ 64 -> h_right th = Thread_DEFAULT_RIGHT ->
  handle_of s th p (OThread (mkThread arch_thread_new ptr sid Blocked 0)) ->
  exists r s', (do? _ := Thread_set_context si th KindInitRegs (of_init_regs regs) in Thread_unblock si th) s = Ret (r, s') /\
    kstep 1 loc s s' /\ ext s' = ext s /\
    match r with
    | Ok _ => runqueue s' = runqueue s ++ [p] /\
        forall q o, q ∈ loc ++ k_issued (ext s) ++ runqueue s ++ current_ref s -> obj_at s q o ->
          obj_at s' q (if bool_decide (q = p) then OThread (mkThread (init_arch regs) ptr sid Runnable 0) else o)
    | Err e => e = OUT_OF_MEMORY
    end.
Proof.
  clear Hgalloc. intros Hi Hn Hright Hh. destruct (thread_ready_checks _ _ _ _ Hh Hright) as [Hty Hau].
  destruct (call_thread_set_context_spec loc s th p _ KindInitRegs (of_init_regs regs) Hi ltac:(lia) Hh ltac:(by eexists))
    as (r & s1 & E1 & K1 & Hq1 & Hx1 & Hr).
  unfold checked in Hr. rewrite Hty, Hau in Hr. destruct Hr as (t & a & [= <-] & Ha & -> & Hobj1).
  injection Ha as <-. rewrite (bindr_ok _ _ _ _ _ E1).
  destruct K1 as [Hi1 Hc1 Ht1 Hr1]. pose proof Hh as (Hraw & Hin & Hp & Hot).
  assert (handle_of s1 th p (OThread (mkThread (init_arch regs) ptr sid Blocked 0))) as Hh1.
  { split; [done|]. split; [by rewrite Hx1|]. split; [|done].
    pose proof (Hobj1 p _ ltac:(set_solver) Hp) as Hp1. by rewrite bool_decide_true in Hp1. }
  destruct (call_thread_unblock_spec try_reserve loc s1 th p _ Hi1 ltac:(lia) Hh1) as (r & s2 & E2 & K2 & Hx2 & Hr).
  unfold checked in Hr. rewrite Hty, Hau in Hr. destruct Hr as (t & [= <-] & Hr & Hq2 & Hobj2).
  exists r, s2. split; [exact E2|]. split; [exact (kstep_trans 0 1 _ _ _ _ (mkKstep _ _ _ _ Hi1 Hc1 Ht1 Hr1) K2)|].
  split; [congruence|]. cbn [t_state] in *. rewrite bool_decide_true in Hr, Hq2 by done. cbn [negb andb] in *.
  destruct (try_reserve (store s1)); subst r; [|done]. split; [congruence|].
  intros q o Hq Ho. pose proof (Hobj1 q o Hq Ho) as Ho1. rewrite <- Hx1, <- Hq1 in Hq.
  unfold current_ref in Hq, Hobj2. rewrite Hc1 in Hobj2. specialize (Hobj2 q _ Hq Ho1).
  rewrite !(bool_decide_true (Blocked = Blocked)), !andb_true_r in Hobj2 by done. by destruct (bool_decide (q = p)).
Qed.

(** The heap gives addresses that are not in use. *)
Context (Hbox : forall m p, box m = Some p -> user_data m !! p = None /\ thread_arcs m !! p = None).

Lemma process_of_run s pid pr : procs s !! pid = Some pr -> process_of (mkThreadContext pid) s = Ret (pr, s).
Proof. clear. intros E. unfold process_of. rewrite (bind_run mem_get _ s (server_mem s) s eq_refl). simpl. by rewrite E. Qed.

Lemma arc_drop_shared s arc n th : thread_arcs (server_mem s) !! arc = Some (n, th) -> (n =? 1) = false ->
  arc_drop si FTL_LOG_PREFIX arc s = Ret (tt, set_server s (mkApiMem (user_data (server_mem s))
    (<[arc := (n - 1, th)]> (thread_arcs (server_mem s))) (server_data (server_mem s)))).
Proof.
  clear Hgalloc Hbox. intros Ha Hn. unfold arc_drop. rewrite (bind_run _ _ _ _ _ (arc_get_run s arc _ Ha)). by rewrite Hn.
Qed.

Lemma process_ok_inv loc s pid pr : kinv loc s -> lx_inv (store s) (ext s) -> procs s !! pid = Some pr -> process_ok s pr.
Proof.
  clear Hgalloc Hbox. intros Hi Hlx Hp. destruct (lxi_spaces _ _ Hlx pid pr Hp) as (Hty & Hr & Hin & Ho).
  split; [done|]. split; [done|]. split; [done|]. split; [done|].
  destruct (obj_live loc s _ Hi ltac:(apply elem_of_app; right; apply elem_of_app; left; exact Hin)) as [o [c E]].
  pose proof (Ho c o E) as Ht. destruct o as [|a l|]; try done. by exists a, l, c.
Qed.

Lemma spawn_spec loc s pid pr regs :
  kinv loc s -> krefs loc s + 4 < 2 ^ 64 -> procs s !! pid = Some pr -> process_ok s pr ->
  spawn si FTL_LOG_PREFIX box pid regs s = Panic /\ no_heap (server_mem s) \/
  exists r s', spawn si FTL_LOG_PREFIX box pid regs s = Ret (r, s') /\ kstep 3 loc s s' /\
    k_console (ext s') = k_console (ext s) /\ k_mem (ext s') = k_mem (ext s) /\
    match r with
    | Ok arc => exists ptr th p, boxed (server_mem s) ptr arc /\ server_mem s' = add_thread (server_mem s) ptr arc 2 th pid /\
        runqueue s' = runqueue s ++ [p] /\ k_issued (ext s') = p :: k_issued (ext s) /\ store s !! p = None /\
        h_right th = Thread_DEFAULT_RIGHT /\
        handle_of s' th p (OThread (mkThread (init_arch regs) ptr (space_of_process pr) Runnable 0)) /\
        objs_kept (loc ++ k_issued (ext s) ++ runqueue s ++ current_ref s) s s'
    | Err e => e = OUT_OF_MEMORY
    end.
Proof.
  intros Hi Hn Hp Hok. unfold spawn. rewrite (bind_run _ _ _ _ _ (process_of_run s pid pr Hp)).
  destruct (thread_create_spec loc s (p_vmspace pr) (space_of_process pr) pid Hi ltac:(lia) Hok)
    as [[Ep Hh]|(r & s1 & E1 & K1 & Hq1 & Hc1 & Hm1 & Ho1 & Hr)].
  { left. split; [by apply bind_panic|done]. }
  right. destruct r as [arc|e].
  2: { rewrite (bindr_err _ _ _ _ _ E1). eexists _, _. split; [done|]. split; [by eapply kstep_weaken; [|exact K1]|]. done. }
  rewrite (bindr_ok _ _ _ _ _ E1). destruct Hr as (ptr & th & p & Hbx & Hsm & Hth & Hright & Hfresh & Hiss).
  assert (thread_arcs (server_mem s1) !! arc = Some (2, th)) as Harc by (rewrite Hsm; apply lookup_insert_eq).
  rewrite (bind_run _ _ _ _ _ (arc_get_run s1 arc _ Harc)). cbv beta iota.
  pose proof K1 as [Hi1 Hcur1 _ Hr1].
  destruct (launch_spec loc s1 th p ptr (space_of_process pr) regs Hi1 ltac:(lia) Hright Hth) as (r & s2 & E2 & K2 & Hx2 & Hr).
  rewrite (bind_run _ _ _ _ _ E2). pose proof (kstep_trans _ _ _ _ _ _ K1 K2) as K12.
  destruct r as [[]|e].
  - destruct Hr as [Hq2 Hobj2]. eexists _, s2. split; [done|]. split; [done|]. rewrite Hx2. split; [done|]. split; [done|].
    exists ptr, th, p. split; [done|]. split; [unfold server_mem; by rewrite Hx2|]. split; [congruence|]. split; [done|].
    split; [done|]. split; [done|]. destruct Hth as (Hraw & Hin & Hp1 & Hot). split.
    + split; [done|]. split; [by rewrite Hx2|]. split; [|done].
      specialize (Hobj2 p _ ltac:(set_solver) Hp1). by rewrite bool_decide_true in Hobj2.
    + intros q o Hq Ho. specialize (Hobj2 q o). rewrite bool_decide_false in Hobj2.
      * apply Hobj2; [|by apply Ho1]. rewrite Hiss, Hq1. unfold current_ref in *. rewrite Hcur1. set_solver.
      * intros ->. destruct Ho as [c E]. congruence.
  - assert (thread_arcs (server_mem s2) !! arc = Some (2, th)) as Harc2 by (unfold server_mem in *; by rewrite Hx2).
    rewrite (bind_run _ _ s2 tt _ (arc_drop_shared s2 arc 2 th Harc2 ltac:(done))). eexists _, _. split; [done|].
    split; [exact (kstep_trans _ _ _ _ _ _ K12 (set_server_step _ _ _ (st_inv _ _ _ _ K2)))|]. simpl. by rewrite Hx2.
Qed.

(** The threads after one was started. *)
Lemma started_threads loc s s' p :
  kinv loc s -> kinv loc s' -> current s' = current s -> runqueue s' = runqueue s ++ [p] ->
  k_issued (ext s') = p :: k_issued (ext s) -> store s !! p = None ->
  objs_kept (loc ++ k_issued (ext s) ++ runqueue s ++ current_ref s) s s' ->
  forall q t, q <> p -> thread_at s' q t <-> thread_at s q t.
Proof.
  clear Hgalloc Hbox galloc try_reserve box. intros Hi Hi' Hc Hq Hiss Hfresh Hobj q t Hne. split; intros Ht.
  - pose proof (thread_roots loc s' q t Hi' Ht) as Hin. unfold current_ref in Hin. rewrite Hc, Hq, Hiss in Hin.
    fold (current_ref s) in Hin. assert (q ∈ loc ++ k_issued (ext s) ++ runqueue s ++ current_ref s) as Hin' by set_solver.
    destruct (obj_live loc s q Hi Hin') as [o Ho]. pose proof (obj_at_inj s' q (OThread t) o Ht (Hobj q o Hin' Ho)) as <-. done.
  - apply (Hobj q (OThread t)); [by apply (thread_roots loc s q t)|done].
Qed.

Lemma lx_inv_started loc s s' pid pr ptr arc th p regs :
  kinv loc s -> lx_inv (store s) (ext s) -> procs s !! pid = Some pr ->
  user_data (server_mem s) !! ptr = None -> thread_arcs (server_mem s) !! arc = None ->
  procs s' = <[pid := mkProcess (p_vmspace pr) (p_threads pr ++ [arc])]> (procs s) ->
  thread_arcs (server_mem s') = <[arc := (1, th)]> (thread_arcs (server_mem s)) ->
  user_data (server_mem s') = <[ptr := Some (mkUserData arc (mkThreadContext pid))]> (user_data (server_mem s)) ->
  k_issued (ext s') = p :: k_issued (ext s) -> h_right th = Thread_DEFAULT_RIGHT ->
  handle_of s' th p (OThread (mkThread (init_arch regs) ptr (space_of_process pr) Runnable 0)) ->
  objs_kept (loc ++ k_issued (ext s) ++ runqueue s ++ current_ref s) s s' ->
  (forall q t, q <> p -> thread_at s' q t <-> thread_at s q t) -> lx_inv (store s') (ext s').
Proof.
  clear Hgalloc Hbox galloc try_reserve box.
  intros Hi Hlx Hp Hptr Hanew Hprocs Harcs Huds Hiss Hright Hth Hobj Hthr.
  apply (lx_inv_extend loc s s' Hi Hlx).
  - intros x Hx. rewrite Hiss. set_solver.
  - intros q o Hin Ho. exists o. split; [|done]. apply Hobj; [set_solver|done].
  - intros ctx u Hu. rewrite Huds, lookup_insert_ne; [done|]. intros <-. by pose proof (eq_trans (eq_sym Hptr) Hu).
  - intros a v Ha. rewrite Harcs, lookup_insert_ne; [done|]. intros <-. congruence.
  - intros pid' pr' Hp'. rewrite Hprocs. destruct (decide (pid = pid')) as [<-|Hne].
    + rewrite lookup_insert_eq. eexists. split; [done|]. simpl. congruence.
    + exists pr'. by rewrite lookup_insert_ne.
  - intros pid' pr'. rewrite Hprocs. intros Hp'. left. destruct (decide (pid = pid')) as [<-|Hne].
    + rewrite lookup_insert_eq in Hp'. injection Hp' as <-. by exists pr.
    + rewrite lookup_insert_ne in Hp' by done. by exists pr'.
  - intros q t Ht _. destruct (decide (q = p)) as [->|Hne]; [right|left; by apply Hthr].
    destruct Hth as (Hraw & Hin & Hnew & Hty). pose proof (obj_at_inj s' p (OThread t) _ Ht Hnew) as [= ->]. simpl in Hty.
    assert (procs s' !! pid = Some (mkProcess (p_vmspace pr) (p_threads pr ++ [arc]))) as Hp' by (by rewrite Hprocs, lookup_insert_eq).
    assert (user_data (server_mem s') !! ptr = Some (Some (mkUserData arc (mkThreadContext pid)))) as Hu'
      by (by rewrite Huds, lookup_insert_eq).
    split.
    + eexists _, 1, th, _. split; [exact Hu'|]. split; [fold (server_mem s'); by rewrite Harcs, lookup_insert_eq|].
      rewrite Hty in *. split; [lia|]. do 4 (split; [done|]). exact Hp'.
    + intros u pr' Hu Hpr. pose proof (eq_trans (eq_sym Hu) Hu') as [= ->]. pose proof (eq_trans (eq_sym Hpr) Hp') as [= ->]. done.
Qed.

Lemma process_start_spec loc s pid pr regs :
  kinv loc s -> krefs loc s + 4 < 2 ^ 64 -> lx_inv (store s) (ext s) -> procs s !! pid = Some pr ->
  Process_start si FTL_LOG_PREFIX box pid regs s = Panic /\ no_heap (server_mem s) \/
  exists r s', Process_start si FTL_LOG_PREFIX box pid regs s = Ret (r, s') /\ kstep 3 loc s s' /\
    k_console (ext s') = k_console (ext s) /\ k_mem (ext s') = k_mem (ext s) /\
    match r with
    | Ok _ => lx_inv (store s') (ext s') /\ exists p ptr, runqueue s' = runqueue s ++ [p] /\ store s !! p = None /\
        thread_at s' p (mkThread (init_arch regs) ptr (space_of_process pr) Runnable 0) /\
        forall q t, q <> p -> thread_at s' q t <-> thread_at s q t
    | Err e => e = OUT_OF_MEMORY
    end.
Proof.
  intros Hi Hn Hlx Hp. unfold Process_start. pose proof (process_ok_inv loc s pid pr Hi Hlx Hp) as Hok.
  destruct (spawn_spec loc s pid pr regs Hi Hn Hp Hok) as [[Ep Hh]|(r & s1 & E1 & K1 & Hc1 & Hm1 & Hr)].
  { left. split; [by apply bind_panic|done]. }
  right. destruct r as [arc|e]; [|rewrite (bindr_err _ _ _ _ _ E1); eexists _, _; by split].
  rewrite (bindr_ok _ _ _ _ _ E1).
  destruct Hr as (ptr & th & p & Hbx & Hsm & Hq & Hiss & Hfresh & Hright & Hth & Hobj).
  rewrite (bind_run _ _ _ _ _ (process_of_run s1 pid pr ltac:(by rewrite Hsm))).
  rewrite (bind_run mem_get _ s1 (server_mem s1) s1 eq_refl). set (m2 := mkApiMem _ _ _).
  rewrite (bind_run (mem_put m2) _ s1 tt (set_server s1 m2) eq_refl).
  assert (thread_arcs m2 !! arc = Some (2, th)) as Harc by (unfold m2; rewrite Hsm; apply lookup_insert_eq).
  rewrite (bind_run _ _ _ tt _ (arc_drop_shared (set_server s1 m2) arc 2 th Harc eq_refl)).
  eexists (Ok tt), _. split; [reflexivity|].
  split; [exact (kstep_trans _ _ _ _ _ _ K1 (set_server_step _ _ _ (st_inv _ _ _ _ K1)))|]. split; [done|]. split; [done|].
  pose proof (started_threads loc s s1 p Hi (st_inv _ _ _ _ K1) (st_current _ _ _ _ K1) Hq Hiss Hfresh Hobj) as Hthr.
  split; [|exists p, ptr; split; [done|]; split; [done|]; split; [apply Hth|exact Hthr]].
  destruct Hbx as [Hb1 Hb2]. destruct (Hbox _ _ Hb1) as [Hptr _]. destruct (Hbox _ _ Hb2) as [_ Hanew]. cbn in Hanew.
  set (s' := set_server (set_server s1 m2) _).
  assert (procs s' = <[pid := mkProcess (p_vmspace pr) (p_threads pr ++ [arc])]> (procs s)) as Hprocs
    by (cbn; by rewrite Hsm).
  assert (thread_arcs (server_mem s') = <[arc := (1, th)]> (thread_arcs (server_mem s))) as Harcs
    by (cbn; rewrite Hsm; cbn; by rewrite insert_insert_eq).
  assert (user_data (server_mem s') = <[ptr := Some (mkUserData arc (mkThreadContext pid))]> (user_data (server_mem s))) as Huds
    by (cbn; by rewrite Hsm).
  by eapply (lx_inv_started loc s s' pid pr).
Qed.


End Starting.

(** * Properties *)

Section Theorems.
Context {P : Profile} {L : RefLayout} {B : BootPdpt} {Mc : Type} `{MachineLaws Mc}.
Abbreviation KS := (Sys (Kernel Mc (ApiMem ThreadContext LxServer))).
Implicit Types s : KS.
Context (galloc : RefStore KObject -> option Z) (try_reserve : RefStore KObject -> bool).
Context (invoke : Upcall -> UpcallArg -> M KS unit) (FTL_LOG_PREFIX : list Z).
Context (box : ApiMem ThreadContext LxServer -> option Z).
Abbreviation si := (START_INFO galloc try_reserve invoke).

(** The heap gives addresses that are not in use. *)
Definition box_fresh : Prop := forall m p, box m = Some p ->
  user_data m !! p = None /\ thread_arcs m !! p = None /\ lx_processes (server_data m) !! p = None.

(** Why [Server::new] may give up: [Process::create] refuses the file, or the
    kernel or the server's heap is out of memory. *)
Inductive start_failed (addr : Z) (file : list Z) (elf : Elf) s : Prop :=
| create_refused e s1 : Process_create si box addr file s = Ret (Err e, s1) -> create_error elf e -> start_failed addr file elf s
| create_panics : Process_create si box addr file s = Panic ->
    write_failed galloc try_reserve invoke file elf s \/ box (server_mem s) = None -> start_failed addr file elf s
| start_panics pid regs s1 : Process_create si box addr file s = Ret (Ok (pid, regs), s1) ->
    Process_start si FTL_LOG_PREFIX box pid regs s1 = Panic -> no_heap box (server_mem s1) -> start_failed addr file elf s
| start_refused pid regs s1 s2 : Process_create si box addr file s = Ret (Ok (pid, regs), s1) ->
    Process_start si FTL_LOG_PREFIX box pid regs s1 = Ret (Err OUT_OF_MEMORY, s2) -> start_failed addr file elf s.

Lemma start_failed_panics addr file elf s :
  start_failed addr file elf s -> Server_new si FTL_LOG_PREFIX box addr file s = Panic.
Proof.
  clear. unfold Server_new, expect. intros [e s1 E _|E _|pid regs s1 E Es _|pid regs s1 s2 E Es]; rewrite bind_assoc.
  - by rewrite (bind_run _ _ _ _ _ E).
  - by apply bind_panic.
  - rewrite (bind_run _ _ _ _ _ E), bind_ret. cbv beta iota. rewrite bind_assoc. by apply bind_panic.
  - rewrite (bind_run _ _ _ _ _ E), bind_ret. cbv beta iota. rewrite bind_assoc. by rewrite (bind_run _ _ _ _ _ Es).
Qed.

Lemma loaded_same s s' sid file elf sp :
  (forall sid va b attrs, user_view s sid va b attrs -> user_view s' sid va b attrs) ->
  loaded_program s sid file elf sp -> loaded_program s' sid file elf sp.
Proof.
  clear. intros Hv [Hs (u & stack & ? & ? & ? & ? & Hst & Hz)]. split.
  - intros phdr Hin Hl. destruct (Hs phdr Hin Hl) as [Hd Hz']. split.
    + intros i b Hi. by apply Hv, Hd.
    + intros x Hx. by apply Hv, Hz'.
  - exists u, stack. do 4 (split; [done|]). split.
    + intros i b Hi. by apply Hv, Hst.
    + intros va Hva. by apply Hv, Hz.
Qed.

Lemma server_new_spec s addr file elf :
  alloc_fresh galloc -> box_fresh ->
  kinv [] s -> lx_inv (store s) (ext s) -> krefs [] s + 2 * len (phdrs elf) + 7 < 2 ^ 64 ->
  elf_parse addr file ET_EXEC = Ret (Ok elf) -> bytes_ok file -> len file < 2 ^ 63 ->
  (forall phdr, phdr ∈ phdrs elf -> is_load phdr -> seg_fits file phdr) ->
  Server_new si FTL_LOG_PREFIX box addr file s = Panic /\ start_failed addr file elf s \/
  exists pid s' p ptr sid sp, Server_new si FTL_LOG_PREFIX box addr file s = Ret (pid, s') /\
    kstep (2 * len (phdrs elf) + 6) [] s s' /\ lx_inv (store s') (ext s') /\ k_console (ext s') = k_console (ext s) /\
    runqueue s' = runqueue s ++ [p] /\
    thread_at s' p (mkThread (init_arch (mkInitRegs (e_entry (ehdr elf)) sp)) ptr sid Runnable 0) /\
    loaded_program s' sid file elf sp /\
    (forall q t, q <> p -> thread_at s' q t -> thread_at s q t) /\
    (forall sid' va b attrs, space_live s sid' -> user_view s sid' va b attrs -> user_view s' sid' va b attrs).
Proof.
  intros Hgalloc Hbox Hi Hlx Hn Hparse Hb Hlen Hfit. unfold Server_new, expect.
  destruct (process_create_spec galloc try_reserve Hgalloc invoke box [] s addr file elf)
    as [[Ep Hw]|(r & s1 & G & Hr)]; try done; [lia| |].
  { left. split; [by do 2 apply bind_panic|]. by apply create_panics. }
  destruct r as [[pid regs]|e].
  2: { left. destruct Hr as [E He]. rewrite bind_assoc, (bind_run _ _ _ _ _ E). split; [done|]. by eapply create_refused. }
  destruct Hr as (h & sid & sp & E1 & Epid & -> & Hso & Hload). rewrite bind_assoc, (bind_run _ _ _ _ _ E1).
  set (s2 := set_server s1 _) in *. destruct (Hbox _ _ Epid) as (_ & _ & Hfresh).
  pose proof (lx_inv_created _ [] s s1 pid h sid Hi Hlx G Hfresh Hso : lx_inv (store s2) (ext s2)) as Hlx2.
  assert (kstep (2 * len (phdrs elf) + 3) [] s s2) as K2.
  { rewrite <- (Z.add_0_r (_ + 3)). eapply kstep_trans; [apply (g_step _ _ _ _ G)|apply set_server_step, (g_step _ _ _ _ G)]. }
  assert (lx_processes (server_data (server_mem s2)) !! pid = Some (mkProcess h [])) as Hpr by apply lookup_insert_eq.
  pose proof K2 as [Hi2 _ _ Hr2]. rewrite bind_ret. cbv beta iota.
  destruct (process_start_spec galloc try_reserve Hgalloc invoke FTL_LOG_PREFIX box
    ltac:(intros m p Hm; destruct (Hbox m p Hm) as (? & ? & _); done) [] s2 pid (mkProcess h [])
    (mkInitRegs (e_entry (ehdr elf)) sp) Hi2 ltac:(lia) Hlx2 Hpr) as [[Ep Hh]|(r & s3 & E3 & K3 & Hc3 & Hm3 & Hr)].
  { left. split; [by do 2 apply bind_panic|]. by eapply start_panics. }
  rewrite bind_assoc, (bind_run _ _ _ _ _ E3). destruct r as [[]|e].
  2: { left. split; [done|]. subst e. by eapply start_refused. }
  right. destruct Hr as (Hlx3 & p & ptr & Hq & _ & Ht & Hoth). rewrite (space_of_owned s1 h sid [] Hso) in Ht.
  assert (forall sid va b attrs, user_view s1 sid va b attrs -> user_view s3 sid va b attrs) as Hv.
  { intros sid' va b attrs. unfold user_view. by rewrite Hm3. }
  exists pid, s3, p, ptr, sid, sp. split; [done|].
  split; [eapply kstep_weaken; [|exact (kstep_trans _ _ _ _ _ _ K2 K3)]; lia|]. split; [done|].
  split; [rewrite Hc3; apply (g_console _ _ _ _ G)|]. split; [rewrite Hq; f_equal; apply (g_queue _ _ _ _ G)|].
  split; [done|]. split; [by apply (loaded_same s1)|]. split.
  - intros q t Hne Hqt. apply (g_threads _ _ _ _ G). by apply Hoth in Hqt.
  - intros sid' va b attrs Hl Hs. by apply Hv, (g_views _ _ _ _ G).
Qed.

(** C9: Starting the Linux server starts its program.  From any state of the
    kernel in which the server's data are in order, [Server::new] either panics
    because the file cannot be loaded or memory is short, or adds one runnable
    thread at the end of the run queue.  The thread starts at the entry point
    of the ELF file, in an address space that holds every segment of the file
    with its rights, zeros after it up to its size in memory, and the System V
    stack at the stack pointer.  No other thread is created or changed, no byte
    that another program sees changes, nothing is printed, and the kernel and
    the server are in order, so that the system calls of the program have the
    effects shown in Lx.v. *)
Theorem linux_server_starts s addr file elf :
  alloc_fresh galloc -> box_fresh ->
  @sys_inv L _ lx_ext (k_issued (ext s)) [] s -> total_refs (k_issued (ext s)) s + 2 * len (phdrs elf) + 7 < 2 ^ 64 ->
  elf_parse addr file ET_EXEC = Ret (Ok elf) -> bytes_ok file -> len file < 2 ^ 63 ->
  (forall phdr, phdr ∈ phdrs elf -> is_load phdr -> seg_fits file phdr) ->
  Server_new si FTL_LOG_PREFIX box addr file s = Panic /\ start_failed addr file elf s \/
  exists pid s' p ptr sid sp, Server_new si FTL_LOG_PREFIX box addr file s = Ret (pid, s') /\
    @sys_inv L _ lx_ext (k_issued (ext s')) [] s' /\
    runqueue s' = runqueue s ++ [p] /\ current s' = current s /\ k_console (ext s') = k_console (ext s) /\
    thread_at s' p (mkThread (init_arch (mkInitRegs (e_entry (ehdr elf)) sp)) ptr sid Runnable 0) /\
    loaded_program s' sid file elf sp /\
    (forall q t, q <> p -> thread_at s' q t -> thread_at s q t) /\
    (forall sid' va b attrs, space_live s sid' -> user_view s sid' va b attrs -> user_view s' sid' va b attrs).
Proof.
  intros Hgalloc Hbox [Hi Hlx]%lx_inv_split Hn Hparse Hb Hlen Hfit.
  destruct (server_new_spec s addr file elf) as [?|(pid & s' & p & ptr & sid & sp & E & K & Hlx' & Hc & Hq & Ht & Hload & Hoth & Hv)];
    [done..|by left|right].
  exists pid, s', p, ptr, sid, sp. split; [done|]. split; [by apply lx_inv_split; split; [apply K|]|].
  split; [done|]. split; [apply K|]. done.
Qed.

(** The start of the server and the first [return_to_user]. *)
Lemma boot_enters_spec s addr file elf :
  alloc_fresh galloc -> box_fresh ->
  @sys_inv L _ lx_ext (k_issued (ext s)) [] s -> total_refs (k_issued (ext s)) s + 2 * len (phdrs elf) + 7 < 2 ^ 64 ->
  elf_parse addr file ET_EXEC = Ret (Ok elf) -> bytes_ok file -> len file < 2 ^ 63 ->
  (forall phdr, phdr ∈ phdrs elf -> is_load phdr -> seg_fits file phdr) ->
  runqueue s = [] -> current s = None -> ~ start_failed addr file elf s ->
  exists p s' ptr sid sp, (do* _ := Server_new si FTL_LOG_PREFIX box addr file in return_to_user true) s = Ret (p, s') /\
    @sys_inv L _ lx_ext (k_issued (ext s')) (current_ref s') s' /\ current_ref s' = [p] /\ runqueue s' = [] /\
    thread_at s' p (mkThread (init_arch (mkInitRegs (e_entry (ehdr elf)) sp)) ptr sid Runnable 0) /\
    loaded_program s' sid file elf sp /\
    total_refs (k_issued (ext s')) s' <= total_refs (k_issued (ext s)) s + 2 * len (phdrs elf) + 6 /\
    exists spc, spaces (k_mem (ext s')) !! sid = Some spc /\ cr3_reg s' = cr3 (vs_arch spc).
Proof.
  intros Hgalloc Hbox [Hi Hlx]%lx_inv_split Hn Hparse Hb Hlen Hfit Hq0 Hc0 Hok.
  destruct (server_new_spec s addr file elf) as [[_ ?]|(pid & s1 & p & ptr & sid & sp & E & K & Hlx' & _ & Hq & Ht & Hload & _)];
    [done..|].
  rewrite (bind_run _ _ _ _ _ E). pose proof K as [Hi1 Hc1 _ Hr1]. rewrite Hc0 in Hc1. rewrite Hq0 in Hq. cbn [app] in Hq.
  assert (@sys_inv L _ lx_ext (k_issued (ext s1)) [] s1) as Hinv by by apply lx_inv_split.
  assert (current_ref s1 = []) as Hcr by (unfold current_ref; by rewrite Hc1).
  destruct (lx_return (k_issued (ext s1)) s1 p (mkThread (init_arch (mkInitRegs (e_entry (ehdr elf)) sp)) ptr sid Runnable 0))
    as (r & tr & s' & sk & E' & Eq & Hi' & Hc' & _ & Ht' & Htr & Hx & Hr & Hsp);
    [by rewrite Hcr|unfold current_room; rewrite Hcr; set_solver|rewrite Hcr, Hq; set_solver|done|done|].
  rewrite Hcr, Hq in Eq. destruct sk as [|x sk]; [|by destruct sk]. cbn [app] in Eq. injection Eq as <- Eq.
  pose proof (thread_at_inj s' p _ _ Ht' Htr) as <-.
  exists p, s', ptr, sid, sp. rewrite Hx. do 5 (split; [done|]). split; [|split; [|by rewrite <- Hx]].
  - eapply loaded_same; [|exact Hload]. intros sid' va b attrs. unfold user_view. by rewrite Hx.
  - unfold krefs in Hr1. cbn [app] in Hr1. lia.
Qed.

(** The kernel boots into the program.  When the Linux server is started on
    a kernel without threads, [return_to_user] leaves for user mode in the
    program: its thread is the current one, at the entry point of the file and
    the stack pointer, with the page tables of its address space in the
    processor. *)
Theorem linux_boot_enters_program s addr file elf :
  alloc_fresh galloc -> box_fresh ->
  @sys_inv L _ lx_ext (k_issued (ext s)) [] s -> total_refs (k_issued (ext s)) s + 2 * len (phdrs elf) + 7 < 2 ^ 64 ->
  elf_parse addr file ET_EXEC = Ret (Ok elf) -> bytes_ok file -> len file < 2 ^ 63 ->
  (forall phdr, phdr ∈ phdrs elf -> is_load phdr -> seg_fits file phdr) ->
  runqueue s = [] -> current s = None -> ~ start_failed addr file elf s ->
  exists p s' ptr sid sp, (do* _ := Server_new si FTL_LOG_PREFIX box addr file in return_to_user true) s = Ret (p, s') /\
    @sys_inv L _ lx_ext (k_issued (ext s')) (current_ref s') s' /\ current_ref s' = [p] /\ runqueue s' = [] /\
    thread_at s' p (mkThread (init_arch (mkInitRegs (e_entry (ehdr elf)) sp)) ptr sid Runnable 0) /\
    loaded_program s' sid file elf sp /\
    total_refs (k_issued (ext s')) s' <= total_refs (k_issued (ext s)) s + 2 * len (phdrs elf) + 6 /\
    exists spc, spaces (k_mem (ext s')) !! sid = Some spc /\ cr3_reg s' = cr3 (vs_arch spc).
Proof. apply boot_enters_spec. Qed.

End Theorems.

(** ** Witnesses: a program of one segment, on a kernel without objects *)

Section Witnesses.
#[local] Existing Instance dev.
#[local] Instance boot_layout : RefLayout := {| value_offset _ := 8 |}.
#[local] Instance boot_pdpt : BootPdpt := {| KERNEL_IMAGE := example_image |}.

Definition first_free (used : Z -> bool) : option Z := List.find (fun p => negb (used p)) [0x10000; 0x11000; 0x12000; 0x13000; 0x14000].
Definition example_galloc (st : RefStore KObject) : option Z := first_free (fun p => bool_decide (is_Some (st !! p))).
Definition example_box (m : ApiMem ThreadContext LxServer) : option Z :=
  first_free (fun p => bool_decide (is_Some (user_data m !! p)) || bool_decide (is_Some (thread_arcs m !! p)) ||
    bool_decide (is_Some (lx_processes (server_data m) !! p))).

Definition hello_ehdr : Ehdr :=
  mkEhdr ([127; 69; 76; 70] ++ replicate 12 0) ET_EXEC EM_NATIVE 1 0x400078 64 0 0 64 56 1 0 0 0.
Definition hello_phdr : Phdr := mkPhdr 1 5 0 0x400000 0 124 200 4096.
Definition hello_elf : list Z := ehdr_bytes hello_ehdr ++ phdr_bytes hello_phdr ++ [0x0f; 0x05; 0xeb; 0xfe].

Definition boot_sys : Sys (Kernel Phys (ApiMem ThreadContext LxServer)) :=
  mkSys ∅ [] None 0 (mkKernel example_kernel_state [] [] (mkApiMem ∅ ∅ (mkLxServer ∅))).

Definition hello_start : M (Sys (Kernel Phys (ApiMem ThreadContext LxServer))) Z :=
  Server_new (START_INFO example_galloc (fun _ => true) (fun _ _ => ret tt)) [] example_box 0x8000 hello_elf.

Lemma first_free_ok used p : first_free used = Some p -> used p = false.
Proof. intros [_ E]%List.find_some. by apply negb_true_iff. Qed.

Lemma example_galloc_fresh : alloc_fresh example_galloc.
Proof.
  intros st p E. split.
  - apply first_free_ok, bool_decide_eq_false in E. by apply eq_None_not_Some.
  - apply List.find_some in E as [Hin%list_elem_of_In _]. rewrite !elem_of_cons in Hin. set_solver by lia.
Qed.

Lemma example_box_fresh : box_fresh example_box.
Proof.
  intros m p E%first_free_ok. apply orb_false_iff in E as [[E1 E2]%orb_false_iff E3].
  rewrite bool_decide_eq_false in E1, E2, E3. rewrite !eq_None_not_Some. done.
Qed.

Lemma boot_sys_inv : @sys_inv boot_layout _ lx_ext [] [] boot_sys.
Proof.
  apply lx_inv_split. split; [apply sys_check_ok; [vm_compute; reflexivity|]|].
  - split; [apply example_kernel_inv|]. split; by intros.
  - split; by intros.
Qed.

Lemma hello_parse : elf_parse 0x8000 hello_elf ET_EXEC = Ret (Ok (mkElf hello_ehdr [hello_phdr])).
Proof. vm_compute. reflexivity. Qed.

Lemma hello_bytes : bytes_ok hello_elf.
Proof. apply bytes_ok_check. vm_compute. reflexivity. Qed.

Lemma hello_fits phdr : phdr ∈ [hello_phdr] -> is_load phdr -> seg_fits hello_elf phdr.
Proof. intros ->%list_elem_of_singleton _. split; vm_compute; discriminate. Qed.

Lemma hello_runs : exists s', hello_start boot_sys = Ret (0x10000, s').
Proof. apply observe_run. vm_compute. reflexivity. Qed.

Lemma linux_server_starts_witness :
  exists s' p ptr sid sp, hello_start boot_sys = Ret (0x10000, s') /\ runqueue s' = [p] /\
    thread_at s' p (mkThread (init_arch (mkInitRegs 0x400078 sp)) ptr sid Runnable 0) /\
    loaded_program s' sid hello_elf (mkElf hello_ehdr [hello_phdr]) sp.
Proof.
  destruct hello_runs as [s0 E0].
  destruct (linux_server_starts example_galloc (fun _ => true) (fun _ _ => ret tt) [] example_box boot_sys 0x8000 hello_elf
    (mkElf hello_ehdr [hello_phdr]) example_galloc_fresh example_box_fresh boot_sys_inv)
    as [[E _]|(pid & s' & p & ptr & sid & sp & E & _ & Hq & _ & _ & Ht & Hl & _)].
  - vm_compute. reflexivity.
  - exact hello_parse.
  - exact hello_bytes.
  - vm_compute. reflexivity.
  - exact hello_fits.
  - pose proof (eq_trans (eq_sym E0) E). discriminate.
  - pose proof (eq_trans (eq_sym E0) E) as [= <- <-]. exists s0, p, ptr, sid, sp. auto.
Defined.

Lemma linux_boot_enters_program_witness :
  exists p s' ptr sid sp, (do* _ := hello_start in return_to_user true) boot_sys = Ret (p, s') /\
    current_ref s' = [p] /\ thread_at s' p (mkThread (init_arch (mkInitRegs 0x400078 sp)) ptr sid Runnable 0).
Proof.
  destruct hello_runs as [s0 E0].
  destruct (linux_boot_enters_program example_galloc (fun _ => true) (fun _ _ => ret tt) [] example_box boot_sys 0x8000 hello_elf
    (mkElf hello_ehdr [hello_phdr]) example_galloc_fresh example_box_fresh boot_sys_inv)
    as (p & s' & ptr & sid & sp & E & _ & Hc & _ & Ht & _).
  - vm_compute. reflexivity.
  - exact hello_parse.
  - exact hello_bytes.
  - vm_compute. reflexivity.
  - exact hello_fits.
  - reflexivity.
  - reflexivity.
  - intros F%start_failed_panics. pose proof (eq_trans (eq_sym E0) F). discriminate.
  - exists p, s', ptr, sid, sp. auto.
Defined.

End Witnesses.
