(* ===== verification/Multiboot.v ===== *)
(** * kernel/src/arch/x64/multiboot.rs: the Multiboot2 boot information

    The boot loader passes the physical address of a list of tags: the command
    line, the modules and the memory map, among others.  The parser reads them
    through the direct map; a read outside of it is [Undef].  The messages that
    it prints are not modelled. *)

From S2P Require Import Prelude Bytes ArrayVec Bump Machine Memory.

(** A read of [n] bytes through a pointer. *)
Definition virt_bytes (m : mem) (vaddr : Z) (n : nat) : outcome (list Z) :=
  if dm_range vaddr (Z.of_nat n) then Ret (mem_read m (vaddr - KERNEL_BASE) n) else Undef.

(** [paddr2ptr]: [&*(paddr2vaddr(paddr) as *const T)] for a type of [n] bytes. *)
Definition phys_bytes (m : mem) (paddr : Z) (n : nat) : outcome (list Z) := virt_bytes m (paddr2vaddr paddr) n.

Record Multiboot2BootInfoHeader : Set := mkMbHeader { mb_total_size : Z; mb_reserved : Z }.
Record Multiboot2TagHeader : Set := mkTagHeader { tag_type : Z; tag_size : Z }.
Record Multiboot2MemoryMapHeader : Set := mkMmapHeader {
  mmap_header : Multiboot2TagHeader;
  entry_size : Z;
  entry_version : Z
}.
Record Multiboot2MemoryMapEntry : Set := mkMmapEntry {
  me_base_addr : Z;
  me_length : Z;
  me_type : Z;
  me_reserved : Z
}.
Record Multiboot2Module : Set := mkMbModule {
  mm_header : Multiboot2TagHeader;
  mm_start : Z;
  mm_end : Z
}.

Definition MULTIBOOT2_TAG_CMDLINE : Z := 1.
Definition MULTIBOOT2_TAG_MODULE : Z := 3.
Definition MULTIBOOT2_TAG_MEMORY_MAP : Z := 6.
Definition MULTIBOOT2_MEMORY_AVAILABLE : Z := 1.

(** The packed layouts of the structures. *)
Definition read_mb_header (b : list Z) : Multiboot2BootInfoHeader := mkMbHeader (field b 0 4) (field b 4 4).
Definition read_tag_header (b : list Z) : Multiboot2TagHeader := mkTagHeader (field b 0 4) (field b 4 4).
Definition read_mmap_header (b : list Z) : Multiboot2MemoryMapHeader :=
  mkMmapHeader (read_tag_header b) (field b 8 4) (field b 12 4).
Definition read_mmap_entry (b : list Z) : Multiboot2MemoryMapEntry :=
  mkMmapEntry (field b 0 8) (field b 8 8) (field b 16 4) (field b 20 4).
Definition read_mb_module (b : list Z) : Multiboot2Module :=
  mkMbModule (read_tag_header b) (field b 8 4) (field b 12 4).

(** The bytes before the first zero, if there is one. *)
Fixpoint until_nul (b : list Z) : list Z :=
  match b with
  | [] => []
  | c :: b => if c =? 0 then [] else c :: until_nul b
  end.

Section Multiboot.
Context {P : Profile} (m : mem).

(** [try_push] on a vector that is dropped into a message when it is full. *)
Definition push_or_trace {T} (v : ArrayVec T) (x : T) : outcome (ArrayVec T) :=
  let* (_, v') := try_push x v in Ret v'.

(** [u32] division. *)
Definition u32_div (a b : Z) : outcome Z := if b =? 0 then Panic else Ret (a / b).

(** The loop over the entries of a memory map, [n] of them from index [i] on;
    [base] is the address of the tag. *)
Fixpoint mmap_loop (base : Z) (esize : Z) (n : nat) (i : Z) (free_rams : ArrayVec FreeRam)
  : outcome (ArrayVec FreeRam) :=
  match n with
  | O => Ret free_rams
  | S n =>
      let* a := usize_add base 16 in
      let* off := usize_mul i esize in
      let* addr := usize_add a off in
      let* b := phys_bytes m addr 24 in
      let entry := read_mmap_entry b in
      let* free_rams :=
        if negb (me_type entry =? MULTIBOOT2_MEMORY_AVAILABLE) then Ret free_rams
        else push_or_trace free_rams (mkFreeRam (me_base_addr entry) (me_length entry)) in
      mmap_loop base esize n (i + 1) free_rams
  end.

(** The body of the loop for the tag at [base]. *)
Definition parse_tag (base : Z) (tag_header : Multiboot2TagHeader) (info : BootInfo) : outcome BootInfo :=
  if tag_type tag_header =? MULTIBOOT2_TAG_CMDLINE then
    let* start := usize_add base 8 in
    let n := saturating_sub (tag_size tag_header) 8 in
    let* _ := phys_bytes m start 1 in
    let* cmdline_with_null := phys_bytes m start (Z.to_nat n) in
    Ret (mkBootInfo (until_nul cmdline_with_null) (modules info) (free_rams info))
  else if tag_type tag_header =? MULTIBOOT2_TAG_MEMORY_MAP then
    let* b := phys_bytes m base 16 in
    let mmap := read_mmap_header b in
    let* num_entries := u32_div (tag_size (mmap_header mmap)) (entry_size mmap) in
    let* free_rams := mmap_loop base (entry_size mmap) (Z.to_nat num_entries) 0 (free_rams info) in
    Ret (mkBootInfo (cmdline info) (modules info) free_rams)
  else if tag_type tag_header =? MULTIBOOT2_TAG_MODULE then
    let* b := phys_bytes m base 16 in
    let module := read_mb_module b in
    let* modules := push_or_trace (modules info) (mkModule (mm_start module) (mm_end module)) in
    Ret (mkBootInfo (cmdline info) modules (free_rams info))
  else Ret info.

(** [while offset < total_size]. *)
Fixpoint tags_loop (fuel : nat) (info_addr total_size offset : Z) (info : BootInfo) : outcome BootInfo :=
  if negb (offset <? total_size) then Ret info
  else
    match fuel with
    | O => Hang
    | S fuel =>
        let* base := usize_add info_addr offset in
        let* b := phys_bytes m base 8 in
        let tag_header := read_tag_header b in
        let* info := parse_tag base tag_header info in
        let* n := usize_add (tag_size tag_header) 7 in
        let* offset := usize_add offset (Z.land n (unot 64 7)) in
        tags_loop fuel info_addr total_size offset info
    end.

(** Every turn that advances does so by at least 8 bytes. *)
Definition parse_multiboot2_info (info_addr : Z) : outcome BootInfo :=
  let* b := phys_bytes m info_addr 8 in
  let total_size := mb_total_size (read_mb_header b) in
  tags_loop (Z.to_nat (total_size / 8) + 1) info_addr total_size 8
    (mkBootInfo [] (av_new NUM_MODULES_MAX) (av_new 8)).

End Multiboot.

(** * The format

    The tags of a boot information, as the specification lays them out. *)

Inductive Tag : Type :=
| TagCmdline (text : list Z)
| TagModule (start end_ : Z) (text : list Z)
| TagMemoryMap (esize version : Z) (entries : list (Multiboot2MemoryMapEntry * list Z))
| TagOther (ty : Z) (data : list Z).

Definition mmap_entry_bytes (e : Multiboot2MemoryMapEntry) : list Z :=
  le_bytes 8 (me_base_addr e) ++ le_bytes 8 (me_length e) ++ le_bytes 4 (me_type e) ++ le_bytes 4 (me_reserved e).

Definition tag_kind (t : Tag) : Z :=
  match t with
  | TagCmdline _ => MULTIBOOT2_TAG_CMDLINE
  | TagModule _ _ _ => MULTIBOOT2_TAG_MODULE
  | TagMemoryMap _ _ _ => MULTIBOOT2_TAG_MEMORY_MAP
  | TagOther ty _ => ty
  end.

(** What follows the header of the tag. *)
Definition tag_payload (t : Tag) : list Z :=
  match t with
  | TagCmdline text => text
  | TagModule start end_ text => le_bytes 4 start ++ le_bytes 4 end_ ++ text
  | TagMemoryMap esize version entries =>
      le_bytes 4 esize ++ le_bytes 4 version ++ concat ((fun e => mmap_entry_bytes e.1 ++ e.2) <$> entries)
  | TagOther _ data => data
  end.

Definition tag_len (t : Tag) : Z := 8 + len (tag_payload t).
Definition pad8 (n : Z) : list Z := replicate (Z.to_nat ((- n) mod 8)) 0.
Definition tag_bytes (t : Tag) : list Z :=
  le_bytes 4 (tag_kind t) ++ le_bytes 4 (tag_len t) ++ tag_payload t ++ pad8 (tag_len t).

Definition info_bytes (tags : list Tag) : list Z :=
  let body := concat (tag_bytes <$> tags) in le_bytes 4 (8 + len body) ++ le_bytes 4 0 ++ body.

(** An entry of [esize] bytes: the structure, and bytes of later versions. *)
Definition entry_ok (esize : Z) (e : Multiboot2MemoryMapEntry * list Z) : Prop :=
  24 + len e.2 = esize /\ 0 <= me_base_addr e.1 < 2 ^ 64 /\ 0 <= me_length e.1 < 2 ^ 64 /\
  0 <= me_type e.1 < 2 ^ 32 /\ 0 <= me_reserved e.1 < 2 ^ 32.

(** Entries are at least as large as the structure; tags with the number of a
    known one are of that kind. *)
Definition tag_ok (t : Tag) : Prop :=
  tag_len t < 2 ^ 32 /\
  match t with
  | TagCmdline text => True
  | TagModule start end_ _ => 0 <= start < 2 ^ 32 /\ 0 <= end_ < 2 ^ 32
  | TagMemoryMap esize version entries => 24 <= esize < 2 ^ 32 /\ 0 <= version < 2 ^ 32 /\ Forall (entry_ok esize) entries
  | TagOther ty _ => 0 <= ty < 2 ^ 32 /\ ty <> MULTIBOOT2_TAG_CMDLINE /\ ty <> MULTIBOOT2_TAG_MODULE /\
      ty <> MULTIBOOT2_TAG_MEMORY_MAP
  end.

(** What the tags say: the last command line, all modules, all free RAM. *)
Definition tag_cmdline (c : list Z) (t : Tag) : list Z :=
  match t with TagCmdline text => until_nul text | _ => c end.
Definition tag_modules (t : Tag) : list Module_ :=
  match t with TagModule start end_ _ => [mkModule start end_] | _ => [] end.
Definition entry_rams (e : Multiboot2MemoryMapEntry) : list FreeRam :=
  if me_type e =? MULTIBOOT2_MEMORY_AVAILABLE then [mkFreeRam (me_base_addr e) (me_length e)] else [].
Definition tag_rams (t : Tag) : list FreeRam :=
  match t with TagMemoryMap _ _ entries => concat ((fun e => entry_rams e.1) <$> entries) | _ => [] end.

(** * Lemmas *)

(** A read inside a block whose contents are known. *)
Lemma phys_bytes_holds m a bs (off n : nat) :
  mem_holds m a bs -> 0 <= a -> a + len bs <= DIRECT_MAP_SIZE -> (off + n <= length bs)%nat ->
  phys_bytes m (a + Z.of_nat off) n = Ret (take n (drop off bs)).
Proof.
  intros Hm Ha Hb Hn. unfold phys_bytes, virt_bytes. pose proof (direct_map_small a) as Hs.
  assert (0 <= a + Z.of_nat off <= DIRECT_MAP_SIZE) as Hr by lia.
  rewrite dm_range_paddr, paddr2vaddr_add by (unfold DIRECT_MAP_SIZE, GIGA_PAGE_SIZE in *; lia).
  replace (KERNEL_BASE + _ - KERNEL_BASE) with (a + Z.of_nat off) by lia. f_equal.
  by apply mem_holds_read.
Qed.

Lemma phys_bytes_head m a bs n :
  mem_holds m a bs -> 0 <= a -> a + len bs <= DIRECT_MAP_SIZE -> (n <= length bs)%nat ->
  phys_bytes m a n = Ret (take n bs).
Proof. intros. rewrite <- (Z.add_0_r a). by apply (phys_bytes_holds m a bs 0). Qed.

Lemma phys_bytes_in m a n : 0 <= a -> a + Z.of_nat n <= DIRECT_MAP_SIZE -> exists b, phys_bytes m a n = Ret b.
Proof.
  intros Ha Hb. unfold phys_bytes, virt_bytes. rewrite dm_range_paddr by (unfold DIRECT_MAP_SIZE, GIGA_PAGE_SIZE in *; lia). by eexists.
Qed.

(** The first eight elements of [l]. *)
Definition holds8 {T} (v : ArrayVec T) (l : list T) : Prop := av_cap v = 8%nat /\ av_rep v (take 8 l).

Lemma push_holds8 {P : Profile} {T} (v : ArrayVec T) l x :
  holds8 v l -> exists v', push_or_trace v x = Ret v' /\ holds8 v' (l ++ [x]).
Proof.
  intros [Hc Hr]. destruct (try_push_spec v _ x Hr) as (v' & E & Hc' & Hr'). unfold push_or_trace. rewrite E. cbn [obind].
  exists v'. split; [done|]. split; [congruence|]. rewrite Hc, length_take in Hr'.
  destruct (Nat.ltb_spec (8 `min` length l) 8).
  - rewrite (take_ge l) in Hr' by lia. by rewrite take_ge by (rewrite length_app; simpl; lia).
  - by rewrite take_app_le by lia.
Qed.

Lemma holds8_new {T} : holds8 (av_new 8 : ArrayVec T) [].
Proof. split; [apply length_replicate|]. apply av_rep_new. Qed.

Lemma read_mmap_entry_bytes e rest :
  0 <= me_base_addr e < 2 ^ 64 -> 0 <= me_length e < 2 ^ 64 -> 0 <= me_type e < 2 ^ 32 -> 0 <= me_reserved e < 2 ^ 32 ->
  read_mmap_entry (mmap_entry_bytes e ++ rest) = e.
Proof.
  intros. unfold read_mmap_entry, mmap_entry_bytes. rewrite <- !app_assoc. destruct e.
  cbn [me_base_addr me_length me_type me_reserved] in *. f_equal; read_field.
Qed.

Lemma length_mmap_entry e : length (mmap_entry_bytes e) = 24%nat.
Proof. unfold mmap_entry_bytes. by rewrite !length_app, !length_le_bytes. Qed.

Section Parsing.
Context {P : Profile} (m : mem).

Lemma mmap_loop_spec base esize entries : forall i v l,
  Forall (entry_ok esize) entries -> 0 <= base -> 0 <= i -> 24 <= esize < 2 ^ 32 ->
  mem_holds m (base + 16 + i * esize) (concat ((fun e => mmap_entry_bytes e.1 ++ e.2) <$> entries)) ->
  base + 16 + (i + len entries) * esize <= DIRECT_MAP_SIZE -> holds8 v l ->
  exists v', mmap_loop m base esize (length entries) i v = Ret v' /\
    holds8 v' (l ++ concat ((fun e => entry_rams e.1) <$> entries)).
Proof.
  induction entries as [|e entries IH]; intros i v l Hok Hb Hi Hes Hm Hend Hv.
  { exists v. split; [done|]. by rewrite app_nil_r. }
  apply Forall_cons in Hok as [(Hl & Ha & Hn & Ht & Hr) Hoks]. rewrite fmap_cons in Hm. cbn [concat length mmap_loop] in *.
  apply mem_holds_app in Hm as [Hm1 Hm2].
  assert (len (mmap_entry_bytes e.1 ++ e.2) = esize) as Hel by (rewrite length_app, length_mmap_entry; lia).
  replace ((i + Z.of_nat (S (length entries))) * esize) with (i * esize + esize + len entries * esize) in Hend
    by (rewrite Nat2Z.inj_succ; ring).
  assert (0 <= i * esize) by nia. assert (0 <= len entries * esize) by nia.
  assert (base + 16 + i * esize + esize <= DIRECT_MAP_SIZE) as Hend1 by lia.
  pose proof (eq_refl : DIRECT_MAP_SIZE = 2 ^ 32) as Hdm.
  rewrite usize_add_ok by lia. cbn [obind]. rewrite usize_mul_ok by lia. cbn [obind]. rewrite usize_add_ok by lia. cbn [obind].
  rewrite (phys_bytes_head m _ _ 24 Hm1) by (rewrite ?Hel; lia). cbn [obind].
  rewrite take_app_le, take_ge by (rewrite length_mmap_entry; lia).
  pose proof (read_mmap_entry_bytes e.1 []) as Hread. rewrite app_nil_r in Hread. rewrite Hread by done.
  set (l1 := l ++ entry_rams e.1).
  assert (exists v1, (if negb (me_type e.1 =? MULTIBOOT2_MEMORY_AVAILABLE) then Ret v
    else push_or_trace v (mkFreeRam (me_base_addr e.1) (me_length e.1))) = Ret v1 /\ holds8 v1 l1) as (v1 & -> & Hv1).
  { unfold l1, entry_rams. destruct (me_type e.1 =? _); cbn [negb]; [by apply push_holds8|].
    exists v. split; [done|]. by rewrite app_nil_r. }
  cbn [obind]. rewrite Hel in Hm2.
  destruct (IH (i + 1) v1 l1 Hoks) as (v' & E & Hv'); [lia..| | |done|].
  - by replace (base + 16 + (i + 1) * esize) with (base + 16 + i * esize + esize) by ring.
  - replace ((i + 1 + len entries) * esize) with (i * esize + esize + len entries * esize) by ring. lia.
  - exists v'. split; [done|]. rewrite fmap_cons. cbn [concat]. by rewrite app_assoc.
Qed.

(** The state of the parser after [tags]. *)
Definition info_is (info : BootInfo) (c : list Z) (mods : list Module_) (rams : list FreeRam) : Prop :=
  cmdline info = c /\ holds8 (modules info) mods /\ holds8 (free_rams info) rams.

Lemma tag_kind_bound t : tag_ok t -> 0 <= tag_kind t < 2 ^ 32.
Proof. intros [_ H]. destruct t; [done..|]. apply H. Qed.

Lemma read_tag t : tag_ok t -> read_tag_header (take 8 (tag_bytes t)) = mkTagHeader (tag_kind t) (tag_len t).
Proof.
  intros Hok. pose proof (tag_kind_bound t Hok). destruct Hok as [Hl _]. assert (0 <= tag_len t) by (unfold tag_len; lia).
  unfold tag_bytes. rewrite app_assoc, take_app_le, take_ge by (rewrite length_app, !length_le_bytes; lia).
  unfold read_tag_header. f_equal; read_field.
Qed.

Lemma length_tag_bytes t : len (tag_bytes t) = tag_len t + (- tag_len t) mod 8.
Proof.
  unfold tag_bytes, pad8. rewrite !length_app, !length_le_bytes, length_replicate. unfold tag_len.
  pose proof (Z.mod_pos_bound (- (8 + len (tag_payload t))) 8 ltac:(lia)). lia.
Qed.

Lemma read_module_tag start end_ text :
  0 <= start < 2 ^ 32 -> 0 <= end_ < 2 ^ 32 ->
  let b := take 16 (tag_bytes (TagModule start end_ text)) in
  mm_start (read_mb_module b) = start /\ mm_end (read_mb_module b) = end_.
Proof.
  intros Hs He b. subst b. unfold read_mb_module. cbn [mm_start mm_end]. rewrite !field_take by lia.
  unfold tag_bytes. cbn [tag_payload]. rewrite <- !app_assoc. split; read_field.
Qed.

Lemma read_mmap_tag esize version entries :
  let t := TagMemoryMap esize version entries in
  tag_ok t -> read_mmap_header (take 16 (tag_bytes t)) = mkMmapHeader (mkTagHeader (tag_kind t) (tag_len t)) esize version.
Proof.
  intros t [Hl (He & Hv & _)]. assert (0 <= tag_len t) by (unfold tag_len; lia).
  assert (0 <= tag_kind t < 2 ^ 32) by done.
  unfold read_mmap_header, read_tag_header. rewrite !field_take by lia.
  unfold tag_bytes. remember (tag_kind t) as k eqn:Ek. clear Ek. remember (tag_len t) as n eqn:En. clear En. subst t. cbn [tag_payload].
  rewrite <- !app_assoc. f_equal; [f_equal|..]; read_field.
Qed.

Lemma length_entries esize entries :
  Forall (entry_ok esize) entries ->
  len (concat ((fun e => mmap_entry_bytes e.1 ++ e.2) <$> entries)) = len entries * esize.
Proof.
  induction 1 as [|e entries (Hl & _) _ IH]; [done|]. rewrite fmap_cons. cbn [concat length].
  rewrite !length_app, length_mmap_entry. lia.
Qed.

Lemma parse_tag_spec base t info c mods rams :
  tag_ok t -> mem_holds m base (tag_bytes t) -> 0 <= base -> base + len (tag_bytes t) < DIRECT_MAP_SIZE ->
  info_is info c mods rams ->
  exists info', parse_tag m base (mkTagHeader (tag_kind t) (tag_len t)) info = Ret info' /\
    info_is info' (tag_cmdline c t) (mods ++ tag_modules t) (rams ++ tag_rams t).
Proof.
  intros [Hlen Hok] Hm Hb Hend (Hc & Hmods & Hrams). unfold parse_tag. cbn [tag_type tag_size].
  pose proof (eq_refl : DIRECT_MAP_SIZE = 2 ^ 32) as Hdm. pose proof (length_tag_bytes t) as Hlb.
  pose proof (Z.mod_pos_bound (- tag_len t) 8 ltac:(lia)) as Hpad.
  destruct t as [text|start end_ text|esize version entries|ty data]; cbn [tag_kind tag_cmdline tag_modules tag_rams].
  - change (MULTIBOOT2_TAG_CMDLINE =? MULTIBOOT2_TAG_CMDLINE) with true. cbv iota.
    rewrite usize_add_ok by lia. cbn [obind]. unfold tag_len in *. cbn [tag_payload] in *.
    destruct (phys_bytes_in m (base + 8) 1) as [b ->]; [lia..|]. cbn [obind].
    replace (Z.to_nat (saturating_sub (8 + len text) 8)) with (length text) by (unfold saturating_sub; lia).
    pose proof (phys_bytes_holds m base _ 8 (length text) Hm Hb ltac:(lia) ltac:(lia)) as Hr.
    change (Z.of_nat 8) with 8 in Hr. rewrite Hr. cbn [obind].
    eexists. split; [done|]. split; [|by rewrite !app_nil_r]. cbn [cmdline]. f_equal.
    unfold tag_bytes. cbn [tag_payload]. rewrite app_assoc, drop_app_length' by (by rewrite length_app, !length_le_bytes).
    by rewrite take_app_length.
  - change (MULTIBOOT2_TAG_MODULE =? MULTIBOOT2_TAG_CMDLINE) with false.
    change (MULTIBOOT2_TAG_MODULE =? MULTIBOOT2_TAG_MEMORY_MAP) with false.
    change (MULTIBOOT2_TAG_MODULE =? MULTIBOOT2_TAG_MODULE) with true. cbv iota.
    unfold tag_len in *. cbn [tag_payload] in *. rewrite !length_app, !length_le_bytes in *.
    rewrite (phys_bytes_head m base _ 16 Hm) by lia. cbn [obind].
    destruct Hok as [Hs He]. destruct (read_module_tag start end_ text Hs He) as [-> ->].
    destruct (push_holds8 _ _ (mkModule start end_) Hmods) as (v' & -> & Hv'). cbn [obind].
    eexists. split; [done|]. split; [done|]. split; [done|]. by rewrite app_nil_r.
  - change (MULTIBOOT2_TAG_MEMORY_MAP =? MULTIBOOT2_TAG_CMDLINE) with false.
    change (MULTIBOOT2_TAG_MEMORY_MAP =? MULTIBOOT2_TAG_MEMORY_MAP) with true. cbv iota.
    rewrite (phys_bytes_head m base _ 16 Hm) by (try lia; unfold tag_len in *; cbn [tag_payload] in *; rewrite !length_app, !length_le_bytes in *; lia).
    cbn [obind]. rewrite (read_mmap_tag esize version entries (conj Hlen Hok)). destruct Hok as (Hes & Hver & Hents).
    pose proof (length_entries esize entries Hents) as Hel. unfold u32_div. cbn [mmap_header entry_size tag_size].
    assert (tag_len (TagMemoryMap esize version entries) = 16 + len entries * esize) as Htl.
    { unfold tag_len. cbn [tag_payload]. rewrite !length_app, !length_le_bytes. lia. }
    rewrite Htl in *. rewrite (proj2 (Z.eqb_neq _ _)) by lia. cbn [obind].
    replace ((16 + len entries * esize) / esize) with (len entries) by (apply (Z.div_unique _ _ _ 16); lia).
    rewrite Nat2Z.id. destruct (mmap_loop_spec base esize entries 0 (free_rams info) rams Hents Hb) as (v' & -> & Hv');
      [lia..| |lia|done|].
    + unfold tag_bytes in Hm. cbn [tag_payload] in Hm. rewrite <- !app_assoc in Hm.
      do 4 (apply mem_holds_app in Hm as [_ Hm]). rewrite !length_le_bytes in Hm. apply mem_holds_app in Hm as [Hm _].
      by replace (base + 16 + 0 * esize) with (base + Z.of_nat 4 + Z.of_nat 4 + Z.of_nat 4 + Z.of_nat 4) by lia.
    + cbn [obind]. eexists. split; [done|]. split; [done|]. split; [by rewrite app_nil_r|done].
  - destruct Hok as (_ & N1 & N3 & N6). rewrite !(proj2 (Z.eqb_neq _ _)) by done. exists info.
    split; [done|]. split; [done|]. by rewrite !app_nil_r.
Qed.

(** The next tag starts at the next multiple of 8. *)
Lemma tag_advance t : tag_ok t ->
  usize_add (tag_len t) 7 = Ret (tag_len t + 7) /\ Z.land (tag_len t + 7) (unot 64 7) = len (tag_bytes t).
Proof.
  intros [Hl _]. assert (0 <= tag_len t) by (unfold tag_len; lia). split; [apply usize_add_ok; lia|].
  change (unot 64 7) with (unot 64 (Z.ones 3)). rewrite land_unot_ones by lia. rewrite length_tag_bytes. change (2 ^ 3) with 8. dlia.
Qed.

Lemma tags_loop_spec info_addr tags : forall fuel offset info c mods rams,
  Forall tag_ok tags -> (length tags <= fuel)%nat -> 0 <= info_addr -> 0 <= offset ->
  let body := concat (tag_bytes <$> tags) in
  mem_holds m (info_addr + offset) body -> info_addr + offset + len body < DIRECT_MAP_SIZE ->
  info_is info c mods rams ->
  exists info', tags_loop m fuel info_addr (offset + len body) offset info = Ret info' /\
    info_is info' (fold_left tag_cmdline tags c) (mods ++ concat (tag_modules <$> tags)) (rams ++ concat (tag_rams <$> tags)).
Proof.
  induction tags as [|t tags IH]; intros fuel offset info c mods rams Hok Hf Ha Ho body Hm Hend Hi; subst body.
  { exists info. cbn [fmap list_fmap concat length]. rewrite !app_nil_r. split; [|done].
    destruct fuel; cbn [tags_loop]; by rewrite (proj2 (Z.ltb_ge _ _)) by lia. }
  apply Forall_cons in Hok as [Hok Hoks]. rewrite fmap_cons in *. cbn [concat] in *. rewrite length_app in *.
  apply mem_holds_app in Hm as [Hm1 Hm2]. pose proof (eq_refl : DIRECT_MAP_SIZE = 2 ^ 32) as Hdm.
  pose proof (length_tag_bytes t) as Hl. pose proof (Z.mod_pos_bound (- tag_len t) 8 ltac:(lia)) as Hpad.
  assert (8 <= tag_len t) as Htl by (unfold tag_len; lia).
  destruct fuel as [|fuel]; [simpl in Hf; lia|]. cbn [tags_loop]. rewrite (proj2 (Z.ltb_lt _ _)) by lia. cbn [negb].
  rewrite usize_add_ok by lia. cbn [obind]. rewrite (phys_bytes_head m _ _ 8 Hm1) by lia. cbn [obind].
  rewrite read_tag by done. destruct (parse_tag_spec (info_addr + offset) t info c mods rams) as (info1 & -> & Hi1); [done|done|lia..|done|].
  cbn [obind tag_size]. destruct (tag_advance t Hok) as [-> Hadv]. cbn [obind]. rewrite Hadv.
  rewrite usize_add_ok by lia. cbn [obind].
  destruct (IH fuel (offset + len (tag_bytes t)) info1 (tag_cmdline c t) (mods ++ tag_modules t) (rams ++ tag_rams t) Hoks)
    as (info' & E & Hi'); [simpl in Hf; lia|lia|lia| |lia|done|].
  - by rewrite Z.add_assoc.
  - exists info'. rewrite !fmap_cons. cbn [concat fold_left]. rewrite !app_assoc. split; [|done].
    rewrite <- E. f_equal. lia.
Qed.

End Parsing.

(** * Properties *)

Section Theorems.
Context {P : Profile}.

Lemma parse_info_spec m info_addr tags :
  Forall tag_ok tags -> mem_holds m info_addr (info_bytes tags) ->
  0 <= info_addr -> info_addr + len (info_bytes tags) < DIRECT_MAP_SIZE ->
  exists info, parse_multiboot2_info m info_addr = Ret info /\
    info_is info (fold_left tag_cmdline tags []) (concat (tag_modules <$> tags)) (concat (tag_rams <$> tags)).
Proof.
  intros Hok Hm Ha Hend. pose proof (eq_refl : DIRECT_MAP_SIZE = 2 ^ 32) as Hdm. unfold parse_multiboot2_info.
  unfold info_bytes in *. set (body := concat (tag_bytes <$> tags)) in *. rewrite !length_app, !length_le_bytes in Hend.
  assert (length tags <= Z.to_nat ((8 + len body) / 8) + 1)%nat as Hfuel.
  { assert (8 * len tags <= len body); [|pose proof (Z.div_le_lower_bound (8 + len body) 8 (len tags)); lia].
    subst body. clear. induction tags as [|t tags IH]; [done|]. rewrite fmap_cons. cbn [concat length]. rewrite length_app.
    pose proof (length_tag_bytes t). pose proof (Z.mod_pos_bound (- tag_len t) 8 ltac:(lia)). unfold tag_len in *. lia. }
  rewrite (phys_bytes_head m _ _ 8 Hm) by (rewrite ?length_app, ?length_le_bytes; lia). cbn [obind].
  assert (mb_total_size (read_mb_header (take 8 (le_bytes 4 (8 + len body) ++ le_bytes 4 0 ++ body))) = 8 + len body) as ->.
  { unfold read_mb_header. cbn [mb_total_size]. rewrite field_take by lia. read_field. }
  rewrite app_assoc in Hm. apply mem_holds_app in Hm as [_ Hm]. rewrite length_app, !length_le_bytes in Hm.
  apply (tags_loop_spec m info_addr tags _ 8 _ [] [] []); [done|lia..|exact Hm|fold body; lia|].
  split; [done|]. split; apply holds8_new.
Qed.

Lemma empty_tag_loops m info_addr total ty info fuel :
  0 <= info_addr < 2 ^ 31 -> 8 < total ->
  0 <= ty < 2 ^ 32 -> ty <> MULTIBOOT2_TAG_CMDLINE -> ty <> MULTIBOOT2_TAG_MODULE -> ty <> MULTIBOOT2_TAG_MEMORY_MAP ->
  mem_holds m (info_addr + 8) (le_bytes 4 ty ++ le_bytes 4 0) ->
  tags_loop m fuel info_addr total 8 info = Hang.
Proof.
  intros Ha Ht Hty N1 N3 N6 Hm. pose proof (eq_refl : DIRECT_MAP_SIZE = 2 ^ 32) as Hdm.
  induction fuel as [|fuel IH]; cbn [tags_loop]; rewrite (proj2 (Z.ltb_lt _ _)) by lia; cbn [negb]; [done|].
  rewrite usize_add_ok by lia. cbn [obind].
  rewrite (phys_bytes_head m _ _ 8 Hm) by (rewrite ?length_app, ?length_le_bytes; lia). cbn [obind].
  rewrite take_ge by (rewrite length_app, !length_le_bytes; lia).
  assert (read_tag_header (le_bytes 4 ty ++ le_bytes 4 0) = mkTagHeader ty 0) as -> by (unfold read_tag_header; f_equal; read_field).
  unfold parse_tag. cbn [tag_type tag_size]. rewrite !(proj2 (Z.eqb_neq _ _)) by done. cbn [obind].
  rewrite !usize_add_ok by (change (Z.land (0 + 7) (unot 64 7)) with 0; lia). cbn [obind]. exact IH.
Qed.

(** C36: A tag of size zero stops the boot.  The parser advances by the size of
    the tag and does not look for the end tag, so that a tag that claims no
    bytes at all, of a type that the parser skips, is parsed again and again:
    no number of turns is enough to leave the loop. *)
Theorem multiboot_empty_tag_hangs m info_addr total ty :
  0 <= info_addr < 2 ^ 31 -> 8 < total < 2 ^ 32 ->
  0 <= ty < 2 ^ 32 -> ty <> MULTIBOOT2_TAG_CMDLINE -> ty <> MULTIBOOT2_TAG_MODULE -> ty <> MULTIBOOT2_TAG_MEMORY_MAP ->
  mem_holds m info_addr (le_bytes 4 total ++ le_bytes 4 0 ++ le_bytes 4 ty ++ le_bytes 4 0) ->
  parse_multiboot2_info m info_addr = Hang /\
  forall fuel info, tags_loop m fuel info_addr total 8 info = Hang.
Proof.
  intros Ha Ht Hty N1 N3 N6 Hm. pose proof (eq_refl : DIRECT_MAP_SIZE = 2 ^ 32) as Hdm.
  assert (forall fuel info, tags_loop m fuel info_addr total 8 info = Hang) as Hl.
  { intros fuel info. apply (empty_tag_loops m info_addr total ty); [done|lia|done..|].
    rewrite app_assoc in Hm. apply mem_holds_app in Hm as [_ Hm]. by rewrite length_app, !length_le_bytes in Hm. }
  split; [|exact Hl]. unfold parse_multiboot2_info.
  rewrite (phys_bytes_head m _ _ 8 Hm) by (rewrite ?length_app, ?length_le_bytes; lia). cbn [obind].
  unfold read_mb_header. cbn [mb_total_size]. rewrite field_take by lia.
  replace (field _ 0 4) with total by (symmetry; read_field). apply Hl.
Qed.

End Theorems.

(** ** Witnesses *)

Section Witnesses.
#[local] Existing Instance dev.

Definition example_tags : list Tag :=
  [ TagCmdline [0x71; 0x75; 0x69; 0x65; 0x74; 0]; TagOther 4 (replicate 8 7); TagModule 0x300000 0x310000 [0x66; 0x73; 0];
    TagMemoryMap 24 0 [(mkMmapEntry 0 0x10000000 1 0, []); (mkMmapEntry 0xfec00000 0x1000 2 0, [])]; TagOther 0 [] ].

Lemma example_tags_ok : Forall tag_ok example_tags.
Proof. repeat constructor; try (vm_compute; congruence); try (simpl; lia); done. Qed.

Lemma multiboot_empty_tag_hangs_witness :
  parse_multiboot2_info (mem_write (fun _ => 0) 0x9000 (le_bytes 4 64)) 0x9000 = Hang.
Proof.
  apply (multiboot_empty_tag_hangs (mem_write (fun _ => 0) 0x9000 (le_bytes 4 64)) 0x9000 64 0); try done; try lia.
Defined.

End Witnesses.
