(* ===== verification/Pvh.v ===== *)
(** * kernel/src/arch/x64/pvh.rs and the choice of the boot protocol (boot.rs)

    The PVH protocol passes a structure with pointers to the command line, the
    modules and the memory map.  The last theorems compare the two protocols:
    the same machine, described in either of them, gives the same memory. *)

From S2P Require Import Prelude Bytes ArrayVec Bump Machine Memory Multiboot.

Record HvmStartInfo : Set := mkHvmStartInfo {
  hvm_magic : list Z;
  hvm_version : Z;
  hvm_flags : Z;
  nr_modules : Z;
  modlist_paddr : Z;
  cmdline_paddr : Z;
  rsdp_paddr : Z;
  memmap_paddr : Z;
  memmap_entries : Z;
  hvm_reserved : Z
}.
Definition HVM_MEMMAP_TYPE_RAM : Z := 1.
Record HvmModuleEntry : Set := mkHvmModule { hm_paddr : Z; hm_size : Z; hm_cmdline : Z; hm_reserved : Z }.
Record HvmMemoryMapEntry : Set := mkHvmMemory { he_addr : Z; he_size : Z; he_type : Z; he_reserved : Z }.

Definition read_hvm_start_info (b : list Z) : HvmStartInfo :=
  mkHvmStartInfo (take 4 b) (field b 4 4) (field b 8 4) (field b 12 4) (field b 16 8) (field b 24 8) (field b 32 8)
    (field b 40 8) (field b 48 4) (field b 52 4).
Definition read_hvm_module (b : list Z) : HvmModuleEntry :=
  mkHvmModule (field b 0 8) (field b 8 8) (field b 16 8) (field b 24 8).
Definition read_hvm_memory (b : list Z) : HvmMemoryMapEntry :=
  mkHvmMemory (field b 0 8) (field b 8 8) (field b 16 4) (field b 20 4).

(** [x], [E] with the high bit, [n], [3]. *)
Definition HVM_MAGIC : list Z := [0x78; Z.lor 0x45 0x80; 0x6e; 0x33].

Section Pvh.
Context {P : Profile} (m : mem).

(** The scan for the terminating zero; [fuel] bounds its length. *)
Fixpoint cstr_loop (fuel : nat) (ptr : Z) (n : nat) : outcome nat :=
  match fuel with
  | O => Hang
  | S fuel =>
      let* b := virt_bytes m (ptr + Z.of_nat n) 1 in
      if le_val b =? 0 then Ret n else cstr_loop fuel ptr (S n)
  end.

Definition cstr2slice (fuel : nat) (paddr : Z) : outcome (list Z) :=
  if paddr =? 0 then Ret []
  else
    let ptr := paddr2vaddr paddr in
    let* n := cstr_loop fuel ptr 0 in
    virt_bytes m ptr n.

(** [slice::from_raw_parts] on an array of [n] structures of [size] bytes. *)
Definition phys_array {A} (read : list Z -> A) (size : nat) (paddr n : Z) : outcome (list A) :=
  if n =? 0 then Ret []
  else
    let* b := phys_bytes m paddr (Z.to_nat n * size) in
    Ret (read_array read size (Z.to_nat n) b).

Fixpoint push_modules (modlist : list HvmModuleEntry) (modules : ArrayVec Module_) : outcome (ArrayVec Module_) :=
  match modlist with
  | [] => Ret modules
  | module :: modlist =>
      let* end_ := usize_add (hm_paddr module) (hm_size module) in
      let* modules := push_or_trace modules (mkModule (hm_paddr module) end_) in
      push_modules modlist modules
  end.

Fixpoint push_rams (memmap : list HvmMemoryMapEntry) (free_rams : ArrayVec FreeRam) : outcome (ArrayVec FreeRam) :=
  match memmap with
  | [] => Ret free_rams
  | entry :: memmap =>
      let* free_rams :=
        if he_type entry =? HVM_MEMMAP_TYPE_RAM then push_or_trace free_rams (mkFreeRam (he_addr entry) (he_size entry))
        else Ret free_rams in
      push_rams memmap free_rams
  end.

Definition parse_start_info (fuel : nat) (start_info : Z) : outcome BootInfo :=
  let* b := phys_bytes m start_info 56 in
  let start_info := read_hvm_start_info b in
  let* _ := rust_assert (bool_decide (hvm_magic start_info = HVM_MAGIC)) in
  let* cmdline := cstr2slice fuel (cmdline_paddr start_info) in
  let* modlist := phys_array read_hvm_module 32 (modlist_paddr start_info) (nr_modules start_info) in
  let* modules := push_modules modlist (av_new 8) in
  let* memmap := phys_array read_hvm_memory 24 (memmap_paddr start_info) (memmap_entries start_info) in
  let* free_rams := push_rams memmap (av_new 8) in
  Ret (mkBootInfo cmdline modules free_rams).

(** The choice in [rust_boot]. *)
Definition boot_info (fuel : nat) (multiboot_magic start_info : Z) : outcome BootInfo :=
  if multiboot_magic =? 0x36d76289 then parse_multiboot2_info m start_info
  else parse_start_info fuel start_info.

End Pvh.

(** * The format *)

Definition hvm_start_info_bytes (h : HvmStartInfo) : list Z :=
  hvm_magic h ++ le_bytes 4 (hvm_version h) ++ le_bytes 4 (hvm_flags h) ++ le_bytes 4 (nr_modules h) ++
  le_bytes 8 (modlist_paddr h) ++ le_bytes 8 (cmdline_paddr h) ++ le_bytes 8 (rsdp_paddr h) ++
  le_bytes 8 (memmap_paddr h) ++ le_bytes 4 (memmap_entries h) ++ le_bytes 4 (hvm_reserved h).
Definition hvm_module_bytes (e : HvmModuleEntry) : list Z :=
  le_bytes 8 (hm_paddr e) ++ le_bytes 8 (hm_size e) ++ le_bytes 8 (hm_cmdline e) ++ le_bytes 8 (hm_reserved e).
Definition hvm_memory_bytes (e : HvmMemoryMapEntry) : list Z :=
  le_bytes 8 (he_addr e) ++ le_bytes 8 (he_size e) ++ le_bytes 4 (he_type e) ++ le_bytes 4 (he_reserved e).

(** [bs] is at [a], inside the direct map. *)
Definition placed (m : mem) (a : Z) (bs : list Z) : Prop :=
  mem_holds m a bs /\ 0 <= a /\ a + len bs <= DIRECT_MAP_SIZE.

Definition hvm_module_ok (e : HvmModuleEntry) : Prop :=
  0 <= hm_paddr e /\ 0 <= hm_size e /\ hm_paddr e + hm_size e < 2 ^ 64 /\ 0 <= hm_cmdline e < 2 ^ 64 /\ 0 <= hm_reserved e < 2 ^ 64.
Definition hvm_memory_ok (e : HvmMemoryMapEntry) : Prop :=
  0 <= he_addr e < 2 ^ 64 /\ 0 <= he_size e < 2 ^ 64 /\ 0 <= he_type e < 2 ^ 32 /\ 0 <= he_reserved e < 2 ^ 32.

(** The structure at [a] and everything that it points to. *)
Record pvh_at (m : mem) (a : Z) (h : HvmStartInfo) (text : list Z) (mods : list HvmModuleEntry)
  (mmap : list HvmMemoryMapEntry) : Prop := mkPvhAt {
  pvh_info : placed m a (hvm_start_info_bytes h);
  pvh_magic : hvm_magic h = HVM_MAGIC;
  pvh_words : 0 <= hvm_version h < 2 ^ 32 /\ 0 <= hvm_flags h < 2 ^ 32 /\ 0 <= rsdp_paddr h < 2 ^ 64 /\
    0 <= hvm_reserved h < 2 ^ 32;
  pvh_cmdline : cmdline_paddr h = 0 /\ text = [] \/ 0 < cmdline_paddr h /\ placed m (cmdline_paddr h) (text ++ [0]) /\
    forallb (fun c => negb (c =? 0)) text = true;
  pvh_modules : placed m (modlist_paddr h) (concat (hvm_module_bytes <$> mods)) /\ nr_modules h = len mods /\
    Forall hvm_module_ok mods;
  pvh_memory : placed m (memmap_paddr h) (concat (hvm_memory_bytes <$> mmap)) /\ memmap_entries h = len mmap /\
    Forall hvm_memory_ok mmap
}.

Definition hvm_module (e : HvmModuleEntry) : Module_ := mkModule (hm_paddr e) (hm_paddr e + hm_size e).
Definition hvm_rams (e : HvmMemoryMapEntry) : list FreeRam :=
  if he_type e =? HVM_MEMMAP_TYPE_RAM then [mkFreeRam (he_addr e) (he_size e)] else [].

(** * Lemmas *)

Lemma virt_phys m a (n k : nat) : 0 <= a -> a + Z.of_nat k <= DIRECT_MAP_SIZE ->
  virt_bytes m (paddr2vaddr a + Z.of_nat k) n = phys_bytes m (a + Z.of_nat k) n.
Proof.
  intros Ha Hk. unfold phys_bytes. rewrite !paddr2vaddr_add by (unfold DIRECT_MAP_SIZE, GIGA_PAGE_SIZE in *; lia).
  by rewrite Z.add_assoc.
Qed.

Lemma cstr_loop_spec m a text : forall fuel pre,
  placed m a (pre ++ text ++ [0]) -> forallb (fun c => negb (c =? 0)) text = true -> (length text < fuel)%nat ->
  cstr_loop m fuel (paddr2vaddr a) (length pre) = Ret (length (pre ++ text)).
Proof.
  induction text as [|c text IH]; intros [|fuel] pre (Hm & Ha & Hend) Hnz Hf; try (simpl in Hf; lia); cbn [cstr_loop].
  - rewrite app_nil_r in *. rewrite length_app in Hend. simpl in Hend.
    rewrite virt_phys, (phys_bytes_holds m a _ (length pre) 1 Hm) by (rewrite ?length_app; simpl; lia).
    cbn [obind]. by rewrite drop_app_length.
  - rewrite virt_phys, (phys_bytes_holds m a _ (length pre) 1 Hm) by (rewrite !length_app in *; simpl in *; lia).
    cbn [obind]. rewrite drop_app_length. cbn [app take le_val]. cbn [forallb] in Hnz. apply andb_true_iff in Hnz as [Hc Hnz].
    rewrite Z.mul_0_r, Z.add_0_r. apply negb_true_iff in Hc. rewrite Hc.
    specialize (IH fuel (pre ++ [c])). rewrite <- !app_assoc in IH. cbn [app] in IH. rewrite length_app in IH. simpl in IH.
    rewrite Nat.add_1_r in IH. apply IH; [by split|done|simpl in Hf; lia].
Qed.

Lemma cstr2slice_spec m fuel a text :
  0 < a -> placed m a (text ++ [0]) -> forallb (fun c => negb (c =? 0)) text = true -> (length text < fuel)%nat ->
  cstr2slice m fuel a = Ret text.
Proof.
  intros Ha Hp Hnz Hf. unfold cstr2slice. rewrite (proj2 (Z.eqb_neq _ _)) by lia.
  rewrite (cstr_loop_spec m a text fuel [] Hp Hnz Hf : cstr_loop m fuel (paddr2vaddr a) 0 = _). cbn [obind app]. destruct Hp as (Hm & _ & Hend).
  rewrite length_app in Hend. cbn [length] in Hend. change (virt_bytes m (paddr2vaddr a) (length text)) with (phys_bytes m a (length text)).
  rewrite (phys_bytes_head m a _ _ Hm) by (rewrite ?length_app; cbn [length]; lia). by rewrite take_app_length.
Qed.

Lemma length_concat_map {A} (f : A -> list Z) size (l : list A) :
  (forall x, length (f x) = size) -> length (concat (f <$> l)) = (length l * size)%nat.
Proof. intros Hf. induction l as [|x l IH]; [done|]. rewrite fmap_cons. cbn [concat length]. rewrite length_app, Hf, IH. lia. Qed.

(** An array of structures in memory. *)
Lemma phys_array_spec {A} m (read : list Z -> A) (write : A -> list Z) size a (l : list A) :
  placed m a (concat (write <$> l)) -> (forall x, length (write x) = size) -> Forall (fun x => read (write x) = x) l ->
  phys_array m read size a (len l) = Ret l.
Proof.
  intros (Hm & Ha & Hend) Hsize Hread. unfold phys_array. destruct (Z.eqb_spec (len l) 0) as [E|_].
  { by destruct l. }
  pose proof (length_concat_map write size l Hsize) as Hlen. rewrite Nat2Z.id.
  rewrite (phys_bytes_head m a _ _ Hm) by lia. cbn [obind]. rewrite take_ge by lia. f_equal.
  pose proof (read_array_concat read write size l []) as Hra. rewrite app_nil_r in Hra. apply Hra.
  eapply Forall_impl; [exact Hread|]. intros x Hx. split; [apply Hsize|done].
Qed.

Lemma length_hvm_module e : length (hvm_module_bytes e) = 32%nat.
Proof. unfold hvm_module_bytes. by rewrite !length_app, !length_le_bytes. Qed.

Lemma length_hvm_memory e : length (hvm_memory_bytes e) = 24%nat.
Proof. unfold hvm_memory_bytes. by rewrite !length_app, !length_le_bytes. Qed.

Lemma read_hvm_module_bytes e : hvm_module_ok e -> read_hvm_module (hvm_module_bytes e) = e.
Proof.
  intros (H1 & H2 & H3 & H4 & H5). unfold read_hvm_module, hvm_module_bytes. destruct e.
  cbn [hm_paddr hm_size hm_cmdline hm_reserved] in *. f_equal; read_field.
Qed.

Lemma read_hvm_memory_bytes e : hvm_memory_ok e -> read_hvm_memory (hvm_memory_bytes e) = e.
Proof.
  intros (H1 & H2 & H3 & H4). unfold read_hvm_memory, hvm_memory_bytes. destruct e.
  cbn [he_addr he_size he_type he_reserved] in *. f_equal; read_field.
Qed.

Lemma push_modules_spec {P : Profile} mods : forall v l,
  Forall hvm_module_ok mods -> holds8 v l ->
  exists v', push_modules mods v = Ret v' /\ holds8 v' (l ++ (hvm_module <$> mods)).
Proof.
  induction mods as [|e mods IH]; intros v l Hok Hv; [exists v; by rewrite app_nil_r|].
  apply Forall_cons in Hok as [(H1 & H2 & H3 & _) Hoks]. cbn [push_modules]. rewrite usize_add_ok by lia. cbn [obind].
  destruct (push_holds8 v l (hvm_module e) Hv) as (v1 & E & Hv1). unfold hvm_module in E. rewrite E. cbn [obind].
  destruct (IH v1 _ Hoks Hv1) as (v' & E' & Hv'). exists v'. split; [done|]. by rewrite fmap_cons, <- app_assoc in *.
Qed.

Lemma push_rams_spec {P : Profile} mmap : forall v l,
  holds8 v l -> exists v', push_rams mmap v = Ret v' /\ holds8 v' (l ++ concat (hvm_rams <$> mmap)).
Proof.
  induction mmap as [|e mmap IH]; intros v l Hv; [exists v; by rewrite app_nil_r|]. cbn [push_rams].
  rewrite fmap_cons. cbn [concat]. unfold hvm_rams at 1. destruct (he_type e =? HVM_MEMMAP_TYPE_RAM).
  - destruct (push_holds8 v l (mkFreeRam (he_addr e) (he_size e)) Hv) as (v1 & -> & Hv1). cbn [obind].
    destruct (IH v1 _ Hv1) as (v' & E' & Hv'). exists v'. split; [done|]. by rewrite <- app_assoc in Hv'.
  - cbn [obind app]. by apply IH.
Qed.

Lemma read_start_info_bytes h :
  length (hvm_magic h) = 4%nat -> 0 <= hvm_version h < 2 ^ 32 -> 0 <= hvm_flags h < 2 ^ 32 -> 0 <= nr_modules h < 2 ^ 32 ->
  0 <= modlist_paddr h < 2 ^ 64 -> 0 <= cmdline_paddr h < 2 ^ 64 -> 0 <= rsdp_paddr h < 2 ^ 64 ->
  0 <= memmap_paddr h < 2 ^ 64 -> 0 <= memmap_entries h < 2 ^ 32 -> 0 <= hvm_reserved h < 2 ^ 32 ->
  read_hvm_start_info (hvm_start_info_bytes h) = h.
Proof.
  intros Hl. intros. unfold read_hvm_start_info, hvm_start_info_bytes. destruct h as [mg].
  cbn [hvm_magic hvm_version hvm_flags nr_modules modlist_paddr cmdline_paddr rsdp_paddr memmap_paddr memmap_entries hvm_reserved] in *.
  f_equal; [rewrite <- Hl; apply take_app_length|..];
    (rewrite (field_skip mg) by lia); rewrite Hl; simpl Nat.sub; read_field.
Qed.

Section ParseLemma.
Context {P : Profile}.

Lemma parse_start_info_spec m fuel a h text mods mmap :
  pvh_at m a h text mods mmap -> (length text < fuel)%nat ->
  exists info, parse_start_info m fuel a = Ret info /\ info_is info text (hvm_module <$> mods) (concat (hvm_rams <$> mmap)).
Proof.
  intros [(Hi & Ha & Hend) Hmg (W1 & W2 & W3 & W4) Hc (Hmod & Hnm & Hmok) (Hmem & Hne & Heok)] Hf.
  pose proof (eq_refl : DIRECT_MAP_SIZE = 2 ^ 32) as Hdm.
  assert (length (hvm_start_info_bytes h) = 56%nat) as Hl.
  { unfold hvm_start_info_bytes. rewrite Hmg, !length_app, !length_le_bytes. done. }
  assert (len mods * 32 <= DIRECT_MAP_SIZE) as Hml.
  { destruct Hmod as (_ & ? & Hx). rewrite (length_concat_map _ 32) in Hx by apply length_hvm_module. lia. }
  assert (len mmap * 24 <= DIRECT_MAP_SIZE) as Hel.
  { destruct Hmem as (_ & ? & Hx). rewrite (length_concat_map _ 24) in Hx by apply length_hvm_memory. lia. }
  unfold parse_start_info. rewrite (phys_bytes_head m a _ 56 Hi) by lia. cbn [obind]. rewrite take_ge by lia.
  assert (0 <= cmdline_paddr h < 2 ^ 64) as Hcp by (destruct Hc as [[-> _]|(? & (_ & _ & ?) & _)]; lia).
  rewrite read_start_info_bytes by (try done; try (rewrite ?Hmg, ?Hnm, ?Hne; done || lia); destruct Hmod as (_ & ? & ?); destruct Hmem as (_ & ? & ?); lia).
  rewrite Hmg. cbn [rust_assert obind]. rewrite bool_decide_true by done. cbn [obind rust_assert].
  assert (cstr2slice m fuel (cmdline_paddr h) = Ret text) as ->.
  { destruct Hc as [[-> ->]|(Hp & Hpl & Hnz)]; [done|by apply cstr2slice_spec]. }
  cbn [obind]. rewrite Hnm, (phys_array_spec m read_hvm_module hvm_module_bytes 32 _ mods Hmod length_hvm_module
    (Forall_impl _ _ _ Hmok read_hvm_module_bytes)). cbn [obind].
  destruct (push_modules_spec mods (av_new 8) [] Hmok holds8_new) as (vm & -> & Hvm). cbn [obind].
  rewrite Hne, (phys_array_spec m read_hvm_memory hvm_memory_bytes 24 _ mmap Hmem length_hvm_memory
    (Forall_impl _ _ _ Heok read_hvm_memory_bytes)). cbn [obind].
  destruct (push_rams_spec mmap (av_new 8) [] holds8_new) as (vr & -> & Hvr). cbn [obind].
  eexists. split; [done|]. done.
Qed.

(** What [memory::init] sees of the boot information. *)
Lemma memory_init_same kernel i1 i2 mods rams s :
  holds8 (modules i1) mods -> holds8 (modules i2) mods -> holds8 (free_rams i1) rams -> holds8 (free_rams i2) rams ->
  memory_init kernel i1 s = memory_init kernel i2 s.
Proof.
  intros [_ M1] [_ M2] [_ R1] [_ R2]. unfold memory_init.
  by rewrite (av_rep_slice _ _ M1), (av_rep_slice _ _ M2), (av_rep_slice _ _ R1), (av_rep_slice _ _ R2).
Qed.

End ParseLemma.

(** * Properties *)

Section Theorems.
Context {P : Profile}.

(** The PVH parser returns what the boot loader wrote: for a start info
    structure with the right magic number, in the direct map with everything
    that it points to, the parser returns the command line, the first eight
    modules and the first eight regions of RAM. *)
Theorem pvh_parse_roundtrip m fuel a h text mods mmap :
  pvh_at m a h text mods mmap -> (length text < fuel)%nat ->
  exists info, parse_start_info m fuel a = Ret info /\ cmdline info = text /\
    av_rep (modules info) (take 8 (hvm_module <$> mods)) /\ av_rep (free_rams info) (take 8 (concat (hvm_rams <$> mmap))).
Proof.
  intros Hp Hf. destruct (parse_start_info_spec m fuel a h text mods mmap Hp Hf) as (info & E & Hc & [_ Hm] & [_ Hr]).
  by exists info.
Qed.


(** Memory after the boot loader.  A kernel that is started with Multiboot2
    tags for a sane machine initialises its page allocator with memory that the
    tags call available, below the end of the direct map, and outside of the
    kernel and of every module. *)
Theorem multiboot_memory_usable m fuel tags a kernel :
  Forall tag_ok tags -> mem_holds m a (info_bytes tags) -> 0 <= a -> a + len (info_bytes tags) < DIRECT_MAP_SIZE ->
  mem_ok m -> (length (concat (tag_modules <$> tags)) <= 8)%nat -> (length (concat (tag_rams <$> tags)) <= 8)%nat ->
  boot_ok kernel (concat (tag_modules <$> tags)) (concat (tag_rams <$> tags)) ->
  exists info s, boot_info m fuel 0x36d76289 a = Ret info /\ memory_init kernel info (PageAllocator_new m) = Ret (tt, s) /\
    phys_inv s /\ forall x, phys_avail s x -> usable kernel (concat (tag_modules <$> tags)) (concat (tag_rams <$> tags)) x.
Proof.
  intros Hok Hm Ha Hend Hmem Hl1 Hl2 Hbo. destruct (parse_info_spec m a tags Hok Hm Ha Hend) as (i & E & _ & [_ M] & [_ R]).
  rewrite take_ge in M by done. rewrite take_ge in R by done.
  destruct (memory_init_safe kernel i _ _ m M R Hl1 Hbo Hmem) as (s & res & Es & Hi & _ & Hx & _).
  by exists i, s.
Qed.

End Theorems.

(** ** Witnesses: the machine of Multiboot.v, as PVH describes it *)

Section Witnesses.
#[local] Existing Instance dev.

Definition example_text : list Z := [0x71; 0x75; 0x69; 0x65; 0x74].
Definition example_hvm_mods : list HvmModuleEntry := [mkHvmModule 0x300000 0x10000 0 0].
Definition example_hvm_mmap : list HvmMemoryMapEntry := [mkHvmMemory 0 0x10000000 1 0; mkHvmMemory 0xfec00000 0x1000 2 0].
Definition example_hvm : HvmStartInfo := mkHvmStartInfo HVM_MAGIC 1 0 1 0xa100 0xa200 0 0xa300 2 0.

Definition example_boot_mem : mem :=
  mem_write (mem_write (mem_write (mem_write (mem_write (fun _ => 0)
    0x9000 (info_bytes example_tags)) 0xa000 (hvm_start_info_bytes example_hvm))
    0xa100 (concat (hvm_module_bytes <$> example_hvm_mods))) 0xa200 (example_text ++ [0]))
    0xa300 (concat (hvm_memory_bytes <$> example_hvm_mmap)).

Lemma example_pvh : pvh_at example_boot_mem 0xa000 example_hvm example_text example_hvm_mods example_hvm_mmap.
Proof.
  split.
  - split; [vm_compute; reflexivity|split; [lia|vm_compute; congruence]].
  - reflexivity.
  - cbn. lia.
  - right. split; [cbn; lia|]. split; [|reflexivity]. split; [vm_compute; reflexivity|split; [cbn; lia|vm_compute; congruence]].
  - split; [split; [vm_compute; reflexivity|split; [cbn; lia|vm_compute; congruence]]|]. split; [reflexivity|].
    repeat constructor; cbn; lia.
  - split; [split; [vm_compute; reflexivity|split; [cbn; lia|vm_compute; congruence]]|]. split; [reflexivity|].
    repeat constructor; cbn; lia.
Qed.

Lemma pvh_parse_roundtrip_witness :
  exists info, parse_start_info example_boot_mem 64 0xa000 = Ret info /\ cmdline info = example_text /\
    av_rep (modules info) [mkModule 0x300000 0x310000] /\ av_rep (free_rams info) [mkFreeRam 0 0x10000000].
Proof.
  apply (pvh_parse_roundtrip example_boot_mem 64 0xa000 example_hvm example_text example_hvm_mods example_hvm_mmap example_pvh).
  cbn. lia.
Defined.


Lemma multiboot_memory_usable_witness :
  exists info s, boot_info example_boot_mem 64 0x36d76289 0x9000 = Ret info /\
    memory_init example_kernel info (PageAllocator_new example_boot_mem) = Ret (tt, s) /\ phys_inv s.
Proof.
  destruct (multiboot_memory_usable example_boot_mem 64 example_tags 0x9000 example_kernel) as (info & s & E & Es & Hi & _).
  - exact example_tags_ok.
  - vm_compute. reflexivity.
  - lia.
  - vm_compute. reflexivity.
  - repeat (apply mem_ok_write; [|apply bytes_ok_check; vm_compute; reflexivity]). intros x. unfold is_byte. lia.
  - cbn. lia.
  - cbn. lia.
  - exact example_boot_ok.
  - exists info, s. split; [exact E|]. split; [exact Es|exact Hi].
Defined.

End Witnesses.
