(* ===== verification/Devices.v ===== *)
(** * kernel/src/arch/x64: the devices

    I/O ports and model-specific registers (ioport.rs, msr.rs), the serial
    console (console.rs), the legacy interrupt controller and timer (pic.rs,
    timer.rs), the local and the I/O APIC (local_apic.rs, io_apic.rs), the
    set-up of SYSCALL (syscall.rs) and of the control registers (boot.rs), and
    QEMU's exit device (semihosting.rs).

    The hardware is a parameter: [Bus] says what an access to a port, to a
    device register or to a register of the processor returns and how it
    changes the device.  What the drivers rely on are the classes [Uart] and
    [IoApicDev], which state the behaviour that the data sheets document. *)

From S2P Require Import Prelude Bytes Api Machine Memory SharedRef Thread Server.

(** ** The bus *)

Class Bus (D : Type) := {
  bus_in8 : Z -> D -> Z * D;
  bus_out8 : Z -> Z -> D -> D;
  bus_out32 : Z -> Z -> D -> D;
  (** Volatile accesses to memory-mapped registers, by virtual address. *)
  bus_read32 : Z -> D -> Z * D;
  bus_write32 : Z -> Z -> D -> D;
  (** RDMSR and WRMSR: EAX and EDX. *)
  bus_rdmsr : Z -> D -> Z * Z;
  bus_wrmsr : Z -> Z * Z -> D -> D;
  bus_cr : Z -> D -> Z;
  bus_set_cr : Z -> Z -> D -> D
}.

Section Ports.
Context {P : Profile} {D : Type} `{Bus D}.

Definition out8 (port value : Z) : M D unit := fun d => Ret (tt, bus_out8 port value d).
Definition out32 (port value : Z) : M D unit := fun d => Ret (tt, bus_out32 port value d).
Definition in8 (port : Z) : M D Z := fun d => Ret (bus_in8 port d).

Definition rdmsr (msr : Z) : M D Z :=
  fun d => let (low, high) := bus_rdmsr msr d in Ret (Z.lor (Z.shiftl high 32) low, d).
Definition wrmsr (msr value : Z) : M D unit :=
  fun d => Ret (tt, bus_wrmsr msr (wrap 32 value, wrap 32 (Z.shiftr value 32)) d).

Definition write_volatile (addr value : Z) : M D unit := fun d => Ret (tt, bus_write32 addr value d).
Definition read_volatile (addr : Z) : M D Z := fun d => Ret (bus_read32 addr d).

Definition read_cr (n : Z) : M D Z := fun d => Ret (bus_cr n d, d).
Definition write_cr (n value : Z) : M D unit := fun d => Ret (tt, bus_set_cr n value d).

(** ** console.rs *)

Definition COM1_DATA : Z := 0x3f8.
Definition COM1_IER : Z := COM1_DATA + 1.
Definition COM1_FCR : Z := COM1_DATA + 2.
Definition COM1_LCR : Z := COM1_DATA + 3.
Definition COM1_MCR : Z := COM1_DATA + 4.
Definition COM1_LSR : Z := COM1_DATA + 5.

(** The wait for the serial port; [fuel] bounds the number of polls. *)
Fixpoint wait_ready (fuel : nat) : M D unit :=
  match fuel with
  | O => lift Hang
  | S fuel =>
      do* lsr := in8 COM1_LSR in
      if Z.land lsr 0x20 =? 0 then wait_ready fuel else ret tt
  end.

Definition putchar (fuel : nat) (c : Z) : M D unit :=
  do* _ := wait_ready fuel in out8 COM1_DATA c.

Fixpoint driver_write (fuel : nat) (bytes : list Z) : M D unit :=
  match bytes with
  | [] => ret tt
  | byte :: bytes =>
      do* _ := (if byte =? 10 then putchar fuel 13 else ret tt) in
      do* _ := putchar fuel byte in
      driver_write fuel bytes
  end.

Definition console_init : M D unit :=
  do* _ := out8 COM1_IER 0 in
  do* _ := out8 COM1_LCR (Z.shiftl 1 7) in
  do* _ := out8 COM1_DATA 1 in
  do* _ := out8 COM1_IER 0 in
  do* _ := out8 COM1_LCR 0x03 in
  do* _ := out8 COM1_FCR 0xc7 in
  out8 COM1_MCR 0x03.

(** ** pic.rs and timer.rs *)

Definition PIC0_DATA : Z := 0x21.
Definition PIC1_DATA : Z := 0xa1.
Definition pic_init : M D unit :=
  do* _ := out8 PIC0_DATA 0xff in out8 PIC1_DATA 0xff.

Definition TIMER_IRQ : Z := 0.
Definition TIMER_HZ : Z := 1000.
Definition NANOS_PER_TICK : Z := 1000000000 / TIMER_HZ.
Definition PIT_CH0_DATA : Z := 0x40.
Definition PIT_COMMAND : Z := 0x43.
Definition PIT_HZ : Z := 1193182.
Definition DIVISOR : Z := wrap 16 (PIT_HZ / TIMER_HZ).
Definition TICKS : Z := 0xffffffffffff0000.

Definition timer_init : M D unit :=
  let cmd := Z.lor (Z.shiftl 3 4) (Z.shiftl 2 1) in
  do* _ := out8 PIT_COMMAND cmd in
  do* _ := out8 PIT_CH0_DATA (wrap 8 (Z.land DIVISOR 0xff)) in
  out8 PIT_CH0_DATA (wrap 8 (Z.shiftr DIVISOR 8)).

(** [TICKS.fetch_add(1)] wraps around in every profile. *)
Definition tick (ticks : Z) : Z := wrap 64 (ticks + 1).

(** ** local_apic.rs *)

Definition MSR_IA32_APIC_BASE : Z := 0x1b.
Inductive ApicReg : Set := TaskPriority | EndOfInterrupt | SpuriousInterruptVector.
Definition apic_reg (r : ApicReg) : Z :=
  match r with TaskPriority => 0x80 | EndOfInterrupt => 0xb0 | SpuriousInterruptVector => 0xf0 end.

Definition apic_write (base : Z) (reg : ApicReg) (value : Z) : M D unit :=
  do* addr := lift (usize_add base (apic_reg reg)) in write_volatile addr value.

Record LocalApic : Set := mkLocalApic { la_base : Z }.

Definition LocalApic_init : M D LocalApic :=
  do* v := rdmsr MSR_IA32_APIC_BASE in
  let base_paddr := Z.land v 0xfffff000 in
  let base := paddr2vaddr base_paddr in
  do* _ := apic_write base TaskPriority 0 in
  do* _ := apic_write base SpuriousInterruptVector (Z.shiftl 1 8) in
  ret (mkLocalApic base).

Definition acknowledge_irq (self : LocalApic) : M D unit := apic_write (la_base self) EndOfInterrupt 0.

(** [timer::handle_interrupt]: the new value of [TICKS]. *)
Definition timer_handle_interrupt (local_apic : LocalApic) (ticks : Z) : M D Z :=
  let ticks := tick ticks in
  do* _ := acknowledge_irq local_apic in ret ticks.

(** ** io_apic.rs *)

Definition REG_IOAPICVER : Z := 0x01.
Definition REDIR_TABLE_BASE : Z := 0x10.
Definition IRQ_VECTOR_BASE : Z := 32.

Definition read_ioapic (base reg : Z) : M D Z :=
  do* _ := write_volatile base reg in
  do* addr := lift (usize_add base 0x10) in
  read_volatile addr.
Definition write_ioapic (base reg value : Z) : M D unit :=
  do* _ := write_volatile base reg in
  do* addr := lift (usize_add base 0x10) in
  write_volatile addr value.

Definition redir_reg_low (irq : Z) : outcome Z :=
  let* n := checked_at 32 (irq * 2) in checked_at 32 (REDIR_TABLE_BASE + n).
Definition redir_reg_high (irq : Z) : outcome Z :=
  let* n := redir_reg_low irq in checked_at 32 (n + 1).

Record IoApic : Set := mkIoApic { ia_base : Z; num_entries : Z }.

Definition IoApic_init (base : Z) : M D IoApic :=
  do* ver := read_ioapic base REG_IOAPICVER in
  ret (mkIoApic base (wrap 8 (Z.land (Z.shiftr ver 16) 0xff))).

Definition enable_irq_at (self : IoApic) (redir_index irq : Z) : M D (result ErrorCode unit) :=
  if num_entries self <=? redir_index then ret (Err OUT_OF_BOUNDS)
  else
    do* vector := lift (checked_at 8 (IRQ_VECTOR_BASE + irq)) in
    do* low := lift (redir_reg_low redir_index) in
    do* _ := write_ioapic (ia_base self) low vector in
    do* high := lift (redir_reg_high redir_index) in
    do* _ := write_ioapic (ia_base self) high 0 in
    ret (Ok tt).

Definition enable_irq (self : IoApic) (irq : Z) : M D (result ErrorCode unit) := enable_irq_at self irq irq.

(** [IOAPIC], the static that holds the device. *)
Definition ioapic_init (ioapic : option IoApic) (base : Z) : M D (option IoApic) :=
  match ioapic with
  | Some _ => ret ioapic
  | None => do* io := IoApic_init (paddr2vaddr base) in ret (Some io)
  end.

Definition use_ioapic (ioapic : option IoApic) (f : IoApic -> M D unit) : M D unit :=
  match ioapic with
  | Some io => f io
  | None => lift Panic
  end.

Definition interrupt_acquire (ioapic : option IoApic) (irq : Z) : M D (result ErrorCode unit) :=
  match ioapic with
  | Some io => enable_irq io irq
  | None => lift Panic
  end.

Definition interrupt_acknowledge (local_apic : LocalApic) (irq : Z) : M D unit := acknowledge_irq local_apic.

(** ** syscall.rs, boot.rs, semihosting.rs *)

Definition MSR_IA32_STAR : Z := 0xc0000081.
Definition MSR_IA32_LSTAR : Z := 0xc0000082.
Definition MSR_IA32_FMASK : Z := 0xc0000084.
Definition MSR_IA32_EFER : Z := 0xc0000080.
Definition EFER_SCE : Z := Z.shiftl 1 0.
Definition SYSCALL_FMASK : Z := Z.shiftl 1 9.

(** [handler] is the address of [syscall_handler]; [GDT_KERNEL_CS] its segment. *)
Definition syscall_init (GDT_KERNEL_CS handler : Z) : M D unit :=
  do* efer := rdmsr MSR_IA32_EFER in
  do* _ := wrmsr MSR_IA32_EFER (Z.lor efer EFER_SCE) in
  do* _ := wrmsr MSR_IA32_STAR (Z.shiftl GDT_KERNEL_CS 32) in
  do* _ := wrmsr MSR_IA32_LSTAR handler in
  wrmsr MSR_IA32_FMASK SYSCALL_FMASK.

Definition enable_fsgsbase : M D unit :=
  do* rax := read_cr 4 in write_cr 4 (Z.lor rax (Z.shiftl 1 16)).

Definition enable_sse : M D unit :=
  do* rax := read_cr 0 in
  let rax := Z.land rax (unot 64 (Z.shiftl 1 2)) in
  let rax := Z.lor rax (Z.shiftl 1 1) in
  do* _ := write_cr 0 rax in
  do* rax := read_cr 4 in
  write_cr 4 (Z.lor rax (Z.lor (Z.shiftl 1 9) (Z.shiftl 1 10))).

Definition ISA_DEBUG_EXIT_PORT : Z := 0x501.
(** The loop after the write does not end. *)
Definition semihosting_exit : M D unit :=
  do* _ := out32 ISA_DEBUG_EXIT_PORT 35 in lift Hang.

End Ports.

(** * The devices that the drivers rely on *)

(** ** A 16550 UART on COM1 *)

Class Uart (D : Type) := {
  (** The bytes that the transmitter has taken. *)
  uart_sent : D -> list Z;
  (** The holding register is empty. *)
  uart_empty : D -> bool;
  (** An upper bound on the polls until it is. *)
  uart_busy : D -> nat;
  uart_lcr : D -> Z;
  uart_divisor : D -> Z
}.

Definition uart_dlab {D} `{Uart D} (d : D) : bool := Z.testbit (uart_lcr d) 7.

Class UartLaws (D : Type) `{Bus D, Uart D} (polls : nat) : Prop := {
  uart_busy_bound : forall d : D, (uart_busy d <= polls)%nat;
  (** Bit 5 of the line status says that the holding register is empty. *)
  uart_poll : forall d : D,
    let (v, d') := bus_in8 COM1_LSR d in
    uart_sent d' = uart_sent d /\ uart_lcr d' = uart_lcr d /\
    uart_empty d' = negb (Z.land v 0x20 =? 0) /\ (uart_empty d' = false -> (uart_busy d' < uart_busy d)%nat);
  (** With DLAB clear, a byte written to an empty holding register is sent. *)
  uart_put : forall (d : D) c, uart_dlab d = false -> uart_empty d = true ->
    let d' := bus_out8 COM1_DATA c d in
    uart_sent d' = uart_sent d ++ [c] /\ uart_lcr d' = uart_lcr d;
  uart_set_lcr : forall (d : D) v,
    let d' := bus_out8 COM1_LCR v d in uart_lcr d' = v /\ uart_divisor d' = uart_divisor d;
  (** With DLAB set, the data and the interrupt register are the divisor. *)
  uart_dll : forall (d : D) v, uart_dlab d = true ->
    let d' := bus_out8 COM1_DATA v d in
    uart_lcr d' = uart_lcr d /\ uart_divisor d' = uart_divisor d / 256 * 256 + v;
  uart_dlm : forall (d : D) v, uart_dlab d = true ->
    let d' := bus_out8 COM1_IER v d in
    uart_lcr d' = uart_lcr d /\ uart_divisor d' = 256 * v + uart_divisor d mod 256;
  uart_other : forall (d : D) port v, port = COM1_FCR \/ port = COM1_MCR ->
    let d' := bus_out8 port v d in
    uart_lcr d' = uart_lcr d /\ uart_divisor d' = uart_divisor d
}.

Section Console.
Context {D : Type} `{UartLaws D polls}.

Lemma wait_ready_run fuel d :
  (uart_busy d < fuel)%nat ->
  exists d', wait_ready fuel d = Ret (tt, d') /\
    uart_sent d' = uart_sent d /\ uart_lcr d' = uart_lcr d /\ uart_empty d' = true.
Proof.
  revert d. induction fuel as [|fuel IH]; intros d Hb; [lia|].
  pose proof (uart_poll d) as Hp. cbn [wait_ready]. unfold bind, in8.
  destruct (bus_in8 COM1_LSR d) as [v d'] eqn:E. cbn [obind].
  destruct Hp as (Hs & Hl & He & Hlt). destruct (Z.land v 0x20 =? 0).
  - cbn in He. destruct (IH d') as (d2 & E2 & Hs2 & Hl2 & He2); [specialize (Hlt He); lia|].
    exists d2. rewrite E2, Hs2, Hl2. auto.
  - exists d'. auto.
Qed.

Lemma putchar_run fuel d c :
  uart_dlab d = false -> (polls < fuel)%nat ->
  exists d', putchar fuel c d = Ret (tt, d') /\ uart_sent d' = uart_sent d ++ [c] /\ uart_dlab d' = false.
Proof.
  intros Hd Hf. pose proof (uart_busy_bound d).
  destruct (wait_ready_run fuel d) as (d1 & E1 & Hs1 & Hl1 & He1); [lia|].
  destruct (uart_put d1 c) as [Hs2 Hl2]; [unfold uart_dlab in *; congruence|exact He1|].
  exists (bus_out8 COM1_DATA c d1). unfold putchar. rewrite (bind_run _ _ _ _ _ E1).
  split; [reflexivity|]. unfold uart_dlab in *. split; congruence.
Qed.

Lemma driver_write_run fuel bytes d :
  uart_dlab d = false -> (polls < fuel)%nat ->
  exists d', driver_write fuel bytes d = Ret (tt, d') /\
    uart_sent d' = uart_sent d ++ console_bytes bytes /\ uart_dlab d' = false.
Proof.
  intros Hd Hf. revert d Hd. induction bytes as [|c bytes IH]; intros d Hd.
  { exists d. cbn. by rewrite app_nil_r. }
  assert (exists d1, (if c =? 10 then putchar fuel 13 else ret tt) d = Ret (tt, d1) /\
    uart_sent d1 = uart_sent d ++ (if c =? 10 then [13] else []) /\ uart_dlab d1 = false)
    as (d1 & E1 & Hs1 & Hd1).
  { destruct (c =? 10); [by apply putchar_run|]. exists d. by rewrite app_nil_r. }
  destruct (putchar_run fuel d1 c) as (d2 & E2 & Hs2 & Hd2); [done..|].
  destruct (IH d2) as (d3 & E3 & Hs3 & Hd3); [done|].
  exists d3. cbn [driver_write]. rewrite (bind_run _ _ _ _ _ E1), (bind_run _ _ _ _ _ E2), E3.
  split; [done|]. split; [|done]. rewrite Hs3, Hs2, Hs1, <-!app_assoc.
  cbn [console_bytes flat_map]. by destruct (c =? 10).
Qed.

Lemma console_init_run d :
  exists d', console_init d = Ret (tt, d') /\ uart_lcr d' = 0x03 /\ uart_divisor d' = 1.
Proof.
  eexists. split; [reflexivity|].
  set (d1 := bus_out8 COM1_LCR (Z.shiftl 1 7) _). set (d2 := bus_out8 COM1_DATA 1 d1).
  set (d3 := bus_out8 COM1_IER 0 d2). set (d4 := bus_out8 COM1_LCR 0x03 d3).
  destruct (uart_set_lcr (bus_out8 COM1_IER 0 d) (Z.shiftl 1 7)) as [L1 V1]. fold d1 in L1, V1.
  destruct (uart_dll d1 1) as [L2 V2]; [unfold uart_dlab; by rewrite L1|]. fold d2 in L2, V2.
  destruct (uart_dlm d2 0) as [L3 V3]; [unfold uart_dlab; by rewrite L2, L1|]. fold d3 in L3, V3.
  destruct (uart_set_lcr d3 0x03) as [L4 V4]. fold d4 in L4, V4.
  destruct (uart_other d4 COM1_FCR 0xc7) as [L5 V5]; [auto|].
  destruct (uart_other (bus_out8 COM1_FCR 0xc7 d4) COM1_MCR 0x03) as [L6 V6]; [auto|].
  rewrite L6, L5, L4, V6, V5, V4, V3, V2. split; [done|].
  rewrite (Z.add_comm _ 1), Z_mod_plus_full. reflexivity.
Qed.

End Console.

(** C34: After [console::init], whatever state the serial port was left in, it
    runs at divisor 1 with 8 data bits, no parity and one stop bit, and
    [console_write] ends and sends exactly the bytes of the abstract console,
    every line feed preceded by a carriage return, behind what was sent before. *)
Theorem console_driver_refines {D : Type} `{UartLaws D polls} (d : D) (fuel : nat) (bytes : list Z) :
  (polls < fuel)%nat ->
  exists d0 d1,
    console_init d = Ret (tt, d0) /\ uart_lcr d0 = 0x03 /\ uart_divisor d0 = 1 /\
    driver_write fuel bytes d0 = Ret (tt, d1) /\ uart_sent d1 = uart_sent d0 ++ console_bytes bytes.
Proof.
  intros Hf. destruct (console_init_run d) as (d0 & E0 & L0 & V0).
  destruct (driver_write_run fuel bytes d0) as (d1 & E1 & S1 & _); [unfold uart_dlab; by rewrite L0|done|].
  eauto 10.
Qed.

(** ** An I/O APIC at [base] with [pins] interrupt inputs

    The registers are seen without their read-only status bits. *)

Class IoApicDev (D : Type) := {
  io_sel : D -> Z;
  io_regs : D -> Z -> Z
}.

Class IoApicLaws (D : Type) `{Bus D, IoApicDev D} (base pins : Z) : Prop := {
  io_base : 0 <= base /\ base + 0x10 < 2 ^ 64;
  io_pins : 1 <= pins <= 120;
  io_select : forall (d : D) r, 0 <= r < 256 ->
    let d' := bus_write32 base r d in
    io_sel d' = r /\ forall i, io_regs d' i = io_regs d i;
  io_window_read : forall d : D,
    let (v, d') := bus_read32 (base + 0x10) d in
    v = io_regs d (io_sel d) /\ forall i, io_regs d' i = io_regs d i;
  (** The registers of the redirection table can be written. *)
  io_window_write : forall (d : D) v, 0x10 <= io_sel d < 0x10 + 2 * pins -> 0 <= v < 2 ^ 32 ->
    let d' := bus_write32 (base + 0x10) v d in
    forall i, io_regs d' i = if i =? io_sel d then v else io_regs d i;
  (** The version register holds the number of the last entry. *)
  io_version : forall d : D, Z.land (Z.shiftr (io_regs d 1) 16) 0xff = pins - 1
}.

(** An entry of the redirection table. *)
Record RedirEntry : Set := mkRedirEntry {
  re_vector : Z;
  re_delivery : Z;
  re_logical : bool;
  re_active_low : bool;
  re_level : bool;
  re_masked : bool;
  re_dest : Z
}.

Definition redir_entry {D} `{IoApicDev D} (d : D) (i : Z) : RedirEntry :=
  let low := io_regs d (0x10 + 2 * i) in
  let high := io_regs d (0x10 + 2 * i + 1) in
  mkRedirEntry (low mod 256) (low / 256 mod 8) (Z.testbit low 11) (Z.testbit low 13)
    (Z.testbit low 15) (Z.testbit low 16) (high / 2 ^ 24).

(** Unmasked, edge-triggered, active-high, fixed delivery to the APIC 0. *)
Definition routed (vector : Z) : RedirEntry := mkRedirEntry vector 0 false false false false 0.

Section IoApicDriver.
Context {P : Profile} {D : Type} `{IoApicLaws D base pins}.

Lemma write_ioapic_run r v d :
  0x10 <= r < 0x10 + 2 * pins -> 0 <= v < 2 ^ 32 ->
  exists d', write_ioapic base r v d = Ret (tt, d') /\
    forall i, io_regs d' i = if i =? r then v else io_regs d i.
Proof.
  intros Hr Hv. pose proof io_base. pose proof io_pins.
  destruct (io_select d r) as [Hs Hi]; [lia|].
  eexists. split.
  - unfold write_ioapic. erewrite bind_run by reflexivity.
    erewrite bind_lift by (apply usize_add_ok; lia). reflexivity.
  - intros i. rewrite io_window_write, Hs by (rewrite ?Hs; lia). by rewrite Hi.
Qed.

Lemma IoApic_init_run d :
  exists d', IoApic_init base d = Ret (mkIoApic base (pins - 1), d') /\
    forall i, io_regs d' i = io_regs d i.
Proof.
  pose proof io_base. pose proof io_pins.
  destruct (io_select d 1) as [Hs Hi]; [lia|].
  set (d1 := bus_write32 base 1 d) in *. pose proof (io_window_read d1) as Hw.
  destruct (bus_read32 (base + 0x10) d1) as [v d2] eqn:E. destruct Hw as [-> Hi2].
  exists d2. split; [|intros i; by rewrite Hi2].
  unfold IoApic_init, read_ioapic, REG_IOAPICVER. rewrite bind_assoc. erewrite bind_run by reflexivity. fold d1.
  rewrite bind_assoc. erewrite bind_lift by (apply usize_add_ok; lia).
  erewrite bind_run by (unfold read_volatile; rewrite E; reflexivity).
  rewrite Hs, io_version. unfold ret, wrap. rewrite Z.mod_small by lia. reflexivity.
Qed.

Lemma redir_regs i :
  0 <= i < 2 ^ 30 -> redir_reg_low i = Ret (0x10 + 2 * i) /\ redir_reg_high i = Ret (0x10 + 2 * i + 1).
Proof.
  intros Hi. unfold redir_reg_high, redir_reg_low, REDIR_TABLE_BASE.
  rewrite !checked_at_ok by lia. cbn [obind]. rewrite !checked_at_ok by lia. cbn [obind].
  rewrite !checked_at_ok by lia. split; do 2 f_equal; lia.
Qed.

Lemma enable_irq_at_run index irq d :
  0 <= index < pins - 1 -> 0 <= irq < 224 ->
  exists d', enable_irq_at (mkIoApic base (pins - 1)) index irq d = Ret (Ok tt, d') /\
    redir_entry d' index = routed (32 + irq) /\
    forall i, 0 <= i -> i <> index -> redir_entry d' i = redir_entry d i.
Proof.
  intros Hx Hi. pose proof io_pins. destruct (redir_regs index) as [El Eh]; [lia|].
  destruct (write_ioapic_run (0x10 + 2 * index) (32 + irq) d) as (d1 & E1 & R1); [lia..|].
  destruct (write_ioapic_run (0x10 + 2 * index + 1) 0 d1) as (d2 & E2 & R2); [lia..|].
  exists d2. unfold enable_irq_at. cbn [num_entries ia_base].
  destruct (Z.leb_spec (pins - 1) index); [lia|].
  unfold IRQ_VECTOR_BASE. erewrite bind_lift by (apply checked_at_ok; lia).
  rewrite (bind_lift _ _ _ _ El), (bind_run _ _ _ _ _ E1), (bind_lift _ _ _ _ Eh), (bind_run _ _ _ _ _ E2).
  split; [done|]. unfold redir_entry. split.
  - rewrite !R2, !R1, Z.eqb_refl, Z.eqb_refl.
    destruct (Z.eqb_spec (16 + 2 * index) (16 + 2 * index + 1)); [lia|].
    unfold routed. rewrite Z.mod_small, Z.div_small by lia.
    rewrite !(Z.bits_above_log2 (32 + irq)) by (try lia; apply Z.log2_lt_pow2; lia). reflexivity.
  - intros i H0i Hne. rewrite !R2, !R1.
    repeat match goal with |- context [?a =? ?b] => destruct (Z.eqb_spec a b); [lia|] end. reflexivity.
Qed.

End IoApicDriver.

(** C35: On an I/O APIC with [pins] inputs, [IoApic::init] leaves the
    redirection table alone, and [enable_irq_at] routes exactly the given
    input: vector 32 + irq, fixed delivery to the boot processor, unmasked,
    edge-triggered, active high; every other entry is kept.  An index that is
    out of range is refused and nothing is written.  The range ends one input
    early: the version register holds the number of the last entry, not the
    number of entries, and the last input cannot be enabled. *)
Theorem ioapic_routes_irq {P : Profile} {D : Type} `{IoApicLaws D base pins} (d : D) :
  exists io d0,
    IoApic_init base d = Ret (io, d0) /\
    (forall i, redir_entry d0 i = redir_entry d i) /\
    forall index irq, 0 <= index < 256 -> 0 <= irq < 224 ->
      if index <? pins - 1
      then exists d1, enable_irq_at io index irq d0 = Ret (Ok tt, d1) /\
             redir_entry d1 index = routed (32 + irq) /\
             forall i, 0 <= i -> i <> index -> redir_entry d1 i = redir_entry d i
      else enable_irq_at io index irq d0 = Ret (Err OUT_OF_BOUNDS, d0).
Proof.
  destruct (IoApic_init_run d) as (d0 & E0 & R0).
  assert (Hr : forall i, redir_entry d0 i = redir_entry d i) by (intros i; unfold redir_entry; by rewrite !R0).
  exists (mkIoApic base (pins - 1)), d0. split; [done|]. split; [done|].
  intros index irq Hx Hi. destruct (Z.ltb_spec index (pins - 1)).
  - destruct (enable_irq_at_run index irq d0) as (d1 & E1 & R1 & F1); [lia..|].
    exists d1. split; [done|]. split; [done|]. intros i H0i Hne. rewrite <-Hr. auto.
  - unfold enable_irq_at. cbn [num_entries]. destruct (Z.leb_spec (pins - 1) index); [done|lia].
Qed.

(** ** A concrete machine

    A serial port that is busy for one poll after every byte and an I/O APIC
    with 24 inputs at 0xfec00000; the other devices ignore what they are told. *)

Inductive PcTx : Set := Sending | Shifting | Idle.

Record Pc : Type := mkPc {
  pc_sent : list Z;
  pc_tx : PcTx;
  pc_lcr : Z;
  pc_divisor : Z;
  pc_sel : Z;
  pc_redir : Z -> Z
}.

Definition PC_IOAPIC : Z := paddr2vaddr 0xfec00000.
Definition pc_regs (d : Pc) (i : Z) : Z := if i =? 1 then 0x170011 else pc_redir d i.
Definition pc_idle (d : Pc) : bool := match pc_tx d with Idle => true | _ => false end.

Definition pc_out8 (port v : Z) (d : Pc) : Pc :=
  let uart sent tx lcr divisor := mkPc sent tx lcr divisor (pc_sel d) (pc_redir d) in
  if port =? COM1_LCR then uart (pc_sent d) (pc_tx d) v (pc_divisor d)
  else if Z.testbit (pc_lcr d) 7 then
    if port =? COM1_DATA then uart (pc_sent d) (pc_tx d) (pc_lcr d) (pc_divisor d / 256 * 256 + v)
    else if port =? COM1_IER then uart (pc_sent d) (pc_tx d) (pc_lcr d) (256 * v + pc_divisor d mod 256)
    else d
  else if (port =? COM1_DATA) && pc_idle d then uart (pc_sent d ++ [v]) Sending (pc_lcr d) (pc_divisor d)
  else d.

Definition pc_in8 (port : Z) (d : Pc) : Z * Pc :=
  let tx t := mkPc (pc_sent d) t (pc_lcr d) (pc_divisor d) (pc_sel d) (pc_redir d) in
  if port =? COM1_LSR
  then match pc_tx d with Sending => (0, tx Shifting) | _ => (0x60, tx Idle) end
  else (0xff, d).

Definition pc_write32 (addr v : Z) (d : Pc) : Pc :=
  let io sel redir := mkPc (pc_sent d) (pc_tx d) (pc_lcr d) (pc_divisor d) sel redir in
  if addr =? PC_IOAPIC then io v (pc_redir d)
  else if addr =? PC_IOAPIC + 0x10 then io (pc_sel d) (fun i => if i =? pc_sel d then v else pc_redir d i)
  else d.

Definition pc_read32 (addr : Z) (d : Pc) : Z * Pc :=
  (if addr =? PC_IOAPIC + 0x10 then pc_regs d (pc_sel d) else 0, d).

#[export] Instance pc_bus : Bus Pc := {|
  bus_in8 := pc_in8;
  bus_out8 := pc_out8;
  bus_out32 _ _ d := d;
  bus_read32 := pc_read32;
  bus_write32 := pc_write32;
  bus_rdmsr _ _ := (0, 0);
  bus_wrmsr _ _ d := d;
  bus_cr _ _ := 0;
  bus_set_cr _ _ d := d
|}.

#[export] Instance pc_uart : Uart Pc := {|
  uart_sent := pc_sent;
  uart_empty := pc_idle;
  uart_busy d := match pc_tx d with Sending => 1%nat | _ => O end;
  uart_lcr := pc_lcr;
  uart_divisor := pc_divisor
|}.

#[export] Instance pc_ioapic : IoApicDev Pc := {| io_sel := pc_sel; io_regs := pc_regs |}.

Lemma pc_uart_laws : UartLaws Pc 1.
Proof.
  split; cbn -[Z.testbit]; unfold uart_dlab, pc_out8; cbn -[Z.testbit].
  - intros d. destruct (pc_tx d); lia.
  - intros d. unfold pc_in8, pc_idle. cbn. destruct (pc_tx d); cbn; split_and!; try reflexivity; intros; try discriminate; cbn; lia.
  - intros d c -> ->. done.
  - done.
  - by intros d v ->.
  - by intros d v ->.
  - intros d port v [-> | ->]; destruct (Z.testbit (pc_lcr d) 7); split; reflexivity.
Qed.

Lemma pc_ioapic_laws : IoApicLaws Pc PC_IOAPIC 24.
Proof.
  split; try done.
  intros d v Hs Hv d' i. change (pc_regs d' i = if i =? pc_sel d then v else pc_regs d i).
  unfold pc_regs. change (io_sel d) with (pc_sel d) in Hs.
  change (pc_redir d' i) with (if i =? pc_sel d then v else pc_redir d i).
  destruct (Z.eqb_spec i 1), (Z.eqb_spec i (pc_sel d)); (reflexivity || lia).
Qed.

Definition pc0 : Pc := mkPc [] Idle 0 0 0 (fun _ => 0x10000).

Lemma console_driver_refines_witness :
  exists d0 d1,
    console_init pc0 = Ret (tt, d0) /\ uart_lcr d0 = 0x03 /\ uart_divisor d0 = 1 /\
    driver_write 2 [104; 105; 10] d0 = Ret (tt, d1) /\ uart_sent d1 = uart_sent d0 ++ [104; 105; 13; 10].
Proof. apply (console_driver_refines (H1 := pc_uart_laws) pc0 2 [104; 105; 10]). lia. Defined.

Lemma ioapic_routes_irq_witness :
  exists io d0,
    IoApic_init (P := dev) PC_IOAPIC pc0 = Ret (io, d0) /\
    (forall i, redir_entry d0 i = redir_entry pc0 i) /\
    forall index irq, 0 <= index < 256 -> 0 <= irq < 224 ->
      if index <? 23
      then exists d1, enable_irq_at (P := dev) io index irq d0 = Ret (Ok tt, d1) /\
             redir_entry d1 index = routed (32 + irq) /\
             forall i, 0 <= i -> i <> index -> redir_entry d1 i = redir_entry pc0 i
      else enable_irq_at (P := dev) io index irq d0 = Ret (Err OUT_OF_BOUNDS, d0).
Proof. apply (ioapic_routes_irq (P := dev) (H1 := pc_ioapic_laws) pc0). Defined.
