(* ===== verification/Print.v ===== *)
(** * kernel/src/print.rs, panic.rs and ftl_utils/src/formatter.rs

    The kernel's messages, which go to the serial port (Devices.v), the panic
    handler, the text of addresses and of byte sizes. *)

From Stdlib Require Import String.
From S2P Require Import Prelude Bytes Text Api Machine Memory StartInfo Server ServerApi Devices.

(** ** print.rs and panic.rs *)

Section KernelPrint.
Context {D : Type} `{Bus D} (polls : nat).

Definition Printer_write_str (s : list Z) : M D unit := driver_write polls s.

(** The macros write the pieces of a line one after the other
    ([driver_write_app]). *)
Definition kernel_println (text : list Z) : M D unit := Printer_write_str (text ++ [10]).
Definition kernel_info (text : list Z) : M D unit := kernel_println (str "[kernel    ] INFO  " ++ text).
Definition kernel_warn (text : list Z) : M D unit :=
  kernel_println (str "[kernel    ] " ++ ESC "[33mWARN" ++ ESC "[0m  " ++ text).
Definition kernel_error (text : list Z) : M D unit :=
  kernel_println (str "[kernel    ] " ++ ESC "[31mERROR" ++ ESC "[0m  " ++ text).
Definition kernel_trace (text : list Z) : M D unit := kernel_println (str "[kernel    ] " ++ text).

(** [info] is the text of the panic's [PanicInfo]. *)
Definition kernel_panic (info : list Z) : M D unit :=
  do* _ := kernel_println (str "kernel panic: " ++ info) in lift Hang.

End KernelPrint.

(** ** The formatters of address.rs, on a 64-bit target *)

Definition PAddr_fmt (addr : Z) : list Z := str "0x" ++ fmt_hex16 addr.
Definition VAddr_fmt (addr : Z) : list Z := str "0x" ++ fmt_hex16 addr.
Definition UAddr_fmt (addr : Z) : list Z := str "0x" ++ fmt_hex16 addr.

(** ** formatter.rs *)

Definition BYTE_UNITS : list (list Z) := [str "B"; str "KiB"; str "MiB"; str "GiB"; str "TiB"].

(** The loop; [units] are the units above [unit]. *)
Fixpoint byte_size_loop (units : list (list Z)) (unit : list Z) (value : Z) : Z * list Z :=
  match units with
  | [] => (value, unit)
  | u :: units => if 1024 <=? value then byte_size_loop units u (value / 1024) else (value, unit)
  end.

Definition ByteSize_fmt (self : Z) : list Z :=
  let (value, unit) := byte_size_loop (drop 1 BYTE_UNITS) (str "B") self in
  fmt_usize value ++ str " " ++ unit.

(** * Lemmas *)

Lemma driver_write_app {D : Type} `{Bus D} polls a b (d : D) :
  driver_write polls (a ++ b) d = (do* _ := driver_write polls a in driver_write polls b) d.
Proof.
  revert d. induction a as [|c a IH]; intros d; [done|]. cbn [app driver_write]. unfold bind.
  destruct ((if c =? 10 then putchar polls 13 else ret tt) d) as [[[] d1]| | |]; cbn [obind]; [|done..].
  destruct (putchar polls c d1) as [[[] d2]| | |]; cbn [obind]; [apply IH|done..].
Qed.

Lemma byte_size_loop_spec units : forall unit value,
  0 <= value ->
  exists k, (k <= length units)%nat /\
    byte_size_loop units unit value = (value / 1024 ^ Z.of_nat k, default [] ((unit :: units) !! k)) /\
    ((k < length units)%nat -> value / 1024 ^ Z.of_nat k < 1024) /\ (k <> 0%nat -> 1 <= value / 1024 ^ Z.of_nat k).
Proof.
  induction units as [|u units IH]; intros unit value Hv; [|cbn [byte_size_loop]; destruct (Z.leb_spec 1024 value)].
  - exists 0%nat. cbn. rewrite Z.div_1_r. split_and!; (done || lia).
  - destruct (IH u (value / 1024)) as (k & Hk & E & Hlt & Hge); [apply Z.div_pos; lia|].
    assert (value / 1024 / 1024 ^ Z.of_nat k = value / 1024 ^ Z.of_nat (S k)) as Ed.
    { rewrite Z.div_div by lia. f_equal. rewrite Nat2Z.inj_succ, Z.pow_succ_r by lia. lia. }
    rewrite Ed in *. exists (S k). split; [cbn; lia|]. split; [exact E|]. split; [intros; apply Hlt; cbn in *; lia|].
    intros _. destruct k as [|k]; [|by apply Hge]. apply Z.div_le_lower_bound; [done|]. change (1024 ^ Z.of_nat 1) with 1024. lia.
  - exists 0%nat. cbn. rewrite Z.div_1_r. split_and!; (done || lia).
Qed.

(** * Properties *)

(** The printed number is that many whole units: the largest unit that fits,
    so a number below 1024 unless the unit is TiB, and never zero but for zero. *)
Theorem byte_size_correct (n : Z) :
  0 <= n < 2 ^ 64 ->
  exists k unit value, BYTE_UNITS !! k = Some unit /\ ByteSize_fmt n = fmt_usize value ++ str " " ++ unit /\
    digits_val 10 (fmt_usize value) = value /\ value * 1024 ^ Z.of_nat k <= n < (value + 1) * 1024 ^ Z.of_nat k /\
    (k <> 4%nat -> value < 1024) /\ (k <> 0%nat -> 1 <= value).
Proof.
  intros Hn. destruct (byte_size_loop_spec (drop 1 BYTE_UNITS) (str "B") n) as (k & Hk & E & Hlt & Hge); [lia|].
  cbn [drop BYTE_UNITS length] in Hk, Hlt. destruct (lookup_lt_is_Some_2 BYTE_UNITS k) as [unit Hu]; [cbn; lia|].
  set (v := n / 1024 ^ Z.of_nat k) in *. assert (0 < 1024 ^ Z.of_nat k) as Hp by lia.
  assert (v * 1024 ^ Z.of_nat k <= n < (v + 1) * 1024 ^ Z.of_nat k) as Hv by (unfold v; dlia).
  exists k, unit, v. split; [exact Hu|]. split; [|split; [|split; [exact Hv|split; [intros; apply Hlt; lia|exact Hge]]]].
  - unfold ByteSize_fmt. rewrite E. change (str "B" :: drop 1 BYTE_UNITS) with BYTE_UNITS. by rewrite Hu.
  - assert (0 <= v < 10 ^ 20) as Hv20 by (split; [apply Z.div_pos; lia|nia]).
    unfold fmt_usize. rewrite digits_val_digits by (change (Z.of_nat 20) with 20; lia). change (v * 1 + 0 = v). lia.
Qed.

(** What the kernel prints reaches the serial port: a message, whole and behind
    what was sent before, with the line feeds as the console wants them. *)
Theorem kernel_message_sent {D : Type} `{UartLaws D polls} (d : D) (fuel : nat) (text : list Z) :
  (polls < fuel)%nat -> uart_dlab d = false ->
  exists d', kernel_trace fuel text d = Ret (tt, d') /\ uart_dlab d' = false /\
    uart_sent d' = uart_sent d ++ str "[kernel    ] " ++ console_bytes text ++ [13; 10].
Proof.
  intros Hf Hd. unfold kernel_trace, kernel_println, Printer_write_str.
  destruct (driver_write_run fuel ((str "[kernel    ] " ++ text) ++ [10]) d) as (d' & E & Hs & Hd'); [done..|].
  exists d'. split; [done|]. split; [done|]. rewrite Hs. unfold console_bytes. rewrite !flat_map_app, <- app_assoc. done.
Qed.
