(* ===== verification/MpTable.v ===== *)
(** * kernel/src/arch/x64/mp_table.rs: the MP configuration table

    The firmware describes the processors, the buses, the I/O APIC and the
    routing of interrupts in a table that the kernel finds by its signature.
    [mp_init] looks up the input of the I/O APIC that the timer is wired to
    and enables it.  The table is read through the direct map. *)

From S2P Require Import Prelude Bytes ArrayVec Bump Machine Memory Multiboot Api Devices.

Record MpPointerTable : Set := mkMpPointerTable {
  mpp_signature : list Z;
  physical_addr_pointer : Z;
  mpp_length : Z;
  mpp_spec_rev : Z;
  mpp_checksum : Z;
  mp_feature_bytes : list Z
}.

Record MpConfigTable : Set := mkMpConfigTable {
  mpc_signature : list Z;
  mpc_length : Z;
  mpc_spec_rev : Z;
  mpc_checksum : Z;
  oem_id : list Z;
  product_id : list Z;
  oem_table_pointer : Z;
  oem_table_size : Z;
  entry_count : Z;
  local_apic_pointer : Z;
  extended_table_length : Z;
  extended_table_checksum : Z;
  mpc_reserved : Z
}.

Record ProcessorEntry : Set := mkProcessorEntry {
  pe_entry_type : Z;
  local_apic_id : Z;
  local_apic_version : Z;
  cpu_flags : Z;
  cpu_signature : Z;
  feature_flags : Z;
  pe_reserved : list Z
}.

Record BusEntry : Set := mkBusEntry { be_entry_type : Z; bus_id : Z; bus_string : list Z }.

Record IoApicEntry : Set := mkIoApicEntry {
  ie_entry_type : Z;
  io_apic_id : Z;
  io_apic_version : Z;
  io_apic_flags : Z;
  io_apic_address : Z
}.

Record IoInterruptAssignmentEntry : Set := mkIoInterruptAssignmentEntry {
  iie_entry_type : Z;
  interrupt_type : Z;
  flag : Z;
  source_bus_id : Z;
  source_bus_irq : Z;
  dest_io_apic_id : Z;
  dest_io_apic_intin : Z
}.

Definition ENTRY_TYPE_PROCESSOR : Z := 0.
Definition ENTRY_TYPE_BUS : Z := 1.
Definition ENTRY_TYPE_IO_APIC : Z := 2.
Definition ENTRY_TYPE_IO_INT_ASSIGN : Z := 3.

Inductive MpTableEntry : Set :=
| Processor (entry : ProcessorEntry)
| BusE (entry : BusEntry)
| IoApicE (entry : IoApicEntry)
| IoInterruptAssignment (entry : IoInterruptAssignmentEntry)
| Unknown.

(** The packed layouts. *)
Definition bytes_at (b : list Z) (o n : nat) : list Z := take n (drop o b).
Definition read_mp_pointer (b : list Z) : MpPointerTable :=
  mkMpPointerTable (bytes_at b 0 4) (field b 4 4) (field b 8 1) (field b 9 1) (field b 10 1) (bytes_at b 11 5).
Definition read_mp_config (b : list Z) : MpConfigTable :=
  mkMpConfigTable (bytes_at b 0 4) (field b 4 2) (field b 6 1) (field b 7 1) (bytes_at b 8 8)
    (bytes_at b 16 12) (field b 28 4) (field b 32 2) (field b 34 2) (field b 36 4) (field b 40 2)
    (field b 42 1) (field b 43 1).
Definition read_processor (b : list Z) : ProcessorEntry :=
  mkProcessorEntry (field b 0 1) (field b 1 1) (field b 2 1) (field b 3 1) (field b 4 4) (field b 8 4)
    (bytes_at b 12 8).
Definition read_bus (b : list Z) : BusEntry := mkBusEntry (field b 0 1) (field b 1 1) (bytes_at b 2 6).
Definition read_io_apic (b : list Z) : IoApicEntry :=
  mkIoApicEntry (field b 0 1) (field b 1 1) (field b 2 1) (field b 3 1) (field b 4 4).
Definition read_io_int (b : list Z) : IoInterruptAssignmentEntry :=
  mkIoInterruptAssignmentEntry (field b 0 1) (field b 1 1) (field b 2 2) (field b 4 1) (field b 5 1)
    (field b 6 1) (field b 7 1).

(** ["_MP_"] and ["ISA   "]. *)
Definition MP_MAGIC : list Z := [95; 77; 80; 95].
Definition ISA_STRING : list Z := [73; 83; 65; 32; 32; 32].

Definition SEARCH_LOCATIONS : list (Z * Z) := [(0x80000, 0x81000); (0xf0000, 0x100000)].

Section MpTable.
Context {P : Profile} (m : mem).

(** [n] steps of [range.step_by(4)] from [paddr] on. *)
Fixpoint search_range (n : nat) (paddr : Z) : outcome (option MpPointerTable) :=
  match n with
  | O => Ret None
  | S n =>
      let* magic := phys_bytes m paddr 4 in
      if bool_decide (magic = MP_MAGIC)
      then let* b := phys_bytes m paddr 16 in Ret (Some (read_mp_pointer b))
      else search_range n (paddr + 4)
  end.

Fixpoint search_ranges (ranges : list (Z * Z)) : outcome (option MpPointerTable) :=
  match ranges with
  | [] => Ret None
  | (start, end_) :: ranges =>
      let* r := search_range (Z.to_nat ((end_ - start + 3) / 4)) start in
      match r with
      | Some t => Ret (Some t)
      | None => search_ranges ranges
      end
  end.

Definition find_mpfp_table : outcome (option MpPointerTable) := search_ranges SEARCH_LOCATIONS.

Record MpTableIter : Set := mkMpTableIter { mp_config : MpConfigTable; mp_index : Z; entry_addr : Z }.

Definition MpTableIter_new (mp_table : MpPointerTable) : outcome MpTableIter :=
  let mp_config_addr := physical_addr_pointer mp_table in
  let* b := phys_bytes m mp_config_addr 44 in
  let* entry_addr := usize_add mp_config_addr 44 in
  Ret (mkMpTableIter (read_mp_config b) 0 entry_addr).

(** The entry at [addr] and its size. *)
Definition mp_entry_at (addr : Z) : outcome (MpTableEntry * Z) :=
  let* b := phys_bytes m addr 1 in
  let type_byte := field b 0 1 in
  if type_byte =? ENTRY_TYPE_PROCESSOR then
    let* b := phys_bytes m addr 20 in Ret (Processor (read_processor b), 20)
  else if type_byte =? ENTRY_TYPE_BUS then
    let* b := phys_bytes m addr 8 in Ret (BusE (read_bus b), 8)
  else if type_byte =? ENTRY_TYPE_IO_APIC then
    let* b := phys_bytes m addr 8 in Ret (IoApicE (read_io_apic b), 8)
  else if type_byte =? ENTRY_TYPE_IO_INT_ASSIGN then
    let* b := phys_bytes m addr 8 in Ret (IoInterruptAssignment (read_io_int b), 8)
  else Ret (Unknown, 8).

Definition mp_next (self : MpTableIter) : outcome (option MpTableEntry * MpTableIter) :=
  if entry_count (mp_config self) <=? mp_index self then Ret (None, self)
  else
    let* (entry, entry_size) := mp_entry_at (entry_addr self) in
    let* entry_addr := usize_add (entry_addr self) entry_size in
    let* index := checked_at 16 (mp_index self + 1) in
    Ret (Some entry, mkMpTableIter (mp_config self) index entry_addr).

(** [for entry in iter]: the index grows up to [entry_count], a [u16]. *)
Fixpoint mp_for {A} (fuel : nat) (it : MpTableIter) (body : MpTableEntry -> A -> outcome A) (acc : A) : outcome A :=
  match fuel with
  | O => Hang
  | S fuel =>
      let* (e, it) := mp_next it in
      match e with
      | None => Ret acc
      | Some e => let* acc := body e acc in mp_for fuel it body acc
      end
  end.

Definition for_entries {A} (it : MpTableIter) (body : MpTableEntry -> A -> outcome A) (acc : A) : outcome A :=
  mp_for (Z.to_nat (2 ^ 16)) it body acc.

(** [assert!(slot.is_none()); slot = Some(entry)]. *)
Definition set_once {A} (slot : option A) (entry : A) : outcome (option A) :=
  match slot with
  | Some _ => Panic
  | None => Ret (Some entry)
  end.

Definition find_bus_and_apic (e : MpTableEntry) (acc : option BusEntry * option IoApicEntry)
  : outcome (option BusEntry * option IoApicEntry) :=
  let '(isa_bus, ioapic) := acc in
  match e with
  | BusE entry =>
      if bool_decide (bus_string entry = ISA_STRING)
      then let* isa_bus := set_once isa_bus entry in Ret (isa_bus, ioapic)
      else Ret acc
  | IoApicE entry => let* ioapic := set_once ioapic entry in Ret (isa_bus, ioapic)
  | _ => Ret acc
  end.

Definition find_timer (isa_bus : BusEntry) (e : MpTableEntry) (acc : option IoInterruptAssignmentEntry)
  : outcome (option IoInterruptAssignmentEntry) :=
  match e with
  | IoInterruptAssignment entry =>
      if (source_bus_id entry =? bus_id isa_bus) && (source_bus_irq entry =? 0)
      then set_once acc entry
      else Ret acc
  | _ => Ret acc
  end.

Definition expect {A} (o : option A) : outcome A :=
  match o with
  | Some a => Ret a
  | None => Panic
  end.

(** The part of [init] that reads the table: the I/O APIC and the routing. *)
Definition mp_lookup : outcome (IoApicEntry * IoInterruptAssignmentEntry) :=
  let* t := find_mpfp_table in
  let* mp_table := expect t in
  let* iter := MpTableIter_new mp_table in
  let* _ := for_entries iter (fun _ _ => Ret tt) tt in
  let* (isa_bus, ioapic) := for_entries iter find_bus_and_apic (None, None) in
  let* isa_bus := expect isa_bus in
  let* ioapic := expect ioapic in
  let* t := for_entries iter (find_timer isa_bus) None in
  let* timer_int_mapping := expect t in
  if dest_io_apic_id timer_int_mapping =? io_apic_id ioapic
  then Ret (ioapic, timer_int_mapping)
  else Panic.

(** [init]: the new value of [IOAPIC]. *)
Definition mp_init {D : Type} `{Bus D} (static_ioapic : option IoApic) : M D (option IoApic) :=
  do* (ioapic, timer_int_mapping) := lift mp_lookup in
  let ioapic_address := io_apic_address ioapic in
  do* static_ioapic := ioapic_init static_ioapic ioapic_address in
  do* _ := use_ioapic static_ioapic (fun io =>
    do* r := enable_irq_at io (dest_io_apic_intin timer_int_mapping) TIMER_IRQ in
    match r with
    | Ok _ => ret tt
    | Err _ => lift Panic
    end) in
  ret static_ioapic.

End MpTable.

(** * The format *)

Definition u8 (x : Z) : Prop := 0 <= x < 2 ^ 8.

(** The encodings of an entry. *)
Inductive encodes : MpTableEntry -> list Z -> Prop :=
| enc_processor id ver flags sig feat res :
    Forall u8 [id; ver; flags] -> 0 <= sig < 2 ^ 32 -> 0 <= feat < 2 ^ 32 -> length res = 8%nat ->
    encodes (Processor (mkProcessorEntry 0 id ver flags sig feat res))
      ([0; id; ver; flags] ++ le_bytes 4 sig ++ le_bytes 4 feat ++ res)
| enc_bus id name :
    u8 id -> length name = 6%nat -> encodes (BusE (mkBusEntry 1 id name)) ([1; id] ++ name)
| enc_ioapic id ver flags addr :
    Forall u8 [id; ver; flags] -> 0 <= addr < 2 ^ 32 ->
    encodes (IoApicE (mkIoApicEntry 2 id ver flags addr)) ([2; id; ver; flags] ++ le_bytes 4 addr)
| enc_io_int ty fl bus irq apic pin :
    Forall u8 [ty; bus; irq; apic; pin] -> 0 <= fl < 2 ^ 16 ->
    encodes (IoInterruptAssignment (mkIoInterruptAssignmentEntry 3 ty fl bus irq apic pin))
      ([3; ty] ++ le_bytes 2 fl ++ [bus; irq; apic; pin])
| enc_unknown ty rest :
    3 < ty < 2 ^ 8 -> length rest = 7%nat -> encodes Unknown (ty :: rest).

(** The addresses that are searched, in order. *)
Definition mp_searched (p : Z) : Prop :=
  p mod 4 = 0 /\ (0x80000 <= p < 0x81000 \/ 0xf0000 <= p < 0x100000).

(** The first signature is at [p]; the table that it points to has the entries
    [es].  [head] and [tail] are the other fields of the configuration table. *)
Record mp_at (m : mem) (p : Z) (es : list MpTableEntry) : Prop := {
  mp_at_p : mp_searched p;
  mp_at_first : forall q, mp_searched q -> q < p -> ~ mem_holds m q MP_MAGIC;
  mp_at_table : exists ptr rest head tail raw,
    mem_holds m p (MP_MAGIC ++ le_bytes 4 ptr ++ rest) /\ length rest = 8%nat /\
    mem_holds m ptr (head ++ le_bytes 2 (len es) ++ tail ++ concat raw) /\
    length head = 34%nat /\ length tail = 8%nat /\ Forall2 encodes es raw /\
    0 <= ptr /\ ptr + 44 + len (concat raw) <= DIRECT_MAP_SIZE /\ len es < 2 ^ 16
}.

(** What the table says of the timer: the address of the I/O APIC and the
    input, if there is exactly one of each. *)
Definition isa_buses (es : list MpTableEntry) : list BusEntry :=
  omap (fun e => match e with
                 | BusE b => if bool_decide (bus_string b = ISA_STRING) then Some b else None
                 | _ => None
                 end) es.
Definition io_apics (es : list MpTableEntry) : list IoApicEntry :=
  omap (fun e => match e with IoApicE a => Some a | _ => None end) es.
Definition timer_routes (bus : BusEntry) (es : list MpTableEntry) : list IoInterruptAssignmentEntry :=
  omap (fun e => match e with
                 | IoInterruptAssignment i =>
                     if (source_bus_id i =? bus_id bus) && (source_bus_irq i =? 0) then Some i else None
                 | _ => None
                 end) es.

Definition timer_wiring (es : list MpTableEntry) : option (IoApicEntry * IoInterruptAssignmentEntry) :=
  match isa_buses es, io_apics es with
  | [bus], [apic] =>
      match timer_routes bus es with
      | [i] => if dest_io_apic_id i =? io_apic_id apic then Some (apic, i) else None
      | _ => None
      end
  | _, _ => None
  end.

(** * Lemmas *)

Lemma field_cons x r o n : field (x :: r) (S o) n = field r o n.
Proof. reflexivity. Qed.

Lemma field_byte x r : field (x :: r) 0 1 = x.
Proof. unfold field. cbn [drop take le_val]. rewrite take_0. cbn [le_val]. lia. Qed.

Lemma bytes_at_end l r (o n : nat) : length l = o -> length r = n -> bytes_at (l ++ r) o n = r.
Proof. intros <- <-. unfold bytes_at. rewrite drop_app_length, take_ge by lia. done. Qed.

Ltac packed_field :=
  cbn [app]; repeat first [ rewrite field_cons | rewrite field_byte ]; try reflexivity; read_field.

Lemma read_processor_bytes id ver flags sig feat res :
  0 <= sig < 2 ^ 32 -> 0 <= feat < 2 ^ 32 -> length res = 8%nat ->
  read_processor ([0; id; ver; flags] ++ le_bytes 4 sig ++ le_bytes 4 feat ++ res) =
  mkProcessorEntry 0 id ver flags sig feat res.
Proof.
  intros Hs Hf Hr. unfold read_processor. f_equal; try packed_field.
  rewrite !app_assoc. by apply bytes_at_end; [rewrite !length_app, !length_le_bytes|].
Qed.

Lemma read_io_apic_bytes id ver flags addr :
  0 <= addr < 2 ^ 32 ->
  read_io_apic ([2; id; ver; flags] ++ le_bytes 4 addr) = mkIoApicEntry 2 id ver flags addr.
Proof. intros Ha. unfold read_io_apic. f_equal; packed_field. Qed.

Lemma read_io_int_bytes ty fl bus irq apic pin :
  0 <= fl < 2 ^ 16 ->
  read_io_int ([3; ty] ++ le_bytes 2 fl ++ [bus; irq; apic; pin]) =
  mkIoInterruptAssignmentEntry 3 ty fl bus irq apic pin.
Proof.
  intros Hf. unfold read_io_int. f_equal; try packed_field.
  all: cbn [app]; rewrite !field_cons, field_skip by (rewrite length_le_bytes; lia).
  all: rewrite length_le_bytes; simpl Nat.sub; packed_field.
Qed.

Lemma encodes_length e b : encodes e b -> len b = match e with Processor _ => 20 | _ => 8 end.
Proof. destruct 1; rewrite ?length_app, ?length_le_bytes; cbn [length]; lia. Qed.

Section Lookup.
Context {P : Profile} (m : mem).

Lemma entry_at_spec e b a :
  encodes e b -> mem_holds m a b -> 0 <= a -> a + len b <= DIRECT_MAP_SIZE ->
  mp_entry_at m a = Ret (e, len b).
Proof.
  intros He Hm Ha Hb. pose proof (encodes_length _ _ He) as Hl. unfold mp_entry_at.
  assert (phys_bytes m a 1 = Ret (take 1 b)) as -> by (apply phys_bytes_head; try done; destruct e; lia).
  assert (phys_bytes m a (length b) = Ret b) as Hr
    by (rewrite (phys_bytes_head m a b) by done; by rewrite take_ge by done).
  cbn [obind]. rewrite field_take by lia. rewrite Hl.
  destruct He; cbn [app] in *; rewrite field_byte.
  all: unfold ENTRY_TYPE_PROCESSOR, ENTRY_TYPE_BUS, ENTRY_TYPE_IO_APIC, ENTRY_TYPE_IO_INT_ASSIGN.
  5: { repeat match goal with |- context [?x =? ?y] => destruct (Z.eqb_spec x y); [lia|] end. done. }
  all: cbn [Z.eqb Pos.eqb].
  - rewrite (Nat2Z.inj _ 20 Hl) in Hr. rewrite Hr. cbn [obind].
    by rewrite <- (read_processor_bytes id ver flags sig feat res).
  - rewrite (Nat2Z.inj _ 8 Hl) in Hr. rewrite Hr. cbn [obind]. unfold read_bus.
    rewrite field_cons, !field_byte. do 4 f_equal. by apply (bytes_at_end [1; id]).
  - rewrite (Nat2Z.inj _ 8 Hl) in Hr. rewrite Hr. cbn [obind].
    by rewrite <- (read_io_apic_bytes id ver flags addr).
  - rewrite (Nat2Z.inj _ 8 Hl) in Hr. rewrite Hr. cbn [obind].
    by rewrite <- (read_io_int_bytes ty fl bus irq apic pin).
Qed.

(** The loop over the entries is a fold. *)
Fixpoint fold_entries {A} (body : MpTableEntry -> A -> outcome A) (es : list MpTableEntry) (acc : A) : outcome A :=
  match es with
  | [] => Ret acc
  | e :: es => let* acc := body e acc in fold_entries body es acc
  end.

Lemma mp_for_spec {A} (body : MpTableEntry -> A -> outcome A) cfg es raw : forall fuel i a acc,
  Forall2 encodes es raw -> mem_holds m a (concat raw) -> 0 <= a -> a + len (concat raw) <= DIRECT_MAP_SIZE ->
  0 <= i -> entry_count cfg = i + len es -> entry_count cfg < 2 ^ 16 -> (length es < fuel)%nat ->
  mp_for m fuel (mkMpTableIter cfg i a) body acc = fold_entries body es acc.
Proof.
  pose proof (eq_refl : DIRECT_MAP_SIZE = 2 ^ 32) as Hdm.
  revert raw. induction es as [|e es IH]; intros raw [|fuel] i a acc Hes Hm Ha Hb Hi Hc Hc2 Hf; cbn [length] in *; try lia.
  { cbn [mp_for fold_entries]. unfold mp_next. cbn [mp_config mp_index].
    by destruct (Z.leb_spec (entry_count cfg) i); [|lia]. }
  apply Forall2_cons_inv_l in Hes as (b & raws & Heb & Hes & ->). cbn [concat] in *.
  apply mem_holds_app in Hm as [Hm1 Hm2]. rewrite length_app in Hb.
  cbn [mp_for fold_entries]. unfold mp_next. cbn [mp_config mp_index entry_addr].
  destruct (Z.leb_spec (entry_count cfg) i); [lia|].
  rewrite (entry_at_spec _ _ _ Heb Hm1) by lia. cbn [obind].
  rewrite usize_add_ok, checked_at_ok by lia. cbn [obind].
  destruct (body e acc); cbn [obind]; try done. apply (IH raws); (done || lia).
Qed.

Definition option_list {A} (o : option A) : list A := match o with Some a => [a] | None => [] end.

Definition at_most_one {A} (l : list A) : outcome (option A) :=
  match l with
  | [] => Ret None
  | [x] => Ret (Some x)
  | _ => Panic
  end.

Lemma fold_bus_and_apic es : forall bo ao,
  fold_entries find_bus_and_apic es (bo, ao) =
  let* b := at_most_one (option_list bo ++ isa_buses es) in
  let* a := at_most_one (option_list ao ++ io_apics es) in
  Ret (b, a).
Proof.
  induction es as [|e es IH]; intros bo ao.
  { rewrite !app_nil_r. by destruct bo, ao. }
  cbn [fold_entries isa_buses io_apics omap list_omap]. destruct e; cbn [find_bus_and_apic obind]; try apply IH.
  - destruct (bool_decide _); [|apply IH]. destruct bo; [done|]. cbn [set_once obind]. by rewrite IH.
  - destruct ao; cbn [set_once obind]; [|by rewrite IH].
    cbn [option_list app at_most_one obind]. by destruct (option_list bo ++ _) as [|? [|??]].
Qed.

Lemma fold_timer bus es : forall acc,
  fold_entries (find_timer bus) es acc = at_most_one (option_list acc ++ timer_routes bus es).
Proof.
  induction es as [|e es IH]; intros acc.
  { rewrite app_nil_r. by destruct acc. }
  cbn [fold_entries timer_routes omap list_omap]. destruct e; cbn [find_timer obind]; try apply IH.
  destruct (_ && _); [|apply IH]. destruct acc; [done|]. cbn [set_once obind]. by rewrite IH.
Qed.

Lemma fold_unit es : fold_entries (fun _ _ => Ret tt) es tt = Ret tt.
Proof. induction es; auto. Qed.

Lemma phys_bytes_read a n :
  0 <= a -> a + Z.of_nat n <= DIRECT_MAP_SIZE -> phys_bytes m a n = Ret (mem_read m a n).
Proof.
  intros Ha Hb. rewrite (phys_bytes_head m a (mem_read m a n)); rewrite ?length_mem_read; try done.
  - by rewrite take_ge by (by rewrite length_mem_read).
  - unfold mem_holds. by rewrite length_mem_read.
Qed.

Lemma search_range_none n : forall a,
  0 <= a -> a + 4 * Z.of_nat n <= DIRECT_MAP_SIZE ->
  (forall i, 0 <= i < Z.of_nat n -> ~ mem_holds m (a + 4 * i) MP_MAGIC) ->
  search_range m n a = Ret None.
Proof.
  induction n as [|n IH]; intros a Ha Hb Hno; [done|]. cbn [search_range].
  rewrite phys_bytes_read by lia. cbn [obind]. rewrite bool_decide_eq_false_2.
  - apply IH; [lia..|]. intros i Hi. replace (a + 4 + 4 * i) with (a + 4 * (i + 1)) by lia. apply Hno. lia.
  - specialize (Hno 0 ltac:(lia)). by rewrite Z.add_0_r in Hno.
Qed.

Lemma search_range_hit ptr rest n : forall k a,
  0 <= a -> a + 4 * Z.of_nat n + 16 <= DIRECT_MAP_SIZE -> 0 <= k < Z.of_nat n ->
  (forall i, 0 <= i < k -> ~ mem_holds m (a + 4 * i) MP_MAGIC) ->
  mem_holds m (a + 4 * k) (MP_MAGIC ++ le_bytes 4 ptr ++ rest) -> length rest = 8%nat -> 0 <= ptr < 2 ^ 32 ->
  exists t, search_range m n a = Ret (Some t) /\ physical_addr_pointer t = ptr.
Proof.
  induction n as [|n IH]; intros k a Ha Hb Hk Hno Hm Hl Hp; [lia|]. cbn [search_range].
  rewrite phys_bytes_read by lia. cbn [obind]. destruct (Z.eq_dec k 0) as [->|].
  - rewrite Z.add_0_r in Hm. pose proof Hm as [Hmag _]%mem_holds_app. rewrite bool_decide_eq_true_2 by done.
    rewrite (phys_bytes_head m a _ 16 Hm) by (rewrite ?length_app, ?length_le_bytes, ?Hl; cbn [length MP_MAGIC]; lia).
    eexists. split; [reflexivity|]. cbn [read_mp_pointer physical_addr_pointer].
    rewrite field_take by lia. rewrite field_skip by (cbn; lia). apply field_head. lia.
  - rewrite bool_decide_eq_false_2.
    + apply (IH (k - 1)); [lia..| | |done|done].
      * intros i Hi. replace (a + 4 + 4 * i) with (a + 4 * (i + 1)) by lia. apply Hno. lia.
      * by replace (a + 4 + 4 * (k - 1)) with (a + 4 * k) by lia.
    + specialize (Hno 0 ltac:(lia)). by rewrite Z.add_0_r in Hno.
Qed.

(** A range that starts and ends on multiples of 4. *)
Lemma search_none lo hi :
  0 <= lo -> hi <= DIRECT_MAP_SIZE -> lo mod 4 = 0 -> hi mod 4 = 0 -> lo <= hi ->
  (forall q, q mod 4 = 0 -> lo <= q < hi -> ~ mem_holds m q MP_MAGIC) ->
  search_range m (Z.to_nat ((hi - lo + 3) / 4)) lo = Ret None.
Proof.
  intros H0 Hb Hlo Hhi Hle Hno. apply search_range_none; [done|Z.div_mod_to_equations; lia|].
  intros i Hi. apply Hno; [by rewrite Z.mul_comm, Z_mod_plus_full|Z.div_mod_to_equations; lia].
Qed.

Lemma search_hit ptr rest lo hi p :
  0 <= lo -> hi + 16 <= DIRECT_MAP_SIZE -> lo mod 4 = 0 -> hi mod 4 = 0 -> p mod 4 = 0 -> lo <= p < hi ->
  (forall q, q mod 4 = 0 -> lo <= q < p -> ~ mem_holds m q MP_MAGIC) ->
  mem_holds m p (MP_MAGIC ++ le_bytes 4 ptr ++ rest) -> length rest = 8%nat -> 0 <= ptr < 2 ^ 32 ->
  exists t, search_range m (Z.to_nat ((hi - lo + 3) / 4)) lo = Ret (Some t) /\ physical_addr_pointer t = ptr.
Proof.
  intros H0 Hb Hlo Hhi Hp Hle Hno Hm Hl Hptr.
  apply (search_range_hit ptr rest _ ((p - lo) / 4)); [done|Z.div_mod_to_equations; lia..| | |done|done].
  - intros i Hi. apply Hno; [by rewrite Z.mul_comm, Z_mod_plus_full|Z.div_mod_to_equations; lia].
  - by replace (lo + 4 * ((p - lo) / 4)) with p by (Z.div_mod_to_equations; lia).
Qed.

Lemma find_mpfp_table_spec p ptr rest :
  mp_searched p -> (forall q, mp_searched q -> q < p -> ~ mem_holds m q MP_MAGIC) ->
  mem_holds m p (MP_MAGIC ++ le_bytes 4 ptr ++ rest) -> length rest = 8%nat -> 0 <= ptr < 2 ^ 32 ->
  exists t, find_mpfp_table m = Ret (Some t) /\ physical_addr_pointer t = ptr.
Proof.
  pose proof (eq_refl : DIRECT_MAP_SIZE = 2 ^ 32) as Hdm.
  intros [Hp4 Hp] Hfirst Hm Hl Hptr. unfold find_mpfp_table, SEARCH_LOCATIONS, search_ranges. destruct Hp as [Hp|Hp].
  - destruct (search_hit ptr rest 0x80000 0x81000 p) as (t & -> & Ht); try (done || lia); [|by exists t].
    intros q Hq Hr. apply Hfirst; [split; [done|lia]|lia].
  - rewrite (search_none 0x80000 0x81000); try (done || lia).
    + cbn [obind]. destruct (search_hit ptr rest 0xf0000 0x100000 p) as (t & -> & Ht); try (done || lia); [|by exists t].
      intros q Hq Hr. apply Hfirst; [split; [done|lia]|lia].
    + intros q Hq Hr. apply Hfirst; [split; [done|lia]|lia].
Qed.

(** [init] reads from the table what it says of the timer, or panics. *)
Lemma mp_lookup_spec p es :
  mp_at m p es -> mp_lookup m = match timer_wiring es with Some x => Ret x | None => Panic end.
Proof.
  pose proof (eq_refl : DIRECT_MAP_SIZE = 2 ^ 32) as Hdm.
  intros [Hp Hfirst (ptr & rest & head & tail & raw & Hm & Hl & Hc & Hh & Ht & Hes & Hptr & Hend & Hn)].
  destruct (find_mpfp_table_spec p ptr rest) as (t & E & Et); [done..|lia|].
  unfold mp_lookup. rewrite E. cbn [obind expect]. unfold MpTableIter_new. rewrite Et.
  rewrite (phys_bytes_head m ptr _ 44 Hc) by (rewrite ?length_app, ?length_le_bytes; lia).
  cbn [obind]. rewrite usize_add_ok by lia. cbn [obind]. set (cfg := read_mp_config _).
  assert (entry_count cfg = len es) as Hcnt.
  { cbn [cfg read_mp_config entry_count]. rewrite field_take by lia. rewrite field_skip by lia. rewrite Hh. apply field_head. lia. }
  rewrite !app_assoc in Hc. apply mem_holds_app in Hc as [_ Hc].
  rewrite !length_app, length_le_bytes, Hh, Ht in Hc.
  assert (forall A (body : _ -> A -> _) acc,
    for_entries m (mkMpTableIter cfg 0 (ptr + 44)) body acc = fold_entries body es acc) as Hfor
    by (intros; unfold for_entries; apply (mp_for_spec body cfg es raw); done || lia).
  rewrite !Hfor, fold_unit, fold_bus_and_apic. cbn [obind option_list app]. unfold timer_wiring.
  destruct (isa_buses es) as [|b [|??]]; cbn [at_most_one obind expect]; try (by destruct (io_apics es) as [|? [|??]]).
  destruct (io_apics es) as [|a [|??]]; cbn [at_most_one obind expect]; try done.
  rewrite Hfor, fold_timer. cbn [option_list app].
  destruct (timer_routes b es) as [|i [|??]]; cbn [at_most_one obind expect]; try done. by destruct (_ =? _).
Qed.

End Lookup.

Lemma mp_init_spec {P : Profile} (m : mem) (p : Z) (es : list MpTableEntry)
    {D : Type} `{Bus D, IoApicDev D} (base pins : Z) (d : D) :
  mp_at m p es ->
  (forall a i, timer_wiring es = Some (a, i) ->
     0 <= dest_io_apic_intin i /\ base = paddr2vaddr (io_apic_address a) /\ IoApicLaws D base pins) ->
  match timer_wiring es with
  | None => mp_init m None d = Panic
  | Some (a, i) =>
      if dest_io_apic_intin i <? pins - 1
      then exists d', mp_init m None d = Ret (Some (mkIoApic base (pins - 1)), d') /\
             redir_entry d' (dest_io_apic_intin i) = routed 32 /\
             forall j, 0 <= j -> j <> dest_io_apic_intin i -> redir_entry d' j = redir_entry d j
      else mp_init m None d = Panic
  end.
Proof.
  intros Hmp Hdev. pose proof (mp_lookup_spec m p es Hmp) as Hlk. unfold mp_init.
  destruct (timer_wiring es) as [[a i]|].
  2: { unfold bind, lift. by rewrite Hlk. }
  destruct (Hdev a i eq_refl) as (Hpin & -> & Hlaws). rewrite (bind_lift _ _ _ _ Hlk).
  destruct (IoApic_init_run d) as (d0 & E0 & R0).
  assert (ioapic_init None (io_apic_address a) d =
    Ret (Some (mkIoApic (paddr2vaddr (io_apic_address a)) (pins - 1)), d0)) as E1
    by (unfold ioapic_init; by rewrite (bind_run _ _ _ _ _ E0)).
  rewrite (bind_run _ _ _ _ _ E1). cbn [use_ioapic]. destruct (Z.ltb_spec (dest_io_apic_intin i) (pins - 1)).
  - destruct (enable_irq_at_run (dest_io_apic_intin i) 0 d0) as (d2 & E2 & R2 & F2); [lia..|].
    exists d2. rewrite bind_assoc, (bind_run _ _ _ _ _ E2). split; [done|]. split; [done|].
    intros j Hj Hne. rewrite F2 by done. unfold redir_entry. by rewrite !R0.
  - unfold enable_irq_at. cbn [num_entries]. by destruct (Z.leb_spec (pins - 1) (dest_io_apic_intin i)); [|lia].
Qed.

(** C33: With an MP table whose first signature the search reaches, [init] does
    exactly what the table says of the timer.  If there is one ISA bus, one
    I/O APIC and one assignment of the bus's IRQ 0, to an input below the last
    one of that I/O APIC, [init] enables the input with vector 32 and keeps
    every other entry of the redirection table.  In every other case the
    kernel panics. *)
Theorem mp_init_routes_timer {P : Profile} (m : mem) (p : Z) (es : list MpTableEntry)
    {D : Type} `{Bus D, IoApicDev D} (base pins : Z) (d : D) :
  mp_at m p es ->
  (forall a i, timer_wiring es = Some (a, i) ->
     0 <= dest_io_apic_intin i /\ base = paddr2vaddr (io_apic_address a) /\ IoApicLaws D base pins) ->
  match timer_wiring es with
  | None => mp_init m None d = Panic
  | Some (a, i) =>
      if dest_io_apic_intin i <? pins - 1
      then exists d', mp_init m None d = Ret (Some (mkIoApic base (pins - 1)), d') /\
             redir_entry d' (dest_io_apic_intin i) = routed 32 /\
             forall j, 0 <= j -> j <> dest_io_apic_intin i -> redir_entry d' j = redir_entry d j
      else mp_init m None d = Panic
  end.
Proof. apply mp_init_spec. Qed.

(** The table of a virtual PC: the timer is wired to input 2. *)
Definition pc_entries : list MpTableEntry := [
  Processor (mkProcessorEntry 0 0 20 3 0x600 0x201 (replicate 8 0));
  BusE (mkBusEntry 1 0 [80; 67; 73; 32; 32; 32]);
  BusE (mkBusEntry 1 1 ISA_STRING);
  IoApicE (mkIoApicEntry 2 0 0x11 1 0xfec00000);
  IoInterruptAssignment (mkIoInterruptAssignmentEntry 3 0 0 1 1 0 1);
  IoInterruptAssignment (mkIoInterruptAssignmentEntry 3 0 0 1 0 0 2);
  Unknown
].

Definition pc_raw : list (list Z) := [
  [0; 0; 20; 3] ++ le_bytes 4 0x600 ++ le_bytes 4 0x201 ++ replicate 8 0;
  [1; 0] ++ [80; 67; 73; 32; 32; 32];
  [1; 1] ++ ISA_STRING;
  [2; 0; 0x11; 1] ++ le_bytes 4 0xfec00000;
  [3; 0] ++ le_bytes 2 0 ++ [1; 1; 0; 1];
  [3; 0] ++ le_bytes 2 0 ++ [1; 0; 0; 2];
  [4; 3; 0; 0; 0; 0; 0; 0]
].

Definition pc_mem : mem :=
  mem_write (mem_write (fun _ => 0) 0xf5b00 (MP_MAGIC ++ le_bytes 4 0xf5b20 ++ replicate 8 0))
    0xf5b20 (replicate 34 1 ++ le_bytes 2 7 ++ replicate 8 2 ++ concat pc_raw).

Lemma pc_mp_at : mp_at pc_mem 0xf5b00 pc_entries.
Proof.
  split.
  - split; [done|lia].
  - intros q [_ Hq] Hlt Hm. assert (pc_mem q = 95) as Hb.
    { unfold mem_holds, MP_MAGIC in Hm. cbn [length] in Hm.
      pose proof (mem_read_lookup pc_mem q 4 0 ltac:(lia)) as Hl. rewrite Hm, Z.add_0_r in Hl. by injection Hl. }
    unfold pc_mem in Hb. by rewrite !mem_write_out in Hb by lia.
  - exists 0xf5b20, (replicate 8 0), (replicate 34 1), (replicate 8 2), pc_raw.
    split_and!; try (vm_compute; reflexivity); try (vm_compute; congruence); try lia.
    repeat constructor; vm_compute; congruence.
Qed.

(** Other memory does not matter. *)
Lemma pc_mp_at_ext m : (forall x, 0x80000 <= x < 0x100000 -> m x = pc_mem x) -> mp_at m 0xf5b00 pc_entries.
Proof.
  intros Hm.
  assert (forall a bs, 0x80000 <= a -> a + len bs <= 0x100000 -> mem_holds m a bs <-> mem_holds pc_mem a bs) as Hh.
  { intros a bs H0 H1. unfold mem_holds. rewrite (mem_read_ext m pc_mem); [done|]. intros x Hx. apply Hm. lia. }
  destruct pc_mp_at as [H1 H2 _]. split; [done| |].
  - intros q Hq Hlt. rewrite Hh; [by apply H2|..]; destruct Hq as [_ Hq]; change (len MP_MAGIC) with 4; lia.
  - exists 0xf5b20, (replicate 8 0), (replicate 34 1), (replicate 8 2), pc_raw.
    split_and!; try (vm_compute; reflexivity); try (vm_compute; congruence); try lia; [| |repeat constructor; vm_compute; congruence].
    + apply Hh; [lia|vm_compute; discriminate|vm_compute; reflexivity].
    + apply Hh; [lia|vm_compute; discriminate|vm_compute; reflexivity].
Qed.

Lemma mp_init_routes_timer_witness :
  exists d', mp_init (P := dev) pc_mem None pc0 = Ret (Some (mkIoApic PC_IOAPIC 23), d') /\
    redir_entry d' 2 = routed 32 /\
    forall j, 0 <= j -> j <> 2 -> redir_entry d' j = redir_entry pc0 j.
Proof.
  apply (mp_init_routes_timer (P := dev) pc_mem 0xf5b00 pc_entries PC_IOAPIC 24 pc0 pc_mp_at).
  intros a i [= <- <-]. split; [cbn; lia|]. split; [reflexivity|]. apply pc_ioapic_laws.
Defined.
