(* ===== verification/Descriptors.v ===== *)
(** * kernel/src/arch/x64/gdt.rs, idt.rs: segment and interrupt descriptors

    [gdt_init] builds the task state and the segment descriptors of a
    processor, [idt_init] the gates of the 256 interrupt vectors.  They write
    the tables to memory in the packed layouts that the processor reads.
    [hw_interrupt] is the other side: how a processor with these tables
    delivers an interrupt, down to the stub that it jumps to. *)

From S2P Require Import Prelude Bytes Api X64Context.

(** The addresses that the linker gives to the statics. *)
Record Statics : Set := mkStatics {
  st_gdt : Z;
  st_tss : Z;
  st_idt : Z;
  st_handlers : Z;
  st_stack : Z
}.

Definition NUM_CPUS_MAX : Z := 8.
Definition KERNEL_STACK_SIZE : Z := 1024 * 1024.
Definition NUM_GDT_ENTRIES : Z := 8.
Definition GDT_TSS : Z := 6 * 8.
Definition NUM_IDT_ENTRIES : Z := 256.
Definition INTERRUPT_HANDLER_SIZE : Z := 16.

Record Gdtr : Set := mkGdtr { gdtr_limit : Z; gdtr_base : Z }.
Record Idtr : Set := mkIdtr { idtr_limit : Z; idtr_base : Z }.

Record Tss : Set := mkTss {
  tss_reserved0 : Z;
  rsp0 : Z;
  rsp1 : Z;
  rsp2 : Z;
  tss_reserved1 : Z;
  tss_ist : list Z;
  tss_reserved2 : Z;
  tss_reserved3 : Z;
  iomap_offset : Z;
  io_permission_map : list Z
}.

Record IdtEntry : Set := mkIdtEntry {
  offset0 : Z;
  selector : Z;
  ist : Z;
  gate_type : Z;
  offset1 : Z;
  offset2 : Z;
  idt_reserved : Z
}.

(** The packed layouts. *)
Definition tss_bytes (t : Tss) : list Z :=
  le_bytes 4 (tss_reserved0 t) ++ le_bytes 8 (rsp0 t) ++ le_bytes 8 (rsp1 t) ++ le_bytes 8 (rsp2 t) ++
  le_bytes 8 (tss_reserved1 t) ++ concat (le_bytes 8 <$> tss_ist t) ++ le_bytes 8 (tss_reserved2 t) ++
  le_bytes 2 (tss_reserved3 t) ++ le_bytes 2 (iomap_offset t) ++ io_permission_map t.
Definition TSS_SIZE : Z := 8296.
Definition IO_PERMISSION_MAP_OFFSET : Z := 104.

Definition idt_entry_bytes (e : IdtEntry) : list Z :=
  le_bytes 2 (offset0 e) ++ le_bytes 2 (selector e) ++ le_bytes 1 (ist e) ++ le_bytes 1 (gate_type e) ++
  le_bytes 2 (offset1 e) ++ le_bytes 4 (offset2 e) ++ le_bytes 4 (idt_reserved e).

Definition IDT_ENTRY_DEFAULT : IdtEntry := mkIdtEntry 0 0 0 0 0 0 0.

(** The memory of the tables and the registers that locate them. *)
Record CpuTables : Type := mkCpuTables {
  ct_mem : mem;
  ct_gdtr : Gdtr;
  ct_idtr : Idtr;
  ct_tr : Z
}.

Section Tables.
Context {P : Profile} (st : Statics).

Definition table_write (addr : Z) (bs : list Z) : M CpuTables unit :=
  fun s => Ret (tt, mkCpuTables (mem_write (ct_mem s) addr bs) (ct_gdtr s) (ct_idtr s) (ct_tr s)).
Definition lgdt (g : Gdtr) : M CpuTables unit :=
  fun s => Ret (tt, mkCpuTables (ct_mem s) g (ct_idtr s) (ct_tr s)).
Definition lidt (i : Idtr) : M CpuTables unit :=
  fun s => Ret (tt, mkCpuTables (ct_mem s) (ct_gdtr s) i (ct_tr s)).
Definition ltr (sel : Z) : M CpuTables unit :=
  fun s => Ret (tt, mkCpuTables (ct_mem s) (ct_gdtr s) (ct_idtr s) sel).

Definition bsp_stack_top : outcome Z := checked_at 64 (st_stack st + KERNEL_STACK_SIZE).

(** The element [cpu_id] of a static array. *)
Definition cpu_slot (base size cpu_id : Z) : outcome Z :=
  if cpu_id <? NUM_CPUS_MAX then Ret (base + cpu_id * size) else Panic.

Definition write_tss (cpu_id : Z) : M CpuTables Z :=
  do* tss := lift (cpu_slot (st_tss st) TSS_SIZE cpu_id) in
  do* top := lift bsp_stack_top in
  do* _ := table_write tss (tss_bytes
    (mkTss 0 0 0 0 0 [top; 0; 0; 0; 0; 0; 0] 0 0 (wrap 16 IO_PERMISSION_MAP_OFFSET) (replicate (Z.to_nat 8192) 0xff))) in
  ret tss.

Definition tss_low (tss_base : Z) : Z :=
  let tss_low := 0x0000890000000000 in
  let tss_low := Z.lor tss_low (TSS_SIZE - 1) in
  let tss_low := Z.lor tss_low (wrap 64 (Z.shiftl (Z.land tss_base 0x00ffffff) 16)) in
  Z.lor tss_low (wrap 64 (Z.shiftl (Z.land tss_base 0xff000000) 32)).
Definition tss_high (tss_base : Z) : Z := Z.shiftr tss_base 32.

Definition gdt_entries (tss_base : Z) : list Z :=
  [0x0000000000000000;
   0x00af9a000000ffff;
   0x00af92000000ffff;
   0x0000000000000000;
   0x008ff2000000ffff;
   0x00affa000000ffff;
   tss_low tss_base;
   tss_high tss_base].

Definition gdt_init (cpu_id : Z) : M CpuTables unit :=
  do* tss_base := write_tss cpu_id in
  do* gdt_vaddr := lift (cpu_slot (st_gdt st) (NUM_GDT_ENTRIES * 8) cpu_id) in
  do* _ := table_write gdt_vaddr (concat (le_bytes 8 <$> gdt_entries tss_base)) in
  do* _ := lgdt (mkGdtr (wrap 16 (NUM_GDT_ENTRIES * 8 - 1)) gdt_vaddr) in
  ltr GDT_TSS.

(** The body of the loop over the IDT. *)
Definition idt_set (handler_base : Z) (i : Z) (e : IdtEntry) : outcome IdtEntry :=
  let* off := checked_at 64 (i * INTERRUPT_HANDLER_SIZE) in
  let* handler := checked_at 64 (handler_base + off) in
  Ret (mkIdtEntry (wrap 16 handler) GDT_KERNEL_CS 1 0x8e (wrap 16 (Z.shiftr handler 16))
         (wrap 32 (Z.shiftr handler 32)) (idt_reserved e)).

(** The loop from index [i] on. *)
Fixpoint idt_fill (handler_base : Z) (i : Z) (idt : list IdtEntry) : outcome (list IdtEntry) :=
  match idt with
  | [] => Ret []
  | e :: idt =>
      let* e := idt_set handler_base i e in
      let* idt := idt_fill handler_base (i + 1) idt in
      Ret (e :: idt)
  end.

Definition idt_init : M CpuTables unit :=
  do* idt := lift (idt_fill (st_handlers st) 0 (replicate (Z.to_nat NUM_IDT_ENTRIES) IDT_ENTRY_DEFAULT)) in
  do* _ := table_write (st_idt st) (concat (idt_entry_bytes <$> idt)) in
  lidt (mkIdtr (wrap 16 (NUM_IDT_ENTRIES * 16 - 1)) (st_idt st)).

End Tables.

(** ** The stubs

    256 stubs of 16 bytes each: the ones of the exceptions for which the
    processor pushes an error code push the vector, the others a zero before. *)

Definition stub_has_error (i : Z) : bool := (i =? 8) || (10 <=? i) && (i <=? 14) || (i =? 17).

Definition idt_stub (i : Z) (c : Cpu) : Cpu :=
  with_mem c (words c) (scratch c) (if stub_has_error i then i :: stack c else i :: 0 :: stack c).

(** * The processor *)

(** The quadword at index [i] of the GDT, if it is inside the limit. *)
Definition gdt_word (s : CpuTables) (i : Z) : option Z :=
  if 8 * i + 7 <=? gdtr_limit (ct_gdtr s)
  then Some (le_val (mem_read (ct_mem s) (gdtr_base (ct_gdtr s) + 8 * i) 8))
  else None.

(** A code or data segment: bits 47, 44, 43, 41, 53 and 45-46. *)
Record Segment : Set := mkSegment {
  sg_present : bool;
  sg_code_or_data : bool;
  sg_code : bool;
  sg_readwrite : bool;
  sg_long : bool;
  sg_dpl : Z
}.
Definition decode_segment (d : Z) : Segment :=
  mkSegment (Z.testbit d 47) (Z.testbit d 44) (Z.testbit d 43) (Z.testbit d 41) (Z.testbit d 53) (d / 2 ^ 45 mod 4).

Definition segment (s : CpuTables) (sel : Z) : option Segment := decode_segment <$> gdt_word s (sel / 8).

(** A 64-bit system segment takes two entries. *)
Record TssDesc : Set := mkTssDesc { td_present : bool; td_type : Z; td_limit : Z; td_base : Z }.
Definition decode_tss (lo hi : Z) : TssDesc :=
  mkTssDesc (Z.testbit lo 47) (lo / 2 ^ 40 mod 32) (lo mod 2 ^ 16 + 2 ^ 16 * (lo / 2 ^ 48 mod 16))
    (lo / 2 ^ 16 mod 2 ^ 24 + 2 ^ 24 * (lo / 2 ^ 56 mod 2 ^ 8) + 2 ^ 32 * (hi mod 2 ^ 32)).

Definition task_state (s : CpuTables) : option TssDesc :=
  match gdt_word s (ct_tr s / 8), gdt_word s (ct_tr s / 8 + 1) with
  | Some lo, Some hi => Some (decode_tss lo hi)
  | _, _ => None
  end.

(** The pointer number [i], from 1 on, of the interrupt stack table. *)
Definition ist_pointer (s : CpuTables) (i : Z) : option Z :=
  match task_state s with
  | Some td =>
      if td_present td && (td_type td =? 9) && (28 + 8 * i + 7 <=? td_limit td)
      then Some (le_val (mem_read (ct_mem s) (td_base td + (28 + 8 * i)) 8))
      else None
  | None => None
  end.

Record Gate : Set := mkGate {
  ga_offset : Z;
  ga_selector : Z;
  ga_ist : Z;
  ga_type : Z;
  ga_dpl : Z;
  ga_present : bool
}.
Definition decode_gate (b : list Z) : Gate :=
  mkGate (field b 0 2 + 2 ^ 16 * field b 6 2 + 2 ^ 32 * field b 8 4) (field b 2 2) (field b 4 1 mod 8)
    (field b 5 1 mod 16) (field b 5 1 / 32 mod 4) (Z.testbit (field b 5 1) 7).

Definition gate_of (s : CpuTables) (v : Z) : option Gate :=
  if 16 * v + 15 <=? idtr_limit (ct_idtr s)
  then Some (decode_gate (mem_read (ct_mem s) (idtr_base (ct_idtr s) + 16 * v) 16))
  else None.

(** The exceptions that push an error code. *)
Definition pushes_error (v : Z) : bool := bool_decide (v ∈ [8; 10; 11; 12; 13; 14; 17]).

(** The delivery of vector [v] with error code [e]: the gate must be a present
    interrupt gate to a 64-bit code segment of ring 0, and it names the stack.
    The frame is pushed, and the code at the handler runs: one of the stubs. *)
Definition hw_interrupt (st : Statics) (s : CpuTables) (v e : Z) (c : Cpu) : option Cpu :=
  g ← gate_of s v;
  sg ← segment s (ga_selector g);
  top ← ist_pointer s (ga_ist g);
  if ga_present g && (ga_type g =? 14) && sg_present sg && sg_code_or_data sg && sg_code sg && sg_long sg &&
     (sg_dpl sg =? 0) && ((ga_offset g - st_handlers st) mod INTERRUPT_HANDLER_SIZE =? 0)
  then
    let frame := [c_rip c; c_cs c; c_rflags c; gpr c RSP; c_ss c] in
    Some (idt_stub ((ga_offset g - st_handlers st) / INTERRUPT_HANDLER_SIZE)
      (mkCpu (set_reg (gpr c) RSP top) (ga_offset g) (ga_selector g) (c_rflags c) (c_ss c)
        (gs_base c) (kernel_gs_base c) (fs_base_reg c) (cur c) (words c) (scratch c) (kernel_rsp c)
        (if pushes_error v then e :: frame else frame)))
  else None.

(** * Lemmas *)

(** The statics do not overlap and end below 2^64. *)
Record layout_ok (st : Statics) : Prop := {
  lo_bounds : 0 <= st_gdt st /\ 0 <= st_tss st /\ 0 <= st_idt st /\ 0 <= st_handlers st /\ 0 <= st_stack st;
  lo_ends : st_tss st + 8 * TSS_SIZE <= 2 ^ 64 /\ st_handlers st + 4096 <= 2 ^ 64 /\
    st_stack st + KERNEL_STACK_SIZE < 2 ^ 64;
  lo_gdt_tss : st_gdt st + 8 * 64 <= st_tss st \/ st_tss st + 8 * TSS_SIZE <= st_gdt st;
  lo_gdt_idt : st_gdt st + 8 * 64 <= st_idt st \/ st_idt st + 4096 <= st_gdt st;
  lo_tss_idt : st_tss st + 8 * TSS_SIZE <= st_idt st \/ st_idt st + 4096 <= st_tss st
}.

Definition kernel_gate (handler : Z) : IdtEntry :=
  mkIdtEntry (wrap 16 handler) GDT_KERNEL_CS 1 0x8e (wrap 16 (Z.shiftr handler 16)) (wrap 32 (Z.shiftr handler 32)) 0.

Definition kernel_tss (top : Z) : Tss :=
  mkTss 0 0 0 0 0 [top; 0; 0; 0; 0; 0; 0] 0 0 104 (replicate (Z.to_nat 8192) 0xff).

Lemma idt_fill_run {P : Profile} base n : forall i,
  0 <= base -> 0 <= i -> base + 16 * (i + Z.of_nat n) <= 2 ^ 64 ->
  idt_fill base i (replicate n IDT_ENTRY_DEFAULT) =
  Ret ((fun j => kernel_gate (base + 16 * j)) <$> seqZ i (Z.of_nat n)).
Proof.
  induction n as [|n IH]; intros i Hb Hi Hend; [done|]. cbn [replicate idt_fill]. unfold idt_set, INTERRUPT_HANDLER_SIZE.
  rewrite checked_at_ok by lia. cbn [obind]. rewrite checked_at_ok by lia. cbn [obind].
  rewrite IH by lia. cbn [obind]. rewrite (seqZ_cons i) by lia. rewrite fmap_cons.
  replace (Z.pred (Z.of_nat (S n))) with (Z.of_nat n) by lia. rewrite <- Z.add_1_r.
  cbn [idt_reserved IDT_ENTRY_DEFAULT]. unfold kernel_gate. by replace (base + 16 * i) with (base + i * 16) by lia.
Qed.

Lemma length_tss_bytes top : len (tss_bytes (kernel_tss top)) = TSS_SIZE.
Proof.
  unfold tss_bytes, kernel_tss. cbn [tss_reserved0 rsp0 rsp1 rsp2 tss_reserved1 tss_ist tss_reserved2 tss_reserved3 iomap_offset io_permission_map].
  rewrite !length_app, !length_le_bytes, length_replicate, (length_concat_fixed _ 8) by apply length_le_bytes.
  cbn [length]. unfold TSS_SIZE. lia.
Qed.

Lemma length_idt_entry_bytes e : length (idt_entry_bytes e) = 16%nat.
Proof. unfold idt_entry_bytes. by rewrite !length_app, !length_le_bytes. Qed.

Definition idt_image (base : Z) : list Z :=
  concat (idt_entry_bytes <$> ((fun j => kernel_gate (base + 16 * j)) <$> seqZ 0 256)).
Definition gdt_image (tss_base : Z) : list Z := concat (le_bytes 8 <$> gdt_entries tss_base).

Lemma length_idt_image base : len (idt_image base) = 4096.
Proof.
  unfold idt_image. rewrite (length_concat_fixed _ 16) by apply length_idt_entry_bytes.
  by rewrite length_fmap, length_seqZ.
Qed.

Lemma length_gdt_image b : len (gdt_image b) = 64.
Proof. unfold gdt_image. by rewrite (length_concat_fixed _ 8) by apply length_le_bytes. Qed.

(** The tables of processor [cpu] are in place. *)
Record tables_ok (st : Statics) (cpu : Z) (s : CpuTables) : Prop := {
  to_gdtr : ct_gdtr s = mkGdtr 63 (st_gdt st + cpu * 64);
  to_idtr : ct_idtr s = mkIdtr 4095 (st_idt st);
  to_tr : ct_tr s = 48;
  to_gdt : mem_holds (ct_mem s) (st_gdt st + cpu * 64) (gdt_image (st_tss st + cpu * TSS_SIZE));
  to_tss : mem_holds (ct_mem s) (st_tss st + cpu * TSS_SIZE) (tss_bytes (kernel_tss (st_stack st + KERNEL_STACK_SIZE)));
  to_idt : mem_holds (ct_mem s) (st_idt st) (idt_image (st_handlers st))
}.

Section Init.
Context {P : Profile} (st : Statics) (Hl : layout_ok st).

Definition tss_at (cpu : Z) : Z := st_tss st + cpu * TSS_SIZE.
Definition gdt_at (cpu : Z) : Z := st_gdt st + cpu * 64.

Lemma gdt_init_run cpu s :
  0 <= cpu < NUM_CPUS_MAX ->
  gdt_init st cpu s =
  Ret (tt, mkCpuTables
    (mem_write (mem_write (ct_mem s) (tss_at cpu) (tss_bytes (kernel_tss (st_stack st + KERNEL_STACK_SIZE))))
       (gdt_at cpu) (gdt_image (tss_at cpu)))
    (mkGdtr 63 (gdt_at cpu)) (ct_idtr s) 48).
Proof.
  intros Hc. pose proof (lo_bounds _ Hl). pose proof (lo_ends _ Hl).
  assert (forall b z, cpu_slot b z cpu = Ret (b + cpu * z)) as Hslot
    by (intros; unfold cpu_slot; by destruct (Z.ltb_spec cpu NUM_CPUS_MAX); [|lia]).
  unfold gdt_init, write_tss. rewrite !bind_assoc, (bind_lift _ _ _ _ (Hslot _ _)).
  rewrite !bind_assoc. erewrite bind_lift by (apply checked_at_ok; unfold KERNEL_STACK_SIZE in *; lia).
  rewrite !bind_assoc. erewrite bind_run by reflexivity. rewrite bind_ret, (bind_lift _ _ _ _ (Hslot _ _)).
  reflexivity.
Qed.

Lemma idt_init_run s :
  idt_init st s =
  Ret (tt, mkCpuTables (mem_write (ct_mem s) (st_idt st) (idt_image (st_handlers st)))
    (ct_gdtr s) (mkIdtr 4095 (st_idt st)) (ct_tr s)).
Proof.
  pose proof (lo_bounds _ Hl). pose proof (lo_ends _ Hl). unfold idt_init.
  erewrite bind_lift by (apply idt_fill_run; unfold NUM_IDT_ENTRIES; lia). reflexivity.
Qed.

Lemma tables_init_run cpu s :
  0 <= cpu < NUM_CPUS_MAX ->
  exists s', (do* _ := gdt_init st cpu in idt_init st) s = Ret (tt, s') /\ tables_ok st cpu s'.
Proof.
  intros Hc. rewrite (bind_run _ _ _ _ _ (gdt_init_run cpu s Hc)), idt_init_run. eexists. split; [reflexivity|].
  pose proof (length_tss_bytes (st_stack st + KERNEL_STACK_SIZE)) as Ht.
  pose proof (length_idt_image (st_handlers st)) as Hi. pose proof (length_gdt_image (tss_at cpu)) as Hg.
  destruct Hl as [_ _ H1 H2 H3]. unfold NUM_CPUS_MAX, tss_at, gdt_at in *.
  split; cbn [ct_gdtr ct_idtr ct_tr ct_mem]; try reflexivity.
  - apply mem_holds_write_other; [unfold TSS_SIZE in *; lia|]. apply mem_holds_write.
  - apply mem_holds_write_other; [unfold TSS_SIZE in *; lia|].
    apply mem_holds_write_other; [unfold TSS_SIZE in *; lia|]. apply mem_holds_write.
  - apply mem_holds_write.
Qed.

End Init.

(** ** Reading the tables back *)

Lemma tss_low_sum b :
  0 <= b < 2 ^ 64 ->
  tss_low b = 8295 + 2 ^ 16 * (b mod 2 ^ 24) + 0x89 * 2 ^ 40 + 2 ^ 56 * (b / 2 ^ 24 mod 2 ^ 8).
Proof.
  intros Hb. unfold tss_low, TSS_SIZE, wrap.
  assert (Z.land b 0x00ffffff = b mod 2 ^ 24) as -> by (apply (land_ones_mask 24); lia).
  assert (Z.land b 0xff000000 = 2 ^ 24 * (b / 2 ^ 24 mod 2 ^ 8)) as ->.
  { apply Z.bits_inj'. intros i Hi. change 0xff000000 with (Z.shiftl (Z.ones 8) 24).
    rewrite (Z.mul_comm (2 ^ 24)), <- Z.shiftl_mul_pow2, <- Z.shiftr_div_pow2, <- Z.land_ones by lia.
    rewrite Z.land_spec, !Z.shiftl_spec, Z.land_spec by lia. destruct (Z.ltb_spec i 24).
    - by rewrite (Z.testbit_neg_r (Z.ones 8)), !andb_false_r by lia.
    - rewrite Z.shiftr_spec by lia. by replace (i - 24 + 24) with i by lia. }
  pose proof (Z.mod_pos_bound b (2 ^ 24) ltac:(lia)). pose proof (Z.mod_pos_bound (b / 2 ^ 24) (2 ^ 8) ltac:(lia)).
  set (x := b mod 2 ^ 24) in *. set (y := b / 2 ^ 24 mod 2 ^ 8) in *.
  rewrite !Z.shiftl_mul_pow2, !Z.mod_small by lia.
  set (X := x * 2 ^ 16). set (Y := 2 ^ 24 * y * 2 ^ 32).
  rewrite <- (Z.lor_assoc _ (8296 - 1) X), (Z.lor_comm (8296 - 1) X).
  rewrite (lor_add_low 16 X) by (subst X; rewrite ?Z.mod_mul; lia).
  rewrite (lor_add_low 40 0x0000890000000000) by (subst X; try reflexivity; lia).
  rewrite Z.lor_comm, (lor_add_low 56) by (subst X Y; try (replace (2 ^ 24 * y * 2 ^ 32) with (y * 2 ^ 56) by lia;
    apply Z.mod_mul); lia).
  subst X Y. lia.
Qed.

Lemma decode_tss_ok b :
  0 <= b < 2 ^ 64 -> decode_tss (tss_low b) (tss_high b) = mkTssDesc true 9 8295 b.
Proof.
  intros Hb. pose proof (tss_low_sum b Hb) as E. unfold decode_tss, tss_high. rewrite Z.shiftr_div_pow2 by lia.
  assert (Z.testbit (tss_low b) 47 = true) as ->.
  { apply Z.testbit_true; [lia|]. rewrite E. Z.div_mod_to_equations; lia. }
  f_equal; rewrite ?E; Z.div_mod_to_equations; lia.
Qed.

Lemma decode_gate_ok h :
  0 <= h < 2 ^ 64 -> decode_gate (idt_entry_bytes (kernel_gate h)) = mkGate h GDT_KERNEL_CS 1 14 0 true.
Proof.
  intros Hh. unfold decode_gate, idt_entry_bytes, kernel_gate, GDT_KERNEL_CS, wrap.
  cbn [offset0 selector ist gate_type offset1 offset2 idt_reserved]. rewrite !Z.shiftr_div_pow2 by lia.
  pose proof (Z.mod_pos_bound h (2 ^ 16) ltac:(lia)). pose proof (Z.mod_pos_bound (h / 2 ^ 16) (2 ^ 16) ltac:(lia)).
  pose proof (Z.mod_pos_bound (h / 2 ^ 32) (2 ^ 32) ltac:(lia)).
  assert (h mod 2 ^ 16 + 2 ^ 16 * (h / 2 ^ 16 mod 2 ^ 16) + 2 ^ 32 * (h / 2 ^ 32 mod 2 ^ 32) = h) as Hsum
    by (Z.div_mod_to_equations; lia).
  assert (forall r, field (le_bytes 2 (h mod 2 ^ 16) ++ r) 0 2 = h mod 2 ^ 16) as -> by (intros; apply field_head; lia).
  set (h0 := h mod 2 ^ 16) in *. set (h1 := h / 2 ^ 16 mod 2 ^ 16) in *. set (h2 := h / 2 ^ 32 mod 2 ^ 32) in *.
  set (b := le_bytes 2 h0 ++ _).
  assert (field b 6 2 = h1) as -> by read_field. assert (field b 8 4 = h2) as -> by read_field.
  assert (field b 2 2 = 8) as -> by read_field. assert (field b 4 1 = 1) as -> by read_field.
  assert (field b 5 1 = 0x8e) as -> by read_field. by rewrite Hsum.
Qed.

Section Decoding.
Context (st : Statics) (Hl : layout_ok st) (cpu : Z) (Hc : 0 <= cpu < NUM_CPUS_MAX).
Context (s : CpuTables) (Hs : tables_ok st cpu s).

Lemma tss_base_bound : 0 <= tss_at st cpu < 2 ^ 64.
Proof.
  pose proof (lo_bounds _ Hl). pose proof (lo_ends _ Hl). unfold tss_at, TSS_SIZE, NUM_CPUS_MAX in *. lia.
Qed.

Lemma gdt_word_ok (i : nat) w :
  gdt_entries (tss_at st cpu) !! i = Some w -> 0 <= w < 2 ^ 64 -> gdt_word s (Z.of_nat i) = Some w.
Proof.
  intros Hi Hw. assert (i < 8)%nat as Hlt by (by apply lookup_lt_Some in Hi).
  unfold gdt_word. rewrite (to_gdtr _ _ _ Hs). cbn [gdtr_limit gdtr_base].
  destruct (Z.leb_spec (8 * Z.of_nat i + 7) 63); [|lia].
  replace (8 * Z.of_nat i) with (Z.of_nat (8 * i)) by lia. pose proof (length_gdt_image (tss_at st cpu)).
  rewrite (mem_holds_read _ _ _ _ _ (to_gdt _ _ _ Hs)) by (change (st_tss st + cpu * TSS_SIZE) with (tss_at st cpu); lia).
  unfold gdt_image. rewrite (concat_element _ 8 _ i w) by (done || apply length_le_bytes).
  by rewrite le_val_le_bytes_small by lia.
Qed.

Lemma tss_low_bound b : 0 <= b < 2 ^ 64 -> 0 <= tss_low b < 2 ^ 64.
Proof. intros Hb. rewrite tss_low_sum by done. Z.div_mod_to_equations; lia. Qed.

Lemma task_state_ok : task_state s = Some (mkTssDesc true 9 8295 (tss_at st cpu)).
Proof.
  pose proof tss_base_bound as Hb. unfold task_state. rewrite (to_tr _ _ _ Hs).
  change (48 / 8) with (Z.of_nat 6). change (Z.of_nat 6 + 1) with (Z.of_nat 7).
  rewrite (gdt_word_ok 6 (tss_low (tss_at st cpu))) by (done || by apply tss_low_bound).
  rewrite (gdt_word_ok 7 (tss_high (tss_at st cpu)))
    by (done || unfold tss_high; rewrite Z.shiftr_div_pow2 by lia; Z.div_mod_to_equations; lia).
  by rewrite decode_tss_ok.
Qed.

(** A part of the task state segment. *)
Lemma tss_read (off n : nat) :
  (off + n <= Z.to_nat TSS_SIZE)%nat ->
  mem_read (ct_mem s) (tss_at st cpu + Z.of_nat off) n =
  take n (drop off (tss_bytes (kernel_tss (st_stack st + KERNEL_STACK_SIZE)))).
Proof.
  intros Hn. apply mem_holds_read; [exact (to_tss _ _ _ Hs)|].
  pose proof (length_tss_bytes (st_stack st + KERNEL_STACK_SIZE)). lia.
Qed.

Lemma ist1_ok : ist_pointer s 1 = Some (st_stack st + KERNEL_STACK_SIZE).
Proof.
  pose proof (lo_bounds _ Hl). pose proof (lo_ends _ Hl).
  unfold ist_pointer. rewrite task_state_ok. cbn [td_present td_type td_limit td_base andb Z.eqb Pos.eqb].
  change (28 + 8 * 1 + 7 <=? 8295) with true. cbn [andb]. change (28 + 8 * 1) with (Z.of_nat 36).
  rewrite tss_read by (unfold TSS_SIZE; lia). f_equal. fold (field (tss_bytes (kernel_tss (st_stack st + KERNEL_STACK_SIZE))) 36 8).
  unfold tss_bytes, kernel_tss. cbn [tss_reserved0 rsp0 rsp1 rsp2 tss_reserved1 tss_ist].
  rewrite fmap_cons. cbn [concat]. rewrite <- !app_assoc.
  assert (0 <= KERNEL_STACK_SIZE) by done. read_field.
Qed.

Lemma gate_ok v : 0 <= v < 256 -> gate_of s v = Some (mkGate (st_handlers st + 16 * v) GDT_KERNEL_CS 1 14 0 true).
Proof.
  intros Hv. pose proof (lo_bounds _ Hl). pose proof (lo_ends _ Hl).
  unfold gate_of. rewrite (to_idtr _ _ _ Hs). cbn [idtr_limit idtr_base].
  destruct (Z.leb_spec (16 * v + 15) 4095); [|lia].
  replace (16 * v) with (Z.of_nat (16 * Z.to_nat v)) by lia. pose proof (length_idt_image (st_handlers st)).
  rewrite (mem_holds_read _ _ _ _ _ (to_idt _ _ _ Hs)) by lia. unfold idt_image.
  rewrite (concat_element _ 16 _ (Z.to_nat v) (kernel_gate (st_handlers st + 16 * v))).
  - rewrite decode_gate_ok by lia. do 3 f_equal. lia.
  - apply length_idt_entry_bytes.
  - rewrite list_lookup_fmap, lookup_seqZ_lt by lia. cbn. do 3 f_equal. lia.
Qed.

Lemma kernel_cs_ok : segment s GDT_KERNEL_CS = Some (mkSegment true true true true true 0).
Proof. unfold segment. change (GDT_KERNEL_CS / 8) with (Z.of_nat 1). by rewrite (gdt_word_ok 1 0x00af9a000000ffff). Qed.

Lemma stub_error_codes v : 0 <= v < 256 -> stub_has_error v = pushes_error v.
Proof.
  intros Hv. unfold stub_has_error, pushes_error. symmetry. case_bool_decide as Hin.
  - repeat (apply elem_of_cons in Hin as [-> | Hin]; [done|]). by apply elem_of_nil in Hin.
  - symmetry. apply not_true_iff_false. intros E. apply Hin. rewrite !elem_of_cons. simpl_bool. lia.
Qed.

(** Delivery and stub put on the stack what [interrupt_entry] expects. *)
Lemma hw_interrupt_ok v e c :
  0 <= v < 256 ->
  hw_interrupt st s v e c =
  Some (raise_interrupt v (if pushes_error v then e else 0) (st_stack st + KERNEL_STACK_SIZE) (st_handlers st + 16 * v) c).
Proof.
  intros Hv. unfold hw_interrupt. rewrite (gate_ok v Hv). cbn [mbind option_bind ga_selector ga_ist ga_offset ga_present ga_type].
  rewrite kernel_cs_ok. cbn [mbind option_bind]. rewrite ist1_ok. cbn [mbind option_bind].
  cbn [sg_present sg_code_or_data sg_code sg_long sg_dpl andb Z.eqb Pos.eqb].
  replace (st_handlers st + 16 * v - st_handlers st) with (v * INTERRUPT_HANDLER_SIZE) by (unfold INTERRUPT_HANDLER_SIZE; lia).
  rewrite Z.mod_mul, Z.div_mul by done. cbn [Z.eqb]. f_equal. unfold idt_stub. rewrite stub_error_codes by done.
  unfold raise_interrupt. by destruct (pushes_error v).
Qed.

End Decoding.

(** * Properties *)

(** The segments that the kernel and its user threads use, the task state and
    the gates as the processor decodes them.  User code gets at no I/O port:
    the bitmap that the task state points to denies each of them. *)
Record descriptors_ok (st : Statics) (cpu : Z) (s : CpuTables) : Prop := {
  do_kernel_cs : segment s GDT_KERNEL_CS = Some (mkSegment true true true true true 0);
  do_user_cs : segment s GDT_USER_CS = Some (mkSegment true true true true true 3);
  do_user_ds : segment s GDT_USER_DS = Some (mkSegment true true false true false 3);
  do_tss : task_state s = Some (mkTssDesc true 9 (TSS_SIZE - 1) (tss_at st cpu));
  do_ist : ist_pointer s 1 = Some (st_stack st + KERNEL_STACK_SIZE);
  do_ports : forall port, 0 <= port < 2 ^ 16 ->
    let iomap := le_val (mem_read (ct_mem s) (tss_at st cpu + 102) 2) in
    iomap + port / 8 <= TSS_SIZE - 1 /\
    Z.testbit (le_val (mem_read (ct_mem s) (tss_at st cpu + iomap + port / 8) 1)) (port mod 8) = true;
  do_gates : forall v, 0 <= v < 256 ->
    gate_of s v = Some (mkGate (st_handlers st + INTERRUPT_HANDLER_SIZE * v) GDT_KERNEL_CS 1 14 0 true)
}.

Section Ports.
Context (st : Statics) (cpu : Z) (s : CpuTables) (Hs : tables_ok st cpu s).

(** The I/O permission map and its offset. *)
Lemma iomap_ok :
  le_val (mem_read (ct_mem s) (tss_at st cpu + 102) 2) = 104 /\
  forall i, (i < Z.to_nat 8192)%nat ->
    le_val (mem_read (ct_mem s) (tss_at st cpu + 104 + Z.of_nat i) 1) = 0xff.
Proof.
  set (top := st_stack st + KERNEL_STACK_SIZE).
  set (hd := le_bytes 4 0 ++ le_bytes 8 0 ++ le_bytes 8 0 ++ le_bytes 8 0 ++ le_bytes 8 0 ++
    concat (le_bytes 8 <$> [top; 0; 0; 0; 0; 0; 0]) ++ le_bytes 8 0 ++ le_bytes 2 0).
  assert (length hd = 102%nat) as Hh
    by (unfold hd; rewrite !length_app, (length_concat_fixed _ 8), !length_le_bytes by apply length_le_bytes; done).
  assert (tss_bytes (kernel_tss top) = hd ++ le_bytes 2 104 ++ replicate (Z.to_nat 8192) 0xff) as Eb
    by (unfold tss_bytes, hd; rewrite <- !app_assoc; reflexivity).
  split.
  - change 102 with (Z.of_nat 102). rewrite (tss_read st cpu s Hs) by (unfold TSS_SIZE; lia). fold top. rewrite Eb.
    fold (field (hd ++ le_bytes 2 104 ++ replicate (Z.to_nat 8192) 0xff) 102 2).
    rewrite field_skip, Hh by lia. by apply field_head.
  - intros i Hi. rewrite <- Z.add_assoc. replace (104 + Z.of_nat i) with (Z.of_nat (104 + i)) by lia.
    rewrite (tss_read st cpu s Hs) by (unfold TSS_SIZE; lia). fold top. rewrite Eb.
    rewrite app_assoc, drop_app_ge by (rewrite length_app, length_le_bytes; lia).
    rewrite length_app, length_le_bytes, Hh, drop_replicate, take_replicate.
    by replace (Nat.min 1 _) with 1%nat by lia.
Qed.

End Ports.

(** Tables in place are decoded as meant. *)
Lemma tables_descriptors {P : Profile} (st : Statics) (cpu : Z) (s : CpuTables) :
  layout_ok st -> 0 <= cpu < NUM_CPUS_MAX -> tables_ok st cpu s -> descriptors_ok st cpu s.
Proof.
  intros Hl Hc Hs. pose proof (gdt_word_ok st cpu s Hs) as Hw. split.
  - exact (kernel_cs_ok st cpu s Hs).
  - unfold segment. change (GDT_USER_CS / 8) with (Z.of_nat 5). by rewrite (Hw 5%nat 0x00affa000000ffff).
  - unfold segment. change (GDT_USER_DS / 8) with (Z.of_nat 4). by rewrite (Hw 4%nat 0x008ff2000000ffff).
  - by apply task_state_ok.
  - by apply (ist1_ok st Hl cpu Hc).
  - intros port Hp. cbv zeta. destruct (iomap_ok st cpu s Hs) as [-> Hmap].
    split; [unfold TSS_SIZE; Z.div_mod_to_equations; lia|].
    replace (port / 8) with (Z.of_nat (Z.to_nat (port / 8))) by (Z.div_mod_to_equations; lia).
    rewrite Hmap by (Z.div_mod_to_equations; lia).
    change 0xff with (Z.ones 8). apply Z.ones_spec_low. by apply Z.mod_pos_bound.
  - intros v Hv. by apply (gate_ok st Hl cpu).
Qed.

(** C30: After [gdt::init] and [idt::init], the processor that reads the tables
    finds: kernel code in ring 0 and user code and data in ring 3, 64-bit and
    present, at the selectors that the kernel loads; its own task state, with
    the top of the boot stack as interrupt stack and every I/O port denied to
    user code; and for each of the 256 vectors a present interrupt gate of
    ring 0 to the stub of that vector. *)
Theorem descriptor_tables_well_formed {P : Profile} (st : Statics) (cpu : Z) (s : CpuTables) :
  layout_ok st -> 0 <= cpu < NUM_CPUS_MAX ->
  exists s', (do* _ := gdt_init st cpu in idt_init st) s = Ret (tt, s') /\ descriptors_ok st cpu s'.
Proof.
  intros Hl Hc. destruct (tables_init_run st Hl cpu s Hc) as (s' & E & Hs). exists s'. split; [done|].
  by apply tables_descriptors.
Qed.

(** C31: Interrupts reach the kernel.  With the tables that the kernel builds,
    the processor delivers every vector to its stub on the boot stack, and the
    entry code that follows saves the complete context of the running thread
    and calls the handler with the vector and the error code (zero for the
    vectors without one). *)
Theorem interrupt_reaches_handler {P : Profile} (st : Statics) (cpu : Z) (s : CpuTables)
    (v e : Z) (t : ArchThread) (c : Cpu) :
  layout_ok st -> 0 <= cpu < NUM_CPUS_MAX -> 0 <= v < 256 -> runs_thread t c ->
  exists s' c1 c2, (do* _ := gdt_init st cpu in idt_init st) s = Ret (tt, s') /\
    hw_interrupt st s' v e c = Some c1 /\ c_cs c1 = GDT_KERNEL_CS /\
    exec interrupt_entry c1 = Ret c2 /\ words c2 = thread_words (saved t c) /\
    gpr c2 RDI = v /\ gpr c2 RSI = (if pushes_error v then e else 0).
Proof.
  intros Hl Hc Hv Hr. destruct (tables_init_run st Hl cpu s Hc) as (s' & E & Hs).
  pose proof (hw_interrupt_ok st Hl cpu Hc s' Hs v e c Hv) as Ei.
  destruct (interrupt_entry_spec t c v (if pushes_error v then e else 0) (st_stack st + KERNEL_STACK_SIZE)
    (st_handlers st + 16 * v) Hr) as (c2 & E2 & Hw & _ & Hdi & Hsi & _).
  eexists s', _, c2. repeat (split; [done|]). done.
Qed.

Definition example_statics : Statics :=
  mkStatics 0xffff800000200000 0xffff800000210000 0xffff800000230000 0xffff800000240000 0xffff800000300000.
Definition example_tables : CpuTables := mkCpuTables (fun _ => 0) (mkGdtr 0 0) (mkIdtr 0 0) 0.

Lemma example_layout : layout_ok example_statics.
Proof. split; cbn; unfold TSS_SIZE, KERNEL_STACK_SIZE; lia. Qed.

Lemma descriptor_tables_well_formed_witness :
  exists s', (do* _ := gdt_init (P := dev) example_statics 0 in idt_init (P := dev) example_statics) example_tables =
    Ret (tt, s') /\ descriptors_ok example_statics 0 s'.
Proof. apply (descriptor_tables_well_formed (P := dev)); [apply example_layout|done]. Defined.

Lemma interrupt_reaches_handler_witness :
  exists s' c1 c2, (do* _ := gdt_init (P := dev) example_statics 0 in idt_init (P := dev) example_statics) example_tables =
      Ret (tt, s') /\
    hw_interrupt example_statics s' 14 6 example_cpu = Some c1 /\ c_cs c1 = GDT_KERNEL_CS /\
    exec interrupt_entry c1 = Ret c2 /\ words c2 = thread_words (saved arch_thread_new example_cpu) /\
    gpr c2 RDI = 14 /\ gpr c2 RSI = 6.
Proof.
  apply (interrupt_reaches_handler (P := dev) example_statics 0 example_tables 14 6 arch_thread_new example_cpu);
    [apply example_layout|done|done|apply example_cpu_runs].
Defined.
