(* ===== verification/Interrupt.v ===== *)
(** * kernel/src/arch/x64/idt.rs: [handle_interrupt]

    The Rust half of the interrupt path: the dispatch on the vector, the timer
    and the return to user mode through the scheduler. *)

From S2P Require Import Prelude Bytes Api Machine SharedRef X64Context Thread Devices.

(** The state of the kernel, the devices and the counter [TICKS]. *)
Record IrqState (X D : Type) : Type := mkIrqState {
  iq_sys : Sys X;
  iq_dev : D;
  iq_ticks : Z
}.
Arguments mkIrqState {X D} _ _ _.
Arguments iq_sys {X D} _.
Arguments iq_dev {X D} _.
Arguments iq_ticks {X D} _.

Section Interrupt.
Context {P : Profile} {L : RefLayout} {X D : Type} `{KernelExt X, Bus D}.

Definition on_sys {A} (m : M (Sys X) A) : M (IrqState X D) A :=
  fun s => let* (a, y) := m (iq_sys s) in Ret (a, mkIrqState y (iq_dev s) (iq_ticks s)).

Definition on_dev {A} (m : M D A) : M (IrqState X D) A :=
  fun s => let* (a, d) := m (iq_dev s) in Ret (a, mkIrqState (iq_sys s) d (iq_ticks s)).

Definition set_ticks (ticks : Z) : M (IrqState X D) unit :=
  fun s => Ret (tt, mkIrqState (iq_sys s) (iq_dev s) ticks).

(** The messages are not modelled.  [la] is the local APIC of the processor's
    [CpuVar]. *)
Definition handle_interrupt (la : LocalApic) (vector error_code : Z) (reserve : bool) : M (IrqState X D) Z :=
  do* _ :=
    if vector =? 14 then ret tt
    else if IRQ_VECTOR_BASE <=? vector then
      do* irq := lift (checked_at 8 (vector - IRQ_VECTOR_BASE)) in
      if irq =? TIMER_IRQ then
        do* s := get in
        do* ticks := on_dev (timer_handle_interrupt la (iq_ticks s)) in
        set_ticks ticks
      else ret tt
    else lift Panic in
  on_sys (return_to_user reserve).

(** The register that ends an interrupt. *)
Definition eoi (la : LocalApic) (d : D) : D := bus_write32 (la_base la + 0xb0) 0 d.

Definition after_vector (la : LocalApic) (vector : Z) (s : IrqState X D) : IrqState X D :=
  if vector =? 32 then mkIrqState (iq_sys s) (eoi la (iq_dev s)) ((iq_ticks s + 1) mod 2 ^ 64) else s.

Lemma handle_interrupt_run la vector error_code s :
  0 <= la_base la -> la_base la + 0xb0 < 2 ^ 64 -> 0 <= vector < 256 -> vector = 14 \/ 32 <= vector ->
  handle_interrupt la vector error_code true s = on_sys (return_to_user true) (after_vector la vector s).
Proof.
  intros Hb1 Hb2 Hv Hk. unfold handle_interrupt, after_vector.
  destruct (Z.eqb_spec vector 14) as [->|H14]; [by rewrite bind_ret|]. destruct Hk as [?|Hk]; [done|].
  unfold IRQ_VECTOR_BASE, TIMER_IRQ. destruct (Z.leb_spec 32 vector); [|lia].
  rewrite bind_assoc. erewrite bind_lift by (apply checked_at_ok; lia).
  destruct (Z.eqb_spec (vector - 32) 0), (Z.eqb_spec vector 32); try lia; [|by rewrite bind_ret].
  rewrite bind_assoc, bind_get, bind_assoc.
  assert (timer_handle_interrupt la (iq_ticks s) (iq_dev s) = Ret (tick (iq_ticks s), eoi la (iq_dev s))) as Et.
  { unfold timer_handle_interrupt, acknowledge_irq, apic_write. cbv zeta. rewrite bind_assoc.
    erewrite bind_lift by (apply usize_add_ok; cbn; lia). reflexivity. }
  assert (on_dev (timer_handle_interrupt la (iq_ticks s)) s =
    Ret (tick (iq_ticks s), mkIrqState (iq_sys s) (eoi la (iq_dev s)) (iq_ticks s))) as Ed
    by (unfold on_dev; by rewrite Et).
  by rewrite (bind_run _ _ _ _ _ Ed).
Qed.

(** If the current thread can run, [return_to_user] goes back to it. *)
Lemma return_to_current own (s : Sys X) r :
  sys_inv own (current_ref s) s -> current_room s -> current_ref s = [r] -> runnable s r ->
  exists s', return_to_user true s = Ret (r, s') /\ runqueue s' = runqueue s /\
    sys_inv own (current_ref s') s' /\ current_ref s' = [r] /\ runnable s' r.
Proof.
  intros Hi Hroom Hc Hr.
  destruct (return_to_user_spec own s Hi Hroom)
    as [[Hno _]|(r' & t & s' & sk & E & Eq & Ht & Hst & Hsk & Hi' & Hc' & Hr' & _)].
  { by destruct (Hno r). }
  rewrite Hc in Eq. destruct sk as [|x sk].
  - injection Eq as <- Hq. exists s'. by rewrite <- Hq.
  - injection Eq as <- _. destruct (Hsk r); [apply elem_of_cons; by left|done].
Qed.

End Interrupt.


Section Witnesses.
#[local] Existing Instance layout.
#[local] Existing Instance handles_ext.


End Witnesses.
