(* ===== verification/SpinLock.v ===== *)
(** * ftl_utils/src/spinlock.rs: the spin lock

    The lock as sequential code, and as processors that interleave.  The other
    files model each critical section as one step; the theorems here justify
    it: a system whose processors take the lock, make any number of accesses
    to the value and release it behaves like one in which every critical
    section is a single step.  Accesses are interleaved one by one in a single
    order, which the acquire and release orderings of the code provide. *)

From stdpp Require Import relations.
From S2P Require Import Prelude.

(** ** The code *)

Section Lock.
Context {T : Type}.

Record SpinLock : Type := mkSpinLock { sl_lock : bool; sl_value : T }.

Definition SpinLock_new (value : T) : SpinLock := mkSpinLock false value.

(** [AtomicBool::compare_exchange]: the previous value, and the new one. *)
Definition compare_exchange (a current new : bool) : result bool bool * bool :=
  if Bool.eqb a current then (Ok a, new) else (Err a, a).

Definition try_lock (self : SpinLock) : result unit unit * SpinLock :=
  let (r, l) := compare_exchange (sl_lock self) false true in
  let self := mkSpinLock l (sl_value self) in
  match r with
  | Err _ => (Err tt, self)
  | Ok _ => (Ok tt, self)
  end.

(** [lock] on a single processor: [fuel] bounds the attempts. *)
Fixpoint lock (fuel : nat) : M SpinLock unit :=
  fun self =>
    match fuel with
    | O => Hang
    | S fuel =>
        match try_lock self with
        | (Ok guard, self) => Ret (guard, self)
        | (Err _, self) => lock fuel self
        end
    end.

Definition guard_drop (self : SpinLock) : SpinLock := mkSpinLock false (sl_value self).

(** [Deref] and [DerefMut] of the guard. *)
Definition guard_deref (self : SpinLock) : T := sl_value self.
Definition guard_deref_mut (f : T -> T) (self : SpinLock) : SpinLock := mkSpinLock (sl_lock self) (f (sl_value self)).

(** ** Processors *)

(** A critical section: the accesses to the value that it makes. *)
Definition section := list (T -> T).
Definition run_section (op : section) (v : T) : T := foldl (fun v f => f v) v op.

(** A processor outside, in the loop of [lock], or with a guard and the
    accesses that are left. *)
Inductive pc : Type := Outside | Spinning (op : section) | Inside (rest : section).

Record system : Type := mkSystem { sy_lock : SpinLock; sy_cpus : list pc }.

Definition set_pc (s : system) (l : SpinLock) (i : nat) (p : pc) : system := mkSystem l (<[i := p]> (sy_cpus s)).

(** What a processor does on its own once it has asked for the lock. *)
Inductive work : system -> system -> Prop :=
| work_acquire s i op l : sy_cpus s !! i = Some (Spinning op) -> try_lock (sy_lock s) = (Ok tt, l) ->
    work s (set_pc s l i (Inside op))
| work_spin s i op l : sy_cpus s !! i = Some (Spinning op) -> try_lock (sy_lock s) = (Err tt, l) ->
    work s (set_pc s l i (Spinning op))
| work_access s i f rest : sy_cpus s !! i = Some (Inside (f :: rest)) ->
    work s (set_pc s (guard_deref_mut f (sy_lock s)) i (Inside rest))
| work_release s i : sy_cpus s !! i = Some (Inside []) ->
    work s (set_pc s (guard_drop (sy_lock s)) i Outside).

Inductive step : system -> system -> Prop :=
| step_work s s' : work s s' -> step s s'
| step_call s i op : sy_cpus s !! i = Some Outside -> step s (set_pc s (sy_lock s) i (Spinning op)).

Definition start (v : T) (n : nat) : system := mkSystem (SpinLock_new v) (replicate n Outside).
Definition reachable (v : T) (n : nat) (s : system) : Prop := rtc step (start v n) s.

(** ** The specification: critical sections are single steps *)

Inductive apc : Type := AOutside | AWaiting (op : section) | ADone.
Record asystem : Type := mkASystem { a_value : T; a_cpus : list apc }.

Inductive astep : asystem -> asystem -> Prop :=
| astep_call a i op : a_cpus a !! i = Some AOutside -> astep a (mkASystem (a_value a) (<[i := AWaiting op]> (a_cpus a)))
| astep_section a i op : a_cpus a !! i = Some (AWaiting op) ->
    astep a (mkASystem (run_section op (a_value a)) (<[i := ADone]> (a_cpus a)))
| astep_return a i : a_cpus a !! i = Some ADone -> astep a (mkASystem (a_value a) (<[i := AOutside]> (a_cpus a))).

Definition abs_pc (p : pc) : apc :=
  match p with
  | Outside => AOutside
  | Spinning op => AWaiting op
  | Inside _ => ADone
  end.

(** The processor with the guard, if the lock is taken, is the only one
    inside; when it is done, the value is the abstract one. *)
Record refines (s : system) (a : asystem) : Prop := {
  rf_cpus : a_cpus a = abs_pc <$> sy_cpus s;
  rf_value :
    if sl_lock (sy_lock s)
    then exists i rest, sy_cpus s !! i = Some (Inside rest) /\
           (forall j rest', sy_cpus s !! j = Some (Inside rest') -> j = i) /\
           run_section rest (sl_value (sy_lock s)) = a_value a
    else (forall j rest, sy_cpus s !! j <> Some (Inside rest)) /\ sl_value (sy_lock s) = a_value a
}.

(** * Lemmas *)

Lemma try_lock_spec l :
  try_lock l = if sl_lock l then (Err tt, l) else (Ok tt, mkSpinLock true (sl_value l)).
Proof. unfold try_lock, compare_exchange. destruct l as [[] v]; reflexivity. Qed.

Lemma refines_start v n : refines (start v n) (mkASystem v (replicate n AOutside)).
Proof.
  split; [cbn; by rewrite fmap_replicate|]. cbn. split; [|done].
  intros j rest [E _]%lookup_replicate. done.
Qed.

Lemma inside_insert (l : list pc) i p j rest :
  <[i := p]> l !! j = Some (Inside rest) ->
  j = i /\ p = Inside rest \/ j <> i /\ l !! j = Some (Inside rest).
Proof. intros [(-> & -> & _)|[Hne E]]%list_lookup_insert_Some; [by left|by right]. Qed.

Lemma insert_here {A} (l : list A) i x y : l !! i = Some x -> <[i := y]> l !! i = Some y.
Proof. intros E. apply list_lookup_insert_eq. by apply lookup_lt_Some in E. Qed.

(** A move of a processor that is not inside, before and after. *)
Lemma refines_outside s a i p p' :
  refines s a -> sy_cpus s !! i = Some p -> (forall r, p <> Inside r) -> (forall r, p' <> Inside r) ->
  refines (set_pc s (sy_lock s) i p') (mkASystem (a_value a) (<[i := abs_pc p']> (a_cpus a))).
Proof.
  intros [Hc Hv] Hi Hp Hp'. split; cbn [a_cpus a_value set_pc sy_cpus sy_lock].
  { by rewrite Hc, list_fmap_insert. }
  destruct (sl_lock (sy_lock s)).
  - destruct Hv as (h & rest & Hh & Hu & Hr). exists h, rest. split_and!; [|intros j r|done].
    + rewrite list_lookup_insert_ne; [done|]. intros ->. rewrite Hi in Hh. injection Hh as ->. by destruct (Hp rest).
    + intros [[-> E]|[_ E]]%inside_insert; [by destruct (Hp' r)|by apply Hu in E].
  - destruct Hv as [Hno Hr]. split; [|done].
    intros j r [[-> E]|[_ E]]%inside_insert; [by destruct (Hp' r)|by destruct (Hno j r)].
Qed.

(** A processor inside holds the lock. *)
Lemma refines_inside s a i rest :
  refines s a -> sy_cpus s !! i = Some (Inside rest) ->
  sl_lock (sy_lock s) = true /\ (forall j r, sy_cpus s !! j = Some (Inside r) -> j = i) /\
  run_section rest (sl_value (sy_lock s)) = a_value a /\ a_cpus a !! i = Some ADone.
Proof.
  intros [Hc Hv] Hi. assert (a_cpus a !! i = Some ADone) as Hd by (by rewrite Hc, list_lookup_fmap, Hi).
  destruct (sl_lock (sy_lock s)).
  - destruct Hv as (h & r & Hh & Hu & Hr). pose proof (Hu _ _ Hi) as ->. rewrite Hi in Hh. by injection Hh as <-.
  - destruct Hv as [Hno _]. by destruct (Hno i rest).
Qed.

Lemma refines_acquire s a i op :
  refines s a -> sy_cpus s !! i = Some (Spinning op) -> sl_lock (sy_lock s) = false ->
  refines (set_pc s (mkSpinLock true (sl_value (sy_lock s))) i (Inside op))
    (mkASystem (run_section op (a_value a)) (<[i := ADone]> (a_cpus a))).
Proof.
  intros [Hc Hv] Hi Hl. rewrite Hl in Hv. destruct Hv as [Hno Hr].
  split; cbn [a_cpus a_value set_pc sy_cpus sy_lock sl_lock sl_value]; [by rewrite Hc, list_fmap_insert|].
  exists i, op. split_and!; [by eapply insert_here| |by rewrite Hr].
  intros j r [[-> _]|[_ E]]%inside_insert; [done|by destruct (Hno j r)].
Qed.

Lemma refines_access s a i f rest :
  refines s a -> sy_cpus s !! i = Some (Inside (f :: rest)) ->
  refines (set_pc s (guard_deref_mut f (sy_lock s)) i (Inside rest)) a.
Proof.
  intros Hr Hi. destruct (refines_inside _ _ _ _ Hr Hi) as (Hl & Hu & Hv & Hd). pose proof (rf_cpus _ _ Hr) as Hc.
  split; cbn [set_pc sy_cpus sy_lock guard_deref_mut sl_lock sl_value].
  - rewrite list_fmap_insert, <- Hc. symmetry. by apply list_insert_id.
  - rewrite Hl. exists i, rest. split_and!; [by eapply insert_here| |done].
    intros j r [[-> _]|[_ E]]%inside_insert; [done|by apply Hu in E].
Qed.

Lemma refines_release s a i :
  refines s a -> sy_cpus s !! i = Some (Inside []) ->
  refines (set_pc s (guard_drop (sy_lock s)) i Outside) (mkASystem (a_value a) (<[i := AOutside]> (a_cpus a))).
Proof.
  intros Hr Hi. destruct (refines_inside _ _ _ _ Hr Hi) as (Hl & Hu & Hv & Hd). pose proof (rf_cpus _ _ Hr) as Hc.
  split; cbn [a_cpus a_value set_pc sy_cpus sy_lock guard_drop sl_lock sl_value]; [by rewrite Hc, list_fmap_insert|].
  split; [|done]. intros j r [[_ E]|[Hne E]]%inside_insert; [done|by apply Hu in E].
Qed.

Lemma refines_step s a s' : refines s a -> step s s' -> exists a', rtc astep a a' /\ refines s' a'.
Proof.
  intros Hr Hs. destruct Hs as [s s' Hw|s i op Hi].
  2: { eexists. split; [|eapply (refines_outside _ _ i _ (Spinning op)); [done|exact Hi|done..]].
       apply rtc_once, astep_call. by rewrite (rf_cpus _ _ Hr), list_lookup_fmap, Hi. }
  destruct Hw as [s i op l Hi E|s i op l Hi E|s i f rest Hi|s i Hi].
  - rewrite try_lock_spec in E. destruct (sl_lock (sy_lock s)) eqn:Hl; [done|]. injection E as <-.
    eexists. split; [|by apply refines_acquire].
    apply rtc_once, astep_section. by rewrite (rf_cpus _ _ Hr), list_lookup_fmap, Hi.
  - rewrite try_lock_spec in E. destruct (sl_lock (sy_lock s)); [|done]. injection E as <-.
    exists a. split; [apply rtc_refl|]. unfold set_pc. rewrite list_insert_id by done. by destruct s.
  - exists a. split; [apply rtc_refl|by apply refines_access].
  - eexists. split; [|by apply refines_release].
    apply rtc_once, astep_return. by apply (refines_inside _ _ _ _ Hr Hi).
Qed.

Lemma refines_steps s a s' : refines s a -> rtc step s s' -> exists a', rtc astep a a' /\ refines s' a'.
Proof.
  intros Hr Hs. revert a Hr. induction Hs as [s|s s1 s2 H1 _ IH]; intros a Hr; [by exists a|].
  destruct (refines_step _ _ _ Hr H1) as (a1 & E1 & Hr1). destruct (IH a1 Hr1) as (a2 & E2 & Hr2).
  exists a2. split; [by etrans|done].
Qed.

(** ** Progress *)

(** The holder can finish. *)
Lemma finish_section rest : forall s a i,
  refines s a -> sy_cpus s !! i = Some (Inside rest) ->
  exists s' a', rtc work s s' /\ refines s' a' /\ sl_lock (sy_lock s') = false /\ sy_cpus s' = <[i := Outside]> (sy_cpus s).
Proof.
  induction rest as [|f rest IH]; intros s a i Hr Hi.
  - eexists _, _. split; [by apply rtc_once, work_release|]. split; [by apply refines_release|done].
  - destruct (IH _ a i (refines_access _ _ _ _ _ Hr Hi)) as (s' & a' & Hw & Hr' & Hl & Hc); [by eapply insert_here|].
    exists s', a'. split; [by eapply rtc_l; [apply work_access|]|]. split; [done|]. split; [done|].
    rewrite Hc. cbn [set_pc sy_cpus]. apply list_insert_insert_eq.
Qed.

(** A free lock serves the processors that wait for it, one after the other:
    those with an index below [n] are served last. *)
Lemma serve_all n : forall s a,
  refines s a -> sl_lock (sy_lock s) = false -> (forall i, (n <= i)%nat -> forall op, sy_cpus s !! i <> Some (Spinning op)) ->
  exists s' a', rtc work s s' /\ refines s' a' /\ sl_lock (sy_lock s') = false /\
    Forall (fun p => p = Outside) (sy_cpus s').
Proof.
  induction n as [|n IH]; intros s a Hr Hl Hn.
  - exists s, a. split; [apply rtc_refl|]. split; [done|]. split; [done|].
    apply Forall_lookup. intros i p Hi. pose proof (rf_value _ _ Hr) as Hv. rewrite Hl in Hv. destruct Hv as [Hno _].
    destruct p as [|op|r]; [done|by destruct (Hn i ltac:(lia) op)|by destruct (Hno i r)].
  - destruct (sy_cpus s !! n) as [[|op|r]|] eqn:E.
    2: { pose proof (refines_acquire _ _ _ _ Hr E Hl) as Hr1.
         destruct (finish_section op _ _ n Hr1) as (s2 & a2 & Hw2 & Hr2 & Hl2 & Hc2); [by eapply insert_here|].
         destruct (IH s2 a2 Hr2 Hl2) as (s3 & a3 & Hw3 & Hr3).
         - intros i Hi op'. rewrite Hc2. cbn [set_pc sy_cpus]. rewrite list_insert_insert_eq.
           intros [(_ & ? & _)|[Hne E']]%list_lookup_insert_Some; [done|]. by apply (Hn i ltac:(lia) op').
         - exists s3, a3. split; [|done]. eapply rtc_l; [|by etrans; [exact Hw2|]].
           eapply work_acquire; [exact E|by rewrite try_lock_spec, Hl]. }
    all: apply (IH s a Hr Hl); intros i Hi op'; destruct (decide (i = n)) as [->|]; [congruence|apply Hn; lia].
Qed.

Lemma system_drains s a : refines s a ->
  exists s', rtc work s s' /\ sl_lock (sy_lock s') = false /\ Forall (fun p => p = Outside) (sy_cpus s').
Proof.
  intros Hr. assert (exists s1 a1, rtc work s s1 /\ refines s1 a1 /\ sl_lock (sy_lock s1) = false) as (s1 & a1 & H1 & Hr1 & Hl1).
  { destruct (sl_lock (sy_lock s)) eqn:Hl; [|by exists s, a].
    pose proof (rf_value _ _ Hr) as Hv. rewrite Hl in Hv. destruct Hv as (h & rest & Hh & _ & _).
    destruct (finish_section rest s a h Hr Hh) as (s1 & a1 & H1 & Hr1 & Hl1 & _). by exists s1, a1. }
  destruct (serve_all (length (sy_cpus s1)) s1 a1 Hr1 Hl1) as (s2 & a2 & H2 & _ & Hl2 & Ho).
  { intros i Hi op E. apply lookup_lt_Some in E. lia. }
  exists s2. split; [by etrans|done].
Qed.

End Lock.

Arguments SpinLock : clear implicits.
Arguments system : clear implicits.
Arguments asystem : clear implicits.
Arguments section : clear implicits.

(** C7: Critical sections are atomic.  In every interleaving of any number of
    processors that take the lock, access the value and release it, at most
    one of them is inside, and the system refines the one in which each
    critical section is a single step: some sequence of whole sections, each
    between the call of [lock] and the release, leads to the same requests,
    and to the same value whenever the lock is free. *)
Theorem spinlock_refines_atomic {T : Type} (v : T) (n : nat) (s : system T) :
  reachable v n s ->
  (forall i j r r', sy_cpus s !! i = Some (Inside r) -> sy_cpus s !! j = Some (Inside r') -> i = j) /\
  exists a, rtc astep (mkASystem v (replicate n AOutside)) a /\ a_cpus a = abs_pc <$> sy_cpus s /\
    (sl_lock (sy_lock s) = false -> sl_value (sy_lock s) = a_value a).
Proof.
  intros Hs. destruct (refines_steps _ _ _ (refines_start v n) Hs) as (a & Ha & Hr). split.
  - intros i j r r' Hi Hj. destruct (refines_inside _ _ _ _ Hr Hi) as (_ & Hu & _). symmetry. by eapply Hu.
  - exists a. split; [done|]. split; [apply Hr|]. intros Hl. pose proof (rf_value _ _ Hr) as Hv. rewrite Hl in Hv. apply Hv.
Qed.

(** C37: The lock does not deadlock.  From every reachable state the processors
    that hold or wait for the lock can all finish, without a further call,
    and leave the lock free. *)
Theorem spinlock_no_deadlock {T : Type} (v : T) (n : nat) (s : system T) :
  reachable v n s ->
  exists s', rtc work s s' /\ sl_lock (sy_lock s') = false /\ Forall (fun p => p = Outside) (sy_cpus s').
Proof.
  intros Hs. destruct (refines_steps _ _ _ (refines_start v n) Hs) as (a & _ & Hr). by eapply system_drains.
Qed.

(** Two processors that each increment a counter with a read-modify-write. *)
Definition increment : section Z := [fun v => v; fun v => v + 1].

Lemma example_reachable :
  reachable 0 2 (mkSystem (mkSpinLock true 0) [Inside [fun v => v + 1]; Spinning increment]).
Proof.
  unfold reachable, start, SpinLock_new.
  eapply rtc_l; [by eapply (step_call _ 0 increment)|]. eapply rtc_l; [by eapply (step_call _ 1 increment)|].
  eapply rtc_l; [by eapply step_work, (work_acquire _ 0)|].
  eapply rtc_l; [by eapply step_work, (work_spin _ 1)|].
  eapply rtc_l; [by eapply step_work, (work_access _ 0)|]. apply rtc_refl.
Qed.

Lemma spinlock_refines_atomic_witness :
  exists a, rtc astep (mkASystem 0 [AOutside; AOutside]) a /\ a_cpus a = [ADone; AWaiting increment].
Proof.
  destruct (spinlock_refines_atomic 0 2 _ example_reachable) as (_ & a & Ha & Hc & _). exists a. by split.
Defined.

Lemma spinlock_no_deadlock_witness :
  exists s', rtc work (mkSystem (mkSpinLock true 0) [Inside [fun v => v + 1]; Spinning increment]) s' /\
    sl_lock (sy_lock s') = false /\ Forall (fun p => p = Outside) (sy_cpus s').
Proof. apply (spinlock_no_deadlock 0 2 _ example_reachable). Defined.
