(* ===== verification/Heap.v ===== *)
(** * kernel/src/memory.rs, ftl_api/src/allocator.rs: the global allocators

    The kernel and every server allocate Rust objects from a heap (Malloc.v)
    that they extend in chunks of 128 KiB: the kernel from its page allocator,
    a server by a call to the kernel.  [ChunkSource] is what the heap relies
    on; the page allocator and the kernel call implement it. *)

From S2P Require Import Prelude Bytes Alignment Malloc Api Machine Memory VmArea PageTable VmSpace SharedRef.
From S2P Require Import X64Context Thread StartInfo Server.

Definition MALLOC_CHUNK_SIZE : Z := 128 * 1024.

(** Where chunks come from.  [source_avail]: the addresses that have not been
    handed out yet. *)
Class ChunkSource (S : Type) : Type := {
  more : M S (option Z);
  source_inv : S -> Prop;
  source_avail : S -> Z -> Prop
}.

Class ChunkSourceLaws (S : Type) `{ChunkSource S} : Prop := {
  more_spec : forall s : S, source_inv s ->
    exists r s', more s = Ret (r, s') /\ source_inv s' /\
      match r with
      | None => forall x, source_avail s' x <-> source_avail s x
      | Some p =>
          0 < p /\ p mod MIN_PAGE_SIZE = 0 /\ p + MALLOC_CHUNK_SIZE <= 2 ^ 64 /\
          (forall x, in_block p MALLOC_CHUNK_SIZE x -> source_avail s x) /\
          (forall x, source_avail s' x -> source_avail s x /\ ~ in_block p MALLOC_CHUNK_SIZE x)
      end
}.

(** ** The allocator *)

Record GlobalAllocator (S : Type) : Type := mkGlobalAllocator { inner : Heap; source : S }.
Arguments mkGlobalAllocator {S} _ _.
Arguments inner {S} _.
Arguments source {S} _.

Section Alloc.
Context {P : Profile} {S : Type} `{ChunkSource S}.

Definition on_inner {A} (m : M Heap A) : M (GlobalAllocator S) A :=
  fun g => let* (a, h) := m (inner g) in Ret (a, mkGlobalAllocator h (source g)).
Definition on_source {A} (m : M S A) : M (GlobalAllocator S) A :=
  fun g => let* (a, s) := m (source g) in Ret (a, mkGlobalAllocator (inner g) s).

(** [alloc]: the pointer; the messages of the panics are not modelled. *)
Definition global_alloc (size align : Z) : M (GlobalAllocator S) Z :=
  do* o := on_inner (malloc size align) in
  match o with
  | Some ptr => ret ptr
  | None =>
      do* c := on_source more in
      match c with
      | None => lift Panic
      | Some ptr =>
          do* _ := on_inner (add_chunk ptr MALLOC_CHUNK_SIZE) in
          do* o := on_inner (malloc size align) in
          match o with
          | Some ptr => ret ptr
          | None => lift Panic
          end
      end
  end.

Definition global_dealloc (ptr : Z) : M (GlobalAllocator S) unit := on_inner (free ptr).

Definition heap_add_region (ptr size : Z) : M (GlobalAllocator S) unit := on_inner (add_chunk ptr size).

End Alloc.

(** The kernel: [PAGE_ALLOCATOR.alloc(MALLOC_CHUNK_SIZE, PageType::Dirty)]. *)
Definition page_chunk {Mc : Type} `{Machine Mc} : M Mc (option Z) :=
  do* o := page_alloc MALLOC_CHUNK_SIZE Dirty in
  match o with
  | Some paddr => ret (Some (paddr2vaddr paddr))
  | None => ret None
  end.

#[export] Instance kernel_source (Mc : Type) `{Machine Mc} : ChunkSource Mc := {|
  more := page_chunk;
  source_inv := machine_inv;
  source_avail s x := KERNEL_BASE <= x /\ avail s (x - KERNEL_BASE)
|}.

(** A server: [(start_info.malloc)(MALLOC_CHUNK_SIZE)]. *)
Definition call_chunk {Mc Sv : Type} `{Machine Mc} : M (Sys (Kernel Mc Sv)) (option Z) :=
  do* r := call_malloc MALLOC_CHUNK_SIZE in
  match r with
  | Ok ptr => ret (Some ptr)
  | Err _ => ret None
  end.

Definition kernel_machine {Mc Sv : Type} (s : Sys (Kernel Mc Sv)) : Mc := machine (vm (k_mem (ext s))).

#[export] Instance server_source (Mc Sv : Type) `{Machine Mc} : ChunkSource (Sys (Kernel Mc Sv)) := {|
  more := call_chunk;
  source_inv s := machine_inv (kernel_machine s);
  source_avail s x := KERNEL_BASE <= x /\ avail (kernel_machine s) (x - KERNEL_BASE)
|}.

(** [GlobalAlloc] of a server. *)
Definition server_alloc {P : Profile} {Mc Sv : Type} `{Machine Mc} (size align : Z)
  : M (GlobalAllocator (Sys (Kernel Mc Sv))) Z := global_alloc size align.
Definition server_dealloc {P : Profile} {Mc Sv : Type} (ptr : Z)
  : M (GlobalAllocator (Sys (Kernel Mc Sv))) unit := global_dealloc ptr.

(** ** The invariant: the heap is made of memory that was handed out *)

Definition heap_apart {S : Type} `{ChunkSource S} (g : GlobalAllocator S) : Prop :=
  forall a h x, heap (inner g) !! a = Some h -> a <= x < chunk_end a h -> ~ source_avail (source g) x.

Definition ga_inv {S : Type} `{ChunkSource S} (g : GlobalAllocator S) (l : list Z) : Prop :=
  heap_inv (inner g) l /\ source_inv (source g) /\ heap_apart g.

(** * Lemmas *)

Section Sources.

Lemma page_chunk_spec {Mc : Type} `{MachineLaws Mc} (s : Mc) :
  machine_inv s ->
  exists r s', page_alloc MALLOC_CHUNK_SIZE Dirty s = Ret (r, s') /\ machine_inv s' /\
    match r with
    | None => s' = s
    | Some p => 0 <= p /\ p + MALLOC_CHUNK_SIZE <= DIRECT_MAP_SIZE /\ p mod MIN_PAGE_SIZE = 0 /\
        (forall x, in_block p MALLOC_CHUNK_SIZE x -> avail s x) /\
        (forall x, avail s' x -> avail s x /\ ~ in_block p MALLOC_CHUNK_SIZE x)
    end.
Proof.
  intros Hi. destruct (page_alloc_spec s MALLOC_CHUNK_SIZE Dirty Hi) as (r & s' & E & Hi' & Hp); [done..|].
  exists r, s'. split; [done|]. split; [done|]. destruct r as [p|]; [|done].
  destruct Hp as (Hm & Hb & Ha & _). unfold in_block, MALLOC_CHUNK_SIZE in *.
  pose proof (avail_bounds s p Hi (Hb p ltac:(lia))). pose proof (avail_bounds s (p + 131071) Hi (Hb (p + 131071) ltac:(lia))).
  split_and!; try done; lia.
Qed.

(** Physical blocks are virtual blocks of the direct map. *)
Lemma chunk_virtual p :
  0 <= p -> p + MALLOC_CHUNK_SIZE <= DIRECT_MAP_SIZE -> p mod MIN_PAGE_SIZE = 0 ->
  0 < paddr2vaddr p /\ paddr2vaddr p mod MIN_PAGE_SIZE = 0 /\ paddr2vaddr p + MALLOC_CHUNK_SIZE <= 2 ^ 64 /\
  paddr2vaddr p = KERNEL_BASE + p.
Proof.
  intros H0 H1 H2. unfold MALLOC_CHUNK_SIZE, DIRECT_MAP_SIZE, GIGA_PAGE_SIZE, MIN_PAGE_SIZE in *.
  rewrite paddr2vaddr_add by lia. unfold KERNEL_BASE. split_and!; try lia. Z.div_mod_to_equations; lia.
Qed.

#[export] Instance kernel_source_laws (Mc : Type) `{MachineLaws Mc} : ChunkSourceLaws Mc.
Proof.
  split. intros s Hi. destruct (page_chunk_spec s Hi) as (r & s' & E & Hi' & Hr).
  cbn [more source_inv source_avail kernel_source]. unfold page_chunk. rewrite (bind_run _ _ _ _ _ E).
  destruct r as [p|].
  - eexists _, s'. split; [reflexivity|]. split; [done|]. destruct Hr as (Q0 & Q1 & Q2 & Hb & Ha).
    destruct (chunk_virtual p Q0 Q1 Q2) as (V0 & V1 & V2 & Ev). split_and!; try done; rewrite Ev; unfold in_block in *.
    + intros x Hx. split; [lia|]. apply Hb. lia.
    + intros x [Hk Hx]. destruct (Ha _ Hx) as [Hx' Hn]. split; [done|]. lia.
  - exists None, s'. split; [reflexivity|]. by subst s'.
Qed.

Lemma call_chunk_run {Mc Sv : Type} `{Machine Mc} (s : Sys (Kernel Mc Sv)) r m' :
  page_alloc MALLOC_CHUNK_SIZE Dirty (kernel_machine s) = Ret (r, m') ->
  exists s', call_chunk s = Ret (paddr2vaddr <$> r, s') /\ kernel_machine s' = m'.
Proof.
  intros E. unfold call_chunk, call_malloc. rewrite !bind_assoc.
  set (s' := set_ext s (set_mem (ext s) (mkKState (mkVmState m' (areas (vm (k_mem (ext s))))) (spaces (k_mem (ext s)))))).
  assert (on_mem (on_vm (on_machine (page_alloc MALLOC_CHUNK_SIZE Dirty))) s = Ret (r, s')) as E'.
  { unfold on_mem, on_vm, on_machine, kernel_machine in *. by rewrite E. }
  rewrite (bind_run _ _ _ _ _ E'). exists s'. split; [by destruct r|done].
Qed.

#[export] Instance server_source_laws (Mc Sv : Type) `{MachineLaws Mc} : ChunkSourceLaws (Sys (Kernel Mc Sv)).
Proof.
  split. intros s Hi. destruct (page_chunk_spec (kernel_machine s) Hi) as (r & m' & E & Hi' & Hr).
  destruct (call_chunk_run s r m' E) as (s' & E' & Em). cbn [more source_inv source_avail server_source].
  exists (paddr2vaddr <$> r), s'. rewrite Em. split; [done|]. split; [done|]. destruct r as [p|]; cbn.
  - destruct Hr as (Q0 & Q1 & Q2 & Hb & Ha).
    destruct (chunk_virtual p Q0 Q1 Q2) as (V0 & V1 & V2 & Ev). split_and!; try done; rewrite Ev; unfold in_block in *.
    + intros x Hx. split; [lia|]. apply Hb. lia.
    + intros x [Hk Hx]. destruct (Ha _ Hx) as [Hx' Hn]. split; [done|]. lia.
  - by subst m'.
Qed.

End Sources.

Section Alloc_lemmas.
Context {P : Profile} {S : Type} `{ChunkSourceLaws S}.

Lemma apart_within (g : GlobalAllocator S) h' s' :
  heap_apart g -> within (heap (inner g)) (heap h') ->
  (forall x, source_avail s' x -> source_avail (source g) x) -> heap_apart (mkGlobalAllocator h' s').
Proof.
  intros Ha Hw Hs b k x Hb Hx Hav. destruct (Hw b k Hb) as (a & h & Hh & Hle & Hend).
  apply (Ha a h x Hh); [lia|]. by apply Hs.
Qed.

(** A chunk of the page allocator's can be added, and is tried first. *)
Lemma add_chunk_run (s : Heap) l ptr :
  heap_inv s l -> region_free s ptr MALLOC_CHUNK_SIZE -> 0 < ptr -> ptr mod MIN_PAGE_SIZE = 0 ->
  let s' := mkHeap (Some ptr) (<[ptr := mkHeader (head s) 131056 MAGIC_FREE]> (heap s)) in
  add_chunk ptr MALLOC_CHUNK_SIZE s = Ret (tt, s') /\ heap_inv s' (ptr :: l).
Proof.
  intros Hi Hf Hp Hm s'. assert (ptr mod 16 = 0) as H16 by (unfold MIN_PAGE_SIZE in *; Z.div_mod_to_equations; lia).
  split; [|apply add_inv; done]. unfold add_chunk, MIN_SIZE.
  destruct (Z.eqb_spec ptr 0); [lia|]. rewrite is_aligned_16. erewrite bind_lift by done. by rewrite H16.
Qed.

(** What a successful request returns. *)
Definition served (h h' : Heap) (size align p : Z) : Prop :=
  p mod align = 0 /\ (exists c, live h' p c /\ size <= c) /\
  (forall q d, live h q d -> live h' q d) /\ (forall q d, live h' q d -> q = p \/ live h q d).

Lemma malloc_served h l size align :
  heap_inv h l -> good_request size align ->
  (malloc size align h = Ret (None, h) /\
   (U32_MAX / 2 < size \/ forall a, a ∈ l -> ~ fits h (rounded size) align a)) \/
  (exists p h' l', malloc size align h = Ret (Some p, h') /\ heap_inv h' l' /\ served h h' size align p /\
     within (heap h) (heap h')).
Proof.
  intros Hi Hg. destruct (decide (size <= U32_MAX / 2)) as [Hs|Hs].
  2: { left. split; [apply malloc_too_large; [done|lia]|left; lia]. }
  destruct (malloc_cases h l size align Hi Hg Hs)
    as [[E Hn]|(l1 & a & l2 & k & h' & -> & Ha & Hc & Hd & _ & E & mid & c & Hi' & Hc' & Ha' & Hin & Hout & Hw)];
    [left; eauto|right].
  exists (data_ptr a), h', (l1 ++ mid ++ l2). split; [done|]. split; [done|]. split; [|done].
  destruct Hg as (Hs0 & _). destruct (rounded_spec size) as (_ & _ & _ & Hr); [lia|]. unfold served. split_and!.
  - done.
  - exists c. rewrite live_data_ptr. split; [by eexists|lia].
  - intros q d (g & Hq & Hm & <-). exists g. split_and!; [|done..]. apply Hin; [|done]. by eapply not_in_list_alloc.
  - intros q d (g & Hq & Hm & <-). destruct (Hout _ _ Hq Hm) as [Hqa|Hq']; [left|right; by exists g].
    unfold from_data_ptr, data_ptr in *. lia.
Qed.

Lemma malloc_none h l size align :
  heap_inv h l -> good_request size align -> (forall a, a ∈ l -> ~ fits h (rounded size) align a) ->
  malloc size align h = Ret (None, h).
Proof.
  intros Hi Hg Hn. destruct (decide (size <= U32_MAX / 2)); [|apply malloc_too_large; [done|lia]].
  destruct (malloc_cases h l size align) as [[E _]|(l1 & a & l2 & k & h' & -> & Hk & Hc & Hd & _)]; [done..|].
  destruct (Hn a); [set_solver|by exists k].
Qed.

(** Memory that is available is not part of the heap. *)
Lemma available_free (g : GlobalAllocator S) l ptr :
  heap_inv (inner g) l -> heap_apart g -> 0 < ptr -> ptr + MALLOC_CHUNK_SIZE <= 2 ^ 64 ->
  (forall x, in_block ptr MALLOC_CHUNK_SIZE x -> source_avail (source g) x) ->
  region_free (inner g) ptr MALLOC_CHUNK_SIZE.
Proof.
  intros Hi Hap Hp Hend Hb. unfold MALLOC_CHUNK_SIZE in *. split_and!; try lia. intros a h Hh.
  destruct (Z.le_gt_cases (chunk_end a h) ptr) as [|H1]; [by left|].
  destruct (Z.le_gt_cases (ptr + 128 * 1024) a) as [|H2]; [by right|]. exfalso.
  pose proof (inv_chunk _ _ Hi a h Hh) as (_ & _ & Hcap & _).
  unfold chunk_end, HEADER_SIZE, MIN_CAPACITY in *. unfold in_block in Hb.
  apply (Hap a h (Z.max a ptr) Hh); [unfold chunk_end, HEADER_SIZE; lia|apply Hb; lia].
Qed.

(** The data of a page-aligned chunk is aligned to 16 bytes, and not to more. *)
Lemma data_ptr_aligned ptr k :
  ptr mod MIN_PAGE_SIZE = 0 -> 0 <= k -> data_ptr ptr mod 2 ^ k = 0 <-> k <= 4.
Proof.
  intros Hm Hk. unfold data_ptr, HEADER_SIZE. split.
  - intros E. destruct (Z.le_gt_cases k 4) as [|Hlt]; [done|]. exfalso.
    apply Z.mod_divide in E; [|lia]. assert (Z.divide (2 ^ 5) (ptr + 16)) as Hd.
    { eapply Z.divide_trans; [|exact E]. exists (2 ^ (k - 5)). rewrite <- Z.pow_add_r by lia. f_equal. lia. }
    apply Z.mod_divide in Hd; [|lia]. unfold MIN_PAGE_SIZE in *. Z.div_mod_to_equations; lia.
  - intros Hle. apply Z.mod_divide; [lia|]. eapply Z.divide_trans; [|apply (Z.mod_divide _ (2 ^ 4)); [lia|]].
    + exists (2 ^ (4 - k)). rewrite <- Z.pow_add_r by lia. f_equal. lia.
    + unfold MIN_PAGE_SIZE in *. Z.div_mod_to_equations; lia.
Qed.

(** [malloc] after [add_chunk]. *)
Lemma malloc_fresh (g : GlobalAllocator S) l ptr s' size align :
  ga_inv g l -> good_request size align -> source_inv s' ->
  0 < ptr -> ptr mod MIN_PAGE_SIZE = 0 -> ptr + MALLOC_CHUNK_SIZE <= 2 ^ 64 ->
  (forall x, in_block ptr MALLOC_CHUNK_SIZE x -> source_avail (source g) x) ->
  (forall x, source_avail s' x -> source_avail (source g) x /\ ~ in_block ptr MALLOC_CHUNK_SIZE x) ->
  exists h1 h2 r, add_chunk ptr MALLOC_CHUNK_SIZE (inner g) = Ret (tt, h1) /\
    malloc size align h1 = Ret (r, h2) /\ (exists l2, ga_inv (mkGlobalAllocator h2 s') l2) /\
    match r with
    | Some p => served (inner g) h2 size align p
    | None => 131056 < rounded size \/ 16 < align
    end.
Proof.
  intros (Hi & _ & Hap) Hg Hsi Hp Hm Hend Hb Ha.
  pose proof (available_free g l ptr Hi Hap Hp Hend Hb) as Hf.
  destruct (add_chunk_run (inner g) l ptr Hi Hf Hp Hm) as [E1 Hi1]. set (h1 := mkHeap _ _) in *.
  assert (forall q d, live h1 q d <-> live (inner g) q d) as Hlive.
  { intros q d. unfold live. cbn [h1 heap]. pose proof Hf as (_ & _ & _ & Hno). split; intros (k & Hk & Hma & Hc).
    - apply lookup_insert_Some in Hk as [[_ <-]|[_ Hk]]; [done|]. eauto.
    - exists k. split; [|done]. rewrite lookup_insert_ne; [done|]. intros Eq. rewrite <- Eq in Hk. destruct (Hno _ _ Hk);
        pose proof (inv_chunk _ _ Hi _ _ Hk) as (_ & _ & Hcap & _);
        unfold chunk_end, HEADER_SIZE, MIN_CAPACITY, MALLOC_CHUNK_SIZE in *; lia. }
  assert (heap_apart (mkGlobalAllocator h1 s')) as Hap1.
  { intros a k x Hk Hx Hav. destruct (Ha x Hav) as [Hav' Hnb]. cbn [h1 inner heap] in Hk.
    apply lookup_insert_Some in Hk as [[<- <-]|[_ Hk]]; [|by apply (Hap a k x)].
    apply Hnb. unfold in_block, chunk_end, HEADER_SIZE, MALLOC_CHUNK_SIZE in *. cbn [capacity] in Hx. lia. }
  exists h1. destruct (malloc_served h1 _ size align Hi1 Hg) as [[E2 Hn]|(p & h2 & l2 & E2 & Hi2 & Hs & Hw)].
  - exists h1, None. split; [done|]. split; [done|]. split; [by exists (ptr :: l)|].
    destruct Hg as (Hs0 & k & Hk & ->).
    assert (size <= rounded size) as Hr by (pose proof (Z.mod_pos_bound (- size) MIN_SIZE ltac:(done)); unfold rounded; lia).
    destruct Hn as [Hbig|Hn]; [left; change (U32_MAX / 2) with 2147483647 in Hbig; lia|].
    destruct (Z.le_gt_cases (rounded size) 131056); [right|left; lia].
    destruct (Z.le_gt_cases (2 ^ k) 16) as [Hk16|]; [|lia]. exfalso. apply (Hn ptr); [by left|].
    eexists. cbn [h1 heap]. rewrite lookup_insert_eq. split; [done|]. split; [done|].
    apply data_ptr_aligned; [done|lia|]. apply (Z.pow_le_mono_r_iff 2); lia.
  - exists h2, (Some p). split; [done|]. split; [done|]. split.
    + exists l2. split; [done|]. split; [done|]. by apply (apart_within (mkGlobalAllocator h1 s')).
    + destruct Hs as (S1 & S2 & S3 & S4). split_and!; [done|done| |].
      * intros q d Hq. by apply S3, Hlive.
      * intros q d Hq. destruct (S4 q d Hq) as [|Hq']; [by left|right; by apply Hlive].
Qed.

Lemma on_inner_run {A} (m : M Heap A) (g : GlobalAllocator S) a h :
  m (inner g) = Ret (a, h) -> on_inner m g = Ret (a, mkGlobalAllocator h (source g)).
Proof. intros E. unfold on_inner. by rewrite E. Qed.

Lemma on_source_run {A} (m : M S A) (g : GlobalAllocator S) a s :
  m (source g) = Ret (a, s) -> on_source m g = Ret (a, mkGlobalAllocator (inner g) s).
Proof. intros E. unfold on_source. by rewrite E. Qed.

End Alloc_lemmas.

(** * Properties *)


(** C39: An allocation with an alignment above 16 bytes panics on a new heap,
    however much memory there is: the header of 16 bytes at the start of the
    page-aligned chunk keeps the data from being aligned. *)
Theorem large_alignment_panics {P : Profile} {S : Type} `{ChunkSourceLaws S} (s : S) (size align : Z) :
  source_inv s -> good_request size align -> 16 < align ->
  global_alloc size align (mkGlobalAllocator heap_new s) = Panic.
Proof.
  intros Hs Hg Ha. unfold global_alloc.
  assert (malloc size align heap_new = Ret (None, heap_new)) as E
    by (apply (malloc_none _ [] size align heap_inv_new Hg); by intros a ?%elem_of_nil).
  rewrite (bind_run _ _ _ _ _ (on_inner_run _ (mkGlobalAllocator heap_new s) _ _ E)).
  destruct (more_spec s Hs) as (r & s' & Em & _ & Hr).
  rewrite (bind_run _ _ _ _ _ (on_source_run more (mkGlobalAllocator heap_new s) _ _ Em)).
  destruct r as [ptr|]; [|done]. destruct Hr as (R0 & R1 & R2 & _).
  destruct (add_chunk_run heap_new [] ptr heap_inv_new) as [E1 Hi1]; [|done..|].
  { split_and!; [lia|done|done|]. intros a h Hh. cbn in Hh. by rewrite lookup_empty in Hh. }
  rewrite (bind_run _ _ _ _ _ (on_inner_run _ (mkGlobalAllocator heap_new s') _ _ E1)).
  set (h1 := mkHeap _ _) in *. assert (malloc size align h1 = Ret (None, h1)) as E2.
  { apply (malloc_none _ _ size align Hi1 Hg). intros a ->%list_elem_of_singleton (h & _ & _ & Hd).
    destruct Hg as (_ & k & Hk & ->). apply data_ptr_aligned in Hd; [|done|lia].
    pose proof (Z.pow_le_mono_r 2 k 4). lia. }
  by rewrite (bind_run _ _ _ _ _ (on_inner_run _ (mkGlobalAllocator h1 s') _ _ E2)).
Qed.

Section Witnesses.
#[local] Existing Instance dev.

Definition example_heap : GlobalAllocator Phys := mkGlobalAllocator heap_new example_phys.

Lemma example_heap_inv : ga_inv example_heap [].
Proof.
  split; [apply heap_inv_new|]. split; [apply example_phys_inv|].
  intros a h x Hh. cbn in Hh. by rewrite lookup_empty in Hh.
Qed.


Lemma large_alignment_panics_witness : global_alloc 64 64 example_heap = Panic.
Proof.
  apply (large_alignment_panics example_phys 64 64).
  - apply example_phys_inv.
  - by apply (good_request_pow2 64 6).
  - lia.
Defined.

End Witnesses.
