(* ===== verification/Boot.v ===== *)
(** * kernel/src/boot.rs and the start of servers (server.rs)

    [boot]: memory, the per-CPU state, the servers of the boot modules, and the
    first return to user mode.  The code of a server is a parameter: [entry a]
    is what a call of the code at address [a] does. *)

From S2P Require Import Prelude Bytes Alignment ArrayVec Api Bump Machine Memory VmArea PageTable VmSpace SharedRef.
From S2P Require Import X64Context Thread Text StartInfo Server ServerApi Lx Elf Initfs Loader LxStack LxProcess.

(** ["servers/"] and [".elf"]. *)
Definition SERVERS_DIR : list Z := [115; 101; 114; 118; 101; 114; 115; 47].
Definition ELF_SUFFIX : list Z := [46; 101; 108; 102].

Definition is_server (name : list Z) : bool := starts_with name SERVERS_DIR && ends_with name ELF_SUFFIX.

Section BootOps.
Context {P : Profile} {L : RefLayout} {Mc Sv : Type} `{Machine Mc}.
Abbreviation KS := (Sys (Kernel Mc Sv)).
Abbreviation KM := (M KS).

Definition on_mach {A} (m : M Mc A) : KM A := on_mem (on_vm (on_machine m)).

Context (entry : Z -> KM unit).

(** [Server::load]; the result is the image. *)
Definition Server_load (faddr : Z) (elf_file : list Z) : KM (result LoadError Z) :=
  do? loaded := on_mach (load_elf faddr elf_file) in
  do* _ := entry (le_entry loaded) in
  ret (Ok (le_image loaded)).

(** The body of the loops of [init] for one file; [base] is the address of
    the module and [servers] the static [SERVERS]. *)
Definition init_file (base : Z) (file : File) (servers : list Z) : KM (list Z) :=
  if is_server (f_name file) then
    if utf8_valid (f_name file) then
      do* r := Server_load (base + f_at file) (f_data file) in
      match r with
      | Ok server => ret (servers ++ [server])
      | Err _ => ret servers
      end
    else lift Panic
  else ret servers.

(** [for file in initfs]: every file takes the 110 bytes of its header. *)
Fixpoint init_files (fuel : nat) (base : Z) (initfs : InitFsLoader) (servers : list Z) : KM (list Z) :=
  match fuel with
  | O => lift Hang
  | S fuel =>
      do* (o, initfs) := lift (initfs_next initfs) in
      match o with
      | None => ret servers
      | Some file =>
          do* servers := init_file base file servers in
          init_files fuel base initfs servers
      end
  end.

Fixpoint init_modules (modules : list Module_) (servers : list Z) : KM (list Z) :=
  match modules with
  | [] => ret servers
  | module :: modules =>
      do* initfs := on_mach (initfs_new module) in
      do* servers := init_files (Z.to_nat (len (fs_file initfs) / 110 + 2)) (paddr2vaddr (mod_start module)) initfs servers in
      init_modules modules servers
  end.

(** [server::init]: the servers that run. *)
Definition server_init (bootinfo : BootInfo) : KM (list Z) :=
  do* modules := lift (as_slice (modules bootinfo)) in
  init_modules modules [].

(** [cpuvar::init], as far as threads are concerned: no thread is current. *)
Definition cpuvar_init : KM unit := fun s => Ret (tt, set_current s None).

End BootOps.

(** [boot] on the machine that the page allocator manages. *)
Definition boot {P : Profile} {L : RefLayout} {Sv : Type} (entry : Z -> M (Sys (Kernel Phys Sv)) unit)
    (kernel : Z * Z) (bootinfo : BootInfo) (reserve : bool) : M (Sys (Kernel Phys Sv)) Z :=
  do* _ := on_mach (memory_init kernel bootinfo) in
  do* _ := cpuvar_init in
  do* _ := server_init entry bootinfo in
  return_to_user reserve.

(** * The servers of an archive *)

Section Servers.
Context {P : Profile} {L : RefLayout} {Mc Sv : Type} `{Machine Mc}.
Abbreviation KS := (Sys (Kernel Mc Sv)).
Context (entry : Z -> M KS unit).

(** The files in turn. *)
Fixpoint start_files (base : Z) (files : list File) (servers : list Z) : M KS (list Z) :=
  match files with
  | [] => ret servers
  | file :: files => do* servers := init_file entry base file servers in start_files base files servers
  end.

Lemma init_files_spec base : forall fuel fs files servers s,
  initfs_files fuel fs = Ret files ->
  init_files entry fuel base fs servers s = start_files base files servers s.
Proof.
  induction fuel as [|fuel IH]; intros fs files servers s E; [done|]. cbn [initfs_files init_files] in *.
  destruct (initfs_next fs) as [[o fs']| | |] eqn:En; cbn [obind] in E; try done.
  rewrite bind_lift with (a := (o, fs')) by done. destruct o as [file|].
  2: { injection E as <-. done. }
  destruct (initfs_files fuel fs') as [rest| | |] eqn:Er; cbn [obind] in E; try done. injection E as <-.
  cbn [start_files]. unfold bind. destruct (init_file entry base file servers s) as [[a s1]| | |]; try done.
  by apply IH.
Qed.

Lemma on_mach_run {A} (m : M Mc A) (s : KS) a m' :
  m (machine (vm (k_mem (ext s)))) = Ret (a, m') ->
  on_mach m s = Ret (a, set_ext s (set_mem (ext s) (mkKState (mkVmState m' (areas (vm (k_mem (ext s))))) (spaces (k_mem (ext s)))))).
Proof. intros E. apply on_mem_run, on_vm_run. unfold on_machine. by rewrite E. Qed.

(** Files that are not servers are skipped. *)
Lemma start_files_filter base : forall files servers s,
  start_files base files servers s = start_files base (filter (fun f => is_server (f_name f) = true) files) servers s.
Proof.
  induction files as [|file files IH]; intros servers s; [done|]. rewrite filter_cons. cbn [start_files].
  case_decide as Hs.
  - cbn [start_files]. unfold bind. by destruct (init_file entry base file servers s) as [[a s1]| | |].
  - unfold init_file. destruct (is_server (f_name file)); [done|]. rewrite bind_ret. apply IH.
Qed.

(** The module holds the archive of [es]. *)
Record archive_at (m : mem) (module : Module_) (es : list Entry) : Prop := {
  aa_entries : Forall (fun e => entry_ok e /\ en_name e <> CPIO_TRAILER) es;
  aa_bytes : exists trailer rest, entry_ok trailer /\ en_name trailer = CPIO_TRAILER /\
    let file := concat (entry_bytes <$> es) ++ entry_bytes trailer ++ rest in
    mem_holds m (mod_start module) file /\ mod_end module = mod_start module + len file;
  aa_bounds : 0 <= mod_start module /\ mod_end module < DIRECT_MAP_SIZE
}.

Lemma initfs_files_mono n : forall k fs l, initfs_files n fs = Ret l -> (n <= k)%nat -> initfs_files k fs = Ret l.
Proof.
  induction n as [|n IH]; intros k fs l E Hk; [done|]. destruct k as [|k]; [lia|]. cbn [initfs_files] in *.
  destruct (initfs_next fs) as [[[file|] fs']| | |]; cbn [obind] in *; try done.
  destruct (initfs_files n fs') as [rest| | |] eqn:Er; cbn [obind] in E; try done.
  by rewrite (IH k fs' rest Er) by lia.
Qed.

Lemma archive_length es : Forall entry_ok es -> 110 * len es <= len (concat (entry_bytes <$> es)).
Proof.
  induction 1 as [|e es He _ IH]; [done|]. rewrite fmap_cons. cbn [concat length]. rewrite length_app.
  rewrite !Nat2Z.inj_add, len_entry_bytes by done.
  pose proof (Z.mod_pos_bound (- (110 + len (en_name e) + 1)) 4). pose proof (Z.mod_pos_bound (- len (en_data e)) 4). lia.
Qed.

Lemma initfs_new_run (s : Mc) module es :
  archive_at (ram s) module es ->
  exists fs, initfs_new module s = Ret (fs, s) /\
    initfs_files (Z.to_nat (len (fs_file fs) / 110 + 2)) fs = Ret (archive_files 0 es).
Proof.
  intros [Hes (trailer & rest & Ht & Hn & Hm & Hend) [H0 Hb]]. set (file := concat _ ++ _) in *.
  assert (len file < 2 ^ 32) as Hl by (change (2 ^ 32) with DIRECT_MAP_SIZE; lia).
  exists (mkInitFs file 0). split.
  - unfold initfs_new, saturating_sub. rewrite !paddr2vaddr_add by (unfold DIRECT_MAP_SIZE, GIGA_PAGE_SIZE in *; lia).
    replace (Z.to_nat (Z.max 0 _)) with (length file) by lia.
    pose proof (vread_run s (mod_start module) (length file) 0) as E. rewrite !Z.add_0_r, paddr2vaddr_add in E
      by (unfold DIRECT_MAP_SIZE, GIGA_PAGE_SIZE in *; lia).
    rewrite (bind_run _ _ _ _ _ (E ltac:(unfold DIRECT_MAP_SIZE, GIGA_PAGE_SIZE in *; lia) ltac:(lia) ltac:(lia))).
    by rewrite Hm.
  - cbn [fs_file]. eapply initfs_files_mono; [apply (initfs_files_archive es [] trailer rest); try done; change (len file < 2 ^ 63); lia|].
    pose proof (archive_length es ltac:(eapply Forall_impl; [exact Hes|]; by intros e [])) as Hlen.
    assert (len es <= len file / 110) by (apply Z.div_le_lower_bound; [lia|]; unfold file; rewrite length_app; lia).
    lia.
Qed.

Lemma initfs_on_mach (s : KS) module es :
  archive_at (ram (machine (vm (k_mem (ext s))))) module es ->
  exists fs, on_mach (initfs_new module) s = Ret (fs, s) /\
    initfs_files (Z.to_nat (len (fs_file fs) / 110 + 2)) fs = Ret (archive_files 0 es).
Proof.
  intros Ha. destruct (initfs_new_run _ module es Ha) as (fs & E & Hf). exists fs. split; [|done].
  rewrite (on_mach_run _ _ _ _ E). by destruct s as [? ? ? ? [[[] ?] ? ? ?]].
Qed.

(** One module: its servers start in the order of the archive. *)
Lemma init_modules_one (s : KS) module es servers :
  archive_at (ram (machine (vm (k_mem (ext s))))) module es ->
  init_modules entry [module] servers s =
  start_files (paddr2vaddr (mod_start module)) (filter (fun f => is_server (f_name f) = true) (archive_files 0 es)) servers s.
Proof.
  intros Ha. destruct (initfs_on_mach s module es Ha) as (fs & E & Hf). cbn [init_modules].
  rewrite (bind_run _ _ _ _ _ E), <- start_files_filter. unfold bind. rewrite (init_files_spec _ _ _ _ _ _ Hf).
  by destruct (start_files _ _ _ s) as [[]| | |].
Qed.

End Servers.

(** C40: A server file that the archive does not place on a multiple of eight
    bytes cannot be loaded.  cpio aligns data to four bytes; the ELF parser
    reads its header through a reference that needs eight.  The dev profile
    panics, the release profile has undefined behaviour. *)
Theorem unaligned_server_refused {P : Profile} {L : RefLayout} {Mc Sv : Type} `{Machine Mc}
    (entry : Z -> M (Sys (Kernel Mc Sv)) unit) (base : Z) (file : File) (servers : list Z) (s : Sys (Kernel Mc Sv)) :
  is_server (f_name file) = true -> utf8_valid (f_name file) = true ->
  64 <= len (f_data file) -> (base + f_at file) mod 8 <> 0 ->
  init_file entry base file servers s = if debug_assertions then Panic else Undef.
Proof.
  intros Hn Hu Hl Ha. unfold init_file, Server_load, bindr. rewrite Hn, Hu, bind_assoc.
  assert (elf_parse (base + f_at file) (f_data file) ET_DYN = if debug_assertions then Panic else Undef) as E.
  { unfold elf_parse. change (Z.of_nat EHDR_SIZE) with 64. destruct (Z.ltb_spec (len (f_data file)) 64); [lia|].
    unfold ub_check. rewrite (proj2 (Z.eqb_neq _ _) Ha). by destruct debug_assertions. }
  unfold bind at 1, on_mach, on_mem, on_vm, on_machine, load_elf, bind at 1, lift. rewrite E.
  by destruct debug_assertions.
Qed.

(** * From the boot information to the first program *)

(** A position-independent file that the loader accepts at [faddr]. *)
Record image_ok (P : Profile) (faddr : Z) (file : list Z) (elf : Elf) : Prop := {
  io_bytes : bytes_ok file;
  io_parse : elf_parse faddr file ET_DYN = Ret (Ok elf);
  io_segments : Forall (fun ph => Loader.is_load ph = true -> seg_ok file (2 ^ 63) ph) (phdrs elf);
  io_extent : 0 < image_extent (phdrs elf);
  io_dynamic : Forall (fun ph => is_dynamic ph = true -> dyn_ok (round_page (image_extent (phdrs elf))) ph) (phdrs elf);
  io_table : table_ok (raw_image file (phdrs elf) (round_page (image_extent (phdrs elf)))) (phdrs elf)
    (round_page (image_extent (phdrs elf)));
  io_entry : e_entry (ehdr elf) <= round_page (image_extent (phdrs elf))
}.

(** The kernel's image contains the page that maps the direct map and the other
    statics that stay as they are. *)
Record boot_pdpt_ok (kernel : Z * Z) (bp : KernelImage) (m : mem) : Prop := {
  bp_aligned : bp mod MIN_PAGE_SIZE = 0;
  bp_inside : 0 <= kernel.1 <= bp /\ bp + MIN_PAGE_SIZE <= kernel.2;
  bp_bound : bp + MIN_PAGE_SIZE <= DIRECT_MAP_SIZE;
  bp_statics : forall a bs, (a, bs) ∈ ki_statics bp -> kernel.1 <= a /\ a + len bs <= kernel.2 /\ mem_holds m a bs;
  bp_entries : forall i, 0 <= i < 4 ->
    entry_at m bp i = Z.lor (i * GIGA_PAGE_SIZE) (Z.lor (Z.lor PTE_V PTE_W) PTE_HUGE)
}.

Abbreviation LxSv := (ApiMem ThreadContext LxServer).

(** The statics before [boot]. *)
Definition power_on (m : mem) (cr3 : Z) (console : list Z) : Sys (Kernel Phys LxSv) :=
  mkSys ∅ [] None cr3 (mkKernel (mkKState (mkVmState (PageAllocator_new m) ∅) ∅) [] console (mkApiMem ∅ ∅ (mkLxServer ∅))).

Definition with_machine (s : Sys (Kernel Phys LxSv)) (ph : Phys) : Sys (Kernel Phys LxSv) :=
  set_ext s (set_mem (ext s) (mkKState (mkVmState ph (areas (vm (k_mem (ext s))))) (spaces (k_mem (ext s))))).

Section Linux.
Context {P : Profile} {L : RefLayout} {B : BootPdpt}.
Abbreviation KS := (Sys (Kernel Phys LxSv)).

(** After [memory::init] the kernel's invariants hold. *)
Lemma kernel_ready m cr3 console kernel mods rams ph :
  phys_inv ph -> phys_ram ph = m -> (forall x, phys_avail ph x -> usable kernel mods rams x) ->
  boot_pdpt_ok kernel KERNEL_IMAGE m ->
  @sys_inv L _ lx_ext [] [] (with_machine (power_on m cr3 console) ph).
Proof.
  intros Hi Hr Hu Hbp. apply lx_inv_split. split.
  2: { split; by intros. }
  apply sys_check_ok; [reflexivity|]. split; [|split; by intros].
  assert (forall x, fixed KERNEL_IMAGE x -> ~ phys_avail ph x) as Hfx.
  { intros x Hx Hav. destruct (Hu x Hav) as (_ & _ & Hk & _). apply Hk. pose proof (bp_inside _ _ _ Hbp).
    destruct Hx as [Hx|(a & bs & Hin & Hx)]; [|pose proof (bp_statics _ _ _ Hbp a bs Hin)]; unfold in_block in Hx; lia. }
  assert (forall id i p, ~ page_at (mkVmState ph (∅ : gmap Z VmArea)) id i p) as Hn by (intros id i p (a & Ha & _); done).
  constructor; cbn; try by intros.
  - constructor; cbn; [exact Hi|by intros| | | |].
    + intros id i p []%Hn.
    + intros id i p []%Hn.
    + intros id i p x []%Hn.
    + intros id i id' i' p []%Hn.
  - split; [apply Hbp|]. split; [pose proof (bp_inside _ _ _ Hbp); lia|]. split; [apply Hbp|].
    intros x Hx. apply Hfx. by left.
  - exact Hfx.
  - intros a bs Hin. change (mem_holds (phys_ram ph) a bs). rewrite Hr. by apply (bp_statics _ _ _ Hbp).
  - intros i Hii. rewrite <- (bp_entries _ _ _ Hbp i Hii), <- Hr. reflexivity.
  - intros id x _ (i & p & Hp & _). by apply Hn in Hp.
Qed.

(** Loading an image keeps them. *)
Lemma image_loaded (s : KS) faddr file elf :
  @sys_inv L _ lx_ext (k_issued (ext s)) [] s -> len file < 2 ^ 64 -> image_ok P faddr file elf ->
  exists r ph, load_elf faddr file (machine (vm (k_mem (ext s)))) = Ret (r, ph) /\
    match r with
    | Err e => e = OutOfMemory /\ ph = machine (vm (k_mem (ext s)))
    | Ok l => exists p, l = mkLoadedElf (paddr2vaddr p) (paddr2vaddr p + e_entry (ehdr elf)) /\
        @sys_inv L _ lx_ext (k_issued (ext s)) [] (with_machine s ph)
    end.
Proof.
  intros [Hi Hlx]%lx_inv_split Hlen [H1 H2 H3 H4 H5 H6 H7]. pose proof (si_ext _ _ _ Hi) as [Hk Hlk].
  destruct (load_elf_spec faddr file elf (machine (vm (k_mem (ext s)))) (vm_machine _ (ks_vm _ _ Hk)) H1 Hlen H2 H3 H4 H5 H6 H7)
    as (r & ph & E & Hr). exists r, ph. split; [done|]. destruct r as [l|e]; [|done].
  destruct Hr as (p & -> & _ & Hb & Hav & Hram & Hinv & _). exists p. split; [done|]. apply lx_inv_split.
  split; [|destruct Hlx; by constructor]. apply sys_inv_set_ext; [done|]. split.
  - apply machine_step; [done|done|intros x Hx; by apply Hav|]. intros x Hx. apply Hram. intros Hin. by apply Hx, Hb.
  - by apply (linked_same _ (k_mem (ext s))).
Qed.

Context (galloc : RefStore KObject -> option Z) (try_reserve : RefStore KObject -> bool).
Context (invoke : Upcall -> UpcallArg -> M KS unit) (FTL_LOG_PREFIX : list Z) (box : LxSv -> option Z).
Abbreviation si := (START_INFO galloc try_reserve invoke).

(** The entry point of the Linux server, wherever it is loaded, with the
    program [prog] linked into it at [paddr]. *)
Definition LX_SPEC (paddr : Z) (prog : list Z) : Spec (St := KS) :=
  mkSpec [108; 120] (fun START_INFO =>
    do* info := lift (start_info START_INFO) in
    start (Server_new info FTL_LOG_PREFIX box paddr prog)).
Definition lx_entry (paddr : Z) (prog : list Z) : Z -> M KS unit := fun _ => server_start (LX_SPEC paddr prog) si.

Lemma lx_entry_eq paddr prog entry : lx_entry paddr prog entry = do* _ := Server_new si FTL_LOG_PREFIX box paddr prog in ret tt.
Proof. unfold lx_entry, server_start. cbn [spec_start LX_SPEC]. unfold start_info. by rewrite debug_assert_ok. Qed.

(** The program is entered. *)
Definition in_program (prog : list Z) (elf : Elf) (p : Z) (s : KS) : Prop :=
  exists ptr sid sp, @sys_inv L _ lx_ext (k_issued (ext s)) (current_ref s) s /\
    current_ref s = [p] /\ runqueue s = [] /\
    thread_at s p (mkThread (init_arch (mkInitRegs (e_entry (ehdr elf)) sp)) ptr sid Runnable 0) /\
    loaded_program s sid prog elf sp /\ total_refs (k_issued (ext s)) s + 5 < 2 ^ 64 /\
    exists spc, spaces (k_mem (ext s)) !! sid = Some spc /\ cr3_reg s = cr3 (vs_arch spc).

(** The statics are what they were. *)
Lemma program_statics prog elf p s a bs :
  in_program prog elf p s -> (a, bs) ∈ ki_statics KERNEL_IMAGE -> mem_holds (phys_ram (machine (vm (k_mem (ext s))))) a bs.
Proof.
  intros (ptr & sid & sp & Hi & _) Hin. pose proof (si_ext _ _ _ Hi) as [[Hk _] _].
  exact (ks_statics _ _ Hk a bs Hin).
Qed.

(** Conditions on the program, as for [Server::new]. *)
Record program_ok (paddr : Z) (prog : list Z) (elf : Elf) : Prop := {
  po_parse : elf_parse paddr prog ET_EXEC = Ret (Ok elf);
  po_bytes : bytes_ok prog;
  po_len : len prog < 2 ^ 63;
  po_count : 2 * len (phdrs elf) + 11 < 2 ^ 64;
  po_fits : forall phdr, phdr ∈ phdrs elf -> LxProcess.is_load phdr -> seg_fits prog phdr
}.

(** Without threads the kernel reaches [idle]. *)
Lemma nothing_runs (s : KS) :
  @sys_inv L _ lx_ext (k_issued (ext s)) [] s -> runqueue s = [] -> current s = None -> return_to_user true s = Panic.
Proof.
  intros Hi Hq Hc. assert (current_ref s = []) as Hcr by (unfold current_ref; by rewrite Hc).
  destruct (@return_to_user_spec _ _ _ lx_ext (k_issued (ext s)) s) as [[_ E]|(r & t & s' & sk & _ & Eq & _)];
    [by rewrite Hcr|unfold current_room; rewrite Hcr; set_solver|done|].
  rewrite Hcr, Hq in Eq. by destruct sk.
Qed.

(** Why the server at [at_] does not start on the state [s]: there is no memory
    for its image, or there is, and [Server::new] gives up on the state with
    the image loaded. *)
Definition not_started (base at_ : Z) (file : list Z) (paddr : Z) (prog : list Z) (pelf : Elf) (s : KS) : Prop :=
  let ph := machine (vm (k_mem (ext s))) in
  load_elf (base + at_) file ph = Ret (Err OutOfMemory, ph) \/
  exists loaded ph', load_elf (base + at_) file ph = Ret (Ok loaded, ph') /\
    start_failed galloc try_reserve invoke FTL_LOG_PREFIX box paddr prog pelf (with_machine s ph').

(** One server, on a kernel without threads, and the return to user mode. *)
Lemma server_boots (s : KS) base at_ name file elf paddr prog pelf :
  alloc_fresh galloc -> box_fresh box ->
  @sys_inv L _ lx_ext (k_issued (ext s)) [] s -> k_issued (ext s) = [] -> runqueue s = [] -> current s = None ->
  store s = ∅ -> is_server name = true -> utf8_valid name = true -> len file < 2 ^ 64 ->
  image_ok P (base + at_) file elf -> program_ok paddr prog pelf ->
  let run := do* _ := start_files (lx_entry paddr prog) base [mkFile name file at_] [] in return_to_user true in
  (run s = Panic /\ not_started base at_ file paddr prog pelf s) \/
  exists p s', run s = Ret (p, s') /\ in_program prog pelf p s'.
Proof.
  intros Hg Hb Hi Hiss Hq Hc Hst Hn Hu Hlen Him [Q1 Q2 Q3 Q4 Q5] run.
  destruct (image_loaded s _ _ _ Hi Hlen Him) as (r & ph & E & Hr).
  pose proof (on_mach_run (load_elf (base + at_) file) s r ph E) as E1. fold (with_machine s ph) in E1.
  unfold run. cbn [start_files]. unfold init_file. cbn [f_name f_data f_at]. rewrite Hn, Hu. unfold Server_load, bindr.
  rewrite !bind_assoc, (bind_run _ _ _ _ _ E1).
  destruct r as [l|e].
  - destruct Hr as (ip & -> & Hi1). set (s1 := with_machine s ph) in *.
    assert (k_issued (ext s1) = [] /\ runqueue s1 = [] /\ current s1 = None /\ store s1 = ∅) as (I1 & I2 & I3 & I4) by done.
    assert (total_refs (k_issued (ext s1)) s1 + 2 * len (phdrs pelf) + 11 < 2 ^ 64) as Hrefs.
    { unfold total_refs, current_ref. rewrite I1, I2, I3, I4.
      change (all_refs (∅ : RefStore KObject)) with (@nil Z). cbn [app length]. lia. }
    change (k_issued (ext s)) with (k_issued (ext s1)) in Hi1. pose proof (proj1 (lx_inv_split _ _) Hi1) as [Hk1 Hlx1].
    destruct (server_new_spec galloc try_reserve invoke FTL_LOG_PREFIX box s1 paddr prog pelf)
      as [[Ep Hf]|(pid & s2 & p & ptr & sid & sp & E2 & _)]; try done; [unfold krefs; cbn [app]; lia| |].
    + left. split; [|right; by eexists _, ph]. rewrite !bind_assoc. rewrite lx_entry_eq. by apply bind_panic, bind_panic.
    + right. destruct (boot_enters_spec galloc try_reserve invoke FTL_LOG_PREFIX box s1 paddr prog pelf)
        as (p' & s3 & ptr' & sid' & sp' & E3 & R1 & R2 & R3 & R4 & R5 & Hr & R6); try done; [lia| |].
      { intros Hf%start_failed_panics. rewrite E2 in Hf. done. }
      rewrite (bind_run _ _ _ _ _ E2) in E3. exists p', s3.
      split; [|exists ptr', sid', sp'; do 5 (split; [done|]); split; [lia|done]].
      rewrite !bind_assoc. rewrite lx_entry_eq, !bind_assoc, (bind_run _ _ _ _ _ E2). exact E3.
  - destruct Hr as [-> ->]. left. split; [|by left].
    assert (with_machine s (machine (vm (k_mem (ext s)))) = s) as Es by (by destruct s as [? ? ? ? [[[] ?] ? ? ?]]).
    rewrite Es. by apply nothing_runs.
Qed.

Lemma kernel_boots_spec (m : mem) (cr3 : Z) (console : list Z) (kernel : Z * Z) (bootinfo : BootInfo)
    (module : Module_) (rams : list FreeRam) (es : list Entry) (name file : list Z) (at_ : Z) (elf : Elf)
    (paddr : Z) (prog : list Z) (pelf : Elf) :
  alloc_fresh galloc -> box_fresh box ->
  av_rep (modules bootinfo) [module] -> av_rep (free_rams bootinfo) rams -> boot_ok kernel [module] rams ->
  mem_ok m -> boot_pdpt_ok kernel KERNEL_IMAGE m -> archive_at m module es ->
  filter (fun f => is_server (f_name f) = true) (archive_files 0 es) = [mkFile name file at_] ->
  utf8_valid name = true -> len file < 2 ^ 64 ->
  image_ok P (paddr2vaddr (mod_start module) + at_) file elf -> program_ok paddr prog pelf ->
  let run := boot (lx_entry paddr prog) kernel bootinfo true (power_on m cr3 console) in
  exists ph, memory_init kernel bootinfo (PageAllocator_new m) = Ret (tt, ph) /\
    ((run = Panic /\ not_started (paddr2vaddr (mod_start module)) at_ file paddr prog pelf
                       (with_machine (power_on m cr3 console) ph)) \/
     exists p s', run = Ret (p, s') /\ in_program prog pelf p s').
Proof.
  intros Hg Hb Hmods Hrams Hok Hm Hbp Har Hfiles Hu Hlen Him Hpo run.
  destruct (memory_init_safe kernel bootinfo [module] rams m) as (ph & res & E & Hi & _ & Hus & _);
    [done..|unfold NUM_MODULES_MAX; cbn; lia|done|done|].
  pose proof (memory_init_ram kernel bootinfo [module] rams m ph Hmods Hrams ltac:(unfold NUM_MODULES_MAX; cbn; lia) Hok E) as Hr.
  pose proof (kernel_ready m cr3 console kernel [module] rams ph Hi Hr Hus Hbp) as Hinv.
  set (s1 := with_machine (power_on m cr3 console) ph) in *.
  assert (run = (do* _ := start_files (lx_entry paddr prog) (paddr2vaddr (mod_start module)) [mkFile name file at_] [] in
    return_to_user true) s1) as ->.
  { unfold run, boot. rewrite (bind_run _ _ _ _ _ (on_mach_run _ (power_on m cr3 console) _ _ E)). fold s1.
    rewrite (bind_run cpuvar_init _ s1 tt s1) by done. unfold server_init. rewrite bind_assoc.
    erewrite bind_lift by (by apply av_rep_slice). unfold bind at 1. rewrite (init_modules_one _ s1 module es); [by rewrite Hfiles|].
    change (archive_at (phys_ram ph) module es). by rewrite Hr. }
  assert (is_server name = true) as Hn.
  { assert (mkFile name file at_ ∈ filter (fun f => is_server (f_name f) = true) (archive_files 0 es)) as Hin
      by (rewrite Hfiles; by left). by apply list_elem_of_filter in Hin as [Hn _]. }
  exists ph. split; [exact E|]. by apply (server_boots s1 (paddr2vaddr (mod_start module)) at_ name file elf paddr prog pelf).
Qed.

End Linux.

(** ** Witness: a PC with 16 MiB of memory

    The kernel image is at 1 MiB and begins with [BOOT_PDPT]; the module with
    the archive is at 3 MiB. *)

Section Witnesses.
#[local] Existing Instance dev.
#[local] Existing Instance boot_layout.
#[local] Existing Instance boot_pdpt.

Definition lx_name : list Z := SERVERS_DIR ++ [108; 120] ++ ELF_SUFFIX.
Definition boot_entries : list Entry := [example_entry [104; 105] [1; 2; 3]; example_entry lx_name example_file].
Definition boot_archive : list Z :=
  concat (entry_bytes <$> boot_entries) ++ entry_bytes (example_entry CPIO_TRAILER []) ++ [].
Definition boot_module : Module_ := mkModule 0x300000 (0x300000 + len boot_archive).
Definition boot_rams_list : list FreeRam := [mkFreeRam 0 0x1000000].
Definition boot_mem : mem :=
  mem_write (mem_write (fun _ => 0) 0x100000 boot_pdpt_bytes) 0x300000 boot_archive.

Lemma boot_archive_at m : mem_holds m 0x300000 boot_archive -> archive_at m boot_module boot_entries.
Proof.
  intros Hm. split.
  - repeat (apply Forall_cons; split; [split; [split; vm_compute; reflexivity|vm_compute; discriminate]|]). by apply Forall_nil.
  - exists (example_entry CPIO_TRAILER []), []. split; [split; vm_compute; reflexivity|]. split; [done|].
    split; [exact Hm|done].
  - vm_compute. split; [discriminate|reflexivity].
Qed.

Lemma boot_boot_ok : boot_ok (0x100000, 0x200000) [boot_module] boot_rams_list.
Proof.
  split; cbn; [lia|repeat constructor; vm_compute; discriminate|repeat constructor; cbn; lia|].
  intros [|i] [|j] r q x Hij Hi Hj; done.
Qed.

Lemma boot_files :
  filter (fun f => is_server (f_name f) = true) (archive_files 0 boot_entries) = [mkFile lx_name example_file 248].
Proof. vm_compute. reflexivity. Qed.

Lemma boot_image : image_ok dev (paddr2vaddr 0x300000 + 248) example_file (mkElf example_image_ehdr [example_load; example_dynamic]).
Proof.
  split.
  - apply example_file_bytes.
  - vm_compute. reflexivity.
  - apply example_segments_ok.
  - vm_compute. reflexivity.
  - apply example_dynamic_ok.
  - apply example_table_ok.
  - vm_compute. congruence.
Qed.

Lemma boot_program : program_ok 0x8000 hello_elf (mkElf hello_ehdr [hello_phdr]).
Proof. split; [exact hello_parse|exact hello_bytes|vm_compute; reflexivity|vm_compute; reflexivity|exact hello_fits]. Qed.

(** A file of four bytes before the server moves its data by four. *)
Definition shifted_entries : list Entry := [example_entry [104; 105] [1; 2; 3; 4; 5]; example_entry lx_name example_file].

Lemma unaligned_server_refused_witness :
  exists file, nth_error (archive_files 0 shifted_entries) 1 = Some file /\
    init_file (fun _ => ret tt) (paddr2vaddr 0x300000) file [] (power_on boot_mem 0 []) = Panic.
Proof.
  eexists. split; [reflexivity|].
  refine (unaligned_server_refused (P := dev) (fun _ => ret tt) (paddr2vaddr 0x300000) _ [] (power_on boot_mem 0 []) _ _ _ _).
  - vm_compute. reflexivity.
  - vm_compute. reflexivity.
  - vm_compute. discriminate.
  - vm_compute. discriminate.
Defined.

End Witnesses.
