(* ===== verification/X64Boot.v ===== *)
(** * kernel/src/arch/x64/boot.rs: [x64_boot], the first instructions

    A boot loader starts the kernel in 32-bit protected mode without paging, at
    physical addresses, while the kernel is linked at [KERNEL_BASE].  The
    assembly fills the first page table, turns on paging and long mode, loads
    the temporary segment descriptors of gdt.rs and jumps to [rust_boot] at its
    virtual address.

    [boot_step] gives the instructions their meaning on a processor with its
    control registers, and [x64_boot] is transcribed line by line.  A fault is
    [Undef]: there is no interrupt table yet, and the machine resets.  The
    accessed and dirty bits that the processor sets in page table entries are
    left out, and so are the caches of the page walk. *)

From S2P Require Import Prelude Bytes Alignment Api ArrayVec Bump Machine Memory PageTable X64Context Descriptors.

(** ** The symbols that the linker places, by virtual address

    [sy_insn i] is the instruction number [i]; the label [2:] is number 26. *)
Record Symbols : Type := mkSymbols {
  sy_insn : nat -> Z;
  sy_stack : Z;
  sy_pml4 : Z;
  sy_pdpt : Z;
  sy_gdtr : Z;
  sy_gdt : Z;
  sy_rust_boot : Z
}.

(** ** gdt.rs: the temporary descriptors *)

Definition boot_gdt : list Z := [0; 0x00af9a000000ffff; 0x00cf92000000ffff].
Definition boot_gdt_bytes : list Z := concat (le_bytes 8 <$> boot_gdt).
Definition boot_gdtr_bytes (gdt : Z) : list Z := le_bytes 2 (len boot_gdt_bytes - 1) ++ le_bytes 8 gdt.

(** ** multiboot.rs and boot.rs: how boot loaders recognise the kernel *)

Definition MULTIBOOT2_MAGIC : Z := 0xe85250d6.
Definition MULTIBOOT2_ARCH : Z := 0.
Definition MULTIBOOT2_LENGTH : Z := 24.
Definition multiboot2_header : list Z :=
  le_bytes 4 MULTIBOOT2_MAGIC ++ le_bytes 4 MULTIBOOT2_ARCH ++ le_bytes 4 MULTIBOOT2_LENGTH ++
  le_bytes 4 (- (MULTIBOOT2_MAGIC + MULTIBOOT2_ARCH + MULTIBOOT2_LENGTH)) ++
  le_bytes 2 0 ++ le_bytes 2 0 ++ le_bytes 4 8.

Definition pvh_note (sy : Symbols) : list Z :=
  le_bytes 4 4 ++ le_bytes 4 4 ++ le_bytes 4 18 ++ [88; 101; 110; 0] ++ le_bytes 4 (sy_insn sy 0 - KERNEL_BASE).

(** ** The processor *)

Inductive SegReg : Set := DS | ES | FS | GS | SS.
#[global] Instance SegReg_eq_dec : EqDecision SegReg.
Proof. solve_decision. Defined.

(** [bc_long]: the code segment is a 64-bit one.  [bc_pc]: the target of the
    last jump. *)
Record BootCpu : Type := mkBootCpu {
  bc_gpr : Reg -> Z;
  bc_if : bool;
  bc_df : bool;
  bc_cr0 : Z;
  bc_cr3 : Z;
  bc_cr4 : Z;
  bc_efer : Z;
  bc_gdtr : Gdtr;
  bc_long : bool;
  bc_seg : SegReg -> Z;
  bc_pc : Z;
  bc_mem : mem
}.

Definition CR0_PE : Z := 0.
Definition CR0_WP : Z := 16.
Definition CR0_PG : Z := 31.
Definition CR4_PAE : Z := 5.

Definition CR4_LA57 : Z := 12.
Definition EFER_LME : Z := 8.
Definition EFER_LMA : Z := 10.

(** Where a supervisor access to a linear address goes: nowhere on a page
    fault.  Writes to pages that are not writable are allowed unless CR0.WP is
    set.  Of the paging modes only the four-level one is described. *)
Definition linear (c : BootCpu) (write : bool) (va : Z) : option Z :=
  if Z.testbit (bc_cr0 c) CR0_PG then
    if Z.testbit (bc_cr4 c) CR4_PAE && Z.testbit (bc_efer c) EFER_LMA && negb (Z.testbit (bc_cr4 c) CR4_LA57)
    then
      t ← translate (bc_mem c) (pte_paddr (bc_cr3 c)) va;
      if write && negb (tr_write t) && Z.testbit (bc_cr0 c) CR0_WP then None else Some (tr_paddr t)
    else None
  else Some va.

(** An access to [n] bytes; their first and last byte must be [n - 1] apart. *)
Definition boot_access (c : BootCpu) (write : bool) (va : Z) (n : nat) : outcome Z :=
  match linear c write va, linear c write (va + (Z.of_nat n - 1)) with
  | Some p, Some q => if q =? p + (Z.of_nat n - 1) then Ret p else Undef
  | _, _ => Undef
  end.

Definition boot_load (c : BootCpu) (va : Z) (n : nat) : outcome (list Z) :=
  let* p := boot_access c false va n in Ret (mem_read (bc_mem c) p n).

Definition set_gpr (c : BootCpu) (r : Reg) (v : Z) : BootCpu :=
  mkBootCpu (set_reg (bc_gpr c) r v) (bc_if c) (bc_df c) (bc_cr0 c) (bc_cr3 c) (bc_cr4 c) (bc_efer c) (bc_gdtr c)
    (bc_long c) (bc_seg c) (bc_pc c) (bc_mem c).

Definition set_memory (c : BootCpu) (m : mem) : BootCpu :=
  mkBootCpu (bc_gpr c) (bc_if c) (bc_df c) (bc_cr0 c) (bc_cr3 c) (bc_cr4 c) (bc_efer c) (bc_gdtr c)
    (bc_long c) (bc_seg c) (bc_pc c) m.

Definition boot_store (c : BootCpu) (va : Z) (bs : list Z) : outcome BootCpu :=
  let* p := boot_access c true va (length bs) in Ret (set_memory c (mem_write (bc_mem c) p bs)).

Definition set_flags (c : BootCpu) (i d : bool) : BootCpu :=
  mkBootCpu (bc_gpr c) i d (bc_cr0 c) (bc_cr3 c) (bc_cr4 c) (bc_efer c) (bc_gdtr c)
    (bc_long c) (bc_seg c) (bc_pc c) (bc_mem c).

Definition set_control (c : BootCpu) (cr0 cr3 cr4 efer : Z) : BootCpu :=
  mkBootCpu (bc_gpr c) (bc_if c) (bc_df c) cr0 cr3 cr4 efer (bc_gdtr c)
    (bc_long c) (bc_seg c) (bc_pc c) (bc_mem c).

(** MOV to CR0: paging needs protected mode, and with EFER.LME it needs
    physical address extension and activates long mode. *)
Definition write_cr0 (c : BootCpu) (v : Z) : outcome BootCpu :=
  let efer := bc_efer c in
  if negb (Z.testbit v CR0_PG) then Ret (set_control c v (bc_cr3 c) (bc_cr4 c) efer)
  else if negb (Z.testbit v CR0_PE) then Undef
  else if Z.testbit efer EFER_LME then
    if Z.testbit (bc_cr4 c) CR4_PAE
    then Ret (set_control c v (bc_cr3 c) (bc_cr4 c) (Z.lor efer (Z.shiftl 1 EFER_LMA)))
    else Undef
  else Ret (set_control c v (bc_cr3 c) (bc_cr4 c) efer).

Definition push32 (c : BootCpu) (v : Z) : outcome BootCpu :=
  let esp := wrap 32 (bc_gpr c RSP - 4) in
  let* c := boot_store c esp (le_bytes 4 v) in
  Ret (set_gpr c RSP esp).

(** The displacement of a memory operand in 64-bit code is sign-extended. *)
Definition sext32 (a : Z) : Z := wrap 64 (if wrap 32 a <? 2 ^ 31 then wrap 32 a else wrap 32 a - 2 ^ 32).

(** The instructions, with the operand size in the name. *)
Inductive binstr : Set :=
| BCli | BCld
| Mov32 (dst src : Reg)
| MovImm32 (dst : Reg) (v : Z)
| Lea32 (dst : Reg) (a : Z)
| Or32 (dst : Reg) (v : Z)
| Store32 (base : Reg) (disp : Z) (src : Reg)
| MovFromCr (dst : Reg) (n : Z)
| MovToCr (n : Z) (src : Reg)
| Rdmsr | Wrmsr
| PushImm32 (v : Z)
| Push32 (src : Reg)
| Lgdt32 (a : Z)
| Retf32
| MovImm16 (dst : Reg) (v : Z)
| MovSeg (s : SegReg) (src : Reg)
| Lea64 (dst : Reg) (a : Z)
| MovImm64 (dst : Reg) (v : Z)
| Or64 (dst src : Reg)
| Jmp64 (r : Reg).

(** Instructions of the part behind [.code64]. *)
Definition is_code64 (i : binstr) : bool :=
  match i with
  | MovImm16 _ _ | MovSeg _ _ | Lea64 _ _ | MovImm64 _ _ | Or64 _ _ | Jmp64 _ => true
  | _ => false
  end.

Section Step.
Context (sy : Symbols).
(** The upper halves of the registers after the switch to 64-bit code, which
    the architecture leaves undefined. *)
Context (upper : Reg -> Z).

(** The far return: the offset and the selector come off the stack, and the
    descriptor must be a present 64-bit code segment of ring 0.  Control goes
    to the label behind the instruction or leaves the program. *)
Definition retf (c : BootCpu) : outcome BootCpu :=
  let esp := bc_gpr c RSP in
  let* eip := boot_load c esp 4 in
  let* sel := boot_load c (wrap 32 (esp + 4)) 4 in
  let sel := wrap 16 (le_val sel) in
  if gdtr_limit (bc_gdtr c) <? sel / 8 * 8 + 7 then Undef
  else
    let* d := boot_load c (gdtr_base (bc_gdtr c) + sel / 8 * 8) 8 in
    let sg := decode_segment (le_val d) in
    if sg_present sg && sg_code_or_data sg && sg_code sg && sg_long sg && (sg_dpl sg =? 0) && (sel mod 8 =? 0) &&
       Z.testbit (bc_efer c) EFER_LMA && (le_val eip =? sy_insn sy 26 - KERNEL_BASE)
    then
      let c := set_gpr c RSP (wrap 32 (esp + 8)) in
      Ret (mkBootCpu (fun r => wrap 32 (bc_gpr c r) + 2 ^ 32 * upper r) (bc_if c) (bc_df c) (bc_cr0 c) (bc_cr3 c)
        (bc_cr4 c) (bc_efer c) (bc_gdtr c) true (bc_seg c) (le_val eip) (bc_mem c))
    else Undef.

Definition boot_step (i : binstr) (c : BootCpu) : outcome BootCpu :=
  match i with
  | BCli => Ret (set_flags c false (bc_df c))
  | BCld => Ret (set_flags c (bc_if c) false)
  | Mov32 d s => Ret (set_gpr c d (wrap 32 (bc_gpr c s)))
  | MovImm32 d v => Ret (set_gpr c d (wrap 32 v))
  | Lea32 d a => Ret (set_gpr c d (wrap 32 a))
  | Or32 d v => Ret (set_gpr c d (wrap 32 (Z.lor (bc_gpr c d) v)))
  | Store32 b disp s => boot_store c (wrap 32 (bc_gpr c b + disp)) (le_bytes 4 (bc_gpr c s))
  | MovFromCr d n => Ret (set_gpr c d (wrap 32 (if n =? 0 then bc_cr0 c else bc_cr4 c)))
  | MovToCr n s =>
      if n =? 0 then write_cr0 c (bc_gpr c s)
      else if n =? 3 then Ret (set_control c (bc_cr0 c) (bc_gpr c s) (bc_cr4 c) (bc_efer c))
      else Ret (set_control c (bc_cr0 c) (bc_cr3 c) (bc_gpr c s) (bc_efer c))
  | Rdmsr =>
      if bc_gpr c RCX =? 0xc0000080
      then Ret (set_gpr (set_gpr c RAX (wrap 32 (bc_efer c))) RDX (wrap 32 (Z.shiftr (bc_efer c) 32)))
      else Undef
  | Wrmsr =>
      if bc_gpr c RCX =? 0xc0000080
      then Ret (set_control c (bc_cr0 c) (bc_cr3 c) (bc_cr4 c) (Z.lor (Z.shiftl (bc_gpr c RDX) 32) (bc_gpr c RAX)))
      else Undef
  | PushImm32 v => push32 c v
  | Push32 s => push32 c (bc_gpr c s)
  | Lgdt32 a =>
      let* b := boot_load c (wrap 32 a) 6 in
      Ret (mkBootCpu (bc_gpr c) (bc_if c) (bc_df c) (bc_cr0 c) (bc_cr3 c) (bc_cr4 c) (bc_efer c)
        (mkGdtr (field b 0 2) (field b 2 4)) (bc_long c) (bc_seg c) (bc_pc c) (bc_mem c))
  | Retf32 => retf c
  | MovImm16 d v => Ret (set_gpr c d (bc_gpr c d - wrap 16 (bc_gpr c d) + wrap 16 v))
  | MovSeg s r =>
      if wrap 16 (bc_gpr c r) =? 0
      then Ret (mkBootCpu (bc_gpr c) (bc_if c) (bc_df c) (bc_cr0 c) (bc_cr3 c) (bc_cr4 c) (bc_efer c) (bc_gdtr c)
             (bc_long c) (fun s' => if decide (s = s') then 0 else bc_seg c s') (bc_pc c) (bc_mem c))
      else Undef
  | Lea64 d a => Ret (set_gpr c d (sext32 a))
  | MovImm64 d v => Ret (set_gpr c d v)
  | Or64 d s => Ret (set_gpr c d (Z.lor (bc_gpr c d) (bc_gpr c s)))
  | Jmp64 r =>
      Ret (mkBootCpu (bc_gpr c) (bc_if c) (bc_df c) (bc_cr0 c) (bc_cr3 c) (bc_cr4 c) (bc_efer c) (bc_gdtr c)
        (bc_long c) (bc_seg c) (bc_gpr c r) (bc_mem c))
  end.

(** The instructions from number [n] on.  Each is fetched at its physical
    address, through the page tables once they are on, and must have been
    assembled for the mode that the processor is in. *)
Fixpoint boot_run (n : nat) (prog : list binstr) (c : BootCpu) : outcome BootCpu :=
  match prog with
  | [] => Ret c
  | i :: prog =>
      let ip := sy_insn sy n - KERNEL_BASE in
      let* p := boot_access c false ip 1 in
      if (p =? ip) && Bool.eqb (bc_long c) (is_code64 i)
      then let* c := boot_step i c in boot_run (S n) prog c
      else Undef
  end.

Definition x64_boot_32 : list binstr := [
  BCli;
  BCld;
  Mov32 RDI RAX;
  Mov32 RSI RBX;
  Lea32 RSP (sy_stack sy + KERNEL_STACK_SIZE - KERNEL_BASE);
  MovFromCr RAX 4;
  Or32 RAX (Z.lor (Z.shiftl 1 5) (Z.shiftl 1 7));
  MovToCr 4 RAX;
  Lea32 RBX (sy_pml4 sy - KERNEL_BASE);
  Lea32 RAX (sy_pdpt sy - KERNEL_BASE);
  Or32 RAX 1;
  Store32 RBX 0 RAX;
  Store32 RBX (256 * 8) RAX;
  MovToCr 3 RBX;
  MovImm32 RCX 0xc0000080;
  Rdmsr;
  Or32 RAX (Z.shiftl 1 8);
  Wrmsr;
  MovFromCr RAX 0;
  Or32 RAX (Z.shiftl 1 31);
  MovToCr 0 RAX ].

(** From here on with paging. *)
Definition x64_boot_compat : list binstr := [
  PushImm32 8;
  Lea32 RAX (sy_insn sy 26 - KERNEL_BASE);
  Push32 RAX;
  Lgdt32 (sy_gdtr sy - KERNEL_BASE);
  Retf32 ].

Definition x64_boot_64 : list binstr := [
  MovImm16 RAX 0;
  MovSeg DS RAX;
  MovSeg ES RAX;
  MovSeg FS RAX;
  MovSeg GS RAX;
  MovSeg SS RAX;
  Lea64 RAX (sy_rust_boot sy - KERNEL_BASE);
  Lea64 RSP (sy_stack sy + KERNEL_STACK_SIZE - KERNEL_BASE);
  MovImm64 RBX KERNEL_BASE;
  Or64 RAX RBX;
  Or64 RSP RBX;
  Jmp64 RAX ].

Definition x64_boot (c : BootCpu) : outcome BootCpu :=
  boot_run 0 (x64_boot_32 ++ x64_boot_compat ++ x64_boot_64) c.

End Step.

(** * The image in memory *)

(** [n] bytes at [a] and [k] bytes at [b] do not overlap. *)
Definition apart (a n b k : Z) : Prop := a + n <= b \/ b + k <= a.

Definition phys_of (va : Z) : Z := va - KERNEL_BASE.

(** The 8 bytes below the end of the boot stack, which the code pushes to. *)
Definition stack_top (sy : Symbols) : Z := phys_of (sy_stack sy) + KERNEL_STACK_SIZE.

(** The entries of [BOOT_PDPT] (PageTable.v) and of an empty [BOOT_PML4]. *)
Definition giga_entry (i : Z) : Z :=
  if i <? 4 then Z.lor (i * GIGA_PAGE_SIZE) (Z.lor (Z.lor PTE_V PTE_W) PTE_HUGE) else 0.

(** Where the linker and the boot loader put the kernel: below 2 GiB. *)
Record symbols_ok (sy : Symbols) : Prop := {
  so_insn : forall i, (i < 38)%nat -> 0 <= phys_of (sy_insn sy i) < 2 ^ 31;
  so_stack : 0 <= phys_of (sy_stack sy) /\ stack_top sy < 2 ^ 31 /\ stack_top sy mod 16 = 0;
  so_pml4 : 0 <= phys_of (sy_pml4 sy) /\ phys_of (sy_pml4 sy) + 4096 <= 2 ^ 31 /\ phys_of (sy_pml4 sy) mod 4096 = 0;
  so_pdpt : 0 <= phys_of (sy_pdpt sy) /\ phys_of (sy_pdpt sy) + 4096 <= 2 ^ 31 /\ phys_of (sy_pdpt sy) mod 4096 = 0;
  so_gdtr : 0 <= phys_of (sy_gdtr sy) /\ phys_of (sy_gdtr sy) + 10 <= 2 ^ 31;
  so_gdt : 0 <= phys_of (sy_gdt sy) /\ phys_of (sy_gdt sy) + 24 <= 2 ^ 31;
  so_main : 0 <= phys_of (sy_rust_boot sy) < 2 ^ 31;
  so_tables : apart (phys_of (sy_pml4 sy)) 4096 (phys_of (sy_pdpt sy)) 4096;
  so_pml4_gdt : apart (phys_of (sy_pml4 sy)) 4096 (phys_of (sy_gdtr sy)) 10 /\
    apart (phys_of (sy_pml4 sy)) 4096 (phys_of (sy_gdt sy)) 24;
  so_top : apart (stack_top sy - 8) 8 (phys_of (sy_pml4 sy)) 4096 /\ apart (stack_top sy - 8) 8 (phys_of (sy_pdpt sy)) 4096 /\
    apart (stack_top sy - 8) 8 (phys_of (sy_gdtr sy)) 10 /\ apart (stack_top sy - 8) 8 (phys_of (sy_gdt sy)) 24
}.

Record loaded_image (sy : Symbols) (m : mem) : Prop := {
  li_pml4 : forall x, in_block (phys_of (sy_pml4 sy)) 4096 x -> m x = 0;
  li_pdpt : forall i, 0 <= i < 512 -> entry_at m (phys_of (sy_pdpt sy)) i = giga_entry i;
  li_gdtr : mem_holds m (phys_of (sy_gdtr sy)) (boot_gdtr_bytes (sy_gdt sy));
  li_gdt : mem_holds m (phys_of (sy_gdt sy)) boot_gdt_bytes
}.

(** The state in which both boot protocols start the kernel. *)
Record protected_mode (c : BootCpu) : Prop := {
  pm_pe : Z.testbit (bc_cr0 c) CR0_PE = true;
  pm_pg : Z.testbit (bc_cr0 c) CR0_PG = false;
  pm_la57 : Z.testbit (bc_cr4 c) CR4_LA57 = false;
  pm_widths : 0 <= bc_cr0 c < 2 ^ 32 /\ 0 <= bc_cr4 c < 2 ^ 32 /\ 0 <= bc_efer c < 2 ^ 64;
  pm_gprs : forall r, 0 <= bc_gpr c r < 2 ^ 32;
  pm_code : bc_long c = false
}.

(** The page tables that the code builds: [p] and [KERNEL_BASE + p] lead to [p]
    for the first 4 GiB, and nothing else is mapped. *)
Record boot_tables (sy : Symbols) (m : mem) : Prop := {
  bt_pml4 : forall i, 0 <= i < 512 -> entry_at m (phys_of (sy_pml4 sy)) i =
    if (i =? 0) || (i =? 256) then Z.lor (phys_of (sy_pdpt sy)) PTE_V else 0;
  bt_pdpt : forall i, 0 <= i < 512 -> entry_at m (phys_of (sy_pdpt sy)) i = giga_entry i
}.

(** Four-level paging is on with these tables. *)
Record paged (sy : Symbols) (c : BootCpu) : Prop := {
  pg_on : Z.testbit (bc_cr0 c) CR0_PG = true;
  pg_pae : Z.testbit (bc_cr4 c) CR4_PAE = true;
  pg_lma : Z.testbit (bc_efer c) EFER_LMA = true;
  pg_la57 : Z.testbit (bc_cr4 c) CR4_LA57 = false;
  pg_cr3 : bc_cr3 c = phys_of (sy_pml4 sy);
  pg_tables : boot_tables sy (bc_mem c)
}.

(** * Lemmas *)

(** Memory that the image does not use. *)
Lemma loaded_image_ext sy m m' :
  loaded_image sy m ->
  (forall x, in_block (phys_of (sy_pml4 sy)) 4096 x \/ in_block (phys_of (sy_pdpt sy)) 4096 x \/
     in_block (phys_of (sy_gdtr sy)) 10 x \/ in_block (phys_of (sy_gdt sy)) 24 x -> m' x = m x) ->
  loaded_image sy m'.
Proof.
  intros [H1 H2 H3 H4] Hx. split.
  - intros x Hi. rewrite Hx by auto. auto.
  - intros i Hi. rewrite <- H2 by done. apply entry_at_ext; [done|]. intros x Hb. apply Hx. auto.
  - unfold mem_holds in *. rewrite <- H3 at 2. apply mem_read_ext. intros x Hb. apply Hx. right. right. left. exact Hb.
  - unfold mem_holds in *. rewrite <- H4 at 2. apply mem_read_ext. intros x Hb. apply Hx. right. right. right. exact Hb.
Qed.

(** ** Accesses *)

Lemma access_flat c w va n : Z.testbit (bc_cr0 c) CR0_PG = false -> boot_access c w va n = Ret va.
Proof. intros Hp. unfold boot_access, linear. by rewrite Hp, Z.eqb_refl. Qed.

Section Paged.
Context (sy : Symbols) (Hsy : symbols_ok sy).

Lemma boot_translate m p base :
  boot_tables sy m -> 0 <= p < DIRECT_MAP_SIZE -> base = 0 \/ base = KERNEL_BASE ->
  translate m (phys_of (sy_pml4 sy)) (base + p) = Some (mkTranslation p false false).
Proof.
  intros Ht Hp Hb. unfold DIRECT_MAP_SIZE, GIGA_PAGE_SIZE in Hp. pose proof (so_pdpt _ Hsy) as (Hd & Hd2 & Hdm).
  assert (0 <= p / 2 ^ 30 < 4) as Hi by dlia.
  rewrite (translate_giga m _ (phys_of (sy_pdpt sy)) _ (p / 2 ^ 30)); [|exact Hdm|lia|done| | | |].
  - do 2 f_equal. unfold GIGA_PAGE_SIZE. destruct Hb as [->| ->]; unfold KERNEL_BASE; dlia.
  - destruct Hb as [->| ->]; unfold KERNEL_BASE; lia.
  - assert (pml4_index (base + p) = 0 \/ pml4_index (base + p) = 256) as Hx.
    { unfold pml4_index. rewrite index_div by lia. destruct Hb as [->| ->]; unfold KERNEL_BASE; dlia. }
    rewrite (bt_pml4 _ _ Ht) by lia. by destruct Hx as [->| ->].
  - unfold pdpt_index. rewrite index_div by lia. destruct Hb as [->| ->]; unfold KERNEL_BASE; dlia.
  - rewrite (bt_pdpt _ _ Ht) by lia. unfold giga_entry. by destruct (Z.ltb_spec (p / 2 ^ 30) 4); [|lia].
Qed.

(** Nothing else is mapped, in either canonical half. *)
Lemma boot_translate_only m va t :
  boot_tables sy m -> 0 <= va < 2 ^ 47 \/ KERNEL_BASE <= va < 2 ^ 64 ->
  translate m (phys_of (sy_pml4 sy)) va = Some t -> va < DIRECT_MAP_SIZE \/ KERNEL_BASE <= va < KERNEL_BASE + DIRECT_MAP_SIZE.
Proof.
  intros Ht Hva. pose proof (so_pdpt _ Hsy) as (Hd & Hd2 & Hdm). unfold translate, levels.
  assert (0 <= pml4_index va < 512 /\ 0 <= pdpt_index va < 512) as [H4 H3]
    by (unfold pml4_index, pdpt_index; rewrite !index_div by lia; dlia).
  rewrite walk_cons; cbv zeta. rewrite (bt_pml4 _ _ Ht) by done.
  destruct ((pml4_index va =? 0) || (pml4_index va =? 256)) eqn:E4; [|done].
  rewrite is_present_bit, pte_flag by (exact Hdm || lia). simpl negb. cbv iota.
  rewrite andb_false_l, pte_paddr_lor by (exact Hdm || lia || done).
  rewrite walk_cons; cbv zeta. rewrite (bt_pdpt _ _ Ht) by done. unfold giga_entry at 1.
  destruct (Z.ltb_spec (pdpt_index va) 4) as [Hlt|]; [|done]. intros _.
  unfold pml4_index, pdpt_index in *. rewrite !index_div in * by lia. unfold DIRECT_MAP_SIZE, GIGA_PAGE_SIZE, KERNEL_BASE in *.
  apply orb_true_iff in E4. rewrite !Z.eqb_eq in E4. dlia.
Qed.

Lemma cr3_pml4 : pte_paddr (phys_of (sy_pml4 sy)) = phys_of (sy_pml4 sy).
Proof.
  pose proof (so_pml4 _ Hsy) as (H0 & H1 & Hm). rewrite <- (Z.lor_0_r (phys_of _)) at 1.
  apply pte_paddr_lor; [exact Hm|lia|unfold MIN_PAGE_SIZE; lia].
Qed.

Lemma linear_paged c w p base :
  paged sy c -> 0 <= p < DIRECT_MAP_SIZE -> base = 0 \/ base = KERNEL_BASE ->
  linear c w (base + p) = if w && Z.testbit (bc_cr0 c) CR0_WP then None else Some p.
Proof.
  intros Hc Hp Hb. unfold linear. rewrite (pg_on _ _ Hc), (pg_pae _ _ Hc), (pg_lma _ _ Hc), (pg_la57 _ _ Hc), (pg_cr3 _ _ Hc).
  rewrite cr3_pml4. simpl andb. cbv iota. rewrite (boot_translate _ p base (pg_tables _ _ Hc) Hp Hb). simpl.
  by rewrite andb_true_r.
Qed.

Lemma access_paged c w p base n :
  paged sy c -> 0 <= p -> p + Z.of_nat n <= DIRECT_MAP_SIZE -> (0 < n)%nat -> base = 0 \/ base = KERNEL_BASE ->
  boot_access c w (base + p) n = if w && Z.testbit (bc_cr0 c) CR0_WP then Undef else Ret p.
Proof.
  intros Hc Hp Hn H0 Hb. unfold boot_access. rewrite <- Z.add_assoc, !(linear_paged c w _ base Hc) by (done || lia).
  destruct (w && Z.testbit (bc_cr0 c) CR0_WP); [done|]. by rewrite Z.eqb_refl.
Qed.

(** Reads and writes of the code at physical addresses. *)
Lemma load_paged c p n :
  paged sy c -> 0 <= p -> p + Z.of_nat n <= DIRECT_MAP_SIZE -> (0 < n)%nat ->
  boot_load c p n = Ret (mem_read (bc_mem c) p n).
Proof. intros. unfold boot_load. change p with (0 + p) at 1. rewrite access_paged by auto. done. Qed.

End Paged.

(** ** Running the code *)

Lemma boot_run_cons sy up n i prog c c' :
  boot_access c false (phys_of (sy_insn sy n)) 1 = Ret (phys_of (sy_insn sy n)) -> bc_long c = is_code64 i ->
  boot_step sy up i c = Ret c' -> boot_run sy up n (i :: prog) c = boot_run sy up (S n) prog c'.
Proof.
  intros Ha Hl Hs. cbn [boot_run]. fold (phys_of (sy_insn sy n)). rewrite Ha. cbn [obind].
  by rewrite Z.eqb_refl, Hl, eqb_reflx, Hs.
Qed.

Lemma boot_run_app sy up prog2 : forall prog1 n c,
  boot_run sy up n (prog1 ++ prog2) c = (let* c := boot_run sy up n prog1 c in boot_run sy up (n + length prog1) prog2 c).
Proof.
  induction prog1 as [|i prog1 IH]; intros n c; [cbn; by rewrite Nat.add_0_r|]. cbn [app boot_run].
  destruct (boot_access c false _ 1) as [p| | |]; [|done..]. cbn [obind].
  destruct (_ && _); [|done]. destruct (boot_step sy up i c) as [c1| | |]; [|done..]. cbn [obind].
  rewrite IH. cbn [length]. by rewrite Nat.add_succ_r.
Qed.

Lemma store_flat c va bs :
  Z.testbit (bc_cr0 c) CR0_PG = false ->
  boot_store c va bs = Ret (set_memory c (mem_write (bc_mem c) va bs)).
Proof. intros Hp. unfold boot_store. by rewrite access_flat. Qed.

(** *** Filling the page table *)

Definition pml4_filled (sy : Symbols) (m : mem) : mem :=
  let e := le_bytes 4 (Z.lor (phys_of (sy_pdpt sy)) PTE_V) in
  mem_write (mem_write m (phys_of (sy_pml4 sy)) e) (phys_of (sy_pml4 sy) + 2048) e.

Lemma pdpt_pte sy : symbols_ok sy -> 0 <= Z.lor (phys_of (sy_pdpt sy)) PTE_V < 2 ^ 32.
Proof.
  intros Hsy. pose proof (so_pdpt _ Hsy) as (? & ? & Hm).
  change PTE_V with 1. rewrite (lor_add_low 12) by (exact Hm || lia). lia.
Qed.

Lemma half_entry m a v :
  0 <= v < 2 ^ 32 -> mem_read m a 4 = le_bytes 4 v -> (forall x, a + 4 <= x < a + 8 -> m x = 0) ->
  le_val (mem_read m a 8) = v.
Proof.
  intros Hv Hr Hz. change 8%nat with (4 + 4)%nat. rewrite mem_read_app, Hr, mem_read_zero by (intros; apply Hz; lia).
  rewrite le_val_app, le_val_le_bytes_small by (cbn; lia). cbn. lia.
Qed.

Lemma pml4_filled_ok sy m :
  symbols_ok sy -> loaded_image sy m -> boot_tables sy (pml4_filled sy m).
Proof.
  intros Hsy [Hz Hd _ _]. pose proof (pdpt_pte sy Hsy) as Hv. pose proof (so_tables _ Hsy) as Hap. unfold apart in Hap.
  set (a := phys_of (sy_pml4 sy)) in *. set (v := Z.lor _ PTE_V) in *.
  assert (forall x, x < a \/ a + 4 <= x < a + 2048 \/ a + 2052 <= x -> pml4_filled sy m x = m x) as Hout.
  { intros x Hx. unfold pml4_filled. rewrite !mem_write_out by (rewrite length_le_bytes; fold a; lia). done. }
  split; intros i Hi.
  - unfold entry_at. destruct (Z.eqb_spec i 0) as [->|]; [|destruct (Z.eqb_spec i 256) as [->|]]; cbn [orb].
    + rewrite Z.add_0_r. apply half_entry; [done| |].
      * unfold pml4_filled. fold a v. rewrite mem_read_write_disjoint by (rewrite length_le_bytes; lia).
        apply mem_read_write_same. by rewrite length_le_bytes.
      * intros x Hx. rewrite Hout by lia. apply Hz. unfold in_block. lia.
    + apply half_entry; [done| |].
      * unfold pml4_filled. fold a v. apply mem_read_write_same. by rewrite length_le_bytes.
      * intros x Hx. rewrite Hout by lia. apply Hz. unfold in_block. lia.
    + rewrite mem_read_zero; [done|]. intros x Hx. rewrite Hout by lia. apply Hz. unfold in_block. lia.
  - rewrite <- Hd by done. apply entry_at_ext; [done|]. intros x Hx. unfold in_block, MIN_PAGE_SIZE in Hx. apply Hout. lia.
Qed.

(** *** Up to paging *)

Lemma wrap32_small x : 0 <= x < 2 ^ 32 -> wrap 32 x = x.
Proof. intros. unfold wrap. by apply Z.mod_small. Qed.

(** The bits of a 32-bit register after [or r, v]. *)
Lemma or32_bit x v i : 0 <= i < 32 -> Z.testbit (wrap 32 (Z.lor (wrap 32 x) v)) i = Z.testbit x i || Z.testbit v i.
Proof. intros Hi. unfold wrap. by rewrite Z.mod_pow2_bits_low, Z.lor_spec, Z.mod_pow2_bits_low by lia. Qed.

Section Phases.
Context (sy : Symbols) (Hsy : symbols_ok sy) (up : Reg -> Z).

(** What every phase leaves for the next one. *)
Record handed_over (c0 c : BootCpu) : Prop := {
  ho_if : bc_if c = false;
  ho_df : bc_df c = false;
  ho_magic : wrap 32 (bc_gpr c RDI) = bc_gpr c0 RAX;
  ho_info : wrap 32 (bc_gpr c RSI) = bc_gpr c0 RBX;
  ho_wp : Z.testbit (bc_cr0 c) CR0_WP = Z.testbit (bc_cr0 c0) CR0_WP
}.

Lemma insn_bounds n : (n < 38)%nat -> 0 <= phys_of (sy_insn sy n) /\ phys_of (sy_insn sy n) + 1 <= DIRECT_MAP_SIZE.
Proof. intros Hn. pose proof (so_insn _ Hsy n Hn). unfold DIRECT_MAP_SIZE, GIGA_PAGE_SIZE. lia. Qed.

(** One instruction without paging, on a state with explicit fields; the
    registers that it reads are looked up. *)
Ltac lookup_regs :=
  repeat match goal with
  | |- context [set_reg ?g ?r ?v ?r'] => change (set_reg g r v r') with v
  | |- context [set_reg ?g ?r ?v ?r'] => change (set_reg g r v r') with (g r')
  end.
Ltac boot_fields :=
  unfold set_gpr, set_flags, set_control, set_memory;
  cbn [bc_gpr bc_if bc_df bc_cr0 bc_cr3 bc_cr4 bc_efer bc_gdtr bc_long bc_seg bc_pc bc_mem].
Ltac flat_step Hpg :=
  erewrite boot_run_cons; [|apply access_flat; exact Hpg|reflexivity|
    first [reflexivity|cbn [boot_step]; apply store_flat; exact Hpg]];
  boot_fields; lookup_regs.

Lemma x64_boot_32_run c :
  protected_mode c -> loaded_image sy (bc_mem c) ->
  exists c1, boot_run sy up 0 (x64_boot_32 sy) c = Ret c1 /\ paged sy c1 /\ handed_over c c1 /\
    bc_long c1 = false /\ bc_gpr c1 RSP = stack_top sy /\ bc_mem c1 = pml4_filled sy (bc_mem c).
Proof.
  intros [Hpe Hpg H57 (W0 & W4 & We) Hg Hl] Him.
  destruct c as [g fi fd cr0 cr3 cr4 efer gdtr long seg pc m].
  cbn [bc_gpr bc_cr0 bc_cr4 bc_efer bc_long bc_mem] in *. subst long.
  pose proof (so_stack _ Hsy) as (S0 & S1 & _). pose proof (so_pml4 _ Hsy) as (M0 & M1 & M2).
  pose proof (so_pdpt _ Hsy) as (D0 & D1 & D2). pose proof (pdpt_pte sy Hsy) as Hv.
  unfold x64_boot_32. do 20 flat_step Hpg.
  assert (forall x, 0 <= phys_of x < 2 ^ 32 -> wrap 32 (x - KERNEL_BASE) = phys_of x) as Hw
    by (intros; by apply wrap32_small).
  change (4 =? 0) with false. change (0 =? 0) with true. cbv iota.
  rewrite (Hw (sy_pml4 sy)), (Hw (sy_pdpt sy)), (wrap32_small (_ + KERNEL_STACK_SIZE - _)) by (unfold stack_top, phys_of, KERNEL_STACK_SIZE in *; lia).
  erewrite boot_run_cons; [|by apply access_flat|reflexivity|].
  2: { cbn [boot_step]. change (0 =? 0) with true. cbv iota. unfold write_cr0. boot_fields. lookup_regs.
       rewrite !Z.lor_spec, !or32_bit by (unfold CR0_PG, CR0_PE, EFER_LME, CR4_PAE; lia).
       rewrite Hpe. change (Z.testbit (1 ≪ 31) CR0_PG) with true. change (Z.testbit (1 ≪ 8) EFER_LME) with true.
       change (Z.testbit (Z.lor (1 ≪ 5) (1 ≪ 7)) CR4_PAE) with true. rewrite !orb_true_r. reflexivity. }
  change (Z.lor (phys_of (sy_pdpt sy)) 1) with (Z.lor (phys_of (sy_pdpt sy)) PTE_V).
  rewrite (wrap32_small (Z.lor _ PTE_V)), (wrap32_small (phys_of (sy_pml4 sy) + 0)), (wrap32_small (_ + 256 * 8)), Z.add_0_r by lia.
  eexists. split; [reflexivity|]. split.
  - split; boot_fields; try reflexivity; [rewrite or32_bit by (unfold CR0_PG; lia); apply orb_true_r|..].
    + rewrite or32_bit by (unfold CR4_PAE; lia). apply orb_true_r.
    + rewrite Z.lor_spec. apply orb_true_r.
    + rewrite or32_bit by (unfold CR4_LA57; lia). by rewrite H57.
    + by apply pml4_filled_ok.
  - split; [split; boot_fields; lookup_regs; try reflexivity|split; [reflexivity|split; [|reflexivity]]].
    + by rewrite !wrap32_small by (rewrite ?wrap32_small; done).
    + by rewrite !wrap32_small by (rewrite ?wrap32_small; done).
    + rewrite or32_bit by (unfold CR0_WP; lia). apply orb_false_r.
    + boot_fields. lookup_regs. unfold stack_top, phys_of. lia.
Qed.

(** *** Into 64-bit code *)

Lemma boot_tables_frame m m' :
  boot_tables sy m ->
  (forall x, in_block (phys_of (sy_pml4 sy)) 4096 x \/ in_block (phys_of (sy_pdpt sy)) 4096 x -> m' x = m x) ->
  boot_tables sy m'.
Proof.
  intros [H4 H3] Hx. split; intros i Hi; [rewrite <- H4 by done|rewrite <- H3 by done]; apply entry_at_ext; auto.
Qed.

Lemma push_paged c v :
  paged sy c -> 4 <= bc_gpr c RSP <= 2 ^ 31 ->
  push32 c v = if Z.testbit (bc_cr0 c) CR0_WP then Undef
    else Ret (set_gpr (set_memory c (mem_write (bc_mem c) (bc_gpr c RSP - 4) (le_bytes 4 v))) RSP (bc_gpr c RSP - 4)).
Proof.
  intros Hc Hr. unfold push32, boot_store. rewrite wrap32_small, length_le_bytes by lia.
  change (bc_gpr c RSP - 4) with (0 + (bc_gpr c RSP - 4)) at 1.
  rewrite (access_paged sy Hsy) by (auto || unfold DIRECT_MAP_SIZE, GIGA_PAGE_SIZE; lia). cbn [andb].
  by destruct (Z.testbit (bc_cr0 c) CR0_WP).
Qed.

Lemma fetch_paged c n :
  paged sy c -> (n < 38)%nat -> boot_access c false (phys_of (sy_insn sy n)) 1 = Ret (phys_of (sy_insn sy n)).
Proof.
  intros Hc Hn. pose proof (insn_bounds n Hn). change (phys_of (sy_insn sy n)) with (0 + phys_of (sy_insn sy n)) at 1.
  rewrite (access_paged sy Hsy) by (auto || lia). done.
Qed.

(** With CR0.WP set, the first push faults: the root of the page tables
    does not grant write access. *)
Lemma x64_boot_compat_faults c rest :
  paged sy c -> bc_long c = false -> bc_gpr c RSP = stack_top sy -> Z.testbit (bc_cr0 c) CR0_WP = true ->
  boot_run sy up 21 (x64_boot_compat sy ++ rest) c = Undef.
Proof.
  intros Hc Hl Hsp Hwp. cbn [x64_boot_compat app boot_run]. fold (phys_of (sy_insn sy 21)). rewrite fetch_paged by (done || lia). cbn [obind].
  rewrite Z.eqb_refl, Hl. cbn [is_code64 Bool.eqb andb boot_step]. pose proof (so_stack _ Hsy) as (? & ? & _).
  rewrite push_paged, Hwp by (assumption || (rewrite Hsp; unfold stack_top, KERNEL_STACK_SIZE in *; lia)). done.
Qed.

(** The stack with the far pointer to the label. *)
Definition far_pointer (m : mem) : mem :=
  mem_write (mem_write m (stack_top sy - 4) (le_bytes 4 8)) (stack_top sy - 8) (le_bytes 4 (phys_of (sy_insn sy 26))).

Lemma far_pointer_out m x : x < stack_top sy - 8 \/ stack_top sy <= x -> far_pointer m x = m x.
Proof. intros Hx. unfold far_pointer. by rewrite !mem_write_out by (rewrite length_le_bytes; lia). Qed.

Lemma far_pointer_tables m : boot_tables sy m -> boot_tables sy (far_pointer m).
Proof.
  intros Ht. apply (boot_tables_frame m); [done|]. intros x Hx. apply far_pointer_out.
  destruct (so_top _ Hsy) as (H4 & H3 & _). unfold apart, in_block in *. lia.
Qed.

Lemma far_pointer_holds m a bs :
  mem_holds m a bs -> apart (stack_top sy - 8) 8 a (len bs) -> mem_holds (far_pointer m) a bs.
Proof.
  intros Hm Ha. unfold mem_holds in *. rewrite <- Hm at 2. apply mem_read_ext. intros x Hx.
  apply far_pointer_out. unfold apart in Ha. lia.
Qed.

Lemma paged_same c c' :
  paged sy c -> bc_cr0 c' = bc_cr0 c -> bc_cr3 c' = bc_cr3 c -> bc_cr4 c' = bc_cr4 c -> bc_efer c' = bc_efer c ->
  boot_tables sy (bc_mem c') -> paged sy c'.
Proof. intros [] E0 E3 E4 Ee Ht. split; rewrite ?E0, ?E3, ?E4, ?Ee; done. Qed.

(** The 32-bit LGDT reads the low half of the address of the descriptors, which
    is their physical address. *)
Lemma boot_gdtr_read m :
  mem_holds m (phys_of (sy_gdtr sy)) (boot_gdtr_bytes (sy_gdt sy)) ->
  let b := mem_read m (phys_of (sy_gdtr sy)) 6 in field b 0 2 = 23 /\ field b 2 4 = phys_of (sy_gdt sy).
Proof.
  intros Hm. pose proof (mem_holds_read _ _ _ 0 6 Hm) as E. rewrite Z.add_0_r in E. cbv zeta.
  rewrite E by (unfold boot_gdtr_bytes; rewrite length_app, !length_le_bytes; lia). split; [reflexivity|].
  change (le_val (le_bytes 4 (sy_gdt sy)) = phys_of (sy_gdt sy)).
  rewrite le_val_le_bytes. pose proof (so_gdt _ Hsy). unfold phys_of, KERNEL_BASE in *. change (256 ^ Z.of_nat 4) with (2 ^ 32). dlia.
Qed.

Lemma boot_cs_read m :
  mem_holds m (phys_of (sy_gdt sy)) boot_gdt_bytes ->
  decode_segment (le_val (mem_read m (phys_of (sy_gdt sy) + 8) 8)) = mkSegment true true true true true 0.
Proof.
  intros Hm. pose proof (mem_holds_read _ _ _ 8 8 Hm) as E. change (Z.of_nat 8) with 8 in E. rewrite E by (vm_compute; lia).
  vm_compute. reflexivity.
Qed.

Lemma far_pointer_read m :
  le_val (mem_read (far_pointer m) (stack_top sy - 8) 4) = phys_of (sy_insn sy 26) /\
  le_val (mem_read (far_pointer m) (stack_top sy - 4) 4) = 8.
Proof.
  pose proof (so_insn _ Hsy 26 ltac:(lia)). unfold far_pointer. split.
  - rewrite mem_read_write_same by (by rewrite length_le_bytes). apply le_val_le_bytes_small. cbn. lia.
  - rewrite mem_read_write_disjoint by (rewrite length_le_bytes; lia). by rewrite mem_read_write_same.
Qed.

Lemma retf_paged c :
  paged sy c -> bc_gpr c RSP = stack_top sy - 8 -> bc_gdtr c = mkGdtr 23 (phys_of (sy_gdt sy)) ->
  (exists m, bc_mem c = far_pointer m) -> mem_holds (bc_mem c) (phys_of (sy_gdt sy)) boot_gdt_bytes ->
  retf sy up c = Ret (mkBootCpu (fun r => wrap 32 (bc_gpr (set_gpr c RSP (stack_top sy)) r) + 2 ^ 32 * up r) (bc_if c) (bc_df c)
    (bc_cr0 c) (bc_cr3 c) (bc_cr4 c) (bc_efer c) (bc_gdtr c) true (bc_seg c) (phys_of (sy_insn sy 26)) (bc_mem c)).
Proof.
  intros Hc Hsp Hgd [m Hm] Hgdt. pose proof (so_stack _ Hsy) as (? & ? & _). pose proof (so_gdt _ Hsy).
  pose proof (far_pointer_read m) as [Ra Rb]. rewrite <- Hm in Ra, Rb.
  unfold retf. rewrite Hsp. replace (stack_top sy - 8 + 4) with (stack_top sy - 4) by lia.
  replace (stack_top sy - 8 + 8) with (stack_top sy) by lia.
  rewrite !wrap32_small by (unfold stack_top, KERNEL_STACK_SIZE in *; lia).
  rewrite (load_paged sy Hsy c (stack_top sy - 8)), (load_paged sy Hsy c (stack_top sy - 4))
    by (assumption || unfold stack_top, KERNEL_STACK_SIZE, DIRECT_MAP_SIZE, GIGA_PAGE_SIZE in *; lia).
  cbn [obind]. rewrite Ra, Rb, Hgd. change (wrap 16 8) with 8. change (8 / 8 * 8) with 8. cbn [gdtr_limit gdtr_base].
  change (23 <? 8 + 7) with false. cbv iota.
  rewrite (load_paged sy Hsy) by (assumption || unfold DIRECT_MAP_SIZE, GIGA_PAGE_SIZE; lia).
  cbn [obind]. rewrite (boot_cs_read _ Hgdt), (pg_lma _ _ Hc). fold (phys_of (sy_insn sy 26)).
  rewrite (Z.eqb_refl (phys_of _)), <- Hgd. reflexivity.
Qed.

Lemma x64_boot_compat_run c :
  paged sy c -> bc_long c = false -> bc_gpr c RSP = stack_top sy -> Z.testbit (bc_cr0 c) CR0_WP = false ->
  mem_holds (bc_mem c) (phys_of (sy_gdtr sy)) (boot_gdtr_bytes (sy_gdt sy)) ->
  mem_holds (bc_mem c) (phys_of (sy_gdt sy)) boot_gdt_bytes ->
  exists c2, boot_run sy up 21 (x64_boot_compat sy) c = Ret c2 /\ paged sy c2 /\ bc_long c2 = true /\
    bc_mem c2 = far_pointer (bc_mem c) /\ bc_if c2 = bc_if c /\ bc_df c2 = bc_df c /\ bc_cr0 c2 = bc_cr0 c /\
    forall r, r = RDI \/ r = RSI -> wrap 32 (bc_gpr c2 r) = wrap 32 (bc_gpr c r).
Proof.
  intros Hc Hl Hsp Hwp Hgdtr Hgdt. pose proof (so_stack _ Hsy) as (S0 & S1 & _). pose proof (so_gdtr _ Hsy) as [G0 G1].
  pose proof (so_insn _ Hsy 26 ltac:(lia)) as Hi. destruct (so_top _ Hsy) as (T4 & T3 & Tr & Tg).
  assert (0 <= stack_top sy - 8) as Hlo by (unfold stack_top, KERNEL_STACK_SIZE in *; lia).
  unfold x64_boot_compat.
  erewrite boot_run_cons; [|apply fetch_paged; [done|lia]|exact Hl|cbn [boot_step]; rewrite push_paged by (assumption || lia); by rewrite Hwp].
  rewrite Hsp. set (c1 := set_gpr _ RSP _).
  assert (paged sy c1) as Hc1.
  { apply (paged_same c); [done..|]. apply (boot_tables_frame (bc_mem c)); [apply Hc|]. intros x Hx. apply mem_write_out.
    rewrite length_le_bytes. unfold apart, in_block in *. lia. }
  erewrite boot_run_cons; [|apply fetch_paged; [done|lia]|exact Hl|reflexivity]. set (c2 := set_gpr c1 RAX _).
  assert (paged sy c2) as Hc2 by (by apply (paged_same c1); try apply Hc1).
  erewrite boot_run_cons; [|apply fetch_paged; [done|lia]|exact Hl|cbn [boot_step]; rewrite push_paged by (assumption || (change (bc_gpr c2 RSP) with (stack_top sy - 4); lia));
    change (Z.testbit (bc_cr0 c2) CR0_WP) with (Z.testbit (bc_cr0 c) CR0_WP); by rewrite Hwp].
  set (c3 := set_gpr _ RSP _).
  assert (bc_gpr c3 RSP = stack_top sy - 8) as Hsp3 by (change (stack_top sy - 4 - 4 = stack_top sy - 8); lia).
  assert (bc_mem c3 = far_pointer (bc_mem c)) as Hm3.
  { assert (bc_mem c3 = mem_write (mem_write (bc_mem c) (stack_top sy - 4) (le_bytes 4 8)) (stack_top sy - 4 - 4)
      (le_bytes 4 (wrap 32 (phys_of (sy_insn sy 26))))) as -> by reflexivity. unfold far_pointer. rewrite wrap32_small by lia.
    by replace (stack_top sy - 4 - 4) with (stack_top sy - 8) by lia. }
  assert (paged sy c3) as Hc3.
  { apply (paged_same c2); [done..|]. rewrite Hm3. apply far_pointer_tables, Hc. }
  pose proof (far_pointer_holds _ _ _ Hgdtr Tr) as Hgdtr3. pose proof (far_pointer_holds _ _ _ Hgdt Tg) as Hgdt3.
  rewrite <- Hm3 in Hgdtr3, Hgdt3. destruct (boot_gdtr_read _ Hgdtr3) as [Fl Fb].
  erewrite boot_run_cons; [|apply fetch_paged; [done|lia]|exact Hl|].
  2: { cbn [boot_step]. fold (phys_of (sy_gdtr sy)). rewrite wrap32_small by lia.
       rewrite (load_paged sy Hsy) by (assumption || unfold DIRECT_MAP_SIZE, GIGA_PAGE_SIZE; lia). cbn [obind]. rewrite Fl, Fb. reflexivity. }
  set (c4 := mkBootCpu _ _ _ _ _ _ _ (mkGdtr _ _) _ _ _ _).
  assert (paged sy c4) as Hc4 by (by apply (paged_same c3); try apply Hc3).
  erewrite boot_run_cons; [|apply fetch_paged; [done|lia]|exact Hl|cbn [boot_step]; apply retf_paged; [done|exact Hsp3|done|by exists (bc_mem c)|done]].
  eexists. split; [reflexivity|]. split; [by apply (paged_same c4); try apply Hc4|].
  split; [done|]. split; [exact Hm3|]. do 3 (split; [done|]).
  intros r Hr. cbn [bc_gpr]. unfold wrap. rewrite (Z.mul_comm (2 ^ 32)), Z_mod_plus_full, Zmod_mod. by destruct Hr as [->| ->].
Qed.

(** *** To [rust_boot] *)

Lemma sext32_phys va : 0 <= phys_of va < 2 ^ 31 -> Z.lor (sext32 (va - KERNEL_BASE)) KERNEL_BASE = va.
Proof.
  intros Hv. fold (phys_of va). unfold sext32. rewrite wrap32_small by lia. destruct (Z.ltb_spec (phys_of va) (2 ^ 31)); [|lia].
  unfold wrap. rewrite Z.mod_small by lia. fold (paddr2vaddr (phys_of va)). rewrite paddr2vaddr_add by lia.
  unfold phys_of. lia.
Qed.

Lemma clear_low16 x : wrap 16 (x - wrap 16 x + wrap 16 0) = 0.
Proof. unfold wrap. dlia. Qed.

Ltac long_step Hc :=
  erewrite boot_run_cons;
    [|apply fetch_paged; [apply (paged_same _ _ Hc); [reflexivity..|exact (pg_tables _ _ Hc)]|lia]|reflexivity|
     cbn [boot_step]; boot_fields; lookup_regs; rewrite ?clear_low16, ?Z.eqb_refl; reflexivity];
  boot_fields; lookup_regs.

Lemma x64_boot_64_run c :
  paged sy c -> bc_long c = true ->
  exists c', boot_run sy up 26 (x64_boot_64 sy) c = Ret c' /\ paged sy c' /\ bc_long c' = true /\ bc_mem c' = bc_mem c /\
    bc_if c' = bc_if c /\ bc_df c' = bc_df c /\ bc_cr0 c' = bc_cr0 c /\ (forall s, bc_seg c' s = 0) /\
    bc_pc c' = sy_rust_boot sy /\ bc_gpr c' RSP = sy_stack sy + KERNEL_STACK_SIZE /\
    bc_gpr c' RDI = bc_gpr c RDI /\ bc_gpr c' RSI = bc_gpr c RSI.
Proof.
  intros Hc Hl. destruct c as [g fi fd cr0 cr3 cr4 efer gdtr long seg pc m]. cbn [bc_long] in Hl. subst long.
  pose proof (so_stack _ Hsy) as (S0 & S1 & _). pose proof (so_main _ Hsy) as Hmain.
  unfold x64_boot_64. do 12 long_step Hc. eexists. split; [reflexivity|].
  split; [apply (paged_same _ _ Hc); [reflexivity..|exact (pg_tables _ _ Hc)]|].
  boot_fields. lookup_regs. do 5 (split; [reflexivity|]). split; [by intros []|].
  split; [by apply sext32_phys|]. split; [|done].
  apply (sext32_phys (sy_stack sy + KERNEL_STACK_SIZE)). unfold stack_top, phys_of, KERNEL_STACK_SIZE in *. lia.
Qed.

End Phases.

(** * Properties *)

(** The state in which [rust_boot] starts. *)
Record rust_boot_entry (sy : Symbols) (c0 c : BootCpu) : Prop := {
  re_code : bc_pc c = sy_rust_boot sy /\ bc_long c = true;
  re_stack : bc_gpr c RSP = sy_stack sy + KERNEL_STACK_SIZE /\ bc_gpr c RSP mod 16 = 0;
  re_args : wrap 32 (bc_gpr c RDI) = bc_gpr c0 RAX /\ wrap 32 (bc_gpr c RSI) = bc_gpr c0 RBX;
  re_flags : bc_if c = false /\ bc_df c = false;
  re_segments : forall s, bc_seg c s = 0;
  re_cr3 : bc_cr3 c = phys_of (sy_pml4 sy);
  re_direct : forall p w, 0 <= p < DIRECT_MAP_SIZE -> linear c w p = Some p /\ linear c w (paddr2vaddr p) = Some p;
  re_only : forall va p w, 0 <= va < 2 ^ 47 \/ KERNEL_BASE <= va < 2 ^ 64 -> linear c w va = Some p ->
    va < DIRECT_MAP_SIZE \/ KERNEL_BASE <= va < KERNEL_BASE + DIRECT_MAP_SIZE;
  re_memory : forall x, ~ in_block (phys_of (sy_pml4 sy)) 4096 x -> ~ in_block (stack_top sy - 8) 8 x -> bc_mem c x = bc_mem c0 x;
  re_bytes : mem_ok (bc_mem c0) -> mem_ok (bc_mem c)
}.

Lemma entry_of_paged sy c0 c :
  symbols_ok sy -> paged sy c -> Z.testbit (bc_cr0 c) CR0_WP = false -> bc_long c = true ->
  bc_mem c = far_pointer sy (pml4_filled sy (bc_mem c0)) -> bc_pc c = sy_rust_boot sy ->
  bc_gpr c RSP = sy_stack sy + KERNEL_STACK_SIZE -> handed_over c0 c -> (forall s, bc_seg c s = 0) ->
  rust_boot_entry sy c0 c.
Proof.
  intros Hsy Hc Hwp Hl Hm Hpc Hsp [] Hseg. split; try done.
  - split; [done|]. rewrite Hsp. destruct (so_stack _ Hsy) as (_ & _ & Ha). unfold stack_top, phys_of, KERNEL_BASE in Ha. dlia.
  - apply Hc.
  - intros p w Hp. pose proof (linear_paged sy Hsy c w p 0 Hc Hp ltac:(auto)) as E1.
    pose proof (linear_paged sy Hsy c w p KERNEL_BASE Hc Hp ltac:(auto)) as E2.
    rewrite Hwp, andb_false_r in E1, E2. rewrite Z.add_0_l in E1. split; [done|].
    rewrite paddr2vaddr_add by (unfold DIRECT_MAP_SIZE, GIGA_PAGE_SIZE in Hp; lia). done.
  - intros va p w Hva. unfold linear. rewrite (pg_on _ _ Hc), (pg_pae _ _ Hc), (pg_lma _ _ Hc), (pg_la57 _ _ Hc), (pg_cr3 _ _ Hc).
    rewrite (cr3_pml4 sy Hsy). simpl andb. cbv iota. destruct (translate _ _ va) as [t|] eqn:E; [|done]. intros _.
    by eapply boot_translate_only; [|apply Hc| |exact E].
  - intros x H4 Hs. rewrite Hm. unfold in_block in *. rewrite far_pointer_out by lia. unfold pml4_filled.
    by rewrite !mem_write_out by (rewrite length_le_bytes; lia).
  - intros H0. rewrite Hm. unfold far_pointer, pml4_filled. auto using mem_ok_write, le_bytes_ok.
Qed.

Lemma x64_boot_spec (sy : Symbols) (upper : Reg -> Z) (c : BootCpu) :
  symbols_ok sy -> protected_mode c -> loaded_image sy (bc_mem c) ->
  if Z.testbit (bc_cr0 c) CR0_WP then x64_boot sy upper c = Undef
  else exists c', x64_boot sy upper c = Ret c' /\ rust_boot_entry sy c c'.
Proof.
  intros Hsy Hpm Him. unfold x64_boot. rewrite boot_run_app.
  destruct (x64_boot_32_run sy Hsy upper c Hpm Him) as (c1 & -> & Hc1 & [Hif Hdf Hmg Hin Hwp] & Hl1 & Hsp1 & Hm1).
  cbn [obind]. change (0 + length (x64_boot_32 sy))%nat with 21%nat.
  destruct (Z.testbit (bc_cr0 c) CR0_WP) eqn:Ewp; [by apply x64_boot_compat_faults|]. rewrite boot_run_app.
  destruct (so_pml4_gdt _ Hsy) as [Ar Ag]. unfold apart in Ar, Ag.
  destruct (x64_boot_compat_run sy Hsy upper c1) as (c2 & -> & Hc2 & Hl2 & Hm2 & Hif2 & Hdf2 & Hcr2 & Hg2); try done.
  { rewrite Hm1. unfold pml4_filled. do 2 (apply mem_holds_write_other; [rewrite length_le_bytes; cbn [length boot_gdtr_bytes app le_bytes]; lia|]). apply Him. }
  { rewrite Hm1. unfold pml4_filled. do 2 (apply mem_holds_write_other; [rewrite length_le_bytes; change (len boot_gdt_bytes) with 24; lia|]). apply Him. }
  cbn [obind]. change (21 + length (x64_boot_compat sy))%nat with 26%nat.
  destruct (x64_boot_64_run sy Hsy upper c2 Hc2 Hl2) as (c3 & -> & Hc3 & Hl3 & Hm3 & Hif3 & Hdf3 & Hcr3 & Hs3 & Hpc & Hsp3 & Hdi & Hsi).
  exists c3. split; [done|]. apply entry_of_paged; try done; [by rewrite Hcr3, Hcr2|by rewrite Hm3, Hm2, Hm1|].
  split; try congruence; [rewrite Hdi, Hg2 by auto|rewrite Hsi, Hg2 by auto]; done.
Qed.

(** C6: The boot code brings the processor into long mode.  Started in 32-bit
    protected mode with paging off and the kernel's image in memory, and with
    CR0.WP clear, it ends at [rust_boot] in 64-bit code with interrupts off,
    the two arguments of the boot loader, the stack pointer at the end of the
    boot stack, on a multiple of 16 (a called function finds it 8 below one),
    and page tables that map the first 4 GiB at their physical addresses and at [KERNEL_BASE] and
    nothing else; it writes to its page table and below the top of the stack
    only.  With CR0.WP set the first push after paging is turned on faults and
    the machine resets, because the entries of [BOOT_PML4] are not writable. *)
Theorem x64_boot_enters_long_mode (sy : Symbols) (upper : Reg -> Z) (c : BootCpu) :
  symbols_ok sy -> protected_mode c -> loaded_image sy (bc_mem c) ->
  if Z.testbit (bc_cr0 c) CR0_WP then x64_boot sy upper c = Undef
  else exists c', x64_boot sy upper c = Ret c' /\ rust_boot_entry sy c c'.
Proof. apply x64_boot_spec. Qed.

(** The headers are what boot loaders look for: the four words of the Multiboot2
    header add up to zero, its length is the header's, and its tags end; the PVH
    note is Xen's, of type [XEN_ELFNOTE_PHYS32_ENTRY], and names the first
    instruction of [x64_boot] by its physical address. *)
Theorem boot_headers_valid (sy : Symbols) :
  symbols_ok sy ->
  let word b i := field b (4 * i) 4 in
  word multiboot2_header 0%nat = MULTIBOOT2_MAGIC /\ word multiboot2_header 1%nat = MULTIBOOT2_ARCH /\
  word multiboot2_header 2%nat = len multiboot2_header /\
  (word multiboot2_header 0%nat + word multiboot2_header 1%nat + word multiboot2_header 2%nat + word multiboot2_header 3%nat)
    mod 2 ^ 32 = 0 /\
  drop 16 multiboot2_header = le_bytes 2 0 ++ le_bytes 2 0 ++ le_bytes 4 8 /\
  word (pvh_note sy) 0%nat = 4 /\ word (pvh_note sy) 1%nat = 4 /\ word (pvh_note sy) 2%nat = 18 /\
  take 4 (drop 12 (pvh_note sy)) = [88; 101; 110; 0] /\ word (pvh_note sy) 4%nat = phys_of (sy_insn sy 0).
Proof.
  intros Hsy word. split_and!; try reflexivity. pose proof (so_insn _ Hsy 0 ltac:(lia)) as Hi.
  change (word (pvh_note sy) 4%nat) with (le_val (le_bytes 4 (phys_of (sy_insn sy 0)))).
  rewrite le_val_le_bytes. apply Z.mod_small. change (256 ^ Z.of_nat 4) with (2 ^ 32). lia.
Qed.

(** ** Witness: an image at 1 MiB *)

Definition example_symbols : Symbols :=
  mkSymbols (fun i => KERNEL_BASE + 0x104000 + 8 * Z.of_nat i) (KERNEL_BASE + 0x110000) (KERNEL_BASE + 0x101000)
    (KERNEL_BASE + 0x100000) (KERNEL_BASE + 0x103000) (KERNEL_BASE + 0x103010) (KERNEL_BASE + 0x105000).

Definition example_image_mem : mem :=
  mem_write (mem_write (mem_write (fun _ => 0) 0x100000 (concat (le_bytes 8 <$> (giga_entry <$> seqZ 0 4))))
    0x103000 (boot_gdtr_bytes (KERNEL_BASE + 0x103010))) 0x103010 boot_gdt_bytes.

Lemma example_symbols_ok : symbols_ok example_symbols.
Proof.
  split; unfold apart, stack_top, phys_of; cbn [example_symbols sy_insn sy_stack sy_pml4 sy_pdpt sy_gdtr sy_gdt sy_rust_boot];
    unfold KERNEL_BASE, KERNEL_STACK_SIZE; try lia; split_and!; (lia || reflexivity).
Qed.

Lemma example_image_loaded : loaded_image example_symbols example_image_mem.
Proof.
  split.
  - intros x Hx. unfold in_block in Hx. change (phys_of (sy_pml4 example_symbols)) with 0x101000 in Hx.
    unfold example_image_mem. rewrite !mem_write_out; [done|change (len _) with 32|change (len _) with 10|change (len _) with 24]; lia.
  - assert (forallb (fun i => entry_at example_image_mem 0x100000 i =? giga_entry i) (seqZ 0 512) = true) as Hf
      by (vm_compute; reflexivity).
    intros i Hi. apply Z.eqb_eq. rewrite forallb_forall in Hf. apply Hf. apply list_elem_of_In, elem_of_seqZ. lia.
  - vm_compute. reflexivity.
  - vm_compute. reflexivity.
Qed.

(** Started by a Multiboot2 boot loader. *)
Definition loaded_cpu : BootCpu :=
  mkBootCpu (fun r => match r with RAX => 0x36d76289 | RBX => 0x9000 | _ => 7 end) true true 1 0 0 0 (mkGdtr 0 0) false
    (fun _ => 16) 0x104000 example_image_mem.

Lemma x64_boot_enters_long_mode_witness :
  exists c', x64_boot example_symbols (fun _ => 5) loaded_cpu = Ret c' /\ rust_boot_entry example_symbols loaded_cpu c'.
Proof.
  apply (x64_boot_enters_long_mode example_symbols (fun _ => 5) loaded_cpu).
  - exact example_symbols_ok.
  - split; try reflexivity; cbn; [lia|]. intros []; lia.
  - exact example_image_loaded.
Defined.
