(* ===== verification/RustBoot.v ===== *)
(** * kernel/src/arch/x64/boot.rs, cpuvar.rs: [rust_boot]

    The per-CPU structure, and the Rust half of the boot: the devices, the
    descriptor tables, the timer, the boot information and the kernel proper
    (Boot.v), on one memory.  The last lemma starts at the first instruction
    of the kernel (X64Boot.v) and ends at the first instruction of the program. *)

From Stdlib Require Import String.
From S2P Require Import Prelude Bytes Alignment Api ArrayVec Bump Malloc Machine Memory VmArea PageTable VmSpace SharedRef X64Context Thread Text StartInfo Server ServerApi Devices Print Lx Elf Initfs Loader LxStack LxProcess Multiboot Pvh MpTable Descriptors Boot X64Boot.

(** ** cpuvar.rs *)

Definition CPUVAR_MAGIC : Z := 0xc12c12c12c12c12c.

Record CpuVar : Set := mkCpuVar {
  cv_magic : Z;
  cv_scratch : Z;
  cv_kernel_rsp : Z;
  cv_local_apic : LocalApic
}.

(** [CPU_VARS] at [cv_base], with elements of [cv_size] bytes that may be
    uninitialised, and the register GSBASE.  The field [current_thread] that
    the kernel adds to the structure is [current] of [Sys]. *)
Record CpuVars : Set := mkCpuVars {
  cpu_vars : list (option CpuVar);
  cpu_gsbase : Z
}.

Definition cpu_vars_new (gsbase : Z) : CpuVars := mkCpuVars (replicate (Z.to_nat NUM_CPUS_MAX) None) gsbase.

Section CpuVarOps.
Context {P : Profile} (st : Statics) (cv_base cv_size : Z).

Definition CpuVar_new {D : Type} `{Bus D} (cpu_id : Z) : M D CpuVar :=
  do* kernel_rsp := lift (if cpu_id =? 0 then bsp_stack_top st else Panic) in
  do* local_apic := LocalApic_init in
  ret (mkCpuVar CPUVAR_MAGIC 0 kernel_rsp local_apic).

(** A reference to the structure that GSBASE points to. *)
Definition get_cpuvar (s : CpuVars) : outcome CpuVar :=
  let gsbase := cpu_gsbase s in
  let* _ := debug_assert (negb (gsbase =? 0)) in
  let* cpuvar :=
    (if (cv_base <=? gsbase) && ((gsbase - cv_base) mod cv_size =? 0) then
       match cpu_vars s !! Z.to_nat ((gsbase - cv_base) / cv_size) with
       | Some (Some v) => Ret v
       | _ => Undef
       end
     else Undef) in
  let* _ := debug_assert (cv_magic cpuvar =? CPUVAR_MAGIC) in
  Ret cpuvar.

Definition set_cpuvar (cpu_id : Z) (value : CpuVar) : M CpuVars unit :=
  fun s =>
    let* _ := rust_assert (cpu_id <? NUM_CPUS_MAX) in
    Ret (tt, mkCpuVars (<[Z.to_nat cpu_id := Some value]> (cpu_vars s)) (cv_base + cpu_id * cv_size)).

Lemma cpuvar_set_get cpu_id v s :
  0 < cv_base -> 0 < cv_size -> 0 <= cpu_id < NUM_CPUS_MAX -> length (cpu_vars s) = 8%nat -> cv_magic v = CPUVAR_MAGIC ->
  exists s', set_cpuvar cpu_id v s = Ret (tt, s') /\ get_cpuvar s' = Ret v /\ cpu_gsbase s' = cv_base + cpu_id * cv_size.
Proof.
  intros Hb Hz Hc Hl Hm. unfold NUM_CPUS_MAX in Hc. eexists. unfold set_cpuvar.
  rewrite (proj2 (Z.ltb_lt _ _)) by (unfold NUM_CPUS_MAX; lia). split; [reflexivity|]. split; [|done].
  unfold get_cpuvar. cbn [cpu_gsbase cpu_vars]. rewrite (proj2 (Z.eqb_neq (cv_base + _) 0)) by nia.
  rewrite debug_assert_ok. cbn [obind]. rewrite (proj2 (Z.leb_le cv_base _)) by nia.
  replace (cv_base + cpu_id * cv_size - cv_base) with (cpu_id * cv_size) by lia.
  rewrite Z_mod_mult, Z_div_mult by lia. cbn [andb]. rewrite Z.eqb_refl.
  rewrite list_lookup_insert_eq by (rewrite Hl; lia). cbn [obind]. by rewrite Hm, Z.eqb_refl, debug_assert_ok.
Qed.

End CpuVarOps.

(** ** The machine under [rust_boot] *)

Record Platform (D : Type) : Type := mkPlatform {
  pf_sys : Sys (Kernel Phys LxSv);
  pf_dev : D;
  pf_gdtr : Gdtr;
  pf_idtr : Idtr;
  pf_tr : Z;
  pf_ioapic : option IoApic;
  pf_vars : CpuVars
}.
Arguments mkPlatform {D} _ _ _ _ _ _ _.
Arguments pf_sys {D} _.
Arguments pf_dev {D} _.
Arguments pf_gdtr {D} _.
Arguments pf_idtr {D} _.
Arguments pf_tr {D} _.
Arguments pf_ioapic {D} _.
Arguments pf_vars {D} _.

(** The memory as the kernel sees it through the direct map. *)
Definition kernel_view (m : mem) : mem := fun va => m (va - KERNEL_BASE).
Definition phys_view (m : mem) : mem := fun pa => m (pa + KERNEL_BASE).

Section RustBoot.
Context {P : Profile} {L : RefLayout} {B : BootPdpt} {D : Type} `{Bus D}.
Abbreviation PM := (M (Platform D)).

Definition platform_mem (s : Platform D) : mem := phys_ram (machine (vm (k_mem (ext (pf_sys s))))).

Definition on_kernel {A} (m : M (Sys (Kernel Phys LxSv)) A) : PM A :=
  fun s => let* (a, y) := m (pf_sys s) in
    Ret (a, mkPlatform y (pf_dev s) (pf_gdtr s) (pf_idtr s) (pf_tr s) (pf_ioapic s) (pf_vars s)).

Definition on_device {A} (m : M D A) : PM A :=
  fun s => let* (a, d) := m (pf_dev s) in
    Ret (a, mkPlatform (pf_sys s) d (pf_gdtr s) (pf_idtr s) (pf_tr s) (pf_ioapic s) (pf_vars s)).

Definition on_vars {A} (m : M CpuVars A) : PM A :=
  fun s => let* (a, v) := m (pf_vars s) in
    Ret (a, mkPlatform (pf_sys s) (pf_dev s) (pf_gdtr s) (pf_idtr s) (pf_tr s) (pf_ioapic s) v).

(** The tables are written through the direct map. *)
Definition platform_tables (s : Platform D) : CpuTables :=
  mkCpuTables (kernel_view (platform_mem s)) (pf_gdtr s) (pf_idtr s) (pf_tr s).
Definition on_tables {A} (m : M CpuTables A) : PM A :=
  fun s => let* (a, t) := m (platform_tables s) in
    let ph := machine (vm (k_mem (ext (pf_sys s)))) in
    Ret (a, mkPlatform (with_machine (pf_sys s) (set_ram (phys_view (ct_mem t)) ph)) (pf_dev s)
           (ct_gdtr t) (ct_idtr t) (ct_tr t) (pf_ioapic s) (pf_vars s)).

(** [mp_table::init], which sets the static [IOAPIC]. *)
Definition platform_mp_init : PM unit :=
  fun s => let* (io, d) := mp_init (platform_mem s) (pf_ioapic s) (pf_dev s) in
    Ret (tt, mkPlatform (pf_sys s) d (pf_gdtr s) (pf_idtr s) (pf_tr s) io (pf_vars s)).

Context (st : Statics) (cv_base cv_size : Z).

(** [cpuvar::init]. *)
Definition platform_cpuvar_init (cpu_id : Z) : PM unit :=
  do* arch := on_device (CpuVar_new st cpu_id) in
  do* _ := on_vars (set_cpuvar cv_base cv_size cpu_id arch) in
  on_kernel cpuvar_init.

(** [boot::boot] with the per-CPU structure. *)
Definition platform_boot (entry : Z -> M (Sys (Kernel Phys LxSv)) unit) (kernel : Z * Z) (bootinfo : BootInfo) (reserve : bool)
  : PM Z :=
  do* _ := on_kernel (on_mach (memory_init kernel bootinfo)) in
  do* _ := platform_cpuvar_init 0 in
  do* _ := on_kernel (server_init entry bootinfo) in
  on_kernel (return_to_user reserve).

(** The part of [rust_boot] before [boot].  [handler] is the address of
    [syscall_handler]; [wait] bounds the polls of the serial port for a byte. *)
Definition rust_setup (wait fuel : nat) (handler multiboot_magic start_info : Z) : PM BootInfo :=
  do* _ := on_device console_init in
  do* _ := on_device (kernel_println wait (ESC "[?7h")) in
  do* _ := on_device (kernel_trace wait (str "Booting FTL...")) in
  do* _ := on_device enable_fsgsbase in
  do* _ := on_device enable_sse in
  do* _ := on_tables (gdt_init st 0) in
  do* _ := on_tables (idt_init st) in
  do* _ := on_device pic_init in
  do* _ := on_device (syscall_init GDT_KERNEL_CS handler) in
  do* _ := platform_mp_init in
  do* _ := on_device timer_init in
  fun s => let* bootinfo := boot_info (platform_mem s) fuel multiboot_magic start_info in Ret (bootinfo, s).

Definition rust_boot (entry : Z -> M (Sys (Kernel Phys LxSv)) unit) (kernel : Z * Z) (wait fuel : nat) (handler : Z)
    (reserve : bool) (multiboot_magic start_info : Z) : PM Z :=
  do* bootinfo := rust_setup wait fuel handler multiboot_magic start_info in
  platform_boot entry kernel bootinfo reserve.

End RustBoot.

(** * What the firmware and the boot loader leave in memory *)

Definition outside (kernel : Z * Z) (x : Z) : Prop := x < kernel.1 \/ kernel.2 <= x.
Definition agree (kernel : Z * Z) (m m' : mem) : Prop := forall x, outside kernel x -> m' x = m x.

(** [Q] holds of [m] because of memory that is not the kernel's own. *)
Definition independent (kernel : Z * Z) (m : mem) (Q : mem -> Prop) : Prop := forall m', agree kernel m m' -> Q m'.

(** The boot information in either protocol. *)
Inductive boot_described (m : mem) (fuel : nat) : Z -> Z -> list Module_ -> list FreeRam -> Prop :=
| by_multiboot a tags :
    Forall tag_ok tags -> mem_holds m a (info_bytes tags) -> 0 <= a -> a + len (info_bytes tags) < DIRECT_MAP_SIZE ->
    boot_described m fuel 0x36d76289 a (take 8 (concat (tag_modules <$> tags))) (take 8 (concat (tag_rams <$> tags)))
| by_pvh magic a h text mods mmap :
    magic <> 0x36d76289 -> pvh_at m a h text mods mmap -> (length text < fuel)%nat ->
    boot_described m fuel magic a (take 8 (hvm_module <$> mods)) (take 8 (concat (hvm_rams <$> mmap))).

(** [n] bytes at the virtual address [va] belong to the kernel's image. *)
Definition in_kernel (kernel : Z * Z) (va n : Z) : Prop := kernel.1 <= phys_of va /\ phys_of va + n <= kernel.2.

(** The statics of gdt.rs and idt.rs, which do not overlap [BOOT_PDPT]. *)
Record statics_ok (kernel : Z * Z) (bp : Z) (st : Statics) : Prop := {
  ss_layout : layout_ok st;
  ss_gdt : in_kernel kernel (st_gdt st) 64 /\ apart (phys_of (st_gdt st)) 64 bp MIN_PAGE_SIZE;
  ss_tss : in_kernel kernel (st_tss st) TSS_SIZE /\ apart (phys_of (st_tss st)) TSS_SIZE bp MIN_PAGE_SIZE;
  ss_idt : in_kernel kernel (st_idt st) 4096 /\ apart (phys_of (st_idt st)) 4096 bp MIN_PAGE_SIZE
}.

(** The tables of the boot processor, which the processor keeps reading. *)
Definition table_statics (st : Statics) : list (Z * list Z) :=
  [(phys_of (tss_at st 0), tss_bytes (kernel_tss (st_stack st + KERNEL_STACK_SIZE)));
   (phys_of (gdt_at st 0), gdt_image (tss_at st 0)); (phys_of (st_idt st), idt_image (st_handlers st))].

(** Ports, MSRs and control registers do not reach the I/O APIC. *)
Class IoApicApart (D : Type) `{Bus D, IoApicDev D} : Prop := {
  apart_in8 : forall (d : D) port i, io_regs (bus_in8 port d).2 i = io_regs d i;
  apart_out8 : forall (d : D) port v i, io_regs (bus_out8 port v d) i = io_regs d i;
  apart_wrmsr : forall (d : D) msr v i, io_regs (bus_wrmsr msr v d) i = io_regs d i;
  apart_set_cr : forall (d : D) n v i, io_regs (bus_set_cr n v d) i = io_regs d i
}.

(** * Lemmas *)

Lemma agree_trans kernel m1 m2 m3 : agree kernel m1 m2 -> agree kernel m2 m3 -> agree kernel m1 m3.
Proof. intros H1 H2 x Hx. by rewrite H2, H1. Qed.

Lemma independent_agree kernel m m' Q : independent kernel m Q -> agree kernel m m' -> independent kernel m' Q.
Proof. intros Hq Ha m2 H2. apply Hq. by eapply agree_trans. Qed.

(** Bytes outside the kernel stay. *)
Lemma mem_holds_agree kernel m m' a bs :
  agree kernel m m' -> a + len bs <= kernel.1 \/ kernel.2 <= a -> mem_holds m' a bs <-> mem_holds m a bs.
Proof.
  intros Ha Hb. unfold mem_holds. rewrite (mem_read_ext m' m); [done|]. intros x Hx. apply Ha. unfold outside. lia.
Qed.

Lemma boot_info_described {P : Profile} m fuel magic a mods rams :
  boot_described m fuel magic a mods rams ->
  exists info, boot_info m fuel magic a = Ret info /\ av_rep (modules info) mods /\ av_rep (free_rams info) rams.
Proof.
  intros [a' tags Hok Hm H0 Hend|mg a' h text ms mmap Hne Hp Hf].
  - destruct (parse_info_spec m a' tags Hok Hm H0 Hend) as (info & E & _ & [_ Hmods] & [_ Hrams]). by exists info.
  - destruct (parse_start_info_spec m fuel a' h text ms mmap Hp Hf) as (info & E & _ & [_ Hmods] & [_ Hrams]).
    exists info. unfold boot_info. by rewrite (proj2 (Z.eqb_neq _ _) Hne).
Qed.

(** ** Device code that leaves the I/O APIC alone *)

Section Quiet.
Context {D : Type} `{Bus D, !IoApicDev D, !IoApicApart D}.

Definition quiet {A} (m : M D A) : Prop :=
  forall d, exists a d', m d = Ret (a, d') /\ forall i, io_regs d' i = io_regs d i.

Lemma quiet_bind {A C} (m : M D A) (k : A -> M D C) : quiet m -> (forall a, quiet (k a)) -> quiet (bind m k).
Proof.
  intros Hm Hk d. destruct (Hm d) as (a & d1 & E1 & R1). destruct (Hk a d1) as (c & d2 & E2 & R2).
  exists c, d2. rewrite (bind_run _ _ _ _ _ E1). split; [done|]. intros i. by rewrite R2, R1.
Qed.

Lemma quiet_out8 port v : quiet (out8 port v).
Proof. intros d. eexists _, _. split; [reflexivity|]. intros i. apply apart_out8. Qed.

Lemma quiet_rdmsr msr : quiet (rdmsr msr).
Proof. intros d. unfold rdmsr. destruct (bus_rdmsr msr d). by eexists _, _. Qed.

Lemma quiet_wrmsr msr v : quiet (wrmsr msr v).
Proof. intros d. eexists _, _. split; [reflexivity|]. intros i. apply apart_wrmsr. Qed.

Lemma quiet_read_cr n : quiet (read_cr n).
Proof. intros d. by eexists _, _. Qed.

Lemma quiet_write_cr n v : quiet (write_cr n v).
Proof. intros d. eexists _, _. split; [reflexivity|]. intros i. apply apart_set_cr. Qed.

(** Messages, if the serial port takes them. *)
Lemma wait_ready_apart wait : forall (d d' : D) i, wait_ready wait d = Ret (tt, d') -> io_regs d' i = io_regs d i.
Proof.
  induction wait as [|wait IH]; intros d d' i; [done|]. cbn [wait_ready]. unfold bind, in8.
  rewrite <- (apart_in8 d COM1_LSR i). destruct (bus_in8 COM1_LSR d) as [v d1]. cbn [obind snd].
  destruct (_ =? 0); [apply IH|]. by intros [= ->].
Qed.

Lemma putchar_apart wait c (d d' : D) i : putchar wait c d = Ret (tt, d') -> io_regs d' i = io_regs d i.
Proof.
  unfold putchar, bind. destruct (wait_ready wait d) as [[[] d1]| | |] eqn:E; cbn [obind]; try done.
  intros [= <-]. rewrite apart_out8. by apply (wait_ready_apart wait).
Qed.

Lemma driver_write_apart wait bytes : forall (d d' : D) i, driver_write wait bytes d = Ret (tt, d') -> io_regs d' i = io_regs d i.
Proof.
  induction bytes as [|c bytes IH]; intros d d' i; [by intros [= ->]|]. cbn [driver_write]. unfold bind.
  destruct ((if c =? 10 then putchar wait 13 else ret tt) d) as [[[] d1]| | |] eqn:E1; cbn [obind]; try done.
  destruct (putchar wait c d1) as [[[] d2]| | |] eqn:E2; cbn [obind]; try done. intros E3.
  rewrite (IH _ _ _ E3), (putchar_apart _ _ _ _ _ E2). destruct (c =? 10); [by apply (putchar_apart wait 13)|].
  by injection E1 as ->.
Qed.

End Quiet.

Create HintDb platform.
#[export] Hint Resolve quiet_bind quiet_out8 quiet_rdmsr quiet_wrmsr quiet_read_cr quiet_write_cr : platform.

(** ** The set-up of the tables *)

Lemma tables_ok_ext st cpu s s' :
  tables_ok st cpu s -> ct_gdtr s' = ct_gdtr s -> ct_idtr s' = ct_idtr s -> ct_tr s' = ct_tr s ->
  (forall x, ct_mem s' x = ct_mem s x) -> tables_ok st cpu s'.
Proof.
  intros [H1 H2 H3 H4 H5 H6] E1 E2 E3 Em.
  assert (forall a bs, mem_holds (ct_mem s) a bs -> mem_holds (ct_mem s') a bs) as Hh.
  { intros a bs Hb. unfold mem_holds in *. rewrite <- Hb at 2. apply mem_read_ext. auto. }
  split; rewrite ?E1, ?E2, ?E3; auto.
Qed.

Lemma kernel_view_holds m a bs : mem_holds (kernel_view m) a bs <-> mem_holds m (phys_of a) bs.
Proof.
  unfold mem_holds. replace (mem_read (kernel_view m) a (length bs)) with (mem_read m (phys_of a) (length bs)); [done|].
  unfold mem_read. replace (seqZ (phys_of a) (len bs)) with (Z.add (- KERNEL_BASE) <$> seqZ a (len bs)).
  - rewrite <- list_fmap_compose. apply list_fmap_ext. intros i x _. unfold kernel_view, compose. f_equal. lia.
  - rewrite fmap_add_seqZ. f_equal. unfold phys_of. lia.
Qed.

Section Setup.
Context {P : Profile} {L : RefLayout} {B : BootPdpt} {D : Type} `{Bus D}.
Context (kernel : Z * Z) (bp : Z) (st : Statics) (Hst : statics_ok kernel bp st).

(** The memory with the tables. *)
Definition tables_mem (m : mem) : mem :=
  phys_view (mem_write (kernel_view (phys_view (mem_write (mem_write (kernel_view m) (tss_at st 0)
    (tss_bytes (kernel_tss (st_stack st + KERNEL_STACK_SIZE)))) (gdt_at st 0) (gdt_image (tss_at st 0)))))
    (st_idt st) (idt_image (st_handlers st))).

Lemma tables_mem_out m x :
  ~ in_block (phys_of (st_gdt st)) 64 x -> ~ in_block (phys_of (st_tss st)) TSS_SIZE x ->
  ~ in_block (phys_of (st_idt st)) 4096 x -> tables_mem m x = m x.
Proof.
  pose proof (length_tss_bytes (st_stack st + KERNEL_STACK_SIZE)) as Lt. pose proof (length_gdt_image (tss_at st 0)) as Lg.
  pose proof (length_idt_image (st_handlers st)) as Li. unfold in_block, phys_of, tss_at, gdt_at in *. intros Hg Ht Hi.
  unfold tables_mem, phys_view, kernel_view, tss_at, gdt_at. rewrite mem_write_out by lia.
  rewrite mem_write_out by lia. rewrite mem_write_out by lia. f_equal. lia.
Qed.

Lemma tables_mem_agree m : agree kernel m (tables_mem m).
Proof.
  intros x Hx. pose proof (ss_gdt _ _ _ Hst) as [[] _]. pose proof (ss_tss _ _ _ Hst) as [[] _].
  pose proof (ss_idt _ _ _ Hst) as [[] _]. apply tables_mem_out; unfold in_block, outside in *; lia.
Qed.

Lemma bytes_ok_concat {A} (f : A -> list Z) l : (forall a, bytes_ok (f a)) -> bytes_ok (concat (f <$> l)).
Proof. intros Hf. induction l as [|a l IH]; [apply Forall_nil_2|]. rewrite fmap_cons. by apply Forall_app. Qed.

Lemma tables_mem_ok m : mem_ok m -> mem_ok (tables_mem m).
Proof.
  intros Hm x. apply (mem_ok_write (kernel_view _)); [intros y; apply (mem_ok_write _ _ _)|].
  - apply (mem_ok_write (kernel_view m)); [intros z; apply Hm|]. unfold tss_bytes.
    repeat (apply Forall_app; split); try apply le_bytes_ok; [apply Forall_nil_2|].
    apply Forall_replicate. unfold is_byte. lia.
  - apply bytes_ok_concat. intros. apply le_bytes_ok.
  - apply bytes_ok_concat. intros e. unfold idt_entry_bytes. repeat (apply Forall_app; split); apply le_bytes_ok.
Qed.

(** The statics before [rust_boot]. *)
Definition platform_on (m : mem) (cr3 : Z) (console : list Z) (d : D) (gdtr : Gdtr) (idtr : Idtr) (tr gsbase : Z) : Platform D :=
  mkPlatform (power_on m cr3 console) d gdtr idtr tr None (cpu_vars_new gsbase).

Definition set_up (m : mem) (cr3 : Z) (console : list Z) (d : D) (io : IoApic) (gsbase : Z) : Platform D :=
  mkPlatform (power_on (tables_mem m) cr3 console) d (mkGdtr 63 (gdt_at st 0)) (mkIdtr 4095 (st_idt st)) 48 (Some io)
    (cpu_vars_new gsbase).

Lemma set_up_tables m cr3 console d io gsbase : tables_ok st 0 (platform_tables (set_up m cr3 console d io gsbase)).
Proof.
  pose proof (ss_layout _ _ _ Hst) as Hl.
  destruct (tables_init_run st Hl 0 (mkCpuTables (kernel_view m) (mkGdtr 0 0) (mkIdtr 0 0) 0)) as (t & E & Ht);
    [unfold NUM_CPUS_MAX; lia|].
  rewrite (bind_run _ _ _ _ _ (gdt_init_run st Hl 0 _ ltac:(unfold NUM_CPUS_MAX; lia))), (idt_init_run st Hl) in E.
  injection E as <-. apply (tables_ok_ext _ _ _ _ Ht); [done..|]. intros x.
  cbn [ct_mem platform_tables]. unfold kernel_view at 1, platform_mem. cbn [pf_sys set_up].
  change (tables_mem m (x - KERNEL_BASE) = mem_write (mem_write (mem_write (kernel_view m) (tss_at st 0)
    (tss_bytes (kernel_tss (st_stack st + KERNEL_STACK_SIZE)))) (gdt_at st 0) (gdt_image (tss_at st 0)))
    (st_idt st) (idt_image (st_handlers st)) x).
  unfold tables_mem, phys_view at 1. rewrite Z.sub_add. apply mem_write_ext.
  unfold kernel_view at 1, phys_view. by rewrite Z.sub_add.
Qed.

Lemma tables_statics (d : D) m a bs :
  (a, bs) ∈ table_statics st -> kernel.1 <= a /\ a + len bs <= kernel.2 /\ mem_holds (tables_mem m) a bs.
Proof.
  intros Hin. destruct (set_up_tables m 0 [] d (mkIoApic 0 0) 0) as [_ _ _ Hg Ht Hi].
  cbn [ct_mem platform_tables] in Hg, Ht, Hi. rewrite kernel_view_holds in Hg, Ht, Hi.
  destruct (ss_gdt _ _ _ Hst) as [[G1 G2] _]. destruct (ss_tss _ _ _ Hst) as [[T1 T2] _]. destruct (ss_idt _ _ _ Hst) as [[I1 I2] _].
  pose proof (length_tss_bytes (st_stack st + KERNEL_STACK_SIZE)) as Lt. pose proof (length_gdt_image (tss_at st 0)) as Lg.
  pose proof (length_idt_image (st_handlers st)) as Li. unfold phys_of in *.
  apply elem_of_cons in Hin as [[= -> ->]|[[= -> ->]|[[= -> ->]|[]%elem_of_nil]%elem_of_cons]%elem_of_cons];
    (split; [|split; [|assumption]]); unfold phys_of, tss_at, gdt_at in *; lia.
Qed.

Lemma tables_mem_pdpt (d : D) m :
  boot_pdpt_ok kernel (mkKernelImage bp []) m -> boot_pdpt_ok kernel (mkKernelImage bp (table_statics st)) (tables_mem m).
Proof.
  intros [H1 H2 H3 _ H4]. split; try done; [by apply tables_statics|]. intros i Hi. rewrite <- H4 by done. apply entry_at_ext; [lia|].
  intros x Hx. destruct (ss_gdt _ _ _ Hst) as [_ Hg]. destruct (ss_tss _ _ _ Hst) as [_ Ht].
  destruct (ss_idt _ _ _ Hst) as [_ Hi']. cbn [ki_pdpt] in Hx. apply tables_mem_out; unfold in_block, apart in *; lia.
Qed.

End Setup.

(** ** Running [rust_boot] *)

Section Run.
Context {P : Profile} {L : RefLayout} {B : BootPdpt} {D : Type} `{Bus D, !IoApicDev D, !IoApicApart D}.

Lemma on_device_run {A C} (m : M D A) (k : A -> M (Platform D) C) s a d :
  m (pf_dev s) = Ret (a, d) ->
  bind (on_device m) k s = k a (mkPlatform (pf_sys s) d (pf_gdtr s) (pf_idtr s) (pf_tr s) (pf_ioapic s) (pf_vars s)).
Proof. intros E. unfold bind, on_device. by rewrite E. Qed.

Lemma on_device_quiet {A C} (m : M D A) (k : A -> M (Platform D) C) s :
  quiet m -> exists a d, bind (on_device m) k s =
    k a (mkPlatform (pf_sys s) d (pf_gdtr s) (pf_idtr s) (pf_tr s) (pf_ioapic s) (pf_vars s)) /\
    forall i, io_regs d i = io_regs (pf_dev s) i.
Proof.
  intros Hm. destruct (Hm (pf_dev s)) as (a & d & E & R). exists a, d. split; [|done]. by apply on_device_run.
Qed.

Lemma on_tables_run {A C} (m : M CpuTables A) (k : A -> M (Platform D) C) s a t :
  m (platform_tables s) = Ret (a, t) ->
  bind (on_tables m) k s = k a (mkPlatform
    (with_machine (pf_sys s) (set_ram (phys_view (ct_mem t)) (machine (vm (k_mem (ext (pf_sys s))))))) (pf_dev s)
    (ct_gdtr t) (ct_idtr t) (ct_tr t) (pf_ioapic s) (pf_vars s)).
Proof. intros E. unfold bind, on_tables. by rewrite E. Qed.

(** The statics are all the tables. *)
Lemma statics_tables st (s : Platform D) :
  pf_gdtr s = mkGdtr 63 (gdt_at st 0) -> pf_idtr s = mkIdtr 4095 (st_idt st) -> pf_tr s = 48 ->
  (forall a bs, (a, bs) ∈ table_statics st -> mem_holds (platform_mem s) a bs) -> tables_ok st 0 (platform_tables s).
Proof using Type.
  intros Eg Ei Et Hh. split; cbn [ct_gdtr ct_idtr ct_tr ct_mem platform_tables]; [done..| | |];
    rewrite kernel_view_holds; apply Hh; unfold table_statics; rewrite !elem_of_cons; auto.
Qed.

(** The registers of the local APIC are addresses. *)
Definition apic_ok (la : LocalApic) : Prop := 0 <= la_base la /\ la_base la + 0xb0 < 2 ^ 64.

Lemma LocalApic_init_run (d : D) : exists la d', LocalApic_init d = Ret (la, d') /\ apic_ok la.
Proof.
  unfold LocalApic_init, bind, rdmsr. destruct (bus_rdmsr MSR_IA32_APIC_BASE d) as [lo hi]. cbn [obind].
  set (v := Z.land _ 0xfffff000).
  assert (0 <= v < 2 ^ 32) as Hv.
  { subst v. change 0xfffff000 with (Z.land (Z.ones 32) 0xfffff000).
    rewrite Z.land_assoc, Z.land_ones by lia. split; [apply Z.land_nonneg; right; lia|].
    set (w := _ mod _). pose proof (Z.mod_pos_bound (Z.lor (hi ≪ 32) lo) (2 ^ 32) ltac:(lia)) as Hw. fold w in Hw.
    assert (Z.land w 0xfffff000 = Z.land w 0xfffff000 mod 2 ^ 32) as ->; [|by apply Z.mod_pos_bound].
    rewrite <- Z.land_ones by lia. by rewrite <- Z.land_assoc. }
  unfold apic_write, bind, lift. rewrite paddr2vaddr_add by lia.
  rewrite usize_add_ok by (unfold KERNEL_BASE, apic_reg; lia). cbn [obind write_volatile].
  rewrite usize_add_ok by (unfold KERNEL_BASE, apic_reg; lia). eexists _, _. split; [done|].
  unfold apic_ok, KERNEL_BASE. cbn [la_base]. lia.
Qed.

(** [cpuvar::init] of the boot processor. *)
Definition boot_cpuvars (st : Statics) (cv_base cv_size : Z) (la : LocalApic) (v : CpuVars) : CpuVars :=
  mkCpuVars (<[0%nat := Some (mkCpuVar CPUVAR_MAGIC 0 (st_stack st + KERNEL_STACK_SIZE) la)]> (cpu_vars v)) (cv_base + 0 * cv_size).

Lemma boot_cpuvars_get st cv_base cv_size la gsbase :
  0 < cv_base -> 0 < cv_size -> let vars := boot_cpuvars st cv_base cv_size la (cpu_vars_new gsbase) in
  exists v, get_cpuvar cv_base cv_size vars = Ret v /\ cv_kernel_rsp v = st_stack st + KERNEL_STACK_SIZE /\
    cv_local_apic v = la /\ cpu_gsbase vars = cv_base.
Proof.
  intros Hb Hz vars.
  destruct (cpuvar_set_get cv_base cv_size 0 (mkCpuVar CPUVAR_MAGIC 0 (st_stack st + KERNEL_STACK_SIZE) la) (cpu_vars_new gsbase))
    as (s & E & Hs & _); [done|done|unfold NUM_CPUS_MAX; lia|done|done|].
  injection E as <-. eexists. split; [exact Hs|]. split; [done|]. split; [done|]. unfold vars, boot_cpuvars. cbn [cpu_gsbase]. lia.
Qed.

Lemma platform_cpuvar_init_run st cv_base cv_size (s : Platform D) la d' :
  0 <= st_stack st -> st_stack st + KERNEL_STACK_SIZE < 2 ^ 64 -> LocalApic_init (pf_dev s) = Ret (la, d') ->
  platform_cpuvar_init st cv_base cv_size 0 s =
  let* (_, y) := cpuvar_init (pf_sys s) in
  Ret (tt, mkPlatform y d' (pf_gdtr s) (pf_idtr s) (pf_tr s) (pf_ioapic s) (boot_cpuvars st cv_base cv_size la (pf_vars s))).
Proof.
  intros H0 Hs Ela. unfold platform_cpuvar_init.
  assert (CpuVar_new st 0 (pf_dev s) = Ret (mkCpuVar CPUVAR_MAGIC 0 (st_stack st + KERNEL_STACK_SIZE) la, d')) as E.
  { unfold CpuVar_new. change (0 =? 0) with true. cbv iota. unfold bsp_stack_top.
    erewrite bind_lift by (apply checked_at_ok; unfold KERNEL_STACK_SIZE in *; lia). by rewrite (bind_run _ _ _ _ _ Ela). }
  unfold bind at 1, on_device. rewrite E. reflexivity.
Qed.

Lemma platform_boot_eq st cv_base cv_size entry kernel bi reserve (s : Platform D) la d' :
  0 <= st_stack st -> st_stack st + KERNEL_STACK_SIZE < 2 ^ 64 -> LocalApic_init (pf_dev s) = Ret (la, d') ->
  platform_boot st cv_base cv_size entry kernel bi reserve s =
  let* (p, y) := boot entry kernel bi reserve (pf_sys s) in
  Ret (p, mkPlatform y d' (pf_gdtr s) (pf_idtr s) (pf_tr s) (pf_ioapic s) (boot_cpuvars st cv_base cv_size la (pf_vars s))).
Proof.
  intros H0 Hs Ela. unfold platform_boot, boot. unfold bind at 1 4. unfold on_kernel at 1.
  destruct (on_mach (memory_init kernel bi) (pf_sys s)) as [[[] y1]| | |]; try done. cbn [obind].
  unfold bind at 1. erewrite platform_cpuvar_init_run by (exact Ela || done). cbn [pf_sys pf_gdtr pf_idtr pf_tr pf_ioapic pf_vars].
  unfold bind at 2. destruct (cpuvar_init y1) as [[[] y2]| | |]; try done. cbn [obind].
  unfold bind, on_kernel. cbn [pf_sys pf_dev pf_gdtr pf_idtr pf_tr pf_ioapic pf_vars].
  by destruct (server_init entry bi y2) as [[l y3]| | |].
Qed.

(** The serial port and the first messages. *)
Lemma banner_run {C} `{!Uart D, !UartLaws D polls} wait (k : M (Platform D) C) s :
  (polls < wait)%nat ->
  exists d, (do* _ := on_device console_init in
     do* _ := on_device (kernel_println wait (ESC "[?7h")) in
     do* _ := on_device (kernel_trace wait (str "Booting FTL...")) in k) s =
    k (mkPlatform (pf_sys s) d (pf_gdtr s) (pf_idtr s) (pf_tr s) (pf_ioapic s) (pf_vars s)) /\
    forall i, io_regs d i = io_regs (pf_dev s) i.
Proof.
  intros Hp. destruct (console_init_run (pf_dev s)) as (d1 & E1 & L1 & _).
  assert (quiet (D := D) console_init) as Hq by (unfold console_init; eauto 20 with platform).
  destruct (Hq (pf_dev s)) as (u & d1' & E1' & R1). assert (d1' = d1) as -> by congruence.
  assert (uart_dlab d1 = false) as Hd1 by (unfold uart_dlab; by rewrite L1).
  destruct (driver_write_run wait (ESC "[?7h" ++ [10]) d1 Hd1 Hp) as (d2 & E2 & _ & Hd2).
  destruct (driver_write_run wait ((str "[kernel    ] " ++ str "Booting FTL...") ++ [10]) d2 Hd2 Hp) as (d3 & E3 & _ & _).
  exists d3. erewrite on_device_run by exact E1. erewrite on_device_run by exact E2. erewrite on_device_run by exact E3. split; [done|].
  intros i. by rewrite (driver_write_apart _ _ _ _ _ E3), (driver_write_apart _ _ _ _ _ E2), R1.
Qed.

Ltac device_step R :=
  match goal with
  | |- context [bind (on_device ?m) ?k ?s] =>
      let d := fresh "d" in
      let E := fresh "E" in
      destruct (on_device_quiet m k s) as (? & d & E & R);
      [unfold console_init, enable_fsgsbase, enable_sse, pic_init, syscall_init, timer_init; eauto 20 with platform|rewrite E; clear E];
      cbn [pf_sys pf_dev pf_gdtr pf_idtr pf_tr pf_ioapic pf_vars] in R |- *
  end.

(** [rust_boot] up to [boot]: the tables in memory, the timer routed, the boot
    information parsed. *)
Lemma rust_setup_run `{!Uart D, !UartLaws D polls} kernel bp st wait fuel handler magic a0 m cr3 console (d : D) gdtr idtr tr gsbase p es apic intr base pins mods rams :
  (polls < wait)%nat -> statics_ok kernel bp st -> IoApicLaws D base pins ->
  independent kernel m (fun m' => mp_at m' p es) -> timer_wiring es = Some (apic, intr) ->
  base = paddr2vaddr (io_apic_address apic) -> 0 <= dest_io_apic_intin intr < pins - 1 ->
  independent kernel m (fun m' => boot_described m' fuel magic a0 mods rams) ->
  exists bootinfo d', rust_setup st wait fuel handler magic a0 (platform_on m cr3 console d gdtr idtr tr gsbase) =
      Ret (bootinfo, set_up st m cr3 console d' (mkIoApic base (pins - 1)) gsbase) /\
    av_rep (modules bootinfo) mods /\ av_rep (free_rams bootinfo) rams /\
    redir_entry d' (dest_io_apic_intin intr) = routed 32 /\
    forall j, 0 <= j -> j <> dest_io_apic_intin intr -> redir_entry d' j = redir_entry d j.
Proof.
  intros Hwait Hst Hio Hmp Hw Hb Hpin Hbi. pose proof (ss_layout _ _ _ Hst) as Hl. pose proof (tables_mem_agree kernel bp st Hst m) as Ha.
  unfold rust_setup, platform_on.
  match goal with |- context [bind (on_device console_init) (fun _ => bind _ (fun _ => bind _ (fun _ => ?k))) ?s] =>
    destruct (banner_run wait k s Hwait) as (d0 & E0 & R1) end.
  rewrite E0. device_step R2. device_step R3.
  erewrite on_tables_run by (apply (gdt_init_run st Hl); unfold NUM_CPUS_MAX; lia).
  erewrite on_tables_run by (apply (idt_init_run st Hl)).
  cbn [pf_sys pf_dev pf_gdtr pf_idtr pf_tr pf_ioapic pf_vars ct_gdtr ct_idtr ct_tr].
  match goal with |- context [mkPlatform (with_machine ?y ?ph) d2] =>
    change (with_machine y ph) with (power_on (tables_mem st m) cr3 console) end.
  device_step R4. device_step R5.
  pose proof (mp_init_spec (tables_mem st m) p es base pins d4 (Hmp _ Ha)) as Hinit. rewrite Hw in Hinit.
  rewrite (proj2 (Z.ltb_lt _ _)) in Hinit by lia.
  destruct Hinit as (d5 & E5 & T5 & O5).
  { intros ? ? [= <- <-]. split; [lia|]. done. }
  erewrite bind_run by (unfold platform_mp_init; cbn [pf_dev pf_ioapic]; change (platform_mem _) with (tables_mem st m); rewrite E5; reflexivity). device_step R6.
  destruct (boot_info_described _ _ _ _ _ _ (Hbi _ Ha)) as (bi & Ebi & Hmods & Hrams).
  change (platform_mem _) with (tables_mem st m). rewrite Ebi. exists bi, d6. split; [reflexivity|]. split; [done|]. split; [done|].
  assert (forall (e f : D) i, (forall j, io_regs f j = io_regs e j) -> redir_entry f i = redir_entry e i) as Hre
    by (intros e f i Hr; unfold redir_entry; by rewrite !Hr).
  rewrite (Hre d5 d6) by done. split; [done|]. intros j H0 Hj. rewrite (Hre d5 d6), O5 by done.
  apply Hre. intros k. by rewrite R5, R4, R3, R2, R1.
Qed.

End Run.

(** ** From the first instruction *)

(** The machine at the entry of [rust_boot], with the registers that [x64_boot] does not use. *)
Definition entry_platform {D} (c : BootCpu) (d : D) (idtr : Idtr) (tr gsbase : Z) (console : list Z) : Platform D :=
  platform_on (bc_mem c) (bc_cr3 c) console d (bc_gdtr c) idtr tr gsbase.

Section Start.
Context {P : Profile} {L : RefLayout} {B : BootPdpt} {D : Type} `{Bus D}.

(** [x64_boot], then [rust_boot] with EDI and ESI. *)
Definition start_kernel (sy : Symbols) (upper : Reg -> Z) (st : Statics) (cv_base cv_size : Z)
    (entry : Z -> M (Sys (Kernel Phys LxSv)) unit) (kernel : Z * Z) (wait fuel : nat) (handler : Z) (reserve : bool)
    (c : BootCpu) (d : D) (idtr : Idtr) (tr gsbase : Z) (console : list Z) : outcome (Z * Platform D) :=
  let* c' := x64_boot sy upper c in
  rust_boot st cv_base cv_size entry kernel wait fuel handler reserve (wrap 32 (bc_gpr c' RDI)) (wrap 32 (bc_gpr c' RSI))
    (entry_platform c' d idtr tr gsbase console).

End Start.

(** The kernel in memory as the boot loader leaves it. *)
Record kernel_loaded {B : BootPdpt} (kernel : Z * Z) (sy : Symbols) (st : Statics) (m : mem) : Prop := {
  kl_symbols : symbols_ok sy;
  kl_image : loaded_image sy m;
  kl_mem : mem_ok m;
  kl_statics : statics_ok kernel (phys_of (sy_pdpt sy)) st;
  kl_stack : st_stack st = sy_stack sy;
  kl_fixed : KERNEL_IMAGE = mkKernelImage (phys_of (sy_pdpt sy)) (table_statics st);
  kl_inside : 0 <= kernel.1 /\ in_kernel kernel (sy_pdpt sy) 4096 /\ in_kernel kernel (sy_pml4 sy) 4096 /\
    in_kernel kernel (sy_stack sy) KERNEL_STACK_SIZE
}.

Section Handover.
Context {P : Profile} {L : RefLayout} {B : BootPdpt}.
Context (kernel : Z * Z) (sy : Symbols) (st : Statics) (c c' : BootCpu).
Context (Hk : kernel_loaded kernel sy st (bc_mem c)) (He : rust_boot_entry sy c c').

Lemma entry_agree : agree kernel (bc_mem c) (bc_mem c').
Proof.
  intros x Hx. destruct (kl_inside _ _ _ _ Hk) as (_ & _ & [] & []). unfold KERNEL_STACK_SIZE in *.
  apply (re_memory _ _ _ He); unfold in_block, outside, stack_top, KERNEL_STACK_SIZE in *; lia.
Qed.

Lemma entry_pdpt : boot_pdpt_ok kernel (mkKernelImage (phys_of (sy_pdpt sy)) []) (bc_mem c').
Proof.
  pose proof (kl_symbols _ _ _ _ Hk) as Hsy. destruct (kl_inside _ _ _ _ Hk) as (H0 & [] & _).
  destruct (so_pdpt _ Hsy) as (? & ? & ?). split; cbn [ki_pdpt]; [done| | |by intros a bs ?%elem_of_nil|].
  - unfold MIN_PAGE_SIZE. lia.
  - unfold MIN_PAGE_SIZE, DIRECT_MAP_SIZE, GIGA_PAGE_SIZE. lia.
  - intros i Hi. pose proof (li_pdpt _ _ (kl_image _ _ _ _ Hk) i ltac:(lia)) as E. unfold giga_entry in E.
    rewrite (proj2 (Z.ltb_lt i 4)) in E by lia. rewrite <- E. apply entry_at_ext; [lia|]. intros x Hx.
    destruct (so_top _ Hsy) as (_ & Ht & _). pose proof (so_tables _ Hsy) as Hp.
    apply (re_memory _ _ _ He); unfold in_block, apart, MIN_PAGE_SIZE in *; lia.
Qed.

End Handover.

(** What the boot loader and the firmware hand over besides the kernel. *)
Record handed {P : Profile} (D : Type) `{Bus D, IoApicDev D} (kernel : Z * Z) (m : mem) (fuel : nat) (magic info : Z)
    (module : Module_) (rams : list FreeRam) (es : list Entry) (pin : Z) : Prop := {
  ha_boot : boot_ok kernel [module] rams;
  ha_info : independent kernel m (fun m' => boot_described m' fuel magic info [module] rams);
  ha_archive : independent kernel m (fun m' => archive_at m' module es);
  ha_timer : exists p mp apic intr pins, independent kernel m (fun m' => mp_at m' p mp) /\
    timer_wiring mp = Some (apic, intr) /\ dest_io_apic_intin intr = pin /\ 0 <= pin < pins - 1 /\
    IoApicLaws D (paddr2vaddr (io_apic_address apic)) pins
}.

(** * Properties *)

Section Boots.
Context {P : Profile} {L : RefLayout} {B : BootPdpt} {D : Type} `{Bus D, !IoApicDev D, !IoApicApart D, !Uart D, !UartLaws D polls}.
Context (galloc : RefStore KObject -> option Z) (try_reserve : RefStore KObject -> bool).
Context (invoke : Upcall -> UpcallArg -> M (Sys (Kernel Phys LxSv)) unit) (FTL_LOG_PREFIX : list Z) (box : LxSv -> option Z).
Abbreviation lx := (lx_entry galloc try_reserve invoke FTL_LOG_PREFIX box).

(** The program runs on the prepared processor. *)
Record on_platform (st : Statics) (cv_base cv_size pin : Z) (d : D) (s1 s : Platform D) : Prop := {
  op_tables : descriptors_ok st 0 (platform_tables s);
  op_registers : pf_gdtr s = mkGdtr 63 (gdt_at st 0) /\ pf_idtr s = mkIdtr 4095 (st_idt st) /\ pf_tr s = 48;
  op_timer : redir_entry (pf_dev s1) pin = routed 32 /\
    forall j, 0 <= j -> j <> pin -> redir_entry (pf_dev s1) j = redir_entry d j;
  op_cpuvar : exists v, get_cpuvar cv_base cv_size (pf_vars s) = Ret v /\
    cv_kernel_rsp v = st_stack st + KERNEL_STACK_SIZE /\ apic_ok (cv_local_apic v) /\ cpu_gsbase (pf_vars s) = cv_base
}.

(** The machine boots from its first instruction.  Started in protected mode
    by a Multiboot2 or PVH loader, with the kernel, one module and an MP table
    in memory, [x64_boot] enters [rust_boot] in long mode; [rust_boot] sets up
    devices, descriptor tables and the timer and finds the boot information;
    [boot] starts the Linux server and enters its program.  The only other
    outcome is a panic of the loader or the server on the state that
    [memory::init] left. *)
Lemma boot_reaches_program (sy : Symbols) (upper : Reg -> Z) (st : Statics) (cv_base cv_size : Z) (kernel : Z * Z) (wait fuel : nat)
    (handler : Z) (c : BootCpu) (d : D) (idtr : Idtr) (tr gsbase pin : Z) (console : list Z) (module : Module_) (rams : list FreeRam)
    (es : list Entry) (name file : list Z) (at_ : Z) (elf : Elf) (paddr : Z) (prog : list Z) (pelf : Elf) :
  alloc_fresh galloc -> box_fresh box ->
  protected_mode c -> Z.testbit (bc_cr0 c) CR0_WP = false -> kernel_loaded kernel sy st (bc_mem c) ->
  0 < cv_base -> 0 < cv_size -> (polls < wait)%nat ->
  handed D kernel (bc_mem c) fuel (bc_gpr c RAX) (bc_gpr c RBX) module rams es pin ->
  filter (fun f => is_server (f_name f) = true) (archive_files 0 es) = [mkFile name file at_] ->
  utf8_valid name = true -> len file < 2 ^ 64 ->
  image_ok P (paddr2vaddr (mod_start module) + at_) file elf -> program_ok paddr prog pelf ->
  let run := start_kernel sy upper st cv_base cv_size (lx paddr prog) kernel wait fuel handler true c d idtr tr gsbase console in
  exists c' bootinfo s1 ph,
    x64_boot sy upper c = Ret c' /\ rust_boot_entry sy c c' /\
    rust_setup st wait fuel handler (bc_gpr c RAX) (bc_gpr c RBX) (entry_platform c' d idtr tr gsbase console) = Ret (bootinfo, s1) /\
    memory_init kernel bootinfo (machine (vm (k_mem (ext (pf_sys s1))))) = Ret (tt, ph) /\
    ((run = Panic /\ not_started galloc try_reserve invoke FTL_LOG_PREFIX box (paddr2vaddr (mod_start module)) at_ file
        paddr prog pelf (with_machine (pf_sys s1) ph)) \/
     exists p s, run = Ret (p, s) /\ in_program prog pelf p (pf_sys s) /\ on_platform st cv_base cv_size pin d s1 s).
Proof.
  intros Hg Hb Hpm Hwp Hk Hcb Hcz Hwait [Hbo Hinfo Har Htm] Hfiles Hu Hlen Him Hpo run.
  pose proof (x64_boot_spec sy upper c (kl_symbols _ _ _ _ Hk) Hpm (kl_image _ _ _ _ Hk)) as Hx. rewrite Hwp in Hx.
  destruct Hx as (c' & Ex & He). pose proof (entry_agree _ _ _ _ _ Hk He) as Ha. pose proof (kl_statics _ _ _ _ Hk) as Hst.
  destruct Htm as (p & mp & apic & intr & pins & Hmp & Hw & <- & Hpin & Hlaws).
  destruct (rust_setup_run kernel (phys_of (sy_pdpt sy)) st wait fuel handler (bc_gpr c RAX) (bc_gpr c RBX) (bc_mem c') (bc_cr3 c') console d (bc_gdtr c')
    idtr tr gsbase p mp apic intr (paddr2vaddr (io_apic_address apic)) pins [module] rams) as (bi & d' & Es & Hmods & Hrams & Ht & Ho);
    [done|done|done|by eapply independent_agree|done|done|done|by eapply independent_agree|].
  set (s1 := set_up _ _ _ _ _ _ _) in Es.
  destruct (kernel_boots_spec galloc try_reserve invoke FTL_LOG_PREFIX box (tables_mem st (bc_mem c')) (bc_cr3 c') console kernel bi
    module rams es name file at_ elf paddr prog pelf) as (ph & Em & Hrun); try done.
  { apply tables_mem_ok, (re_bytes _ _ _ He), Hk. }
  { rewrite (kl_fixed _ _ _ _ Hk). eapply (tables_mem_pdpt kernel _ st Hst d), entry_pdpt; done. }
  { apply Har. eapply agree_trans; [done|]. by eapply tables_mem_agree. }
  exists c', bi, s1, ph. split; [done|]. split; [done|]. split; [done|]. split; [done|].
  destruct (LocalApic_init_run d') as (la & d2 & Ela & Hla). pose proof (ss_layout _ _ _ Hst) as Hl.
  pose proof (lo_bounds _ Hl). pose proof (lo_ends _ Hl).
  assert (run = let* (p, y) := boot (lx paddr prog) kernel bi true (pf_sys s1) in
    Ret (p, mkPlatform y d2 (pf_gdtr s1) (pf_idtr s1) (pf_tr s1) (pf_ioapic s1) (boot_cpuvars st cv_base cv_size la (pf_vars s1)))) as ->.
  { unfold run, start_kernel. rewrite Ex. cbn [obind]. destruct (re_args _ _ _ He) as [-> ->]. unfold rust_boot.
    rewrite (bind_run _ _ _ _ _ Es). apply platform_boot_eq; [lia|lia|done]. }
  destruct Hrun as [[Er Hn]|(q & y & Er & Hin)]; [left|right].
  - split; [by change (pf_sys s1) with (power_on (tables_mem st (bc_mem c')) (bc_cr3 c') console); rewrite Er|done].
  - change (pf_sys s1) with (power_on (tables_mem st (bc_mem c')) (bc_cr3 c') console). rewrite Er. eexists q, _. split; [reflexivity|].
    split; [done|]. split; [|done|done|].
    + apply tables_descriptors; [done|unfold NUM_CPUS_MAX; lia|]. apply statics_tables; [done..|]. intros a bs Hin'.
      apply (program_statics prog pelf q y); [done|]. by rewrite (kl_fixed _ _ _ _ Hk).
    + destruct (boot_cpuvars_get st cv_base cv_size la gsbase) as (v & Ev & Hr & Hv & Hg'); [done..|]. exists v. by rewrite Hv.
Qed.

End Boots.

(** ** Witness: a PC with 16 MiB of memory

    The kernel is at 1 MiB, the boot information at 0x9000, the module with the
    archive at 3 MiB and the MP table in the BIOS area. *)

Section Witnesses.
#[local] Existing Instance dev.
#[local] Existing Instance boot_layout.

Definition pc_kernel : Z * Z := (0x100000, 0x2f0000).
Definition pc_statics : Statics :=
  mkStatics (KERNEL_BASE + 0x220000) (KERNEL_BASE + 0x230000) (KERNEL_BASE + 0x250000) (KERNEL_BASE + 0x260000)
    (KERNEL_BASE + 0x110000).
#[local] Instance pc_image : BootPdpt := {| KERNEL_IMAGE := mkKernelImage 0x100000 (table_statics pc_statics) |}.

Definition pc_tags : list Tag :=
  [ TagCmdline [0]; TagModule 0x300000 (0x300000 + len boot_archive) [0x66; 0x73; 0];
    TagMemoryMap 24 0 [(mkMmapEntry 0 0x1000000 1 0, [])]; TagOther 0 [] ].
Definition pc_ram : mem :=
  mem_write (mem_write (mem_write (mem_write example_image_mem 0x300000 boot_archive)
    0xf5b00 (MP_MAGIC ++ le_bytes 4 0xf5b20 ++ replicate 8 0))
    0xf5b20 (replicate 34 1 ++ le_bytes 2 7 ++ replicate 8 2 ++ concat pc_raw))
    0x9000 (info_bytes pc_tags).
Definition pc_cpu : BootCpu :=
  mkBootCpu (bc_gpr loaded_cpu) true true 1 0 0 0 (mkGdtr 0 0) false (fun _ => 16) 0x104000 pc_ram.

Definition is_ret {A} (o : outcome A) : bool := match o with Ret _ => true | _ => false end.

Lemma pc_starts :
  is_ret (start_kernel example_symbols (fun _ => 5) pc_statics (KERNEL_BASE + 0x2a0000) 256
    (lx_entry example_galloc (fun _ => true) (fun _ _ => ret tt) [] example_box 0x8000 hello_elf) pc_kernel 2 64
    (KERNEL_BASE + 0x106000) true pc_cpu pc0 (mkIdtr 0 0) 0 0 []) = true.
Proof. vm_compute. reflexivity. Qed.

(** The pieces do not overlap. *)
Lemma pc_info_end : 0x9000 + len (info_bytes pc_tags) <= 0x80000.
Proof. vm_compute. discriminate. Qed.
Lemma pc_mp_lengths : len (MP_MAGIC ++ le_bytes 4 0xf5b20 ++ replicate 8 0) = 16 /\
  len (replicate 34 1 ++ le_bytes 2 7 ++ replicate 8 2 ++ concat pc_raw) = 112.
Proof. split; reflexivity. Qed.
Lemma pc_archive_end : 0x300000 + len boot_archive < 0x400000.
Proof. reflexivity. Qed.

Definition pc_written (x : Z) : Prop :=
  0x9000 <= x < 0x80000 \/ 0xf5b00 <= x < 0xf5b00 + 16 \/ 0xf5b20 <= x < 0xf5b20 + 112 \/ 0x300000 <= x < 0x400000.

Lemma pc_ram_out x : ~ pc_written x -> pc_ram x = example_image_mem x.
Proof.
  unfold pc_written. intros Hx. pose proof pc_info_end. destruct pc_mp_lengths as [L1 L2]. pose proof pc_archive_end.
  unfold pc_ram. rewrite mem_write_out by lia. rewrite mem_write_out by (rewrite L2; lia).
  rewrite mem_write_out by (rewrite L1; lia). apply mem_write_out. lia.
Qed.

Lemma pc_image_loaded : loaded_image example_symbols pc_ram.
Proof.
  assert (forall x, 0x100000 <= x < 0x110000 -> pc_ram x = example_image_mem x) as Hk
    by (intros x Hx; apply pc_ram_out; unfold pc_written; lia).
  apply (loaded_image_ext example_symbols example_image_mem); [exact example_image_loaded|].
  change (phys_of (sy_pml4 example_symbols)) with 0x101000. change (phys_of (sy_pdpt example_symbols)) with 0x100000.
  change (phys_of (sy_gdtr example_symbols)) with 0x103000. change (phys_of (sy_gdt example_symbols)) with 0x103010.
  intros x Hx. apply Hk. unfold in_block in Hx. lia.
Qed.

Lemma pc_ram_ok : mem_ok pc_ram.
Proof.
  unfold pc_ram, example_image_mem. repeat apply mem_ok_write; try (apply bytes_ok_check; vm_compute; reflexivity).
  intros x. unfold is_byte. lia.
Qed.

Lemma pc_kernel_loaded : kernel_loaded pc_kernel example_symbols pc_statics pc_ram.
Proof.
  split.
  - exact example_symbols_ok.
  - exact pc_image_loaded.
  - exact pc_ram_ok.
  - split; [split; cbn; unfold KERNEL_BASE, TSS_SIZE, KERNEL_STACK_SIZE; lia|..];
      unfold in_kernel, apart, pc_kernel, TSS_SIZE, MIN_PAGE_SIZE; cbn [fst snd].
    + change (phys_of (st_gdt pc_statics)) with 0x220000. change (phys_of (sy_pdpt example_symbols)) with 0x100000. lia.
    + change (phys_of (st_tss pc_statics)) with 0x230000. change (phys_of (sy_pdpt example_symbols)) with 0x100000. lia.
    + change (phys_of (st_idt pc_statics)) with 0x250000. change (phys_of (sy_pdpt example_symbols)) with 0x100000. lia.
  - reflexivity.
  - reflexivity.
  - unfold in_kernel, pc_kernel, KERNEL_STACK_SIZE. cbn [fst snd].
    change (phys_of (sy_pdpt example_symbols)) with 0x100000. change (phys_of (sy_pml4 example_symbols)) with 0x101000.
    change (phys_of (sy_stack example_symbols)) with 0x110000. lia.
Qed.

Lemma pc_handed : handed Pc pc_kernel pc_ram 64 0x36d76289 0x9000 boot_module boot_rams_list boot_entries 2.
Proof.
  pose proof pc_info_end. destruct pc_mp_lengths as [L1 L2]. pose proof pc_archive_end. split.
  - split; cbn; [lia|apply boot_boot_ok|apply boot_boot_ok|apply boot_boot_ok].
  - intros m Hm. apply (by_multiboot m 64 0x9000 pc_tags).
    + repeat constructor; try (vm_compute; congruence); try (simpl; lia).
    + apply (mem_holds_agree pc_kernel pc_ram); [done|unfold pc_kernel; cbn [fst]; lia|]. apply mem_holds_write.
    + lia.
    + unfold DIRECT_MAP_SIZE, GIGA_PAGE_SIZE. lia.
  - intros m Hm. apply boot_archive_at. apply (mem_holds_agree pc_kernel pc_ram); [done|right; unfold pc_kernel; cbn [snd]; lia|].
    unfold pc_ram. do 3 (apply mem_holds_write_other; [lia|]). apply mem_holds_write.
  - exists 0xf5b00, pc_entries, (mkIoApicEntry 2 0 0x11 1 0xfec00000), (mkIoInterruptAssignmentEntry 3 0 0 1 0 0 2), 24.
    split; [|split; [reflexivity|split; [reflexivity|split; [lia|exact pc_ioapic_laws]]]].
    intros m Hm. apply pc_mp_at_ext. intros x Hx. rewrite Hm by (left; unfold pc_kernel; cbn [fst]; lia).
    unfold pc_ram. rewrite (mem_write_out _ 0x9000) by lia. apply mem_write_ext, mem_write_ext.
    rewrite mem_write_out by lia. unfold example_image_mem. rewrite !mem_write_out; [done|..]; lia.
Qed.

#[local] Instance pc_apart : IoApicApart Pc.
Proof.
  split; try done; [intros d port i|intros d port v i]; cbn; unfold pc_in8, pc_out8, pc_regs;
    repeat case_match; done.
Qed.

End Witnesses.
