(* ===== verification/System.v ===== *)
(** * The running system

    The processor, the platform (RustBoot.v) and the Linux server put together.
    A program runs in user mode; it computes, stores to its memory, makes system
    calls and is interrupted.  Interrupts and system calls go through the whole
    kernel: the descriptor tables in memory, the entry assembly, the handlers of
    idt.rs and syscall.rs, the server, the scheduler, and [enter]. *)

From S2P Require Import Prelude Bytes Alignment Api ArrayVec Bump Malloc Machine Memory VmArea PageTable VmSpace SharedRef X64Context Thread Text StartInfo Server ServerApi Devices Print Lx Elf Initfs Loader LxStack LxProcess Multiboot Pvh MpTable Descriptors Interrupt Boot X64Boot RustBoot.

(** The saved context, read back from its words. *)
Definition thread_of_words (w : list Z) : option ArchThread :=
  match w with
  | [ip; sel; fl; sp; sse; a; b; c; d; si; di; bp; x8; x9; x10; x11; x12; x13; x14; x15; gs; fs] =>
      Some (mkArchThread ip sel fl sp sse a b c d si di bp x8 x9 x10 x11 x12 x13 x14 x15 gs fs)
  | _ => None
  end.

(** The machine: [w_ticks] is the static [TICKS] of timer.rs. *)
Record World (D : Type) : Type := mkWorld {
  w_cpu : Cpu;
  w_pf : Platform D;
  w_ticks : Z
}.
Arguments mkWorld {D} _ _ _.
Arguments w_cpu {D} _.
Arguments w_pf {D} _.
Arguments w_ticks {D} _.

(** What the kernel's Rust code leaves in the registers and on the stack that
    it is free to use. *)
Record Leftover : Type := mkLeftover {
  lf_gpr : Reg -> Z;
  lf_rip : Z;
  lf_rflags : Z;
  lf_scratch : Z;
  lf_stack : list Z
}.

Definition with_sys {D} (pf : Platform D) (y : Sys (Kernel Phys LxSv)) (d : D) : Platform D :=
  mkPlatform y d (pf_gdtr pf) (pf_idtr pf) (pf_tr pf) (pf_ioapic pf) (pf_vars pf).

(** A program's events.  [Compute]: instructions that change registers only. *)
Inductive Event : Type :=
| Compute (g : Reg -> Z) (ip fl : Z)
| Store8 (va b : Z)
| Interrupted (v e : Z) (lf : Leftover)
| SystemCall (lf : Leftover).

(** The registers with which a program starts. *)
Definition starts_at (elf : Elf) (c : Cpu) : Prop :=
  c_rip c = e_entry (ehdr elf) /\ c_cs c = GDT_USER_CS /\ c_ss c = GDT_USER_DS /\ c_rflags c = 514 /\
  STACK_BASE <= gpr c RSP < STACK_BASE + STACK_SIZE.

Section System.
Context {P : Profile} {L : RefLayout} {B : BootPdpt} {D : Type} `{Bus D}.
Context (galloc : RefStore KObject -> option Z) (try_reserve : RefStore KObject -> bool) (FTL_LOG_PREFIX : list Z) (depth : nat).
Context (st : Statics) (cv_base cv_size handler : Z).
Abbreviation KS := (Sys (Kernel Phys LxSv)).

(** The entry assembly stores the context in the thread that the per-CPU
    structure points to; [CurrentThread] is such a pointer, and the context is
    the first field of [Thread]. *)
Definition save_context (c : Cpu) (s : KS) : outcome KS :=
  match current s, thread_of_words (words c) with
  | Some raw, Some a =>
      let r := sref_from_raw ThreadType raw in
      let* (t, s) := thread_ref r s in
      let* (_, s) := thread_put r (mkThread a (t_upcall t) (t_vmspace t) (t_state t) (in_upcalls t)) s in
      Ret s
  | _, _ => Undef
  end.

(** The processor with the pointer and the context that it points to. *)
Definition load_context (v : CpuVar) (c : Cpu) (s : KS) : outcome Cpu :=
  match current s with
  | Some raw =>
      let* (t, _) := thread_ref (sref_from_raw ThreadType raw) s in
      Ret (mkCpu (gpr c) (c_rip c) (c_cs c) (c_rflags c) (c_ss c) (gs_base c) (kernel_gs_base c) (fs_base_reg c)
             raw (thread_words (t_arch t)) (scratch c) (cv_kernel_rsp v) (stack c))
  | None => Undef
  end.

(** [arch::Thread::enter] after the kernel's code. *)
Definition leave_kernel (v : CpuVar) (lf : Leftover) (c : Cpu) (s : KS) : outcome Cpu :=
  let* c := load_context v (kernel_runs (lf_gpr lf) (lf_rip lf) (lf_rflags lf) (lf_scratch lf) (lf_stack lf) c) s in
  exec (enter (cur c)) c.

(** [get_cpuvar] reads the GSBASE of the processor. *)
Definition cpuvar_of (c : Cpu) (pf : Platform D) : outcome CpuVar :=
  get_cpuvar cv_base cv_size (mkCpuVars (cpu_vars (pf_vars pf)) (gs_base c)).

(** An interrupt in user mode, from its delivery to the return.  A vector that
    cannot be delivered resets the machine. *)
Definition take_interrupt (v e : Z) (lf : Leftover) (w : World D) : outcome (World D) :=
  match hw_interrupt st (platform_tables (w_pf w)) v e (w_cpu w) with
  | None => Undef
  | Some c =>
      let* c := exec interrupt_entry c in
      let* y := save_context c (pf_sys (w_pf w)) in
      let* cv := cpuvar_of c (w_pf w) in
      let* (_, q) := handle_interrupt (cv_local_apic cv) (wrap 8 (gpr c RDI)) (gpr c RSI) true
                       (mkIrqState y (pf_dev (w_pf w)) (w_ticks w)) in
      let* c := leave_kernel cv lf c (iq_sys q) in
      Ret (mkWorld c (with_sys (w_pf w) (iq_sys q) (iq_dev q)) (iq_ticks q))
  end.

(** The [syscall] instruction, from the entry to the return. *)
Definition take_syscall (lf : Leftover) (w : World D) : outcome (World D) :=
  let* c := exec syscall_handler (raise_syscall handler SYSCALL_FMASK (w_cpu w)) in
  let* y := save_context c (pf_sys (w_pf w)) in
  let* cv := cpuvar_of c (w_pf w) in
  let* (_, y) := handle_syscall (lx_invoke galloc try_reserve FTL_LOG_PREFIX (S depth)) true y in
  let* c := leave_kernel cv lf c y in
  Ret (mkWorld c (with_sys (w_pf w) y (pf_dev (w_pf w))) (w_ticks w)).

(** A store by user code, through the page tables that the processor uses.  A
    store that is not permitted changes nothing: it is a page fault, an
    interrupt with vector 14. *)
Definition user_store (va b : Z) (w : World D) : World D :=
  let y := pf_sys (w_pf w) in
  let ph := machine (vm (k_mem (ext y))) in
  match translate (phys_ram ph) (cr3_reg y) va with
  | Some tr =>
      if tr_user tr && tr_write tr
      then mkWorld (w_cpu w)
             (with_sys (w_pf w) (with_machine y (set_ram (mem_write (phys_ram ph) (tr_paddr tr) [b]) ph)) (pf_dev (w_pf w)))
             (w_ticks w)
      else w
  | None => w
  end.

Definition step (ev : Event) (w : World D) : outcome (World D) :=
  match ev with
  | Compute g ip fl =>
      Ret (mkWorld (kernel_runs g ip fl (scratch (w_cpu w)) (stack (w_cpu w)) (w_cpu w)) (w_pf w) (w_ticks w))
  | Store8 va b => Ret (user_store va b w)
  | Interrupted v e lf => take_interrupt v e lf w
  | SystemCall lf => take_syscall lf w
  end.

Fixpoint run (evs : list Event) (w : World D) : outcome (World D) :=
  match evs with
  | [] => Ret w
  | ev :: evs => let* w := step ev w in run evs w
  end.

(** From the end of [boot] to user mode: the jump of [return_to_user]. *)
Definition enter_user (lf : Leftover) (c : Cpu) (pf : Platform D) (ticks : Z) : outcome (World D) :=
  let* cv := cpuvar_of c pf in
  let* c := leave_kernel cv lf c (pf_sys pf) in
  Ret (mkWorld c pf ticks).

(** ** User mode *)

Definition is_word (x : Z) : Prop := 0 <= x < 2 ^ 64.

(** The registers of the descriptor tables, and the per-CPU structure [v] that
    the kernel finds at its GSBASE [gs]. *)
Record ready (pf : Platform D) (gs : Z) (v : CpuVar) : Prop := mkReady {
  rd_registers : pf_gdtr pf = mkGdtr 63 (gdt_at st 0) /\ pf_idtr pf = mkIdtr 4095 (st_idt st) /\ pf_tr pf = 48;
  rd_cpuvar : get_cpuvar cv_base cv_size (mkCpuVars (cpu_vars (pf_vars pf)) gs) = Ret v;
  rd_stack : cv_kernel_rsp v = st_stack st + KERNEL_STACK_SIZE;
  rd_apic : apic_ok (cv_local_apic v)
}.

(** The processor runs thread [p], the only one, on the prepared platform. *)
Record user_mode (p : Z) (t : Thread) (w : World D) : Prop := mkUserMode {
  um_inv : @sys_inv L _ lx_ext (k_issued (ext (pf_sys (w_pf w)))) [p] (pf_sys (w_pf w));
  um_current : current (pf_sys (w_pf w)) = Some (cur (w_cpu w)) /\ sref_from_raw ThreadType (cur (w_cpu w)) = p;
  um_queue : runqueue (pf_sys (w_pf w)) = [];
  um_thread : thread_at (pf_sys (w_pf w)) p t;
  um_state : t_state t = Runnable /\ in_upcalls t = 0;
  um_space : in_space (pf_sys (w_pf w)) t;
  um_refs : total_refs (k_issued (ext (pf_sys (w_pf w)))) (pf_sys (w_pf w)) + 5 < 2 ^ 64;
  um_runs : runs_thread (t_arch t) (w_cpu w);
  um_words : (forall r, is_word (gpr (w_cpu w) r)) /\ is_word (c_rip (w_cpu w)) /\ is_word (c_rflags (w_cpu w));
  um_ready : exists v, ready (w_pf w) (kernel_gs_base (w_cpu w)) v /\ kernel_rsp (w_cpu w) = cv_kernel_rsp v
}.

(** The context of the program, and the system call that it describes.  The
    [syscall] instruction keeps the return address and the flags in RCX and
    R11. *)
Definition context_of (c : Cpu) : ArchThread :=
  mkArchThread (c_rip c) (c_cs c) (c_rflags c) (gpr c RSP) (c_ss c)
    (gpr c RAX) (gpr c RBX) (gpr c RCX) (gpr c RDX) (gpr c RSI) (gpr c RDI) (gpr c RBP)
    (gpr c R8) (gpr c R9) (gpr c R10) (gpr c R11) (gpr c R12) (gpr c R13) (gpr c R14) (gpr c R15)
    (gs_base c) (fs_base_reg c).
Definition call_context (c : Cpu) : ArchThread :=
  context_of (with_gpr c (set_reg (set_reg (gpr c) RCX (c_rip c)) R11 (c_rflags c))).
Definition call_args (c : Cpu) : SyscallArgs := args_of (call_context c).

(** Registers and bytes have their width.  The exceptions other than page
    faults are left out (the kernel panics), and so is [writev] with a negative
    number of entries, which the server does not survive. *)
Definition allowed (ev : Event) (c : Cpu) : Prop :=
  match ev with
  | Compute g ip fl => (forall r, is_word (g r)) /\ is_word ip /\ is_word fl
  | Store8 va b => is_user va /\ is_byte b
  | Interrupted v e _ => (v = 14 \/ 32 <= v) /\ v < 256
  | SystemCall _ => ~ (gpr c RAX = SYS_WRITEV /\ bad_fd (gpr c RDI) = false /\ as_isize (gpr c RDX) < 0)
  end.

(** [exit] and [exit_group]. *)
Definition exits (ev : Event) (c : Cpu) : bool :=
  match ev with
  | SystemCall _ => is_exit (call_args c)
  | _ => false
  end.

Inductive allowed_run : list Event -> World D -> Prop :=
| allowed_nil w : allowed_run [] w
| allowed_cons ev evs w : allowed ev (w_cpu w) -> exits ev (w_cpu w) = false ->
    (forall w', step ev w = Ret w' -> allowed_run evs w') -> allowed_run (ev :: evs) w.

(** What the program observes. *)
Definition same_context (c c' : Cpu) : Prop :=
  c_rip c' = c_rip c /\ c_rflags c' = c_rflags c /\ c_cs c' = c_cs c /\ c_ss c' = c_ss c /\ gs_base c' = gs_base c.

Definition same_memory (w w' : World D) : Prop :=
  forall sid va b, user_byte (pf_sys (w_pf w')) sid va b <-> user_byte (pf_sys (w_pf w)) sid va b.

Definition console_of (w : World D) : list Z := k_console (ext (pf_sys (w_pf w))).

(** The program may write to [va]. *)
Definition writable (s : KS) (sid va : Z) : Prop :=
  exists sp m, spaces (k_mem (ext s)) !! sid = Some sp /\ m ∈ mappings sp /\ map_covers m va /\
    attrs_contains (m_attrs m) ATTR_WRITE = true.

Definition effect (ev : Event) (sid : Z) (w w' : World D) : Prop :=
  let c := w_cpu w in
  let c' := w_cpu w' in
  match ev with
  | Compute g ip fl => (forall r, gpr c' r = g r) /\ c_rip c' = ip /\ w_pf w' = w_pf w
  | Store8 va b => c' = c /\ console_of w' = console_of w /\
      (exists pa, forall x, x <> pa -> platform_mem (w_pf w') x = platform_mem (w_pf w) x) /\
      (writable (pf_sys (w_pf w)) sid va -> user_byte (pf_sys (w_pf w')) sid va b)
  | Interrupted v e _ =>
      (forall r, gpr c' r = gpr c r) /\ same_context c c' /\ fs_base_reg c' = fs_base_reg c /\ same_memory w w' /\
      console_of w' = console_of w /\ w_ticks w' = (if v =? 32 then (w_ticks w + 1) mod 2 ^ 64 else w_ticks w)
  | SystemCall _ =>
      exists res a out, syscall_effect FTL_LOG_PREFIX (pf_sys (w_pf w)) sid (call_args c) (call_context c) res a out /\
        gpr c' RAX = as_usize (match res with Ok v => v | Err e => to_retval e end) /\
        gpr c' RCX = c_rip c /\ gpr c' R11 = c_rflags c /\
        (forall r, r <> RAX -> r <> RCX -> r <> R11 -> gpr c' r = gpr c r) /\ same_context c c' /\
        fs_base_reg c' = fsbase a /\ same_memory w w' /\
        console_of w' = console_of w ++ out /\ w_ticks w' = w_ticks w
  end.

(** * Lemmas *)

Lemma thread_of_words_ok a : thread_of_words (thread_words a) = Some a.
Proof. by destruct a. Qed.

Lemma saved_context t c : runs_thread t c -> saved t c = context_of c.
Proof. intros [_ _ Hcs Hss Hgs Hfs]. unfold saved, context_of. by rewrite Hcs, Hss, Hgs, Hfs. Qed.

(** The entry code writes to the thread alone. *)
Lemma save_context_spec own run (s : KS) c p t a :
  @sys_inv L _ lx_ext own run s -> current_ref s = [p] -> thread_at s p t -> words c = thread_words a ->
  exists s', save_context c s = Ret s' /\ @sys_inv L _ lx_ext own run s' /\ thread_at s' p (with_arch t a) /\
    current s' = current s /\ runqueue s' = runqueue s /\ ext s' = ext s /\ total_refs own s' = total_refs own s.
Proof.
  intros Hi Hc Ht Hw. unfold current_ref in Hc. destruct (current s) as [raw|] eqn:Ec; [|done]. injection Hc as Hp.
  destruct (id Ht) as [n En]. unfold save_context. rewrite Ec, Hw, thread_of_words_ok, Hp. cbv zeta.
  rewrite (thread_ref_run s p t Ht). cbn [obind]. rewrite (thread_put_run s p n t _ En). cbn [obind].
  eexists. split; [reflexivity|]. split; [|split; [apply thread_at_put; by left|]].
  - apply (@sys_inv_put_here _ _ lx_ext own run s p n t); try done; [|by left].
    by apply (si_upcalls _ _ _ Hi p t).
  - split; [done|]. split; [done|]. split; [done|]. by apply (total_refs_put own s p n t).
Qed.

Context (Hoff : 0 <= value_offset ThreadType).

(** [enter] loads the context of the current thread. *)
Lemma leave_kernel_spec own run (s : KS) v lf c p t :
  @sys_inv L _ lx_ext own run s -> current_ref s = [p] -> thread_at s p t ->
  exists c', leave_kernel v lf c s = Ret c' /\ runs_thread (t_arch t) c' /\ (forall r, gpr c' r = saved_gpr (t_arch t) r) /\
    c_rip c' = rip (t_arch t) /\ c_rflags c' = rflags (t_arch t) /\ kernel_gs_base c' = gs_base c /\
    kernel_rsp c' = cv_kernel_rsp v /\ current s = Some (cur c') /\ sref_from_raw ThreadType (cur c') = p.
Proof.
  intros Hi Hc Ht. unfold current_ref in Hc. destruct (current s) as [raw|] eqn:Ec; [|done]. injection Hc as Hp.
  unfold leave_kernel, load_context. rewrite Ec, Hp, (thread_ref_run s p t Ht). cbn [obind].
  set (c1 := mkCpu _ _ _ _ _ _ _ _ _ _ _ _ _).
  destruct (enter_spec (t_arch t) c1 eq_refl) as (c' & E & Hg & Hip & Hcs & Hfl & Hss & Hgb & Hfb & Hk & Hw & Hcur & Hr).
  { cbn [c1 cur]. unfold sref_from_raw in Hp. destruct (si_ext _ _ _ Hi) as [[_ Hl] _]. destruct Ht as [n En].
    pose proof (lk_nonnull _ _ Hl p _ En). lia. }
  cbn [c1 cur gs_base words kernel_rsp] in *. exists c'. rewrite E, Hcur. split; [done|]. split; [|done].
  split; try done. rewrite Hcur. unfold sref_from_raw in Hp. destruct (si_ext _ _ _ Hi) as [[_ Hl] _]. destruct Ht as [n En].
  pose proof (lk_nonnull _ _ Hl p _ En). lia.
Qed.

(** The scheduler with one thread. *)
Lemma return_to_only own (s : KS) p t :
  @sys_inv L _ lx_ext own (current_ref s) s -> current_room s -> current_ref s ++ runqueue s = [p] ->
  thread_at s p t -> t_state t = Runnable ->
  exists s', return_to_user true s = Ret (p, s') /\ @sys_inv L _ lx_ext own [p] s' /\ current_ref s' = [p] /\
    runqueue s' = [] /\ thread_at s' p t /\ ext s' = ext s /\ total_refs own s' <= total_refs own s /\ in_space s' t.
Proof.
  intros Hi Hroom Hq Ht Hst.
  destruct (lx_return own s p t Hi Hroom ltac:(rewrite Hq; by left) Ht Hst)
    as (r & tr & s' & sk & E & Eq & Hi' & Hc' & _ & Ht' & Htr & Hx & Hr & Hsp).
  rewrite Hq in Eq. destruct sk as [|x sk]; [|by destruct sk]. injection Eq as <- Eq.
  pose proof (thread_at_inj s' p _ _ Ht' Htr) as <-. rewrite Hc' in Hi'. by exists s'.
Qed.

Definition context_words (a : ArchThread) : Prop := (forall r, is_word (saved_gpr a r)) /\ is_word (rip a) /\ is_word (rflags a).

(** The kernel's state when it is about to leave. *)
Record leaving (p : Z) (t : Thread) (s : KS) : Prop := mkLeaving {
  lv_inv : @sys_inv L _ lx_ext (k_issued (ext s)) [p] s;
  lv_current : current_ref s = [p];
  lv_queue : runqueue s = [];
  lv_thread : thread_at s p t;
  lv_state : t_state t = Runnable /\ in_upcalls t = 0;
  lv_space : in_space s t;
  lv_refs : total_refs (k_issued (ext s)) s + 5 < 2 ^ 64;
  lv_words : context_words (t_arch t)
}.

Lemma back_in_user p t (s : KS) pf d ticks v lf c :
  leaving p t s -> ready pf (gs_base c) v ->
  exists c', leave_kernel v lf c s = Ret c' /\ user_mode p t (mkWorld c' (with_sys pf s d) ticks) /\
    context_of c' = t_arch t.
Proof.
  intros [Hi Hc Hq Ht Hst Hsp Hr (Hw1 & Hw2 & Hw3)] [R1 R2 R3 R4].
  destruct (leave_kernel_spec _ _ s v lf c p t Hi Hc Ht) as (c' & E & Hrun & Hg & Hip & Hfl & Hgs & Hrsp & Hcur & Hraw).
  exists c'. split; [done|]. split.
  - split; cbn [w_cpu w_pf with_sys pf_sys]; try done.
    + split; [intros r; by rewrite Hg|]. by rewrite Hip, Hfl.
    + exists v. rewrite Hgs. by split.
  - destruct Hrun as [_ _ Hcs Hss Hgb Hfb]. unfold context_of. rewrite !Hg, Hip, Hcs, Hfl, Hss, Hgb, Hfb. by destruct (t_arch t).
Qed.

Lemma user_current p t w : user_mode p t w -> current_ref (pf_sys (w_pf w)) = [p].
Proof. intros Hu. destruct (um_current _ _ _ Hu) as [E <-]. unfold current_ref. by rewrite E. Qed.

(** The kernel after its entry code has saved the context [a]. *)
Lemma enter_kernel p t w c a :
  user_mode p t w -> words c = thread_words a -> gs_base c = kernel_gs_base (w_cpu w) ->
  exists s v, save_context c (pf_sys (w_pf w)) = Ret s /\ cpuvar_of c (w_pf w) = Ret v /\ ready (w_pf w) (gs_base c) v /\
    @sys_inv L _ lx_ext (k_issued (ext s)) [p] s /\ current_ref s = [p] /\ runqueue s = [] /\
    thread_at s p (with_arch t a) /\ ext s = ext (pf_sys (w_pf w)) /\ total_refs (k_issued (ext s)) s + 5 < 2 ^ 64.
Proof.
  intros Hu Hw Hgs. pose proof (user_current p t w Hu) as Hc. pose proof Hu as [Hi _ Hq Ht _ _ Hr _ _ (v & Hv & _)].
  destruct (save_context_spec _ _ _ c p t a Hi Hc Ht Hw) as (s & E & Hi' & Ht' & Hc' & Hq' & Hx & Hr').
  exists s, v. rewrite Hgs, Hx. split; [done|]. split; [unfold cpuvar_of; rewrite Hgs; apply Hv|].
  split; [done|]. split; [done|]. split; [unfold current_ref; by rewrite Hc'|]. split; [congruence|].
  split; [done|]. split; [done|]. by rewrite Hr'.
Qed.

Lemma context_gpr c r : saved_gpr (context_of c) r = gpr c r.
Proof. by destruct r. Qed.

Lemma user_words p t w : user_mode p t w -> context_words (context_of (w_cpu w)).
Proof. intros Hu. destruct (um_words _ _ _ Hu) as (Hg & Hip & Hfl). split; [intros r; by rewrite context_gpr|done]. Qed.

Lemma call_words p t w : user_mode p t w -> context_words (call_context (w_cpu w)).
Proof.
  intros Hu. destruct (um_words _ _ _ Hu) as (Hg & Hip & Hfl). split; [|done]. intros r. unfold call_context.
  rewrite context_gpr. cbn [with_gpr gpr]. unfold set_reg. by repeat case_decide.
Qed.

Lemma same_context_of c c' :
  context_of c' = context_of c -> (forall r, gpr c' r = gpr c r) /\ same_context c c' /\ fs_base_reg c' = fs_base_reg c.
Proof.
  intros E. split; [intros r; by rewrite <- !context_gpr, E|]. unfold context_of in E. injection E as. unfold same_context. by split_and!.
Qed.

Lemma room own (s : KS) run : @sys_inv L _ lx_ext own run s -> total_refs own s + 5 < 2 ^ 64 -> current_room s.
Proof. intros Hi Hr r rc _ Er. pose proof (@counter_le_total _ _ lx_ext _ _ _ _ _ Hi Er). lia. Qed.

Context (Hlayout : layout_ok st) (Hstatics : ki_statics KERNEL_IMAGE = table_statics st).

(** The descriptor tables are in memory and the processor's registers point to
    them, whatever the program does. *)
Lemma user_tables p t w : user_mode p t w -> tables_ok st 0 (platform_tables (w_pf w)).
Proof.
  intros Hu. pose proof Hu as [Hi _ _ _ _ _ _ _ _ (v & [(R1 & R2 & R3) _ _ _] & _)]. apply statics_tables; [done..|].
  intros a bs Hin. destruct (si_ext _ _ _ Hi) as [[Hk _] _]. apply (ks_statics _ _ Hk a bs). by rewrite Hstatics.
Qed.

Lemma interrupt_step p t w v e lf :
  user_mode p t w -> allowed (Interrupted v e lf) (w_cpu w) ->
  exists w' t', take_interrupt v e lf w = Ret w' /\ user_mode p t' w' /\ t_vmspace t' = t_vmspace t /\
    effect (Interrupted v e lf) (t_vmspace t) w w'.
Proof.
  intros Hu [Hv Hv2]. pose proof (um_runs _ _ _ Hu) as Hrun. unfold take_interrupt.
  rewrite (hw_interrupt_ok st Hlayout 0 ltac:(unfold NUM_CPUS_MAX; lia) _ (user_tables p t w Hu) v e (w_cpu w)) by lia.
  set (e' := if pushes_error v then e else 0).
  destruct (interrupt_entry_spec (t_arch t) (w_cpu w) v e' (st_stack st + KERNEL_STACK_SIZE) (st_handlers st + 16 * v) Hrun)
    as (c1 & -> & Hw & _ & Hdi & Hsi & Hgs & _). cbn [obind]. rewrite (saved_context _ _ Hrun) in Hw.
  destruct (enter_kernel p t w c1 _ Hu Hw Hgs) as (s & cv & -> & -> & Hrd & Hi & Hc & Hq & Ht & Hx & Hr). cbn [obind].
  pose proof (rd_apic _ _ _ Hrd) as [Ha1 Ha2]. rewrite Hdi, Hsi. unfold wrap. rewrite Z.mod_small by lia.
  rewrite handle_interrupt_run by (done || lia). unfold on_sys.
  assert (iq_sys (after_vector (cv_local_apic cv) v (mkIrqState s (pf_dev (w_pf w)) (w_ticks w))) = s) as ->
    by (unfold after_vector; by destruct (v =? 32)).
  set (t' := with_arch t _) in *.
  destruct (return_to_only (k_issued (ext s)) s p t') as (y & -> & Hi' & Hc' & Hq' & Ht' & Hx' & Hr' & Hsp);
    [by rewrite Hc|by eapply room|by rewrite Hc, Hq|done|apply (um_state _ _ _ Hu)|]. cbn [obind iq_sys iq_dev iq_ticks].
  assert (leaving p t' y) as Hlv.
  { split; try done; [by rewrite Hx'|apply (um_state _ _ _ Hu)|rewrite Hx'; lia|exact (user_words p t w Hu)]. }
  set (q := after_vector _ _ _).
  destruct (back_in_user p t' y (w_pf w) (iq_dev q) (iq_ticks q) cv lf c1 Hlv Hrd) as (c' & -> & Hu' & Hctx). cbn [obind].
  eexists _, t'. split; [reflexivity|]. split; [exact Hu'|]. split; [done|].
  destruct (same_context_of (w_cpu w) c' Hctx) as (Hg & Hs & Hf). cbn [effect w_cpu w_pf w_ticks]. split; [done|]. split; [done|].
  split; [done|]. unfold same_memory, console_of, user_byte. cbn [w_pf with_sys pf_sys]. rewrite Hx', Hx. split; [done|]. split; [done|].
  unfold q, after_vector. by destruct (v =? 32).
Qed.

(** A system call changes the result register and at most the FS base. *)
Lemma sysret_context prefix (s : KS) sid a res a1 a2 out v :
  syscall_effect prefix s sid (args_of a) a res a1 out -> arch_write_context a1 KindSysret (of_sysret (mkSysret v)) = Ret a2 ->
  rax a2 = v /\ (forall r, r <> RAX -> saved_gpr a2 r = saved_gpr a r) /\ rip a2 = rip a /\ rflags a2 = rflags a /\
  cs a2 = cs a /\ ss a2 = ss a /\ gsbase a2 = gsbase a /\ fsbase a2 = fsbase a1.
Proof.
  intros He [= <-].
  assert (a1 = a \/ exists b, arch_write_context a KindFsbase (of_fsbase (mkFsBase b)) = Ret a1) as Ha.
  { unfold syscall_effect in He. repeat case_match; destruct_and?; eauto. }
  destruct Ha as [->|[b [= <-]]]; cbn; (split; [done|]); (split; [by intros []|done]).
Qed.

Context (Hreserve : forall st, try_reserve st = true).

Lemma call_ready p t w lf :
  user_mode p t w -> allowed (SystemCall lf) (w_cpu w) -> syscall_ready (with_arch t (call_context (w_cpu w))).
Proof.
  intros Hu Hal. destruct (um_words _ _ _ Hu) as (Hg & _). unfold syscall_ready. cbn [t_arch with_arch].
  repeat (split; [apply Hg|]). exact Hal.
Qed.

Lemma syscall_step p t w lf :
  user_mode p t w -> allowed (SystemCall lf) (w_cpu w) ->
  if is_exit (call_args (w_cpu w)) then take_syscall lf w = Panic else
  exists w' t', take_syscall lf w = Ret w' /\ user_mode p t' w' /\ t_vmspace t' = t_vmspace t /\
    effect (SystemCall lf) (t_vmspace t) w w'.
Proof.
  intros Hu Hal. pose proof (um_runs _ _ _ Hu) as Hrun. destruct (um_state _ _ _ Hu) as [Hst Hn]. unfold take_syscall.
  destruct (syscall_handler_spec (t_arch t) (w_cpu w) handler SYSCALL_FMASK Hrun) as (c1 & -> & Hw & _ & _ & Hgs & _).
  cbn [obind]. rewrite saved_context in Hw by (destruct Hrun; by split). fold (call_context (w_cpu w)) in Hw.
  destruct (enter_kernel p t w c1 _ Hu Hw Hgs) as (s & cv & -> & -> & Hrd & Hi & Hc & Hq & Ht & Hx & Hr). cbn [obind].
  pose proof (call_ready p t w lf Hu Hal) as Hready. set (t1 := with_arch t _) in *.
  destruct (is_exit (call_args (w_cpu w))) eqn:Hexit.
  { destruct (linux_exit_ends galloc try_reserve FTL_LOG_PREFIX depth s p t1) as (s1 & -> & Hi1 & Hc1 & _ & Hq1 & _);
      [exact Hreserve|exact Hi|exact Hc|exact Ht|exact Hst|exact Hn|exact Hready|exact Hexit|exact Hr|].
    rewrite nothing_runs; [done|exact Hi1|congruence|done]. }
  destruct (lx_served galloc try_reserve FTL_LOG_PREFIX depth s p t1)
    as (s1 & out & res & a1 & a2 & -> & Hi1 & Hc1 & Hq1 & Ht1 & Hr1 & Hmem & Hcon & He & Ha);
    [exact Hreserve|exact Hi|exact Hc|exact Ht|exact Hst|by cbn; rewrite Hn|exact Hready|exact Hexit|exact Hr|].
  set (t2 := set_mutable _ Runnable _) in Ht1.
  assert (current_ref s1 = []) as Hcr by (unfold current_ref; by rewrite Hc1).
  destruct (return_to_only (k_issued (ext s1)) s1 p t2) as (y & -> & Hi' & Hc' & Hq' & Ht' & Hx' & Hr' & Hsp);
    [by rewrite Hcr|unfold current_room; rewrite Hcr; set_solver|by rewrite Hcr, Hq1, Hq|done|done|]. cbn [obind].
  pose proof (sysret_context _ _ _ _ _ _ _ _ _ He Ha) as (S1 & S2 & S3 & S4 & S5 & S6 & S7 & S8).
  assert (leaving p t2 y) as Hlv.
  { split; try done; [by rewrite Hx'|rewrite Hx'; lia|]. destruct (call_words p t w Hu) as (Hg & Hip & Hfl). unfold context_words. cbn [t2 t_arch set_mutable with_arch].
    rewrite S3, S4. split; [|done]. intros r. destruct (decide (r = RAX)) as [->|Hne]; [cbn [saved_gpr]; rewrite S1; by apply Z.mod_pos_bound|].
    rewrite S2 by done. apply Hg. }
  destruct (back_in_user p t2 y (w_pf w) (pf_dev (w_pf w)) (w_ticks w) cv lf c1 Hlv Hrd) as (c' & -> & Hu' & Hctx). cbn [obind].
  eexists _, t2. split; [reflexivity|]. split; [exact Hu'|]. split; [done|]. cbn [effect w_cpu w_pf w_ticks].
  change (t_arch t2) with a2 in Hctx.
  assert (forall r, gpr c' r = saved_gpr a2 r) as Hg by (intros r; by rewrite <- Hctx, context_gpr).
  exists res, a1, out. split.
  { by eapply syscall_effect_ext; [exact Hx|exact He]. }
  rewrite !Hg, (S2 RCX), (S2 R11) by done. split; [exact S1|]. split; [done|]. split; [done|].
  split; [intros r N1 N2 N3; rewrite Hg, S2 by done; by destruct r|].
  split; [rewrite <- Hctx in S3, S4, S5, S6, S7; by split_and!|]. split; [by rewrite <- Hctx in S8|].
  unfold same_memory, console_of. cbn [w_pf with_sys pf_sys]. split; [|split; [|done]].
  - intros sid va b. unfold user_byte in *. rewrite Hx', <- Hx. apply Hmem.
  - by rewrite Hx', Hcon, Hx.
Qed.

(** ** Stores by the program *)

(** Where the processor lets user code write: inside a frame that holds neither
    page tables nor the kernel's statics, and that is in use. *)
Lemma user_access (bp : KernelImage) (k : KState Phys) sid sp va tr :
  ks_inv bp k -> spaces k !! sid = Some sp -> is_user va -> translate (kram k) (root_of sp) va = Some tr ->
  exists p, user_frame bp k p /\ in_block p MIN_PAGE_SIZE (tr_paddr tr).
Proof.
  intros Hk Hs Hu E. rewrite (translate_user _ _ _ _ _ (ks_pt _ _ Hk sid sp Hs) Hu) in E.
  destruct (leaf _ _ _ _) as [e|] eqn:El; [|done]. injection E as <-.
  destruct (ks_leaves _ _ Hk sid sp va e Hs Hu El) as (p & attrs & Hf & Hat & ->). exists p. split; [done|].
  destruct Hf as [(Ha & Hp0 & Hp1 & _) _]. unfold user_pte, attrs_as_raw.
  rewrite leaf_translation_new; [|done|unfold DIRECT_MAP_SIZE, GIGA_PAGE_SIZE, MIN_PAGE_SIZE in *; lia|done].
  unfold in_block. cbn [tr_paddr]. unfold MIN_PAGE_SIZE. pose proof (Z.mod_pos_bound va 4096 ltac:(lia)). lia.
Qed.

(** The byte a writable mapping shows is the one that the processor reaches. *)
Lemma writable_access (bp : KernelImage) (k : KState Phys) sid sp m va :
  ks_inv bp k -> spaces k !! sid = Some sp -> m ∈ mappings sp -> map_covers m va ->
  is_user va /\ exists tr, translate (kram k) (root_of sp) va = Some tr /\ tr_user tr = true /\
    tr_write tr = attrs_contains (m_attrs m) ATTR_WRITE /\
    kram k (tr_paddr tr) = content (vm k) (m_vmarea m) (va - m_start m).
Proof.
  intros Hk Hs Hm Hc. destruct (ks_maps _ _ Hk sid sp m Hs Hm) as [(H1 & H2 & H3) Hat (a & Ha & Hend & Hpm)].
  unfold map_covers in Hc. split; [unfold is_user; lia|].
  destruct (mapped_translation bp k sid sp (m_vmarea m) a (m_attrs m) (m_start m) (va - m_start m)) as (tr & E & Hr);
    [done..|lia|done|lia|done|done|lia|]. exists tr. by replace (m_start m + (va - m_start m)) with va in E by lia.
Qed.

Definition store_mem (k : KState Phys) (pa b : Z) : KState Phys :=
  mkKState (mkVmState (set_ram (mem_write (kram k) pa [b]) (machine (vm k))) (areas (vm k))) (spaces k).

Lemma store_mem_ok (bp : KernelImage) (k : KState Phys) p pa b :
  ks_inv bp k -> user_frame bp k p -> in_block p MIN_PAGE_SIZE pa -> is_byte b ->
  ks_inv bp (store_mem k pa b) /\
  forall sid sp va, spaces k !! sid = Some sp -> is_user va ->
    translate (kram (store_mem k pa b)) (root_of sp) va = translate (kram k) (root_of sp) va.
Proof.
  intros Hk [_ Hf] Hpa Hb. destruct (Hf pa Hpa) as [Hfix Htab]. pose proof (ks_vm _ _ Hk) as Hvm.
  assert (forall x, x <> pa -> mem_write (kram k) pa [b] x = kram k x) as Hout
    by (intros x Hx; apply mem_write_out; cbn [length]; lia).
  destruct (stable_step bp k (vm (store_mem k pa b)) Hk) as [Hk' Hl].
  - apply vm_inv_machine; [done|apply write_inv; [apply Hvm|by apply Forall_singleton]|]. intros x. apply avail_set_ram.
  - constructor; try done. by left.
  - intros x Hx. cbn. apply Hout. by intros ->.
  - intros sid sp x Hs Hx. cbn. apply Hout. intros ->. by apply (Htab sid sp).
  - split; [exact Hk'|]. intros sid sp va Hs Hu. apply (translate_leaf bp k (store_mem k pa b) sid sp va); try done.
    + by exists sp.
    + by apply (Hl sid).
Qed.

(** User mode is kept by a change of memory that keeps the memory's invariant. *)
Lemma user_mode_mem p t w (k' : KState Phys) :
  let y := pf_sys (w_pf w) in
  user_mode p t w -> ks_inv KERNEL_IMAGE k' -> spaces k' = spaces (k_mem (ext y)) -> areas (vm k') = areas (vm (k_mem (ext y))) ->
  user_mode p t (mkWorld (w_cpu w) (with_sys (w_pf w) (set_ext y (set_mem (ext y) k')) (pf_dev (w_pf w))) (w_ticks w)).
Proof.
  intros y [Hi Hcur Hq Ht Hst (sp & Hs & Hc3) Hr Hrun Hw Hrd] Hk Es Ea.
  split; cbn [w_cpu w_pf with_sys pf_sys]; try done.
  - destruct Hi as [I1 I2 I3 I4 I5 I6 I7 I8 [[_ Hl] Hlx]]. constructor; try done. split; [split; [done|]|].
    + apply (linked_same _ (k_mem (ext y))); [done..|]. cbn. by rewrite Ea.
    + destruct Hlx. by constructor.
  - exists sp. cbn. by rewrite Es.
  - destruct Hrd as (v & [R1 R2 R3 R4] & Hv). exists v. by split.
Qed.

(** The processor permits a write where a mapping does. *)
Lemma writable_permitted p t w va :
  user_mode p t w -> writable (pf_sys (w_pf w)) (t_vmspace t) va ->
  exists tr, translate (kram (k_mem (ext (pf_sys (w_pf w))))) (cr3_reg (pf_sys (w_pf w))) va = Some tr /\ tr_user tr && tr_write tr = true.
Proof.
  intros Hu (sp & m & Hs & Hm & Hc & Ha). destruct (si_ext _ _ _ (um_inv _ _ _ Hu)) as [[Hk _] _].
  destruct (um_space _ _ _ Hu) as (sp' & Hs' & ->). assert (sp' = sp) as -> by congruence.
  destruct (writable_access _ _ _ _ _ _ Hk Hs Hm Hc) as (_ & tr & E & H1 & H2 & _). exists tr. by rewrite H1, H2.
Qed.

(** After the store the mapping shows the byte. *)
Lemma stored_byte p t w va b tr :
  let y := pf_sys (w_pf w) in
  let k' := store_mem (k_mem (ext y)) (tr_paddr tr) b in
  user_mode p t w -> is_user va -> translate (kram (k_mem (ext y))) (cr3_reg y) va = Some tr -> ks_inv KERNEL_IMAGE k' ->
  (forall sid sp va, spaces (k_mem (ext y)) !! sid = Some sp -> is_user va ->
     translate (kram k') (root_of sp) va = translate (kram (k_mem (ext y))) (root_of sp) va) ->
  writable y (t_vmspace t) va -> user_byte (set_ext y (set_mem (ext y) k')) (t_vmspace t) va b.
Proof.
  intros y k' Hu Hva E Hk' Htr (sp & m & Hs & Hm & Hc & _).
  destruct (um_space _ _ _ Hu) as (sp' & Hs' & Hc3). fold y in Hs', Hc3. assert (sp' = sp) as -> by congruence.
  destruct (writable_access KERNEL_IMAGE k' (t_vmspace t) sp m va Hk' Hs Hm Hc) as (_ & tr' & E' & _ & _ & Hb).
  rewrite (Htr (t_vmspace t) sp va Hs Hva), <- Hc3, E in E'. injection E' as <-.
  exists sp. split; [done|]. exists m. split; [done|]. split; [done|]. cbn [ext set_ext k_mem set_mem]. rewrite <- Hb.
  change (kram k' (tr_paddr tr)) with (mem_write (kram (k_mem (ext y))) (tr_paddr tr) [b] (tr_paddr tr)).
  rewrite mem_write_eq. cbn [length]. case_Z; [|lia]. by rewrite Z.sub_diag.
Qed.

Lemma store_step p t w va b :
  user_mode p t w -> allowed (Store8 va b) (w_cpu w) ->
  user_mode p t (user_store va b w) /\ effect (Store8 va b) (t_vmspace t) w (user_store va b w).
Proof.
  intros Hu [Hva Hb]. pose proof (writable_permitted p t w va Hu) as Hperm.
  destruct (um_space _ _ _ Hu) as (sp & Hs & Hc3). destruct (si_ext _ _ _ (um_inv _ _ _ Hu)) as [[Hk _] _].
  unfold user_store. set (y := pf_sys (w_pf w)) in *. change (phys_ram _) with (kram (k_mem (ext y))).
  destruct (translate (kram (k_mem (ext y))) (cr3_reg y) va) as [tr|] eqn:E.
  2: { split; [done|]. split; [done|]. split; [done|]. split; [by exists 0|]. intros (? & ? & _)%Hperm. done. }
  destruct (tr_user tr && tr_write tr) eqn:Hp.
  2: { split; [done|]. split; [done|]. split; [done|]. split; [by exists 0|]. intros (? & [= <-] & ?)%Hperm. congruence. }
  pose proof E as E'. rewrite Hc3 in E'. destruct (user_access _ _ _ _ _ _ Hk Hs Hva E') as (f & Hf & Hin).
  destruct (store_mem_ok _ _ f (tr_paddr tr) b Hk Hf Hin Hb) as [Hk' Htr].
  change (with_machine y _) with (set_ext y (set_mem (ext y) (store_mem (k_mem (ext y)) (tr_paddr tr) b))).
  split; [by apply (user_mode_mem p t w)|]. split; [done|]. split; [done|].
  split; [exists (tr_paddr tr); intros x Hx; apply mem_write_out; cbn [length]; lia|].
  intros Hwr. by apply (stored_byte p t w va b tr).
Qed.

(** ** Runs *)

Lemma step_spec p t ev w :
  user_mode p t w -> allowed ev (w_cpu w) ->
  if exits ev (w_cpu w) then step ev w = Panic else
  exists w' t', step ev w = Ret w' /\ user_mode p t' w' /\ t_vmspace t' = t_vmspace t /\ effect ev (t_vmspace t) w w'.
Proof.
  intros Hu Hal. destruct ev as [g ip fl|va b|v e lf|lf]; cbn [exits step].
  - eexists _, t. split; [reflexivity|]. split; [|done]. destruct Hu as [Hi Hcur Hq Ht Hst Hsp Hr [W1 W2 W3 W4 W5 W6] _ Hrd]. by split.
  - destruct (store_step p t w va b Hu Hal) as [Hu' He]. by eexists _, t.
  - by apply interrupt_step.
  - by apply syscall_step.
Qed.

Lemma run_spec p evs : forall t w, user_mode p t w -> allowed_run evs w ->
  exists w' t', run evs w = Ret w' /\ user_mode p t' w' /\ t_vmspace t' = t_vmspace t.
Proof.
  induction evs as [|ev evs IH]; intros t w Hu Hal; inversion Hal as [|? ? ? Ha He Hn]; subst; [by exists w, t|].
  pose proof (step_spec p t ev w Hu Ha) as Hs. rewrite He in Hs. destruct Hs as (w1 & t1 & E & Hu1 & Hv1 & _).
  destruct (IH t1 w1 Hu1 (Hn w1 E)) as (w' & t' & E' & Hu' & Hv'). exists w', t'. cbn [run]. rewrite E. cbn [obind]. by rewrite Hv', Hv1.
Qed.

(** The state in which [boot] leaves the kernel. *)
Lemma program_leaves paddr prog elf p (s : KS) :
  in_program prog elf p s -> program_ok paddr prog elf ->
  exists t, leaving p t s /\ rip (t_arch t) = e_entry (ehdr elf) /\ cs (t_arch t) = GDT_USER_CS /\ ss (t_arch t) = GDT_USER_DS /\
    rflags (t_arch t) = 514 /\ STACK_BASE <= rsp (t_arch t) < STACK_BASE + STACK_SIZE.
Proof.
  intros (ptr & sid & sp & Hi & Hc & Hq & Ht & Hload & Hr & spc & Hs & Hcr3) Hp. rewrite Hc in Hi.
  destruct (elf_parse_ok _ _ _ _ (po_parse _ _ _ Hp) (po_bytes _ _ _ Hp)) as [Hok _]. pose proof (ok_entry _ Hok) as He.
  destruct Hload as [_ (u & stk & _ & H1 & H2 & Habi & _)].
  assert (sp < STACK_BASE + STACK_SIZE) as H3.
  { pose proof (Nat2Z.is_nonneg (length stk)). destruct stk; [|cbn [length] in *; lia]. by pose proof (abi_argc _ _ _ _ _ _ _ Habi). }
  assert (is_word sp) as H4 by (unfold is_word, STACK_BASE, STACK_SIZE in *; lia).
  exists (mkThread (init_arch (mkInitRegs (e_entry (ehdr elf)) sp)) ptr sid Runnable 0). split; [|by repeat split].
  split; try done; [by exists spc|]. split; [intros []; try done; cbn; unfold is_word; lia|].
  split; [done|]. cbn. unfold is_word. lia.
Qed.

(** Entering the program after [boot]. *)
Lemma program_starts paddr prog elf p pf pin (d : D) s1 lf c ticks `{!IoApicDev D} :
  in_program prog elf p (pf_sys pf) -> program_ok paddr prog elf -> on_platform st cv_base cv_size pin d s1 pf ->
  gs_base c = cpu_gsbase (pf_vars pf) ->
  exists w t, enter_user lf c pf ticks = Ret w /\ user_mode p t w /\ starts_at elf (w_cpu w).
Proof.
  intros Hin Hok [_ Hreg _ (v & Hv & Hrsp & Hla & Hgs')] Hgs.
  destruct (program_leaves paddr prog elf p _ Hin Hok) as (t & Hlv & T1 & T2 & T3 & T4 & T5).
  assert (ready pf (gs_base c) v) as Hrd by (split; try done; rewrite Hgs; by destruct (pf_vars pf)).
  destruct (back_in_user p t (pf_sys pf) pf (pf_dev pf) ticks v lf c Hlv Hrd) as (c' & E & Hu & Hctx).
  exists (mkWorld c' pf ticks), t. unfold enter_user, cpuvar_of. rewrite (rd_cpuvar _ _ _ Hrd). cbn [obind]. rewrite E. split; [done|].
  split; [by destruct pf|]. rewrite <- Hctx in T1, T2, T3, T4, T5. exact (conj T1 (conj T2 (conj T3 (conj T4 T5)))).
Qed.

(** * Properties *)


End System.

Section Runs.
Context {P : Profile} {L : RefLayout} {B : BootPdpt} {D : Type} `{Bus D, !IoApicDev D, !IoApicApart D, !Uart D, !UartLaws D polls}.
Context (galloc : RefStore KObject -> option Z) (try_reserve : RefStore KObject -> bool).
Context (invoke : Upcall -> UpcallArg -> M (Sys (Kernel Phys LxSv)) unit) (FTL_LOG_PREFIX : list Z) (box : LxSv -> option Z).
Abbreviation lx := (lx_entry galloc try_reserve invoke FTL_LOG_PREFIX box).


End Runs.

(** ** Witnesses: the PC of RustBoot.v *)

Section Witnesses.
#[local] Existing Instance dev.
#[local] Existing Instance boot_layout.
#[local] Existing Instance pc_image.
#[local] Existing Instance pc_apart.

Definition example_left : Leftover := mkLeftover (fun _ => 9) 0 2 0 [].
Definition example_kernel_cpu : Cpu := mkCpu (fun _ => 3) 0 8 2 16 (KERNEL_BASE + 0x2a0000) 0 0 0 [] 0 0 [].

(** write(1, 0x400000, 4) *)
Definition write_regs (r : Reg) : Z :=
  match r with RAX => SYS_WRITE | RDI => 1 | RSI => 0x400000 | RDX => 4 | _ => 0 end.
Definition example_events : list Event :=
  [Interrupted 32 0 example_left; Store8 0x400000 104; Compute write_regs 0x400010 514; SystemCall example_left].

Lemma example_events_allowed w :
  allowed_run (D := Pc) example_galloc (fun _ => true) [] 1 pc_statics (KERNEL_BASE + 0x2a0000) 256 (KERNEL_BASE + 0x106000) example_events w.
Proof.
  apply allowed_cons; [split; [right; lia|lia]|reflexivity|]. intros w1 _.
  apply allowed_cons; [cbn [allowed]; unfold is_user, is_byte; lia|reflexivity|]. intros w2 _.
  apply allowed_cons; [split; [intros []; vm_compute; split; congruence|unfold is_word; lia]|reflexivity|]. intros w3 [= <-].
  apply allowed_cons; [by intros [? _]|reflexivity|]. intros w4 _. apply allowed_nil.
Qed.


Lemma pc_user_mode :
  exists p t w, user_mode (D := Pc) pc_statics (KERNEL_BASE + 0x2a0000) 256 p t w /\ w_ticks w = 0.
Proof.
  destruct (boot_reaches_program (UartLaws0 := pc_uart_laws) example_galloc (fun _ => true) (fun _ _ => ret tt) [] example_box example_symbols (fun _ => 5) pc_statics
    (KERNEL_BASE + 0x2a0000) 256 pc_kernel 2 64 (KERNEL_BASE + 0x106000) pc_cpu pc0 (mkIdtr 0 0) 0 0 2 []
    boot_module boot_rams_list boot_entries lx_name example_file 248
    (mkElf example_image_ehdr [example_load; example_dynamic]) 0x8000 hello_elf (mkElf hello_ehdr [hello_phdr])
    example_galloc_fresh example_box_fresh) as (c' & bi & s1 & ph & _ & _ & _ & _ & [[F _]|(p & s & E & Hin & Hop)]).
  - split; try reflexivity; cbn; [lia|]. intros []; lia.
  - reflexivity.
  - exact pc_kernel_loaded.
  - reflexivity.
  - reflexivity.
  - lia.
  - exact pc_handed.
  - exact boot_files.
  - vm_compute. reflexivity.
  - vm_compute. reflexivity.
  - exact boot_image.
  - exact boot_program.
  - exfalso. pose proof pc_starts as Hr. rewrite F in Hr. discriminate.
  - destruct (op_cpuvar _ _ _ _ _ _ _ Hop) as (v & _ & _ & _ & Hgs).
    assert (0 <= value_offset ThreadType) as H0 by discriminate.
    assert (gs_base example_kernel_cpu = cpu_gsbase (pf_vars s)) as Hg by (symmetry; exact Hgs).
    destruct (program_starts pc_statics (KERNEL_BASE + 0x2a0000) 256 H0 0x8000 hello_elf (mkElf hello_ehdr [hello_phdr]) p s 2 pc0 s1
      example_left example_kernel_cpu 0 Hin boot_program Hop Hg) as (w & t & Ew & Hu & _).
    exists p, t, w. split; [exact Hu|]. unfold enter_user in Ew. destruct (cpuvar_of _ _ _ _); [|done..]. cbn [obind] in Ew.
    destruct (leave_kernel _ _ _ _); [|done..]. by injection Ew as <-.
Qed.


End Witnesses.
